(* ===== verification/_CoqProject ===== *)
-Q . S2P
Prelude.v
State.v
Bio.v
Log.v
LogOps.v
LogCrash.v
LogSafety.v
LogTrans.v
Kalloc.v
Spinlock.v
Vm.v
VmTable.v
VmMap.v
VmUser.v
VmCopy.v
Fs.v
Demo.v
Balloc.v
Content.v
Grow.v
Inode.v
Mkfs.v
MkfsImage.v
Writei.v
Trunc.v
ICache.v
Dir.v
Path.v
Pipe.v
Proc.v
File.v
Exec.v
VmExec.v
Sysfile.v
Filewrite.v
Descriptors.v
User.v
Grep.v
Programs.v
Console.v
Keyboard.v
ProcSys.v
ProcInv.v
ProcCalls.v
Sh.v
ShParse.v
Umalloc.v
Usys.v
Usertests.v
