(* ===== verification/Prelude.v ===== *)
(** * Prelude: a verification development of xv6-rs

    xv6-rs is the teaching kernel xv6 with parts of it rewritten in Rust. The
    kernel is kernel/c (C) and kernel/src (Rust); xv6/ has the user programs
    and mkfs. This library models it as functions and proves what they do. A
    file name below is relative to src/.

    ** How the code is modelled

    A C or Rust function is a function of the monad [K S] of this file: it
    takes the globals it uses, a record [S], to [Ok] with a result and new
    globals, or to a [Fault]: a panic or failed assertion ([FPanic]), a wait
    that nobody ends in a run of one process ([FSleep]), or a step without
    meaning in the source language ([FUndef]). [wp m Q s] says that [m] returns
    from [s] with [Q]; [wlp] the same if it returns. Integers are [Z], with the
    wrap-around of their width written out ([u8], [u16], [u32], [s16], [s32]);
    Rust is that of the release profile, where arithmetic wraps. Pointers are
    names: the key of a cached block, an index into a table; where the layout
    of memory matters (Kalloc, Vm, Umalloc, Usys) they are addresses. Code that
    runs on several processors or for several processes is a step relation
    whose steps run those functions.

    ** The parts, from the disk up

    - State: constants and structs of param.h, fs.h, buf.h, stat.h, file.h and
      the globals of the file system.
    - Bio: the disk driver's [rw] and the buffer cache (ide.rs, buf.rs).
    - Log: log.c. LogOps: the block store a transaction sees, as an interface
      for fs.c. LogCrash, LogSafety: a stop between any two sector writes of a
      commit leaves all of a transaction or none ([commit_crash_atomic]);
      recovery may itself be interrupted ([recovery_idempotent]). LogTrans:
      interleaved transactions do not overflow a large enough log
      ([log_space_safe]).
    - Fs: fs.c. Demo: a small concrete disk. Balloc, Content, Grow, Inode,
      Writei, Trunc, ICache, Dir, Path: what its operations do to the bitmap,
      the bytes of files ([readi_content], [writei_content]), the inodes
      ([iput_disposes], [icache_references]), directories ([dirlink_adds]) and
      paths ([namex_walk]).
    - Mkfs, MkfsImage: mkfs.c; the kernel's definitions read back the files of
      the image it makes ([mkfs_image]).
    - Kalloc: kalloc.c, no page is given out twice ([kalloc_exclusive]).
    - Spinlock: spinlock.rs and interrupt.rs at single accesses to memory
      ([spinlock_exclusive]).
    - Vm, VmTable, VmMap, VmUser, VmCopy: vm.rs and kalloc.rs on tables in the
      allocator's pages; a child's memory is a copy of its own
      ([uvm_copy_isolated]).
    - Pipe: pipe.rs is a queue in every interleaving ([pipe_fifo]).
    - File, Sysfile: file.rs, the argument fetching of syscall.rs, sysfile.c.
      Filewrite: a write through all layers ([filewrite_content],
      [filewrite_fileread]). Descriptors: the counts of open files
      ([descriptors_consistent]) and where they fail.
    - Exec: exec.c ([exec_replaces], [exec_stack]), on memory as bytes. VmExec:
      the page tables implement that memory ([vm_refines]).
    - Proc, ProcSys, ProcInv, ProcCalls: proc.c on any number of processors
      ([proc_table_consistent], [no_orphans], [wait_no_lost_wakeup],
      [scheduler_fair], [fork_child]).
    - Console, Keyboard: console.c, keyboard.rs and the input of uart.rs
      ([keyboard_types]).
    - User: programs as trees of system calls, ulib.c and printf.c
      ([printf_format]). Grep, Programs, Sh, ShParse: grep.c
      ([match_language], [grep_prints]), the small programs, sh.c
      ([parsecmd_ends], [parse_print]). Umalloc: umalloc.c and sbrk
      ([heap_safe]).
    - Usys: usys.S, syscall.h and the table of system calls
      ([call_arguments]). Usertests: tests of usertests.c, evaluated on the
      kernel's definitions from an image of mkfs ([usertests_results]).

    The theorems [close_moves_files], [close_unlinked_panics],
    [malloc_never_null] and [uvm_copy_frees_parent] are about defects of the
    code.

    ** Interfaces and assumptions

    [ArrayVec] (File) is the vector of another crate: only what its
    documentation says of the operations used. [Kern] (Proc) is what proc.c
    calls in the rest of the kernel, with any state of it at each step. The
    linker's symbols, the contents of an uninitialised stack buffer, the
    addresses a compiler chooses and the devices' read and write are arguments.
    A sector write is atomic, and memory is sequentially consistent. The
    theorems on the file system are about one call at a time inside its
    transaction; interleaving is in LogTrans, ICache, Pipe, ProcSys, Spinlock.
    [exec_replaces] is about calls that return.

    ** Bounds

    A loop that is not structural takes a number of turns. In the kernel and in
    mkfs the caller computes it from the sizes (blocks or entries of a range,
    length of a path, pages of memory) so that it is more than the loop can
    use, and running out is [FUndef]: a theorem that a call returns also shows
    that the bound is enough. The shell's parser takes four turns for each
    character, enough by [parsecmd_ends]. Loops of user programs that last as
    long as there is input take the bound as an argument, and reaching it is
    [Stuck]. Table sizes are those of param.h.

    ** Not modelled

    - trap.rs, trapasm.rs, trapvec.rs, switch.rs, entry.S, entryother.S,
      initcode.S, the boot loader, most of main.rs: assembly and set-up of the
      machine. lapic.rs, ioapic.rs, mp.rs, picirq.rs, uartinit, and of ide.rs
      the port protocol: device registers.
    - The calls of sysproc.c other than sys_sbrk: wrappers of modelled
      functions, or of the clock, which the trap handler moves.
    - Of usertests.c the tests that fork or measure memory, and bigdir, whose
      evaluation takes too long; forktest.c and stressfs.c: they need processes
      and file system in one state.
    - The allocator of fs.rs, whose exports are commented out, memide.c, which
      is not built, and declarations and wrappers without code of their own
      (log.rs, elf.rs, param.rs, stat.rs, console.rs, sync_hack.rs, headers).
    - get_call_stack of spinlock.rs, for debugging.

    ** This file

    Machine integers, bytes and words in lists, the monad with its rules, the
    tactics and hints, and lemmas on lists that the other files share. *)

From stdpp Require Export base numbers list gmap strings.
From stdpp Require Import tactics.
From Stdlib Require Export ZArith Lia.

#[export] Set Default Goal Selector "!".

Declare Scope xv6_scope.
Delimit Scope xv6_scope with xv6.
#[global] Open Scope Z_scope.
#[global] Open Scope xv6_scope.

(** ** Machine integers

    A w-bit C integer is a [Z] in range; the conversions below are the
    wrap-around of an assignment to an object of that width. *)

Definition u8 (z : Z) : Z := z mod 2 ^ 8.
Definition u16 (z : Z) : Z := z mod 2 ^ 16.
Definition u32 (z : Z) : Z := z mod 2 ^ 32.
Definition s16 (z : Z) : Z := let u := u16 z in if u <? 2 ^ 15 then u else u - 2 ^ 16.
Definition s32 (z : Z) : Z := let u := u32 z in if u <? 2 ^ 31 then u else u - 2 ^ 32.

Lemma u32_small z : 0 ≤ z < 2 ^ 32 → u32 z = z.
Proof. intros H. apply Z.mod_small, H. Qed.

Lemma u32_range z : 0 ≤ u32 z < 2 ^ 32.
Proof. apply Z.mod_pos_bound. lia. Qed.

Lemma u16_small z : 0 ≤ z < 2 ^ 16 → u16 z = z.
Proof. intros H. apply Z.mod_small, H. Qed.

Lemma u16_range z : 0 ≤ u16 z < 2 ^ 16.
Proof. apply Z.mod_pos_bound. lia. Qed.

Lemma s32_small z : - 2 ^ 31 ≤ z < 2 ^ 31 → s32 z = z.
Proof.
  intros H. unfold s32, u32.
  destruct (decide (0 ≤ z)).
  - rewrite Z.mod_small by lia. destruct (Z.ltb_spec z (2 ^ 31)); lia.
  - replace (z mod 2 ^ 32) with (z + 2 ^ 32).
    + destruct (Z.ltb_spec (z + 2 ^ 32) (2 ^ 31)); lia.
    + apply (Z.mod_unique _ _ (-1)); lia.
Qed.

Lemma s16_small z : - 2 ^ 15 ≤ z < 2 ^ 15 → s16 z = z.
Proof.
  intros H. unfold s16, u16.
  destruct (decide (0 ≤ z)).
  - rewrite Z.mod_small by lia. destruct (Z.ltb_spec z (2 ^ 15)); lia.
  - replace (z mod 2 ^ 16) with (z + 2 ^ 16).
    + destruct (Z.ltb_spec (z + 2 ^ 16) (2 ^ 15)); lia.
    + apply (Z.mod_unique _ _ (-1)); lia.
Qed.

Lemma s32_u32 z : s32 (u32 z) = s32 z.
Proof. unfold s32, u32. by rewrite Z.mod_mod by lia. Qed.

Lemma s16_u16 z : s16 (u16 z) = s16 z.
Proof. unfold s16, u16. by rewrite Z.mod_mod by lia. Qed.

(** ** Outcomes of kernel code

    A kernel function either returns, calls [panic], goes to sleep on a
    channel that only another process can wake, or runs into behaviour that
    the language leaves undefined (an index outside an array). *)

Inductive fault :=
  | FPanic (msg : string)
  | FSleep (chan : string)
  | FUndef (msg : string).

#[global] Instance fault_eq_dec : EqDecision fault.
Proof. solve_decision. Defined.

Inductive outcome (S A : Type) :=
  | Ok (a : A) (s : S)
  | Fault (f : fault).
Arguments Ok {S A}.
Arguments Fault {S A}.

(** The state-and-fault monad: code over the state [S] returning an [A]. *)
Definition K (S A : Type) : Type := S → outcome S A.

#[global] Instance K_ret S : MRet (K S) := λ A a s, Ok a s.
#[global] Instance K_bind S : MBind (K S) := λ A B k m s,
  match m s with
  | Ok a s' => k a s'
  | Fault f => Fault f
  end.

Definition get {S} : K S S := λ s, Ok s s.
Definition gets {S A} (f : S → A) : K S A := λ s, Ok (f s) s.
Definition put {S} (s' : S) : K S unit := λ _, Ok tt s'.
Definition modify {S} (f : S → S) : K S unit := λ s, Ok tt (f s).
Definition fail {S A} (f : fault) : K S A := λ _, Fault f.
Definition panic {S A} (msg : string) : K S A := fail (FPanic msg).
Definition undef {S A} (msg : string) : K S A := fail (FUndef msg).
Definition when {S} (b : bool) (m : K S unit) : K S unit := if b then m else mret tt.

Definition of_option {S A} (f : fault) (o : option A) : K S A :=
  match o with Some a => mret a | None => fail f end.

(** [for (x in l) body(x)] *)
Fixpoint for_each {S A} (l : list A) (body : A → K S unit) : K S unit :=
  match l with
  | [] => mret tt
  | x :: l => body x ;; for_each l body
  end.

(** ** Total-correctness weakest precondition

    [wp m Q s]: run from [s], [m] returns (no panic, no sleep, nothing
    undefined) and its result and final state satisfy [Q]. *)

Definition wp {S A} (m : K S A) (Q : A → S → Prop) (s : S) : Prop :=
  match m s with Ok a s' => Q a s' | Fault _ => False end.

Section wp_rules.
Context {S : Type}.
Implicit Types s : S.

Lemma wp_ret {A} (a : A) Q s : Q a s → wp (mret a) Q s.
Proof. done. Qed.

Lemma wp_bind {A B} (m : K S A) (k : A → K S B) Q s :
  wp m (λ a s', wp (k a) Q s') s → wp (m ≫= k) Q s.
Proof.
  unfold wp, mbind, K_bind. destruct (m s); [done|done].
Qed.

Lemma wp_mono {A} (m : K S A) (Q Q' : A → S → Prop) s :
  wp m Q s → (∀ a s', Q a s' → Q' a s') → wp m Q' s.
Proof. unfold wp. destruct (m s); eauto. Qed.

Lemma wp_gets {A} (f : S → A) Q s : Q (f s) s → wp (gets f) Q s.
Proof. done. Qed.

Lemma wp_modify (f : S → S) Q s : Q tt (f s) → wp (modify f) Q s.
Proof. done. Qed.

Lemma wp_when (b : bool) (m : K S unit) Q s :
  (b = true → wp m Q s) → (b = false → Q tt s) → wp (when b m) Q s.
Proof. destruct b; intros H1 H2; [by apply H1|by apply H2]. Qed.

Lemma wp_run {A} (m : K S A) Q s :
  wp m Q s ↔ ∃ a s', m s = Ok a s' ∧ Q a s'.
Proof.
  unfold wp. destruct (m s) as [a s'|f].
  - split; [by eauto|]. by intros (? & ? & [= -> ->] & ?).
  - split; [done|]. by intros (? & ? & ? & ?).
Qed.

(** A step that is known to return. *)
Lemma mbind_Ok {A B} (m : K S A) (k : A → K S B) s a s1 : m s = Ok a s1 → (m ≫= k) s = k a s1.
Proof. intros Hm. unfold mbind, K_bind. by rewrite Hm. Qed.

Lemma mbind_Fault {A B} (m : K S A) (k : A → K S B) s f : m s = Fault f → (m ≫= k) s = Fault f.
Proof. intros Hm. unfold mbind, K_bind. by rewrite Hm. Qed.

Lemma wp_step {A B} (m : K S A) (k : A → K S B) Q s a s1 : m s = Ok a s1 → wp (k a) Q s1 → wp (m ≫= k) Q s.
Proof. intros Hm Hk. unfold wp. by rewrite (mbind_Ok _ _ _ _ _ Hm). Qed.

(** The loop rule: an invariant indexed by the iterations already done. *)
Lemma wp_for_each {A} (l : list A) (body : A → K S unit) (I : nat → S → Prop) s Q :
  I 0%nat s →
  (∀ i x s, l !! i = Some x → I i s → wp (body x) (λ _ s', I (1 + i)%nat s') s) →
  (∀ s, I (length l) s → Q tt s) →
  wp (for_each l body) Q s.
Proof.
  revert I s. induction l as [|x l IH]; intros I s HI Hb HQ; simpl.
  - by apply HQ.
  - apply wp_bind. eapply wp_mono.
    + apply (Hb 0%nat x); done.
    + intros [] s' HI'. apply (IH (λ i, I (1 + i)%nat)); [done| |done].
      intros i y s'' Hl. apply Hb. done.
Qed.
End wp_rules.

(** ** Bytes in memory

    A block, a page or a buffer is a list of bytes, each a [Z] in [0, 256). *)

Definition byte_ok (b : Z) : Prop := 0 ≤ b < 256.

#[global] Instance byte_ok_dec b : Decision (byte_ok b).
Proof. unfold byte_ok. apply _. Defined.

(** [memmove(dst + off, src, length src)] inside the object [dst]. *)
Definition splice {A} (off : nat) (src dst : list A) : list A :=
  take off dst ++ src ++ drop (off + length src) dst.

(** A boolean that holds of a whole list. *)
Lemma forallb_elem {A} (f : A → bool) l x : forallb f l = true → x ∈ l → f x = true.
Proof. rewrite forallb_forall. intros H Hx%list_elem_of_In. auto. Qed.

(** [memmove(.., src + off, n)] out of the object [src]. *)
Definition slice {A} (off n : nat) (src : list A) : list A := take n (drop off src).

(** Little-endian encoding, the byte order of the i386 and of the disk. *)
Fixpoint le_enc (n : nat) (z : Z) : list Z :=
  match n with
  | O => []
  | S n => z mod 256 :: le_enc n (z / 256)
  end.

Fixpoint le_dec (l : list Z) : Z :=
  match l with
  | [] => 0
  | b :: l => b + 256 * le_dec l
  end.

Section splice.
Context {A : Type}.
Implicit Types (src dst : list A) (off n : nat).

Lemma length_splice off src dst :
  (off + length src ≤ length dst)%nat → length (splice off src dst) = length dst.
Proof.
  intros H. unfold splice. rewrite !length_app, length_take, length_drop. lia.
Qed.

Lemma length_slice off n src :
  (off + n ≤ length src)%nat → length (slice off n src) = n.
Proof. intros H. unfold slice. rewrite length_take, length_drop. lia. Qed.

Lemma slice_splice_eq off n src dst :
  (off + length src ≤ length dst)%nat → n = length src →
  slice off n (splice off src dst) = src.
Proof.
  intros H ->. unfold slice, splice.
  rewrite drop_app_ge by (rewrite length_take; lia).
  rewrite length_take, Nat.min_l, Nat.sub_diag, drop_0 by lia.
  by rewrite take_app_length.
Qed.

Lemma lookup_splice off src dst i :
  (off + length src ≤ length dst)%nat →
  splice off src dst !! i =
    if decide (off ≤ i < off + length src)%nat then src !! (i - off)%nat else dst !! i.
Proof.
  intros H. unfold splice. case_decide as Hi.
  - rewrite lookup_app_r by (rewrite length_take; lia).
    rewrite length_take, Nat.min_l by lia. by rewrite lookup_app_l by lia.
  - destruct (decide (i < off)%nat).
    + rewrite lookup_app_l by (rewrite length_take; lia). by rewrite lookup_take_lt by lia.
    + rewrite lookup_app_r by (rewrite length_take; lia).
      rewrite length_take, Nat.min_l by lia.
      rewrite lookup_app_r by lia. rewrite lookup_drop. f_equal. lia.
Qed.

Lemma lookup_slice off n src i :
  slice off n src !! i = if decide (i < n)%nat then src !! (off + i)%nat else None.
Proof.
  unfold slice. case_decide.
  - by rewrite lookup_take_lt, lookup_drop by lia.
  - by rewrite lookup_take_ge by lia.
Qed.

Lemma slice_splice_ne off off' n src dst :
  (off + length src ≤ length dst)%nat →
  (off' + n ≤ off ∨ off + length src ≤ off')%nat →
  slice off' n (splice off src dst) = slice off' n dst.
Proof.
  intros H Hd. apply list_eq. intros i. rewrite !lookup_slice. case_decide; [|done].
  rewrite lookup_splice by done. case_decide; [lia|done].
Qed.

Lemma Forall_splice (P : A → Prop) off src dst :
  Forall P src → Forall P dst → Forall P (splice off src dst).
Proof.
  intros Hs Hd. unfold splice. rewrite !Forall_app.
  split_and!; [by apply Forall_take|done|by apply Forall_drop].
Qed.

Lemma Forall_slice (P : A → Prop) off n src : Forall P src → Forall P (slice off n src).
Proof. intros H. by apply Forall_take, Forall_drop. Qed.
End splice.

Lemma length_le_enc n z : length (le_enc n z) = n.
Proof. revert z. induction n as [|n IH]; intros z; simpl; [done|by rewrite IH]. Qed.

Lemma le_enc_bytes n z : Forall byte_ok (le_enc n z).
Proof.
  revert z. induction n as [|n IH]; intros z; simpl; constructor; [|done].
  apply Z.mod_pos_bound. lia.
Qed.

Lemma le_dec_enc n z : le_dec (le_enc n z) = z mod 256 ^ Z.of_nat n.
Proof.
  revert z. induction n as [|n IH]; intros z; simpl le_enc; simpl le_dec.
  - by rewrite Z.mod_1_r.
  - rewrite IH, Nat2Z.inj_succ, Z.pow_succ_r by lia.
    rewrite Z.rem_mul_r by lia. done.
Qed.

Lemma le_dec_range l : Forall byte_ok l → 0 ≤ le_dec l < 256 ^ Z.of_nat (length l).
Proof.
  induction 1 as [|b l Hb _ IH]; simpl; [done|].
  rewrite Nat2Z.inj_succ, Z.pow_succ_r by lia. unfold byte_ok in Hb. lia.
Qed.

Lemma le_enc_dec l n : Forall byte_ok l → n = length l → le_enc n (le_dec l) = l.
Proof.
  intros H ->. induction H as [|b l Hb _ IH]; simpl; [done|].
  unfold byte_ok in Hb. f_equal.
  - rewrite Z.mul_comm, Z.mod_add by lia. by apply Z.mod_small.
  - rewrite Z.mul_comm, Z.div_add by lia. by rewrite Z.div_small, Z.add_0_l.
Qed.

(** Fields of a struct laid out in memory. *)
Definition get_u16 (data : list Z) (off : nat) : Z := le_dec (slice off 2 data).
Definition get_u32 (data : list Z) (off : nat) : Z := le_dec (slice off 4 data).
Definition put_u16 (off : nat) (v : Z) (data : list Z) : list Z := splice off (le_enc 2 v) data.
Definition put_u32 (off : nat) (v : Z) (data : list Z) : list Z := splice off (le_enc 4 v) data.

(** Reading a field back after a store to it, or to another field. *)
Lemma get_put_u32_eq off v data :
  (off + 4 ≤ length data)%nat → get_u32 (put_u32 off v data) off = u32 v.
Proof.
  intros H. unfold get_u32, put_u32.
  rewrite slice_splice_eq by (rewrite ?length_le_enc; lia). by rewrite le_dec_enc.
Qed.

Lemma get_put_u32_ne off off' v data :
  (off + 4 ≤ length data)%nat → (off' + 4 ≤ off ∨ off + 4 ≤ off')%nat →
  get_u32 (put_u32 off v data) off' = get_u32 data off'.
Proof.
  intros H Hd. unfold get_u32, put_u32.
  by rewrite slice_splice_ne by (rewrite ?length_le_enc; lia).
Qed.

Lemma length_put_u32 off v data :
  (off + 4 ≤ length data)%nat → length (put_u32 off v data) = length data.
Proof. intros H. apply length_splice. rewrite length_le_enc. lia. Qed.

Lemma put_u32_bytes off v data : Forall byte_ok data → Forall byte_ok (put_u32 off v data).
Proof. intros H. apply Forall_splice; [apply le_enc_bytes|done]. Qed.

(** A prefix of [l1 ++ l2] ends in [l1] or contains it. *)
Lemma prefix_app_cases {A} (p l1 l2 : list A) :
  p `prefix_of` l1 ++ l2 → p `prefix_of` l1 ∨ ∃ q, p = l1 ++ q ∧ q `prefix_of` l2 ∧ q ≠ [].
Proof.
  intros [k Hk]. apply app_eq_inv in Hk as [(r & -> & ->)|(r & -> & ->)].
  - left. by exists r.
  - destruct r as [|x r].
    + left. by rewrite app_nil_r.
    + right. exists (x :: r). split_and!; [done|by eexists|done].
Qed.

(** ** Partial correctness

    [wlp m Q s]: if [m] returns from [s], its result and final state satisfy
    [Q]. Used where a call may also sleep or panic. *)

Definition wlp {S A} (m : K S A) (Q : A → S → Prop) (s : S) : Prop :=
  match m s with Ok a s' => Q a s' | Fault _ => True end.

Section wlp_rules.
Context {S : Type}.
Implicit Types s : S.

Lemma wlp_Ok {A} (m : K S A) Q s a s' : wlp m Q s → m s = Ok a s' → Q a s'.
Proof. unfold wlp. intros H E. by rewrite E in H. Qed.

Lemma wlp_ret {A} (a : A) Q s : Q a s → wlp (mret a) Q s.
Proof. done. Qed.

Lemma wlp_fail {A} f Q s : wlp (fail f : K S A) Q s.
Proof. done. Qed.

Lemma wlp_bind {A B} (m : K S A) (k : A → K S B) Q s :
  wlp m (λ a s', wlp (k a) Q s') s → wlp (m ≫= k) Q s.
Proof. unfold wlp, mbind, K_bind. by destruct (m s). Qed.

Lemma wlp_mono {A} (m : K S A) (Q Q' : A → S → Prop) s : wlp m Q s → (∀ a s', Q a s' → Q' a s') → wlp m Q' s.
Proof. unfold wlp. destruct (m s); eauto. Qed.

Lemma wlp_self {A} (m : K S A) s : wlp m (λ a s', m s = Ok a s') s.
Proof. unfold wlp. by destruct (m s). Qed.

Lemma wlp_gets {A} (f : S → A) Q s : Q (f s) s → wlp (gets f) Q s.
Proof. done. Qed.

Lemma wlp_modify (f : S → S) Q s : Q tt (f s) → wlp (modify f) Q s.
Proof. done. Qed.

Lemma wlp_when (b : bool) (m : K S unit) Q s :
  (b = true → wlp m Q s) → (b = false → Q tt s) → wlp (when b m) Q s.
Proof. destruct b; intros H1 H2; [by apply H1|by apply H2]. Qed.
End wlp_rules.

(** ** Frame conditions

    [keeps f m]: whenever [m] returns, it has left the part [f] of the state
    alone. The [keeps] database proves it by going through the code. *)

Definition keeps {S X A} (f : S → X) (m : K S A) : Prop :=
  ∀ s a s', m s = Ok a s' → f s' = f s.

Section keeps.
Context {S X : Type} (f : S → X).

Lemma keeps_ret {A} (a : A) : keeps f (mret a).
Proof. by intros s b s' [= _ <-]. Qed.

Lemma keeps_bind {A B} (m : K S A) (k : A → K S B) :
  keeps f m → (∀ a, keeps f (k a)) → keeps f (m ≫= k).
Proof.
  intros Hm Hk s b s'. unfold mbind, K_bind. destruct (m s) as [a s1|] eqn:E; [|done].
  intros Hr. rewrite (Hk a s1 b s' Hr). by apply Hm in E.
Qed.

Lemma keeps_gets {A} (g : S → A) : keeps f (gets g).
Proof. by intros s b s' [= _ <-]. Qed.

Lemma keeps_fail {A} e : keeps f (fail e : K S A).
Proof. by intros s b s'. Qed.

Lemma keeps_modify g : (∀ s, f (g s) = f s) → keeps f (modify g).
Proof. intros H s b s' [= _ <-]. apply H. Qed.

Lemma keeps_when b m : keeps f m → keeps f (when b m).
Proof. intros H. destruct b; [done|apply keeps_ret]. Qed.

Lemma keeps_of_option {A} e (o : option A) : keeps f (of_option e o).
Proof. destruct o; [apply keeps_ret|apply keeps_fail]. Qed.

Lemma keeps_for_each {A} (l : list A) body :
  (∀ x, keeps f (body x)) → keeps f (for_each l body).
Proof.
  intros H. induction l as [|x l IH]; simpl; [apply keeps_ret|].
  by apply keeps_bind.
Qed.
End keeps.

Lemma wlp_keeps {S X A} (f : S → X) (m : K S A) Q s :
  keeps f m → (∀ a s', f s' = f s → Q a s') → wlp m Q s.
Proof. intros Hk HQ. unfold wlp. destruct (m s) eqn:E; [|done]. by eapply HQ, Hk. Qed.

Create HintDb keeps.
#[export] Hint Resolve keeps_ret keeps_gets keeps_fail keeps_of_option : keeps.

(** Go through the code; conditionals and matches are split. *)
Ltac keeps_step :=
  match goal with
  | |- keeps _ (_ ≫= _) => apply keeps_bind; [|intros ?]
  | |- keeps _ (when _ _) => apply keeps_when
  | |- keeps _ (for_each _ _) => apply keeps_for_each; intros ?
  | |- keeps _ (modify _) => apply keeps_modify; done
  | |- keeps _ (panic _) => apply keeps_fail
  | |- keeps _ (undef _) => apply keeps_fail
  | |- keeps _ (if ?b then _ else _) => destruct b
  | |- keeps _ (match ?o with _ => _ end) => destruct o
  | |- keeps _ (let _ := _ in _) => cbv zeta
  | |- _ => solve [eauto with keeps]
  end.
Ltac solve_keeps := repeat keeps_step.
