(* ===== verification/State.v ===== *)
(** * State: constants, structs and globals of the kernel's file system

    The constants of param.h, fs.h, buf.h and stat.h, the structs of fs.h,
    buf.h, log.c and file.h as records, and the kernel's global variables as
    one record [kst] that the code of the file system passes along.

    Pointers are names of the objects they point to: a [struct buf*] is the
    (device, block number) key of the cached block, a [struct inode*] an
    index into [icache.inode], a [struct file*] an index into the file table.
    Spin locks are the list of the locks the CPU holds; a sleep lock is the
    pid of its holder, if any. *)

From S2P Require Import Prelude.

(** ** Constants (param.h, fs.h, buf.h, stat.h) *)

Definition NPROC : Z := 64.
Definition NOFILE : Z := 16.
Definition NFILE : Z := 100.
Definition NINODE : Z := 50.
Definition NDEV : Z := 10.
Definition ROOTDEV : Z := 1.
Definition MAXARG : Z := 32.
Definition MAXOPBLOCKS : Z := 10.
Definition LOGSIZE : Z := MAXOPBLOCKS * 3.
Definition NBUF : Z := MAXOPBLOCKS * 3.
Definition FSSIZE : Z := 1000.

Definition ROOTINO : Z := 1.
Definition BSIZE : Z := 512.
Definition NDIRECT : Z := 12.
Definition NINDIRECT : Z := BSIZE / 4.
Definition MAXFILE : Z := NDIRECT + NINDIRECT.
Definition DIRSIZ : Z := 14.
(** [sizeof(struct dinode)] and [sizeof(struct dirent)]. *)
Definition DINODE_SIZE : Z := 64.
Definition DIRENT_SIZE : Z := 16.
Definition IPB : Z := BSIZE / DINODE_SIZE.
Definition BPB : Z := BSIZE * 8.

Definition B_VALID : Z := 2.
Definition B_DIRTY : Z := 4.

Definition T_DIR : Z := 1.
Definition T_FILE : Z := 2.
Definition T_DEV : Z := 3.

Definition zero_block : list Z := replicate 512 0.

(** [lia], with the constants evaluated. *)
Ltac kunfold :=
  change MAXFILE with 140 in *; change LOGSIZE with 30 in *; change NBUF with 30 in *; change MAXOPBLOCKS with 10 in *;
  change FSSIZE with 1000 in *; change NINODE with 50 in *; change NDEV with 10 in *; change ROOTDEV with 1 in *;
  change ROOTINO with 1 in *; change NOFILE with 16 in *; change NFILE with 100 in *; change NDIRECT with 12 in *;
  change NINDIRECT with 128 in *; change DIRSIZ with 14 in *; change IPB with 8 in *; change BPB with 4096 in *;
  change BSIZE with 512 in *; change DINODE_SIZE with 64 in *; change DIRENT_SIZE with 16 in *; change T_DIR with 1 in *;
  change T_FILE with 2 in *; change T_DEV with 3 in *.
Ltac klia := kunfold; lia.

(** ** Structs *)

Record superblock := Superblock {
  sb_size : Z;        (* Size of file system image (blocks) *)
  sb_nblocks : Z;     (* Number of data blocks *)
  sb_ninodes : Z;     (* Number of inodes *)
  sb_nlog : Z;        (* Number of log blocks *)
  sb_logstart : Z;    (* Block number of first log block *)
  sb_inodestart : Z;  (* Block number of first inode block *)
  sb_bmapstart : Z    (* Block number of first free map block *)
}.

(** Block containing inode i. *)
Definition IBLOCK (i : Z) (sb : superblock) : Z := u32 (i / IPB + sb_inodestart sb).
(** Block of free map containing the bit for block b. *)
Definition BBLOCK (b : Z) (sb : superblock) : Z := u32 (b / BPB + sb_bmapstart sb).

Record dinode := Dinode {
  di_type : Z;
  di_major : Z;
  di_minor : Z;
  di_nlink : Z;
  di_size : Z;
  di_addrs : list Z
}.

Record dirent := Dirent { de_inum : Z; de_name : list Z }.

(** The key of a cached block: device and block number. *)
Abbreviation bkey := (Z * Z)%type.

(** A sleep lock: the pid of the process that holds it. *)
Abbreviation sleeplock := (option Z).

Record buf := Buf {
  b_flags : Z;
  b_lock : sleeplock;
  b_refcnt : Z;
  b_data : list Z
}.

Record logheader := Logheader { lh_n : Z; lh_block : list Z }.

Record log := Log {
  log_start : Z;
  log_size : Z;
  log_outstanding : Z; (* how many FS sys calls are executing *)
  log_committing : Z;  (* in commit(), please wait *)
  log_dev : Z;
  log_lh : logheader
}.

(** In-memory copy of an inode. *)
Record inode := Inode {
  i_dev : Z;
  i_inum : Z;
  i_ref : Z;
  i_lock : sleeplock;
  i_valid : Z;
  i_type : Z;
  i_major : Z;
  i_minor : Z;
  i_nlink : Z;
  i_size : Z;
  i_addrs : list Z
}.

(** The kernel's spin locks. *)
Inductive spinlock := L_log | L_icache | L_ftable | L_kmem | L_ptable | L_cons | L_ticks.

#[global] Instance spinlock_eq_dec : EqDecision spinlock.
Proof. solve_decision. Defined.

(** ** The globals *)

Record kst := KS {
  k_disk : gmap bkey (list Z);           (* contents of the disk; an absent block is zero *)
  k_hist : list (bkey * list Z);         (* the sector writes completed so far, oldest first *)
  k_havedisk1 : bool;                    (* IDE.havedisk1 *)
  k_bcache : gmap bkey buf;              (* BUFFER_CACHE *)
  k_log : log;                           (* struct log log *)
  k_sb : superblock;                     (* struct superblock sb *)
  k_icache : list inode;                 (* icache.inode[NINODE] *)
  k_spin : list spinlock;                (* spin locks held by the CPU, last acquired first *)
  k_pid : Z                              (* myproc()->pid *)
}.

Definition set_disk (d : gmap bkey (list Z)) (h : list (bkey * list Z)) (s : kst) : kst :=
  KS d h (k_havedisk1 s) (k_bcache s) (k_log s) (k_sb s) (k_icache s) (k_spin s) (k_pid s).
Definition set_bcache (c : gmap bkey buf) (s : kst) : kst :=
  KS (k_disk s) (k_hist s) (k_havedisk1 s) c (k_log s) (k_sb s) (k_icache s) (k_spin s) (k_pid s).
Definition set_log (l : log) (s : kst) : kst :=
  KS (k_disk s) (k_hist s) (k_havedisk1 s) (k_bcache s) l (k_sb s) (k_icache s) (k_spin s) (k_pid s).
Definition set_sb (b : superblock) (s : kst) : kst :=
  KS (k_disk s) (k_hist s) (k_havedisk1 s) (k_bcache s) (k_log s) b (k_icache s) (k_spin s) (k_pid s).
Definition set_icache (c : list inode) (s : kst) : kst :=
  KS (k_disk s) (k_hist s) (k_havedisk1 s) (k_bcache s) (k_log s) (k_sb s) c (k_spin s) (k_pid s).
Definition set_spin (l : list spinlock) (s : kst) : kst :=
  KS (k_disk s) (k_hist s) (k_havedisk1 s) (k_bcache s) (k_log s) (k_sb s) (k_icache s) l (k_pid s).

Definition set_lh (lh : logheader) (l : log) : log :=
  Log (log_start l) (log_size l) (log_outstanding l) (log_committing l) (log_dev l) lh.
Definition set_outstanding (n : Z) (l : log) : log :=
  Log (log_start l) (log_size l) n (log_committing l) (log_dev l) (log_lh l).
Definition set_committing (n : Z) (l : log) : log :=
  Log (log_start l) (log_size l) (log_outstanding l) n (log_dev l) (log_lh l).

Definition set_i_ref (r : Z) (i : inode) : inode :=
  Inode (i_dev i) (i_inum i) r (i_lock i) (i_valid i) (i_type i) (i_major i) (i_minor i)
    (i_nlink i) (i_size i) (i_addrs i).
Definition set_i_lock (l : sleeplock) (i : inode) : inode :=
  Inode (i_dev i) (i_inum i) (i_ref i) l (i_valid i) (i_type i) (i_major i) (i_minor i)
    (i_nlink i) (i_size i) (i_addrs i).
Definition set_i_valid (v : Z) (i : inode) : inode :=
  Inode (i_dev i) (i_inum i) (i_ref i) (i_lock i) v (i_type i) (i_major i) (i_minor i)
    (i_nlink i) (i_size i) (i_addrs i).
Definition set_i_type (t : Z) (i : inode) : inode :=
  Inode (i_dev i) (i_inum i) (i_ref i) (i_lock i) (i_valid i) t (i_major i) (i_minor i)
    (i_nlink i) (i_size i) (i_addrs i).
Definition set_i_nlink (n : Z) (i : inode) : inode :=
  Inode (i_dev i) (i_inum i) (i_ref i) (i_lock i) (i_valid i) (i_type i) (i_major i) (i_minor i)
    n (i_size i) (i_addrs i).
Definition set_i_size (n : Z) (i : inode) : inode :=
  Inode (i_dev i) (i_inum i) (i_ref i) (i_lock i) (i_valid i) (i_type i) (i_major i) (i_minor i)
    (i_nlink i) n (i_addrs i).
Definition set_i_addrs (a : list Z) (i : inode) : inode :=
  Inode (i_dev i) (i_inum i) (i_ref i) (i_lock i) (i_valid i) (i_type i) (i_major i) (i_minor i)
    (i_nlink i) (i_size i) a.

(** Code over the kernel's globals. *)
Abbreviation KM := (K kst).

(** ** Spin locks (spinlock.rs, [SpinLockC])

    [acquire] asserts that this CPU does not hold the lock, [release] that it
    does. The list is [ncli] deep: each held lock is one [push_cli]. *)

Definition acquire (l : spinlock) : KM unit :=
  sp ← gets k_spin;
  if bool_decide (l ∈ sp) then panic "assertion failed: !self.is_locked()"
  else modify (set_spin (l :: sp)).

Definition release (l : spinlock) : KM unit :=
  sp ← gets k_spin;
  if bool_decide (l ∈ sp) then modify (set_spin (filter (λ x, x ≠ l) sp))
  else panic "assertion failed: self.is_locked()".

Lemma wp_acquire l Q s :
  l ∉ k_spin s → Q tt (set_spin (l :: k_spin s) s) → wp (acquire l) Q s.
Proof.
  intros Hl HQ. unfold acquire. apply wp_bind, wp_gets.
  rewrite bool_decide_eq_false_2 by done. by apply wp_modify.
Qed.

Lemma wp_release l sp Q s :
  k_spin s = l :: sp → l ∉ sp → Q tt (set_spin sp s) → wp (release l) Q s.
Proof.
  intros Hs Hl HQ. unfold release. apply wp_bind, wp_gets. rewrite Hs.
  rewrite bool_decide_eq_true_2 by set_solver. apply wp_modify.
  rewrite filter_cons_False by naive_solver.
  replace (filter (λ x, x ≠ l) sp) with sp; [done|].
  clear Hs HQ. induction sp as [|x sp IH]; [done|].
  rewrite filter_cons_True by set_solver. f_equal. apply IH. set_solver.
Qed.
