(* ===== verification/Bio.v ===== *)
(** * Bio: the disk and the buffer cache

    The IDE driver's [rw] (kernel/src/ide.rs; xv6/memide.c has the same
    contract) and the buffer cache (kernel/src/buf.rs) that fs.c and log.c
    call as [bread], [bwrite] and [brelse]. A request to the disk is
    synchronous here: the process sleeps until the interrupt handler has done
    the transfer, so the transfer is part of the call. A sector write is
    atomic (BSIZE is the sector size) and is recorded in [k_hist], the order
    in which writes reach the disk; a crash may happen between any two. *)

From S2P Require Import Prelude State.

(** ** Objects reached through pointers *)

(** The disk a device number selects: [(dev & 1) << 4]. *)
Definition disk_key (k : bkey) : bkey := (Z.land k.1 1, k.2).

Definition disk_get (d : gmap bkey (list Z)) (k : bkey) : list Z :=
  default zero_block (d !! disk_key k).

(** [*b], for the buffer named [k]. *)
Definition buf_at (k : bkey) : KM buf :=
  c ← gets k_bcache; of_option (FUndef "dangling struct buf*") (c !! k).

(** [*b = v] *)
Definition buf_put (k : bkey) (b : buf) : KM unit :=
  modify (λ s, set_bcache (<[k := b]> (k_bcache s)) s).

(** ** Sleep locks (sleeplock.rs) *)

Definition holdingsleep (pid : Z) (l : sleeplock) : bool :=
  match l with Some p => p =? pid | None => false end.

(** ** The driver *)

(** [IDE::rw] and the interrupt handler that completes the request. *)
Definition iderw (k : bkey) : KM unit :=
  b ← buf_at k;
  pid ← gets k_pid;
  if negb (holdingsleep pid (b_lock b)) then panic "IDE::rw: buf not locked" else
  if Z.land (b_flags b) (Z.lor B_VALID B_DIRTY) =? B_VALID then panic "IDE::rw: nothing to do" else
  h ← gets k_havedisk1;
  if negb (k.1 =? 0) && negb h then panic "IDE::rw: ide disk 1 not present" else
  if FSSIZE <=? k.2 then panic "incorrect blockno" else
  sp ← gets k_spin;
  (* sleep(buf, &ide.lock): no other spin lock may be held *)
  if bool_decide (sp ≠ []) then panic "enter_scheduler: locks" else
  let flags := Z.ldiff (Z.lor (b_flags b) B_VALID) B_DIRTY in
  if negb (Z.land (b_flags b) B_DIRTY =? 0) then
    modify (λ s, set_disk (<[disk_key k := b_data b]> (k_disk s)) (k_hist s ++ [(k, b_data b)]) s) ;;
    buf_put k (Buf flags (b_lock b) (b_refcnt b) (b_data b))
  else
    d ← gets k_disk;
    buf_put k (Buf flags (b_lock b) (b_refcnt b) (disk_get d k)).

(** ** The buffer cache *)

(** [BufferCache::get]: drop unused clean buffers; find the block or take a
    fresh buffer for it; return it locked. *)
Definition bget (k : bkey) : KM unit :=
  modify (λ s, set_bcache
    (filter (λ kb, b_refcnt kb.2 ≠ 0 ∨ Z.land (b_flags kb.2) B_DIRTY ≠ 0) (k_bcache s)) s) ;;
  c ← gets k_bcache;
  pid ← gets k_pid;
  match c !! k with
  | Some b =>
      match b_lock b with
      | Some _ => fail (FSleep "buf")
      | None => buf_put k (Buf (b_flags b) (Some pid) (u32 (b_refcnt b + 1)) (b_data b))
      end
  | None =>
      if NBUF <=? Z.of_nat (size c) then panic "BufferCache::get: no buffer" else
      buf_put k (Buf 0 (Some pid) 1 zero_block)
  end.

(** [BufferCache::read]: a locked buffer with the contents of the block. *)
Definition bread (dev bno : Z) : KM bkey :=
  let k := (u32 dev, u32 bno) in
  bget k ;;
  b ← buf_at k;
  when (Z.land (b_flags b) B_VALID =? 0) (iderw k) ;;
  mret k.

(** [Buffer::write] *)
Definition bwrite (k : bkey) : KM unit :=
  b ← buf_at k;
  pid ← gets k_pid;
  if negb (holdingsleep pid (b_lock b)) then panic "Buffer::write" else
  buf_put k (Buf (Z.lor (b_flags b) B_DIRTY) (b_lock b) (b_refcnt b) (b_data b)) ;;
  iderw k.

(** [Buffer::release]: unlock, drop the reference, and forget the buffer if
    nobody uses it and it is clean. *)
Definition brelse (k : bkey) : KM unit :=
  b ← buf_at k;
  pid ← gets k_pid;
  if negb (holdingsleep pid (b_lock b)) then panic "Buffer::release" else
  let r := u32 (b_refcnt b - 1) in
  if (r =? 0) && (Z.land (b_flags b) B_DIRTY =? 0) then
    modify (λ s, set_bcache (delete k (k_bcache s)) s)
  else buf_put k (Buf (b_flags b) None r (b_data b)).

(** [b->data] and a store to it. *)
Definition bdata (k : bkey) : KM (list Z) := b ← buf_at k; mret (b_data b).
Definition set_bdata (k : bkey) (d : list Z) : KM unit :=
  b ← buf_at k; buf_put k (Buf (b_flags b) (b_lock b) (b_refcnt b) d).

(** ** What a block holds

    The file system's view of a block: the cached copy if there is one. *)
Definition view (s : kst) (k : bkey) : list Z :=
  match k_bcache s !! k with
  | Some b => b_data b
  | None => disk_get (k_disk s) k
  end.

(** A block is BSIZE bytes. *)
Definition block_ok (d : list Z) : Prop := length d = 512%nat ∧ Forall byte_ok d.

Lemma zero_block_ok : block_ok zero_block.
Proof.
  split; [apply length_replicate|]. apply Forall_replicate. unfold byte_ok. lia.
Qed.

Definition disk_ok (d : gmap bkey (list Z)) : Prop := map_Forall (λ _, block_ok) d.

Lemma disk_get_ok d k : disk_ok d → block_ok (disk_get d k).
Proof.
  intros H. unfold disk_get. destruct (d !! disk_key k) eqn:E; simpl.
  - by apply (H (disk_key k)).
  - apply zero_block_ok.
Qed.

(** No buffer is unused and clean: [get] and [release] drop such buffers. *)
Definition no_garbage (c : gmap bkey buf) : Prop :=
  ∀ k b, c !! k = Some b → b_refcnt b ≠ 0 ∨ Z.land (b_flags b) B_DIRTY ≠ 0.

Lemma filter_no_garbage c :
  no_garbage c →
  filter (λ kb : bkey * buf, b_refcnt kb.2 ≠ 0 ∨ Z.land (b_flags kb.2) B_DIRTY ≠ 0) c = c.
Proof.
  intros H. apply map_filter_id. intros k b Hk. simpl. by apply H in Hk.
Qed.

(** A device and block number that the driver accepts. *)
Definition key_ok (s : kst) (dev bno : Z) : Prop :=
  dev = ROOTDEV ∧ k_havedisk1 s = true ∧ 0 ≤ bno < FSSIZE.

Section bio.
Implicit Types (s : kst) (k : bkey).

Lemma wp_buf_at k b Q s : k_bcache s !! k = Some b → Q b s → wp (buf_at k) Q s.
Proof. intros Hb HQ. unfold buf_at. apply wp_bind, wp_gets. by rewrite Hb. Qed.

Lemma wp_bdata k b Q s : k_bcache s !! k = Some b → Q (b_data b) s → wp (bdata k) Q s.
Proof. intros Hb HQ. apply wp_bind. eapply wp_buf_at; [done|]. by apply wp_ret. Qed.

Lemma wp_set_bdata k b d Q s :
  k_bcache s !! k = Some b →
  Q tt (set_bcache (<[k := Buf (b_flags b) (b_lock b) (b_refcnt b) d]> (k_bcache s)) s) →
  wp (set_bdata k d) Q s.
Proof. intros Hb HQ. apply wp_bind. eapply wp_buf_at; [done|]. by apply wp_modify. Qed.

(** A block that is not cached is read from the disk. *)
Lemma wp_bread_miss dev bno Q s :
  let k := (dev, bno) in
  key_ok s dev bno → no_garbage (k_bcache s) → k_spin s = [] →
  k_bcache s !! k = None → Z.of_nat (size (k_bcache s)) < NBUF →
  Q k (set_bcache (<[k := Buf B_VALID (Some (k_pid s)) 1 (disk_get (k_disk s) k)]> (k_bcache s)) s) →
  wp (bread dev bno) Q s.
Proof.
  intros k (Hdev & Hd & Hb) Hg Hsp Hk Hsz HQ. unfold bread, bget.
  assert ((u32 dev, u32 bno) = k) as ->.
  { unfold k, ROOTDEV, FSSIZE in *. f_equal; apply u32_small; lia. }
  do 2 apply wp_bind. apply wp_modify. rewrite filter_no_garbage by done.
  apply wp_bind, wp_gets, wp_bind, wp_gets. simpl. rewrite Hk.
  destruct (Z.leb_spec NBUF (Z.of_nat (size (k_bcache s)))); [lia|].
  apply wp_modify, wp_bind. eapply wp_buf_at; [by apply lookup_insert_eq|]. simpl.
  apply wp_bind. unfold iderw. apply wp_bind.
  eapply wp_buf_at; [by apply lookup_insert_eq|]. simpl.
  apply wp_bind, wp_gets. simpl. rewrite Z.eqb_refl. simpl.
  apply wp_bind, wp_gets. simpl. rewrite Hd, andb_false_r.
  destruct (Z.leb_spec FSSIZE bno); [lia|].
  apply wp_bind, wp_gets. simpl. rewrite Hsp, bool_decide_eq_false_2 by (intros Hn; by apply Hn).
  apply wp_bind, wp_gets, wp_modify, wp_ret.
  unfold set_bcache in *; simpl in *. by rewrite insert_insert_eq.
Qed.

(** A cached block that nobody holds is locked and handed out as it is. *)
Lemma wp_bread_hit dev bno b Q s :
  let k := (dev, bno) in
  0 ≤ dev < 2 ^ 32 → 0 ≤ bno < 2 ^ 32 → no_garbage (k_bcache s) →
  k_bcache s !! k = Some b → b_lock b = None → Z.land (b_flags b) B_VALID ≠ 0 →
  Q k (set_bcache (<[k := Buf (b_flags b) (Some (k_pid s)) (u32 (b_refcnt b + 1)) (b_data b)]>
         (k_bcache s)) s) →
  wp (bread dev bno) Q s.
Proof.
  intros k Hdev Hbno Hg Hk Hl Hv HQ. unfold bread, bget.
  assert ((u32 dev, u32 bno) = k) as -> by (unfold k; f_equal; by apply u32_small).
  do 2 apply wp_bind. apply wp_modify. rewrite filter_no_garbage by done.
  apply wp_bind, wp_gets, wp_bind, wp_gets. simpl. rewrite Hk, Hl.
  apply wp_modify, wp_bind. eapply wp_buf_at; [by apply lookup_insert_eq|]. simpl.
  apply wp_bind, wp_when; intros Hv'; [by apply Z.eqb_eq in Hv'|]. by apply wp_ret.
Qed.

(** Releasing the only reference: a dirty buffer stays, a clean one goes. *)
Lemma wp_brelse k b Q s :
  k_bcache s !! k = Some b → b_lock b = Some (k_pid s) → b_refcnt b = 1 →
  Q tt (if Z.land (b_flags b) B_DIRTY =? 0 then set_bcache (delete k (k_bcache s)) s
        else set_bcache (<[k := Buf (b_flags b) None 0 (b_data b)]> (k_bcache s)) s) →
  wp (brelse k) Q s.
Proof.
  intros Hk Hl Hr HQ. unfold brelse. apply wp_bind. eapply wp_buf_at; [done|].
  apply wp_bind, wp_gets. rewrite Hl, Hr. simpl. rewrite Z.eqb_refl. simpl.
  change (u32 (1 - 1)) with 0. simpl.
  destruct (Z.land (b_flags b) B_DIRTY =? 0); by apply wp_modify.
Qed.

(** Writing a held buffer through to the disk. *)
Lemma wp_bwrite k b Q s :
  key_ok s k.1 k.2 → k_spin s = [] →
  k_bcache s !! k = Some b → b_lock b = Some (k_pid s) →
  (b_flags b = B_VALID ∨ b_flags b = Z.lor B_VALID B_DIRTY) →
  Q tt (set_disk (<[disk_key k := b_data b]> (k_disk s)) (k_hist s ++ [(k, b_data b)])
         (set_bcache (<[k := Buf B_VALID (b_lock b) (b_refcnt b) (b_data b)]> (k_bcache s)) s)) →
  wp (bwrite k) Q s.
Proof.
  intros (Hdev & Hd & Hb) Hsp Hk Hl Hf HQ. unfold bwrite.
  apply wp_bind. eapply wp_buf_at; [done|]. apply wp_bind, wp_gets.
  rewrite Hl. simpl. rewrite Z.eqb_refl. simpl.
  apply wp_bind, wp_modify. unfold iderw.
  apply wp_bind. eapply wp_buf_at; [by apply lookup_insert_eq|]. simpl.
  apply wp_bind, wp_gets. simpl. rewrite Z.eqb_refl. simpl.
  assert (Z.lor (b_flags b) B_DIRTY = 6) as -> by (destruct Hf as [-> | ->]; done).
  simpl. apply wp_bind, wp_gets. simpl. rewrite Hd, andb_false_r.
  destruct (Z.leb_spec FSSIZE k.2); [lia|].
  apply wp_bind, wp_gets. simpl. rewrite Hsp, bool_decide_eq_false_2 by (intros Hn; by apply Hn).
  apply wp_bind, wp_modify, wp_modify. unfold set_bcache, set_disk in *; simpl in *.
  rewrite insert_insert_eq. by rewrite Hl in HQ.
Qed.
End bio.
