(* ===== verification/Log.v ===== *)
(** * Log: the write-ahead log (kernel/c/log.c)

    One definition per function of log.c, over the buffer cache of [Bio]. *)

From S2P Require Import Prelude State Bio.

(** ** The on-disk log header: [int n; int block[LOGSIZE]] *)

Definition hdr_n (data : list Z) : Z := s32 (get_u32 data 0).
Definition hdr_block (data : list Z) (i : Z) : Z := s32 (get_u32 data (Z.to_nat (4 + 4 * i))).
Definition set_hdr_n (n : Z) (data : list Z) : list Z := put_u32 0 n data.
Definition set_hdr_block (i v : Z) (data : list Z) : list Z := put_u32 (Z.to_nat (4 + 4 * i)) v data.

(** [sizeof(struct logheader)] *)
Definition LOGHEADER_SIZE : Z := 4 + 4 * LOGSIZE.

(** ** Accesses to [log.lh] *)

Definition get_lh : KM logheader := gets (λ s, log_lh (k_log s)).
Definition put_lh (lh : logheader) : KM unit := modify (λ s, set_log (set_lh lh (k_log s)) s).

(** [log.lh.block[i]] and a store to it; outside the array is undefined. *)
Definition lh_get (i : Z) : KM Z :=
  lh ← get_lh;
  if (0 <=? i) && (i <? LOGSIZE) then mret (lh_block lh !!! Z.to_nat i)
  else undef "log.lh.block: index out of range".
Definition lh_put (i v : Z) : KM unit :=
  lh ← get_lh;
  if (0 <=? i) && (i <? LOGSIZE) then put_lh (Logheader (lh_n lh) (<[Z.to_nat i := v]> (lh_block lh)))
  else undef "log.lh.block: index out of range".
Definition set_lh_n (n : Z) : KM unit := lh ← get_lh; put_lh (Logheader n (lh_block lh)).

(** ** Reading the super block (fs.c, [readsb]) *)

Definition sb_decode (d : list Z) : superblock :=
  Superblock (get_u32 d 0) (get_u32 d 4) (get_u32 d 8) (get_u32 d 12)
    (get_u32 d 16) (get_u32 d 20) (get_u32 d 24).

Definition readsb (dev : Z) : KM superblock :=
  bp ← bread dev 1;
  d ← bdata bp;
  brelse bp ;;
  mret (sb_decode d).

(** ** The operations *)

(** Copy committed blocks from log to their home location. *)
Definition install_trans : KM unit :=
  lh ← get_lh;
  for_each (seqZ 0 (lh_n lh)) (λ tail,
    l ← gets k_log;
    lbuf ← bread (log_dev l) (log_start l + tail + 1); (* read log block *)
    b ← lh_get tail;
    dbuf ← bread (log_dev l) b;                        (* read dst *)
    d ← bdata lbuf;
    set_bdata dbuf d ;;                                (* copy block to dst *)
    bwrite dbuf ;;                                     (* write dst to disk *)
    brelse lbuf ;;
    brelse dbuf).

(** Read the log header from disk into the in-memory log header. *)
Definition read_head : KM unit :=
  l ← gets k_log;
  bf ← bread (log_dev l) (log_start l);
  d ← bdata bf;
  set_lh_n (hdr_n d) ;;
  for_each (seqZ 0 (hdr_n d)) (λ i, lh_put i (hdr_block d i)) ;;
  brelse bf.

(** Write in-memory log header to disk. *)
Definition write_head : KM unit :=
  l ← gets k_log;
  bf ← bread (log_dev l) (log_start l);
  lh ← get_lh;
  d ← bdata bf;
  set_bdata bf (set_hdr_n (lh_n lh) d) ;;
  for_each (seqZ 0 (lh_n lh)) (λ i,
    v ← lh_get i;
    d ← bdata bf;
    set_bdata bf (set_hdr_block i v d)) ;;
  bwrite bf ;;
  brelse bf.

Definition recover_from_log : KM unit :=
  read_head ;;
  install_trans ;; (* if committed, copy from log to disk *)
  set_lh_n 0 ;;
  write_head.      (* clear the log *)

Definition initlog (dev : Z) : KM unit :=
  if BSIZE <=? LOGHEADER_SIZE then panic "initlog: too big logheader" else
  sb ← readsb dev;
  modify (λ s, set_log (Log (s32 (sb_logstart sb)) (s32 (sb_nlog sb)) (log_outstanding (k_log s))
                         (log_committing (k_log s)) dev (log_lh (k_log s))) s) ;;
  recover_from_log.

(** Called at the start of each FS system call. Where the code would sleep
    for another process to commit, the call stops with [FSleep]. *)
Definition begin_op : KM unit :=
  acquire L_log ;;
  l ← gets k_log;
  if negb (log_committing l =? 0) then fail (FSleep "log")
  else if LOGSIZE <? lh_n (log_lh l) + (log_outstanding l + 1) * MAXOPBLOCKS then fail (FSleep "log")
  else
    modify (λ s, set_log (set_outstanding (log_outstanding l + 1) (k_log s)) s) ;;
    release L_log.

(** Copy modified blocks from cache to log. *)
Definition write_log : KM unit :=
  lh ← get_lh;
  for_each (seqZ 0 (lh_n lh)) (λ tail,
    l ← gets k_log;
    to ← bread (log_dev l) (log_start l + tail + 1); (* log block *)
    b ← lh_get tail;
    from ← bread (log_dev l) b;                      (* cache block *)
    d ← bdata from;
    set_bdata to d ;;
    bwrite to ;;                                     (* write the log *)
    brelse from ;;
    brelse to).

Definition commit : KM unit :=
  lh ← get_lh;
  when (0 <? lh_n lh)
    (write_log ;;     (* Write modified blocks from cache to log *)
     write_head ;;    (* Write header to disk -- the real commit *)
     install_trans ;; (* Now install writes to home locations *)
     set_lh_n 0 ;;
     write_head).     (* Erase the transaction from the log *)

(** Called at the end of each FS system call; commits if this was the last
    outstanding operation. [wakeup(&log)] makes sleepers runnable and leaves
    the file system's state alone. *)
Definition end_op : KM unit :=
  acquire L_log ;;
  l ← gets k_log;
  let l := set_outstanding (log_outstanding l - 1) l in
  modify (set_log l) ;;
  if negb (log_committing l =? 0) then panic "log.committing" else
  if log_outstanding l =? 0 then
    modify (set_log (set_committing 1 l)) ;;
    release L_log ;;
    commit ;;
    acquire L_log ;;
    modify (λ s, set_log (set_committing 0 (k_log s)) s) ;;
    release L_log
  else release L_log.

(** The first of the [n] logged blocks that is [bno], or [n]. *)
Fixpoint log_index (blocks : list Z) (bno : Z) : nat :=
  match blocks with
  | [] => 0
  | b :: blocks => if u32 b =? bno then 0 else S (log_index blocks bno)
  end.

(** Record the block number and pin the buffer in the cache with B_DIRTY. *)
Definition log_write (k : bkey) : KM unit :=
  l ← gets k_log;
  let lh := log_lh l in
  if (LOGSIZE <=? lh_n lh) || (log_size l - 1 <=? lh_n lh) then panic "too big a transaction" else
  if log_outstanding l <? 1 then panic "log_write outside of trans" else
  acquire L_log ;;
  let i := Z.of_nat (log_index (take (Z.to_nat (lh_n lh)) (lh_block lh)) k.2) in
  lh_put i (s32 k.2) ;; (* log absorbtion *)
  when (i =? lh_n lh) (set_lh_n (lh_n lh + 1)) ;;
  b ← buf_at k;
  buf_put k (Buf (Z.lor (b_flags b) B_DIRTY) (b_lock b) (b_refcnt b) (b_data b)) ;; (* prevent eviction *)
  release L_log.
