(* ===== verification/LogOps.v ===== *)
(** * LogOps: the transactional block store that log.c gives to fs.c

    Inside a transaction fs.c sees an array of blocks: [bread] returns the
    latest contents, a store followed by [log_write] replaces them, and
    [brelse] forgets nothing. [fs_ok] is the invariant that makes it so, and
    the [wp_] lemmas below are the interface that the file-system files use. *)

From S2P Require Import Prelude State Bio Log.

(** The blocks of the current transaction. *)
Definition logged (s : kst) : list Z :=
  take (Z.to_nat (lh_n (log_lh (k_log s)))) (lh_block (log_lh (k_log s))).

Definition klogged (s : kst) (k : bkey) : Prop := k.1 = ROOTDEV ∧ k.2 ∈ logged s.

#[global] Instance klogged_dec s k : Decision (klogged s k).
Proof. unfold klogged. apply _. Defined.

(** A block outside the on-disk log. *)
Definition home (s : kst) (b : Z) : Prop :=
  0 ≤ b < FSSIZE ∧ ¬ (log_start (k_log s) ≤ b < log_start (k_log s) + log_size (k_log s)).

#[global] Instance home_dec s b : Decision (home s b).
Proof. unfold home. apply _. Defined.

(** Where the log is, and that its header is a [struct logheader]. *)
Record log_geom (l : log) (havedisk1 : bool) : Prop := {
  lg_dev : log_dev l = ROOTDEV;
  lg_disk1 : havedisk1 = true;
  lg_start : 2 ≤ log_start l;
  lg_end : log_start l + log_size l ≤ FSSIZE;
  lg_len : length (lh_block (log_lh l)) = Z.to_nat LOGSIZE;
  lg_n : 0 ≤ lh_n (log_lh l) ≤ LOGSIZE;
  lg_room : lh_n (log_lh l) < log_size l
}.

(** The buffers with keys in [H] are held by the running process. A buffer is
    dirty exactly when its block is in the transaction; a clean buffer is
    held and equals the disk. *)
Definition buf_of (H : gset bkey) (s : kst) (k : bkey) (d : list Z) : buf :=
  Buf (if decide (klogged s k) then Z.lor B_VALID B_DIRTY else B_VALID)
      (if decide (k ∈ H) then Some (k_pid s) else None)
      (if decide (k ∈ H) then 1 else 0) d.

Record fs_ok (H : gset bkey) (s : kst) : Prop := {
  ok_geom : log_geom (k_log s) (k_havedisk1 s);
  ok_spin : k_spin s = [];
  ok_disk : disk_ok (k_disk s);
  ok_nodup : NoDup (logged s);
  ok_home : ∀ b, b ∈ logged s → home s b;
  ok_cached : ∀ b, b ∈ logged s → is_Some (k_bcache s !! (ROOTDEV, b));
  ok_held : ∀ k, k ∈ H → is_Some (k_bcache s !! k);
  ok_buf : ∀ k b, k_bcache s !! k = Some b →
    b = buf_of H s k (b_data b) ∧ block_ok (b_data b) ∧
    (¬ klogged s k → k ∈ H ∧ b_data b = disk_get (k_disk s) k)
}.

(** Two states that differ in nothing but the buffer cache, and whose blocks
    have the same contents. *)
Definition fs_eq (s s' : kst) : Prop :=
  (∃ c, s' = set_bcache c s) ∧ ∀ k, view s' k = view s k.

(** How many blocks the transaction has. *)
Definition nlog (s : kst) : Z := Z.of_nat (length (logged s)).

(** Inside a transaction that has room for [c] more blocks. *)
Record in_tx (s : kst) (c : Z) : Prop := {
  tx_buf : nlog s + c + 2 ≤ NBUF; (* two more buffers may be held at a time *)
  tx_size : nlog s + c ≤ log_size (k_log s) - 1;
  tx_out : 1 ≤ log_outstanding (k_log s)
}.

(** The transaction after a [log_write] of block [b]. *)
Definition log_add (b : Z) (l : list Z) : list Z := if decide (b ∈ l) then l else l ++ [b].

(** Everything but the buffer cache, the inode cache and the transaction's
    list of blocks. *)
Definition rest (s : kst) :=
  (k_disk s, k_hist s, k_havedisk1 s, k_sb s, k_spin s, k_pid s,
   set_lh (Logheader 0 []) (k_log s)).

Section log_ops.
Implicit Types (s : kst) (k : bkey) (H : gset bkey).

Lemma view_ok H s k : fs_ok H s → block_ok (view s k).
Proof.
  intros Hs. unfold view. destruct (k_bcache s !! k) eqn:E.
  - by apply (ok_buf H s Hs) in E as (_ & ? & _).
  - by apply disk_get_ok, (ok_disk H).
Qed.

Lemma length_logged s :
  log_geom (k_log s) (k_havedisk1 s) → length (logged s) = Z.to_nat (lh_n (log_lh (k_log s))).
Proof. intros [? ? ? ? Hl Hn _]. unfold logged. rewrite length_take. lia. Qed.

Lemma fs_ok_no_garbage H s : fs_ok H s → no_garbage (k_bcache s).
Proof.
  intros Hs k b Hk. apply (ok_buf H s Hs) in Hk as (-> & _ & Hc). simpl.
  destruct (decide (klogged s k)) as [?|Hn]; [by right|]. left.
  destruct (Hc Hn) as [Hh _]. by rewrite decide_True.
Qed.

Lemma nlog_lh_n s :
  log_geom (k_log s) (k_havedisk1 s) → nlog s = lh_n (log_lh (k_log s)).
Proof. intros Hg. unfold nlog. rewrite length_logged by done. pose proof (lg_n _ _ Hg). lia. Qed.

(** The cache holds the transaction's blocks and the held ones. *)
Lemma fs_ok_size H s :
  fs_ok H s → Z.of_nat (size (k_bcache s)) ≤ nlog s + Z.of_nat (size H).
Proof.
  intros Hs.
  set (L := list_to_set ((λ b, (ROOTDEV, b)) <$> logged s) : gset bkey).
  assert (dom (k_bcache s) ⊆ L ∪ H) as Hsub.
  { intros k [b Hb]%elem_of_dom. apply (ok_buf H s Hs) in Hb as (_ & _ & Hc).
    destruct (decide (klogged s k)) as [[? ?]|Hn]; [|set_solver].
    apply elem_of_union_l. unfold L. rewrite elem_of_list_to_set.
    apply list_elem_of_fmap. exists k.2. split; [|done]. destruct k; simpl in *; congruence. }
  apply subseteq_size in Hsub. rewrite size_dom in Hsub.
  assert (size (L ∪ H) ≤ size L + size H)%nat.
  { rewrite size_union_alt. assert (size (H ∖ L) ≤ size H)%nat; [apply subseteq_size; set_solver|lia]. }
  assert (size L ≤ length (logged s))%nat.
  { unfold L. rewrite size_list_to_set, length_fmap; [done|].
    apply NoDup_fmap_2; [by intros ?? [= ->]|apply (ok_nodup H s Hs)]. }
  unfold nlog. lia.
Qed.

Lemma buf_of_other H H' s k d :
  (k ∈ H ↔ k ∈ H') → buf_of H s k d = buf_of H' s k d.
Proof.
  intros Hk. unfold buf_of. by destruct (decide (k ∈ H)), (decide (k ∈ H')); try tauto.
Qed.

(** Entering [k] into the cache as held. *)
Lemma fs_ok_hold H s k :
  fs_ok H s →
  fs_ok ({[k]} ∪ H) (set_bcache (<[k := buf_of ({[k]} ∪ H) s k (view s k)]> (k_bcache s)) s).
Proof.
  intros Hs. split; try by destruct Hs.
  - intros b Hb. simpl. destruct (decide (k = (ROOTDEV, b))) as [->|].
    + rewrite lookup_insert_eq. by eexists.
    + rewrite lookup_insert_ne by done. by apply (ok_cached H s Hs).
  - intros k' Hk'. simpl. destruct (decide (k = k')) as [->|].
    + rewrite lookup_insert_eq. by eexists.
    + rewrite lookup_insert_ne by done. apply (ok_held H s Hs). set_solver.
  - intros k' b. simpl. destruct (decide (k = k')) as [<-|].
    + rewrite lookup_insert_eq. intros [= <-]. simpl. split_and!; [done|by eapply view_ok|].
      intros Hn. split; [set_solver|]. unfold view. destruct (k_bcache s !! k) eqn:E; [|done].
      apply (ok_buf H s Hs) in E as (_ & _ & Hc). by apply Hc.
    + rewrite lookup_insert_ne by done. intros Hb.
      apply (ok_buf H s Hs) in Hb as (Hb & Hd & Hc). split_and!; [|done|].
      * change (b = buf_of ({[k]} ∪ H) s k' (b_data b)).
        rewrite Hb at 1. apply (buf_of_other H). set_solver.
      * intros Hn. destruct (Hc Hn). split; [set_solver|done].
Qed.

Lemma view_hold s k f l r :
  fs_eq s (set_bcache (<[k := Buf f l r (view s k)]> (k_bcache s)) s).
Proof.
  split; [by eexists|]. intros k'. unfold view. simpl.
  destruct (decide (k = k')) as [<-|]; [by rewrite lookup_insert_eq|by rewrite lookup_insert_ne].
Qed.

(** [bread] of a block that is not held. *)
Lemma wp_bread H dev bno Q s :
  fs_ok H s → dev = ROOTDEV → 0 ≤ bno < FSSIZE → (dev, bno) ∉ H →
  nlog s + Z.of_nat (size H) < NBUF →
  (∀ s', fs_eq s s' → fs_ok ({[(dev, bno)]} ∪ H) s' → Q (dev, bno) s') →
  wp (bread dev bno) Q s.
Proof.
  intros Hs -> Hb Hk Hroom HQ. set (k := (ROOTDEV, bno)) in *.
  pose proof (fs_ok_no_garbage H s Hs) as Hg.
  pose proof (HQ _ (view_hold s k _ _ _) (fs_ok_hold H s k Hs)) as HQ'.
  destruct (k_bcache s !! k) as [b|] eqn:E.
  - destruct (ok_buf H s Hs k b E) as (Hb' & _ & Hc).
    assert (klogged s k) as Hlog.
    { destruct (decide (klogged s k)) as [|Hn]; [done|]. by destruct (Hc Hn). }
    assert (view s k = b_data b) as Hv by (unfold view; by rewrite E).
    eapply wp_bread_hit; try done.
    + unfold FSSIZE in Hb. lia.
    + rewrite Hb'. simpl. by rewrite decide_False.
    + rewrite Hb'. simpl. by rewrite decide_True.
    + fold k. revert HQ'. rewrite Hv. unfold buf_of.
      rewrite (decide_True (P := klogged s k)) by done.
      rewrite !(decide_True (P := k ∈ {[k]} ∪ H)) by set_solver.
      rewrite Hb'. simpl. rewrite (decide_True (P := klogged s k)) by done.
      by rewrite decide_False.
  - assert (¬ klogged s k) as Hnl.
    { intros [_ Hl]. destruct (ok_cached H s Hs _ Hl) as [? Hc].
      change (ROOTDEV, k.2) with k in Hc. congruence. }
    apply wp_bread_miss; try done.
    + split_and!; [done|apply (ok_geom H s Hs)|lia|lia].
    + apply (ok_spin H s Hs).
    + pose proof (fs_ok_size H s Hs). unfold NBUF, MAXOPBLOCKS in *. lia.
    + fold k. revert HQ'. unfold buf_of, view. rewrite E.
      rewrite (decide_False (P := klogged s k)) by done. by rewrite !decide_True by set_solver.
Qed.

(** The contents of a held buffer. *)
Lemma wp_bdata_held H k Q s : fs_ok H s → k ∈ H → Q (view s k) s → wp (bdata k) Q s.
Proof.
  intros Hs Hk HQ. destruct (ok_held H s Hs k Hk) as [b Hb].
  eapply wp_bdata; [done|]. unfold view in HQ. by rewrite Hb in HQ.
Qed.

Lemma wp_brelse_held H k Q s :
  fs_ok H s → k ∈ H →
  (∀ s', fs_eq s s' → fs_ok (H ∖ {[k]}) s' → Q tt s') → wp (brelse k) Q s.
Proof.
  intros Hs Hk HQ. destruct (ok_held H s Hs k Hk) as [b Hb].
  destruct (ok_buf H s Hs k b Hb) as (Hb' & Hd & Hc).
  eapply wp_brelse; [done| | |].
  { rewrite Hb'. simpl. by rewrite decide_True. }
  { rewrite Hb'. simpl. by rewrite decide_True. }
  assert (view s k = b_data b) as Hv by (unfold view; by rewrite Hb).
  destruct (decide (klogged s k)) as [Hl|Hl].
  - assert (b_flags b = 6) as -> by (rewrite Hb'; simpl; by rewrite decide_True).
    simpl. apply HQ.
    { rewrite <- Hv. apply view_hold. }
    split; try by destruct Hs.
    + intros b' Hb''. simpl. destruct (decide (k = (ROOTDEV, b'))) as [->|].
      * rewrite lookup_insert_eq. by eexists.
      * rewrite lookup_insert_ne by done. by apply (ok_cached H s Hs).
    + intros k' Hk'. simpl. rewrite lookup_insert_ne by set_solver.
      apply (ok_held H s Hs). set_solver.
    + intros k' b'. simpl. destruct (decide (k = k')) as [<-|].
      * rewrite lookup_insert_eq. intros [= <-]. split_and!; [|done|done]. simpl. unfold buf_of.
        rewrite (decide_True (P := klogged _ _)) by done. by rewrite !decide_False by set_solver.
      * rewrite lookup_insert_ne by done. intros Hk''.
        apply (ok_buf H s Hs) in Hk'' as (Hk'' & Hd' & Hc'). split_and!; [|done|].
        -- change (b' = buf_of (H ∖ {[k]}) s k' (b_data b')).
           rewrite Hk'' at 1. apply (buf_of_other H). set_solver.
        -- intros Hn. destruct (Hc' Hn). split; [set_solver|done].
  - assert (b_flags b = 2) as -> by (rewrite Hb'; simpl; by rewrite decide_False).
    simpl. destruct (Hc Hl) as [_ Hdd].
    apply HQ.
    { split; [by eexists|]. intros k'. unfold view. simpl.
      destruct (decide (k = k')) as [<-|].
      - rewrite lookup_delete_eq. by rewrite Hb, Hdd.
      - by rewrite lookup_delete_ne. }
    split; try by destruct Hs.
    + intros b' Hb''. simpl. rewrite lookup_delete_ne; [by apply (ok_cached H s Hs)|].
      intros ->. by apply Hl.
    + intros k' Hk'. simpl. rewrite lookup_delete_ne by set_solver.
      apply (ok_held H s Hs). set_solver.
    + intros k' b'. simpl. destruct (decide (k = k')) as [<-|].
      * by rewrite lookup_delete_eq.
      * rewrite lookup_delete_ne by done. intros Hk''.
        apply (ok_buf H s Hs) in Hk'' as (Hk'' & Hd' & Hc'). split_and!; [|done|].
        -- change (b' = buf_of (H ∖ {[k]}) s k' (b_data b')).
           rewrite Hk'' at 1. apply (buf_of_other H). set_solver.
        -- intros Hn. destruct (Hc' Hn). split; [set_solver|done].
Qed.
End log_ops.

(** ** Stores to a held buffer *)

Lemma log_index_spec (l : list Z) (b : Z) :
  Forall (λ x, 0 ≤ x < 2 ^ 32) l →
  (b ∈ l ∧ l !! log_index l b = Some b) ∨ ((b ∉ l) ∧ log_index l b = length l).
Proof.
  induction 1 as [|x l Hx _ IH]; simpl; [right; split; [set_solver|done]|].
  rewrite u32_small by done. destruct (Z.eqb_spec x b) as [->|Hne].
  - left. split; [set_solver|done].
  - destruct IH as [[? ?]|[? ?]]; [left|right]; (split; [set_solver|]); [done|by f_equal].
Qed.

Lemma home_u32 s b : home s b → 0 ≤ b < 2 ^ 32.
Proof. intros [? _]. unfold FSSIZE in *. lia. Qed.

Lemma fs_eq_rest s s' : fs_eq s s' → rest s' = rest s.
Proof. by intros [[c ->] _]. Qed.

Lemma fs_eq_logged s s' : fs_eq s s' → logged s' = logged s.
Proof. by intros [[c ->] _]. Qed.

Lemma rest_home s s' b : rest s' = rest s → home s b → home s' b.
Proof. intros [= ? ? ? ? ? ? He Hz ? ? ?]. unfold home. by rewrite He, Hz. Qed.

Section log_store.
Implicit Types (s : kst) (k : bkey) (H : gset bkey).

Lemma log_write_header s bno :
  log_geom (k_log s) (k_havedisk1 s) → (∀ b, b ∈ logged s → home s b) → home s bno →
  lh_n (log_lh (k_log s)) < LOGSIZE →
  let lh := log_lh (k_log s) in
  let i := Z.of_nat (log_index (logged s) bno) in
  0 ≤ i < LOGSIZE ∧
  take (Z.to_nat (if i =? lh_n lh then lh_n lh + 1 else lh_n lh))
    (<[Z.to_nat i := s32 bno]> (lh_block lh)) = log_add bno (logged s) ∧
  ((i =? lh_n lh) = true ↔ bno ∉ logged s).
Proof.
  intros Hg Hh Hb Hn lh i. pose proof (length_logged s Hg) as Hlen.
  destruct Hg as [_ _ _ _ Hl Hn' _]. fold lh in Hn, Hn', Hl, Hlen.
  assert (Forall (λ x, 0 ≤ x < 2 ^ 32) (logged s)) as Hf.
  { apply Forall_forall. intros b Hb'. by eapply home_u32, Hh. }
  assert (s32 bno = bno) as -> by (apply s32_small; destruct Hb; unfold FSSIZE in *; lia).
  unfold log_add.
  destruct (log_index_spec (logged s) bno Hf) as [[Hin Hlk]|[Hin Hlk]].
  - rewrite decide_True by done. pose proof (lookup_lt_Some _ _ _ Hlk) as Hlt.
    assert (i < lh_n lh) as Hi by (unfold i; lia).
    destruct (Z.eqb_spec i (lh_n lh)); [lia|]. split_and!; [lia|lia| |by split].
    unfold i. rewrite Nat2Z.id, take_insert_lt by lia. fold (logged s).
    by apply list_insert_id.
  - rewrite decide_False by done.
    assert (i = lh_n lh) as Hi by (unfold i; rewrite Hlk, Hlen; lia).
    rewrite Hi, Z.eqb_refl. split_and!; [lia|lia| |done].
    replace (Z.to_nat (lh_n lh + 1)) with (S (Z.to_nat (lh_n lh))) by lia.
    rewrite take_S_r with (x := bno).
    + by rewrite take_insert_ge by lia.
    + rewrite list_lookup_insert_eq; [done|]. unfold LOGSIZE, MAXOPBLOCKS in *. lia.
Qed.

(** The state after the store: [lh'] is the new header. *)
Definition stored (bno : Z) (d : list Z) (lh' : logheader) (s : kst) : kst :=
  set_log (set_lh lh' (k_log s)) (set_bcache
    (<[(ROOTDEV, bno) := Buf (Z.lor B_VALID B_DIRTY) (Some (k_pid s)) 1 d]> (k_bcache s)) s).

Lemma fs_ok_stored H s bno d lh' :
  fs_ok H s → (ROOTDEV, bno) ∈ H → home s bno → block_ok d →
  length (lh_block lh') = Z.to_nat LOGSIZE → 0 ≤ lh_n lh' ≤ LOGSIZE → lh_n lh' < log_size (k_log s) →
  take (Z.to_nat (lh_n lh')) (lh_block lh') = log_add bno (logged s) →
  fs_ok H (stored bno d lh' s).
Proof.
  intros Hs Hk Hh Hd Hlen Hn Hsz Hlog. set (k := (ROOTDEV, bno)) in *. set (s' := stored bno d lh' s).
  assert (logged s' = log_add bno (logged s)) as Hlog' by done.
  assert (∀ x, x ∈ logged s' ↔ x = bno ∨ x ∈ logged s) as Hin.
  { intros x. rewrite Hlog'. unfold log_add. case_decide; set_solver. }
  split; try by destruct Hs.
  - destruct (ok_geom H s Hs). by split.
  - rewrite Hlog'. unfold log_add. case_decide; [by destruct Hs|].
    apply NoDup_app. split_and!; [by destruct Hs|set_solver|apply NoDup_singleton].
  - intros x Hx. apply Hin in Hx as [->|Hx]; [done|]. by apply (ok_home H s Hs).
  - intros x Hx. simpl. destruct (decide (k = (ROOTDEV, x))) as [<-|].
    + rewrite lookup_insert_eq. by eexists.
    + rewrite lookup_insert_ne by done. apply (ok_cached H s Hs). set_solver.
  - intros k' Hk'. simpl. destruct (decide (k = k')) as [<-|].
    + rewrite lookup_insert_eq. by eexists.
    + rewrite lookup_insert_ne by done. by apply (ok_held H s Hs).
  - intros k' b'. simpl. destruct (decide (k = k')) as [<-|Hne].
    + rewrite lookup_insert_eq. intros [= <-]. simpl.
      assert (klogged s' k) as Hkl by (split; [done|apply Hin; by left]).
      split_and!; [|done|done]. unfold buf_of. rewrite (decide_True (P := klogged s' k)) by done.
      by rewrite !decide_True.
    + rewrite lookup_insert_ne by done. intros Hk'.
      apply (ok_buf H s Hs) in Hk' as (Hk' & Hd' & Hc').
      assert (klogged s' k' ↔ klogged s k') as Hkl.
      { unfold klogged. rewrite Hin. split; [|tauto]. intros [E1 [E2|?]]; [|done].
        destruct Hne. unfold k. rewrite <- E1, <- E2. by destruct k'. }
      split_and!; [|done|by rewrite Hkl].
      rewrite Hk' at 1. unfold buf_of. f_equal.
      by destruct (decide (klogged s' k')), (decide (klogged s k')); try tauto.
Qed.

(** A store to a held buffer followed by [log_write]. *)
Lemma wp_log_store {A} H bno d (m : KM A) Q s :
  let k := (ROOTDEV, bno) in
  fs_ok H s → k ∈ H → home s bno → block_ok d → in_tx s 1 →
  (∀ s', fs_ok H s' → rest s' = rest s → k_icache s' = k_icache s → logged s' = log_add bno (logged s) →
     (∀ k', view s' k' = if decide (k' = k) then d else view s k') → wp m Q s') →
  wp (set_bdata k d ;; log_write k ;; m) Q s.
Proof.
  intros k Hs Hk Hh Hd [Hnb Hnl Hout] HQ.
  pose proof (ok_geom H s Hs) as Hg. rewrite nlog_lh_n in Hnb, Hnl by done.
  destruct (ok_held H s Hs k Hk) as [b Hb].
  destruct (ok_buf H s Hs k b Hb) as (Hb' & _ & _).
  set (lh := log_lh (k_log s)) in *. pose proof (lg_n _ _ Hg) as Hn. fold lh in Hn.
  destruct (log_write_header s bno Hg (ok_home H s Hs) Hh) as (Hi & Htake & _); [fold lh; klia|].
  fold lh in Hi, Htake. set (i := Z.of_nat (log_index (logged s) bno)) in *.
  set (n' := if i =? lh_n lh then lh_n lh + 1 else lh_n lh) in *.
  set (lh' := Logheader n' (<[Z.to_nat i := s32 bno]> (lh_block lh))).
  assert (wp m Q (stored bno d lh' s)) as Hm.
  { apply HQ; [|done|done|done|].
    - apply fs_ok_stored; try done; simpl.
      + rewrite length_insert. apply Hg.
      + unfold n'. destruct (i =? lh_n lh); klia.
      + unfold n'. destruct (i =? lh_n lh); lia.
    - intros k'. unfold view, stored. simpl. destruct (decide (k' = k)) as [->|].
      + by rewrite lookup_insert_eq.
      + by rewrite lookup_insert_ne. }
  apply wp_bind. eapply wp_set_bdata; [done|]. apply wp_bind. unfold log_write.
  apply wp_bind, wp_gets. simpl. fold lh.
  destruct (Z.leb_spec LOGSIZE (lh_n lh)); [klia|].
  destruct (Z.leb_spec (log_size (k_log s) - 1) (lh_n lh)); [lia|]. simpl.
  destruct (Z.ltb_spec (log_outstanding (k_log s)) 1); [lia|].
  apply wp_bind, wp_acquire; [simpl; rewrite (ok_spin H s Hs); set_solver|]. simpl.
  apply wp_bind. unfold lh_put, get_lh. apply wp_bind, wp_gets. simpl.
  change (take _ _) with (logged s). fold i. fold lh.
  rewrite (proj2 (Z.leb_le 0 i)), (proj2 (Z.ltb_lt i LOGSIZE)) by lia. simpl.
  apply wp_modify, wp_bind.
  eapply (wp_mono _ (λ _ s1, s1 = set_spin [L_log] (set_log (set_lh lh' (k_log s))
    (set_bcache (<[k := Buf (b_flags b) (b_lock b) (b_refcnt b) d]> (k_bcache s)) s)))).
  { apply wp_when; intros Hni.
    - apply wp_bind, wp_gets, wp_modify. unfold lh', n'. rewrite Hni.
      unfold set_spin. simpl. by rewrite (ok_spin H s Hs).
    - unfold lh', n'. rewrite Hni. unfold set_spin. simpl. by rewrite (ok_spin H s Hs). }
  intros [] s1 ->. apply wp_bind. eapply wp_buf_at; [by apply lookup_insert_eq|].
  apply wp_bind, wp_modify. simpl. eapply wp_release; [done|set_solver|].
  replace (set_spin _ _) with (stored bno d lh' s); [done|].
  unfold stored, set_spin, set_log, set_bcache. simpl. rewrite (ok_spin H s Hs).
  rewrite insert_insert_eq. f_equal. f_equal. rewrite Hb'. simpl.
  rewrite !(decide_True (P := k ∈ H)) by done. by destruct (decide (klogged s k)).
Qed.
End log_store.

(** ** Transactions

    [txstep s s' ws]: from [s] to [s'] the transaction has stored the blocks
    [ws], oldest first, and nothing else but the inode cache has changed. *)

Definition wview (ws : list (Z * list Z)) (v : bkey → list Z) : bkey → list Z :=
  foldl (λ v w k, if decide (k = (ROOTDEV, w.1)) then w.2 else v k) v ws.

Definition wlogged (ws : list (Z * list Z)) (l : list Z) : list Z := foldl (λ l w, log_add w.1 l) l ws.

Record txstep (s s' : kst) (ws : list (Z * list Z)) : Prop := {
  txs_rest : rest s' = rest s;
  txs_logged : logged s' = wlogged ws (logged s);
  txs_view : ∀ k, view s' k = wview ws (view s) k
}.

Section tx.
Implicit Types (s : kst) (ws : list (Z * list Z)) (H : gset bkey).

Lemma wview_app ws1 ws2 v : wview (ws1 ++ ws2) v = wview ws2 (wview ws1 v).
Proof. apply foldl_app. Qed.

Lemma wview_ext ws v v' k : (∀ k, v k = v' k) → wview ws v k = wview ws v' k.
Proof.
  revert v v'. induction ws as [|w ws IH]; intros v v' Hv; simpl; [done|].
  apply IH. intros k'. by case_decide.
Qed.

Lemma txstep_refl s : txstep s s [].
Proof. by split. Qed.

Lemma txstep_trans s1 s2 s3 ws1 ws2 :
  txstep s1 s2 ws1 → txstep s2 s3 ws2 → txstep s1 s3 (ws1 ++ ws2).
Proof.
  intros [R1 L1 V1] [R2 L2 V2]. split; [congruence| |].
  - rewrite L2, L1. unfold wlogged. by rewrite foldl_app.
  - intros k. rewrite V2, wview_app. apply wview_ext, V1.
Qed.

Lemma txstep_fs_eq s s' : fs_eq s s' → txstep s s' [].
Proof. intros Hs. split; [by apply fs_eq_rest|by apply fs_eq_logged|by apply Hs]. Qed.

Lemma txstep_home s s' ws b : txstep s s' ws → home s b → home s' b.
Proof. intros [R _ _]. by apply rest_home. Qed.

Lemma in_tx_mono s c c' : in_tx s c → c' ≤ c → in_tx s c'.
Proof. intros [? ? ?] Hc. split; lia. Qed.

Lemma size_add (b : Z) (X : gset Z) : (size ({[b]} ∪ X) ≤ S (size X))%nat.
Proof.
  rewrite size_union_alt, size_singleton.
  assert (size (X ∖ {[b]}) ≤ size X)%nat; [apply subseteq_size; set_solver|lia].
Qed.

(** The blocks [ws] stores. *)
Definition wset ws : gset Z := list_to_set ws.*1.

Lemma wset_app ws1 ws2 : wset (ws1 ++ ws2) = wset ws1 ∪ wset ws2.
Proof. unfold wset. by rewrite fmap_app, list_to_set_app_L. Qed.

Lemma wset_nil : wset [] = ∅.
Proof. done. Qed.

Lemma wset_snoc ws b d : wset (ws ++ [(b, d)]) = {[b]} ∪ wset ws.
Proof. rewrite wset_app. unfold wset at 2. simpl. set_solver. Qed.

Lemma elem_of_wlogged ws l b : b ∈ wlogged ws l ↔ b ∈ l ∨ b ∈ wset ws.
Proof.
  revert l. induction ws as [|w ws IH]; intros l; simpl; [unfold wset; set_solver|].
  rewrite IH. unfold log_add, wset. simpl. case_decide; set_solver.
Qed.

Lemma NoDup_wlogged ws l : NoDup l → NoDup (wlogged ws l).
Proof.
  revert l. induction ws as [|w ws IH]; intros l Hl; simpl; [done|]. apply IH.
  unfold log_add. case_decide; [done|]. apply NoDup_app. split_and!; [done|set_solver|apply NoDup_singleton].
Qed.

Lemma length_wlogged ws l :
  NoDup l → (length (wlogged ws l) ≤ length l + size (wset ws))%nat.
Proof.
  intros Hl. rewrite <- (size_list_to_set (C := gset Z) (wlogged ws l)) by by apply NoDup_wlogged.
  rewrite <- (size_list_to_set (C := gset Z) l) by done.
  assert (list_to_set (wlogged ws l) ⊆ (list_to_set l ∪ wset ws : gset Z)) as Hsub%subseteq_size.
  { intros b. rewrite elem_of_list_to_set, elem_of_wlogged. set_solver. }
  rewrite size_union_alt in Hsub.
  assert (size (wset ws ∖ list_to_set l) ≤ size (wset ws))%nat; [apply subseteq_size; set_solver|lia].
Qed.

(** An operation that began in [s0] with room for [c] blocks has stored [ws],
    and holds the buffers [H]. *)
Record op (s0 : kst) (c : Z) (ws : list (Z * list Z)) (H : gset bkey) (s : kst) : Prop := {
  op_room : in_tx s0 c;
  op_step : txstep s0 s ws;
  op_ok : fs_ok H s;
  op_nodup : NoDup (logged s0);
  op_used : Z.of_nat (size (wset ws)) ≤ c
}.

Lemma op_start H s c : fs_ok H s → in_tx s c → 0 ≤ c → op s c [] H s.
Proof. intros Hs Ht Hc. split; [done|apply txstep_refl|done|apply Hs|done]. Qed.

Lemma op_nlog s0 c ws H s : op s0 c ws H s → nlog s ≤ nlog s0 + Z.of_nat (size (wset ws)).
Proof.
  intros [_ [_ L _] _ Hnd _]. unfold nlog. rewrite L. pose proof (length_wlogged ws _ Hnd). lia.
Qed.

Lemma op_home s0 c ws H s b : op s0 c ws H s → home s0 b ↔ home s b.
Proof.
  intros [_ [R _ _] _ _ _]. split; [by apply rest_home|]. by apply rest_home.
Qed.

(** [log_write] needs room for one more block even if the block is already
    in the transaction. *)
Lemma op_in_tx s0 c ws H s d :
  op s0 c ws H s → Z.of_nat (size (wset ws)) + d ≤ c → in_tx s d.
Proof.
  intros Ho Hc. pose proof (op_nlog _ _ _ _ _ Ho) as Hn. destruct Ho as [[Hb Hz Hout] [R L _] _ Hnd Hu].
  injection R as ? ? ? ? ? ? ? E2 E3 ? ?. split; rewrite ?E2, ?E3; lia.
Qed.

Lemma op_view s0 c ws H s k : op s0 c ws H s → view s k = wview ws (view s0) k.
Proof. intros [_ [_ _ V] _ _ _]. apply V. Qed.

Lemma op_rest s0 c ws H s : op s0 c ws H s → rest s = rest s0.
Proof. intros [_ [R _ _] _ _ _]. apply R. Qed.

Lemma op_sb s0 c ws H s : op s0 c ws H s → k_sb s = k_sb s0.
Proof. intros Ho%op_rest. by injection Ho. Qed.

(** Only the cache has changed. *)
Lemma op_fs_eq s0 c ws H H' s s' :
  op s0 c ws H s → fs_eq s s' → fs_ok H' s' → op s0 c ws H' s'.
Proof.
  intros [? ? ? ? ?] He Hok. split; try done.
  rewrite <- (app_nil_r ws). eapply txstep_trans; [done|by apply txstep_fs_eq].
Qed.

(** The rules for an operation's block accesses. *)
Lemma wp_bread_op s0 c ws H b Q s :
  op s0 c ws H s → (size H ≤ 1)%nat → 0 ≤ b < FSSIZE → (ROOTDEV, b) ∉ H →
  (∀ s', op s0 c ws ({[(ROOTDEV, b)]} ∪ H) s' → k_icache s' = k_icache s → Q (ROOTDEV, b) s') →
  wp (bread ROOTDEV b) Q s.
Proof.
  intros Ho Hsz Hb Hk HQ. pose proof (op_in_tx _ _ _ _ _ 0 Ho) as Ht.
  destruct Ht as [Ht _ _]; [pose proof (op_used _ _ _ _ _ Ho); lia|].
  apply (wp_bread H); [apply Ho|done|done|done|klia|].
  intros s' He Hok. apply HQ; [by eapply op_fs_eq|]. by destruct He as [[c' ->] _].
Qed.

Lemma wp_bdata_op s0 c ws H k Q s :
  op s0 c ws H s → k ∈ H → Q (wview ws (view s0) k) s → wp (bdata k) Q s.
Proof.
  intros Ho Hk HQ. apply (wp_bdata_held H); [apply Ho|done|]. by rewrite (op_view _ _ _ _ _ _ Ho).
Qed.

Lemma wp_brelse_op s0 c ws H k Q s :
  op s0 c ws H s → k ∈ H →
  (∀ s', op s0 c ws (H ∖ {[k]}) s' → k_icache s' = k_icache s → Q tt s') →
  wp (brelse k) Q s.
Proof.
  intros Ho Hk HQ. apply (wp_brelse_held H); [apply Ho|done|].
  intros s' He Hok. apply HQ; [by eapply op_fs_eq|]. by destruct He as [[c' ->] _].
Qed.

Lemma wp_store_op {A} s0 c ws H b d (m : KM A) Q s :
  let k := (ROOTDEV, b) in
  op s0 c ws H s → k ∈ H → home s0 b → block_ok d → Z.of_nat (size (wset ws)) < c →
  (∀ s', op s0 c (ws ++ [(b, d)]) H s' → k_icache s' = k_icache s → wp m Q s') →
  wp (set_bdata k d ;; log_write k ;; m) Q s.
Proof.
  intros k Ho Hk Hh Hd Hc HQ. apply (wp_log_store H).
  - apply Ho.
  - done.
  - by apply (op_home _ _ _ _ _ _ Ho).
  - done.
  - eapply op_in_tx; [done|lia].
  - intros s' Hok Hr Hi Hl Hv. apply HQ; [|done]. split; try by destruct Ho.
    + eapply txstep_trans; [apply Ho|]. by split.
    + rewrite wset_snoc. pose proof (size_add b (wset ws)). lia.
Qed.
End tx.

Create HintDb fsop.
#[export] Hint Resolve op_ok op_room : fsop.
