(* ===== verification/LogCrash.v ===== *)
(** * LogCrash: commit is atomic, recovery is idempotent

    What log.c is for: whatever point of [commit] the machine stops at, the
    next boot's [initlog] leaves the home locations either all as they were or
    all as the transaction wants them. The commit point is the write of the
    log header. *)

From S2P Require Import Prelude State Bio Log LogOps.

(** ** Sequences of sector writes *)

Abbreviation swrite := (bkey * list Z)%type.

Definition apply_writes (ws : list swrite) (d : gmap bkey (list Z)) : gmap bkey (list Z) :=
  foldl (λ d w, <[disk_key w.1 := w.2]> d) d ws.

(** The state after the sector writes [ws]. *)
Definition wr (ws : list swrite) (s : kst) : kst :=
  set_disk (apply_writes ws (k_disk s)) (k_hist s ++ ws) s.

(** The writes of [write_log], [install_trans] and [write_head]. *)
Definition log_writes (start : Z) (bl : list Z) (data : Z → list Z) : list swrite :=
  imap (λ i b, ((ROOTDEV, start + Z.of_nat i + 1), data b)) bl.
Definition home_writes (start : Z) (bl : list Z) (d : gmap bkey (list Z)) : list swrite :=
  imap (λ i b, ((ROOTDEV, b), disk_get d (ROOTDEV, start + Z.of_nat i + 1))) bl.

(** The header block that [write_head] makes out of the old one. *)
Definition put_header (n : Z) (bl data : list Z) : list Z :=
  foldl (λ d i, set_hdr_block i (bl !!! Z.to_nat i) d) (set_hdr_n n data) (seqZ 0 n).
Definition head_write (start n : Z) (bl : list Z) (d : gmap bkey (list Z)) : swrite :=
  ((ROOTDEV, start), put_header n bl (disk_get d (ROOTDEV, start))).

(** The blocks a header on the disk names, and what recovery will write. *)
Definition hdr_list (data : list Z) : list Z := hdr_block data <$> seqZ 0 (hdr_n data).
Definition rec_writes (start : Z) (d : gmap bkey (list Z)) : list swrite :=
  home_writes start (hdr_list (disk_get d (ROOTDEV, start))) d.

(** The disk after recovery, up to the log's own blocks. *)
Definition recovered (start : Z) (d : gmap bkey (list Z)) : gmap bkey (list Z) :=
  apply_writes (rec_writes start d) d.

(** ** Algebra of writes *)

Lemma apply_writes_app ws1 ws2 d : apply_writes (ws1 ++ ws2) d = apply_writes ws2 (apply_writes ws1 d).
Proof. apply foldl_app. Qed.

Lemma wr_wr ws1 ws2 s : wr ws2 (wr ws1 s) = wr (ws1 ++ ws2) s.
Proof. unfold wr, set_disk. simpl. by rewrite apply_writes_app, app_assoc. Qed.

Lemma wr_nil s : wr [] s = s.
Proof. unfold wr, set_disk. simpl. rewrite app_nil_r. by destruct s. Qed.

Lemma disk_key_root b : disk_key (ROOTDEV, b) = (ROOTDEV, b).
Proof. done. Qed.

(** All writes go to the root disk. *)
Definition root_writes (ws : list swrite) : Prop := Forall (λ w, w.1.1 = ROOTDEV) ws.

Lemma apply_writes_other ws d b :
  root_writes ws → Forall (λ w : swrite, w.1.2 ≠ b) ws →
  disk_get (apply_writes ws d) (ROOTDEV, b) = disk_get d (ROOTDEV, b).
Proof.
  revert d. induction ws as [|[[dev b'] v] ws IH]; intros d Hr Hb; [done|].
  apply Forall_cons in Hr as [Hr1 Hr2], Hb as [Hb1 Hb2]. simpl in *. subst dev.
  rewrite IH by done. unfold disk_get. rewrite lookup_insert_ne; [done|]. intros [=]. done.
Qed.

Lemma apply_writes_nodup ws d i b v :
  root_writes ws → NoDup ((λ w : swrite, w.1.2) <$> ws) → ws !! i = Some ((ROOTDEV, b), v) →
  disk_get (apply_writes ws d) (ROOTDEV, b) = v.
Proof.
  revert d i. induction ws as [|[[dev b'] v'] ws IH]; intros d i Hr Hnd Hi; [done|].
  apply Forall_cons in Hr as [Hr1 Hr2]. simpl in *. subst dev. apply NoDup_cons in Hnd as [Hn Hnd].
  destruct i as [|i]; simpl in Hi.
  - injection Hi as -> ->. change (disk_get (apply_writes ws (<[(ROOTDEV, b) := v]> d)) (ROOTDEV, b) = v).
    rewrite apply_writes_other; [|done|].
    + unfold disk_get. by rewrite disk_key_root, lookup_insert_eq.
    + apply Forall_forall. intros w Hw Hb. apply Hn. apply list_elem_of_fmap. exists w. by rewrite Hb.
  - by apply (IH _ i).
Qed.

Lemma apply_writes_ok ws d :
  disk_ok d → Forall (λ w : swrite, block_ok w.2) ws → disk_ok (apply_writes ws d).
Proof.
  revert d. induction ws as [|w ws IH]; intros d Hd Hw; [done|].
  apply Forall_cons in Hw as [Hw1 Hw2]. simpl. apply IH; [|done]. by apply map_Forall_insert_2.
Qed.

Lemma lookup_log_writes start bl data i :
  log_writes start bl data !! i =
    (λ b, ((ROOTDEV, start + Z.of_nat i + 1), data b)) <$> bl !! i.
Proof. unfold log_writes. by rewrite list_lookup_imap. Qed.

Lemma lookup_home_writes start bl d i :
  home_writes start bl d !! i =
    (λ b, ((ROOTDEV, b), disk_get d (ROOTDEV, start + Z.of_nat i + 1))) <$> bl !! i.
Proof. unfold home_writes. by rewrite list_lookup_imap. Qed.

(** ** The header block *)

Lemma hdr_put_block_eq i v data :
  block_ok data → 0 ≤ i < LOGSIZE → hdr_block (set_hdr_block i v data) i = s32 v.
Proof.
  intros [Hl _] Hi. unfold hdr_block, set_hdr_block.
  rewrite get_put_u32_eq; [apply s32_u32|klia].
Qed.

Lemma hdr_put_block_ne i j v data :
  block_ok data → 0 ≤ i < LOGSIZE → 0 ≤ j → i ≠ j →
  hdr_block (set_hdr_block i v data) j = hdr_block data j.
Proof.
  intros [Hl _] Hi Hj Hne. unfold hdr_block, set_hdr_block.
  rewrite get_put_u32_ne; [done|klia|klia].
Qed.

Lemma hdr_put_block_n i v data :
  block_ok data → 0 ≤ i < LOGSIZE → hdr_n (set_hdr_block i v data) = hdr_n data.
Proof.
  intros [Hl _] Hi. unfold hdr_n, set_hdr_block. rewrite get_put_u32_ne; [done|klia|klia].
Qed.

Lemma put_u32_ok off v data : (off + 4 ≤ 512)%nat → block_ok data → block_ok (put_u32 off v data).
Proof. intros H [Hl Hb]. split; [rewrite length_put_u32; lia|by apply put_u32_bytes]. Qed.

(** The loop of [write_head], cut after [m] iterations. *)
Lemma put_header_loop n (bl data : list Z) m :
  block_ok data → (m ≤ Z.to_nat LOGSIZE)%nat →
  let d := foldl (λ d i, set_hdr_block i (bl !!! Z.to_nat i) d) (set_hdr_n n data) (seqZ 0 (Z.of_nat m)) in
  block_ok d ∧ hdr_n d = s32 n ∧
  ∀ i, 0 ≤ i < Z.of_nat m → hdr_block d i = s32 (bl !!! Z.to_nat i).
Proof.
  intros Hd. induction m as [|m IH]; intros Hm d.
  - unfold d. simpl. split_and!; [by apply put_u32_ok; [lia|]| |lia].
    unfold hdr_n, set_hdr_n. rewrite get_put_u32_eq; [apply s32_u32|destruct Hd; lia].
  - destruct IH as (Hd' & Hn' & Hb'); [lia|]. unfold d. clear d.
    rewrite seqZ_S, foldl_app. simpl. set (d := foldl _ _ _) in *.
    assert (0 ≤ 0 + Z.of_nat m < LOGSIZE) as Hm' by lia.
    split_and!.
    + apply put_u32_ok; [klia|done].
    + by rewrite hdr_put_block_n.
    + intros i Hi. destruct (decide (i = Z.of_nat m)) as [->|].
      * by rewrite hdr_put_block_eq.
      * rewrite hdr_put_block_ne by (done || lia). apply Hb'. lia.
Qed.

Lemma put_header_ok n bl data :
  block_ok data → 0 ≤ n ≤ LOGSIZE →
  block_ok (put_header n bl data) ∧ hdr_n (put_header n bl data) = n ∧
  ∀ i, 0 ≤ i < n → hdr_block (put_header n bl data) i = s32 (bl !!! Z.to_nat i).
Proof.
  intros Hd Hn. destruct (put_header_loop n bl data (Z.to_nat n)) as (H1 & H2 & H3); [done|lia|].
  rewrite Z2Nat.id in H1, H2, H3 by lia. unfold put_header. split_and!; [done| |done].
  rewrite H2. apply s32_small. klia.
Qed.

(** ** The functions of log.c, as sequences of sector writes *)

(** Between the functions below the log's own blocks are not cached, and
    there is a buffer to spare. *)
Record quiet (c : gmap bkey buf) (s : kst) : Prop := {
  q_geom : log_geom (k_log s) (k_havedisk1 s);
  q_spin : k_spin s = [];
  q_garbage : no_garbage c;
  q_log : ∀ i, 0 ≤ i < log_size (k_log s) → c !! (ROOTDEV, log_start (k_log s) + i) = None
}.

Lemma wp_lh_get i Q s :
  0 ≤ i < LOGSIZE → Q (lh_block (log_lh (k_log s)) !!! Z.to_nat i) s → wp (lh_get i) Q s.
Proof.
  intros Hi HQ. unfold lh_get, get_lh. apply wp_bind, wp_gets.
  by rewrite (proj2 (Z.leb_le 0 i)), (proj2 (Z.ltb_lt i LOGSIZE)) by lia.
Qed.

Section commit.
Implicit Types (s : kst) (c : gmap bkey buf).

Lemma log_size_pos l h : log_geom l h → 1 ≤ log_size l.
Proof. intros Hg. pose proof (lg_n _ _ Hg). pose proof (lg_room _ _ Hg). lia. Qed.

(** The log's own blocks are never cached between operations. *)
Lemma fs_ok_log_uncached s j :
  fs_ok ∅ s → 0 ≤ j < log_size (k_log s) → k_bcache s !! (ROOTDEV, log_start (k_log s) + j) = None.
Proof.
  intros Hs Hj. destruct (k_bcache s !! _) as [b|] eqn:E; [|done].
  destruct (ok_buf _ _ Hs _ _ E) as (_ & _ & Hc).
  destruct (decide (klogged s (ROOTDEV, log_start (k_log s) + j))) as [[_ Hl]|Hn].
  - apply (ok_home _ _ Hs) in Hl as [_ Hl]. simpl in Hl. lia.
  - by destruct (Hc Hn).
Qed.

Lemma log_key_ok s i :
  log_geom (k_log s) (k_havedisk1 s) → 0 ≤ i < log_size (k_log s) →
  key_ok s ROOTDEV (log_start (k_log s) + i).
Proof. intros [? ? ? ? ? ? ?] Hi. split_and!; [done|done|lia|lia]. Qed.

Lemma wp_write_head Q s :
  let l := k_log s in
  quiet (k_bcache s) s → Z.of_nat (size (k_bcache s)) < NBUF →
  Q tt (wr [head_write (log_start l) (lh_n (log_lh l)) (lh_block (log_lh l)) (k_disk s)] s) →
  wp write_head Q s.
Proof.
  intros l [Hg Hsp Hng Hlog] Hsz HQ. pose proof (lg_n _ _ Hg) as Hn. pose proof (lg_room _ _ Hg) as Hr.
  fold l in Hg, Hlog, Hn, Hr. unfold write_head. apply wp_bind, wp_gets. fold l. rewrite (lg_dev _ _ Hg).
  pose proof (log_key_ok s 0 Hg ltac:(fold l; lia)) as Hk. fold l in Hk. rewrite Z.add_0_r in Hk.
  pose proof (Hlog 0 ltac:(lia)) as Hc. rewrite Z.add_0_r in Hc.
  set (k := (ROOTDEV, log_start l)) in *.
  apply wp_bind, wp_bread_miss; [done|done|done|done|done|]. fold k.
  apply wp_bind, wp_gets, wp_bind. simpl.
  eapply wp_bdata; [by apply lookup_insert_eq|].
  apply wp_bind. eapply wp_set_bdata; [by apply lookup_insert_eq|]. simpl.
  set (hd i := foldl (λ d i, set_hdr_block i (lh_block (log_lh l) !!! Z.to_nat i) d)
                 (set_hdr_n (lh_n (log_lh l)) (disk_get (k_disk s) k)) (seqZ 0 (Z.of_nat i))).
  set (st d := set_bcache (<[k := Buf B_VALID (Some (k_pid s)) 1 d]> (k_bcache s)) s).
  apply wp_bind.
  apply (wp_for_each _ _ (λ i s', s' = st (hd i))).
  { unfold st, hd, set_bcache. simpl. by rewrite insert_insert_eq. }
  - intros i x s' [-> Hi]%lookup_seqZ ->. simpl in Hi. fold l in Hi.
    apply wp_bind, wp_lh_get; [klia|].
    apply wp_bind. eapply wp_bdata; [by apply lookup_insert_eq|].
    eapply wp_set_bdata; [by apply lookup_insert_eq|]. simpl.
    unfold st, hd. rewrite seqZ_S, foldl_app. unfold set_bcache. simpl. by rewrite insert_insert_eq.
  - intros s'. rewrite length_seqZ. intros ->. apply wp_bind.
    eapply wp_bwrite; [done|done|by apply lookup_insert_eq|done|by left|]. simpl.
    eapply wp_brelse; [by apply lookup_insert_eq|done|done|]. simpl.
    unfold hd. simpl. fold l. rewrite Z2Nat.id by lia.
    fold (put_header (lh_n (log_lh l)) (lh_block (log_lh l)) (disk_get (k_disk s) k)).
    unfold wr, head_write, set_disk, set_bcache in *. simpl in *.
    by rewrite insert_insert_eq, delete_insert_id.
Qed.

(** One turn of [write_log]'s loop. *)
Lemma wp_write_log_body tail b d Q s :
  let l := k_log s in
  quiet (k_bcache s) s → Z.of_nat (size (k_bcache s)) < NBUF →
  0 ≤ tail < LOGSIZE → tail + 1 < log_size l → lh_block (log_lh l) !!! Z.to_nat tail = b → home s b →
  k_bcache s !! (ROOTDEV, b) = Some (Buf (Z.lor B_VALID B_DIRTY) None 0 d) →
  Q tt (wr [((ROOTDEV, log_start l + tail + 1), d)] s) →
  wp (l ← gets k_log;
      to ← bread (log_dev l) (log_start l + tail + 1);
      b ← lh_get tail;
      from ← bread (log_dev l) b;
      d ← bdata from;
      set_bdata to d ;; bwrite to ;; brelse from ;; brelse to) Q s.
Proof.
  intros l [Hg Hsp Hng Hlog] Hsz Ht Ht' Hb Hh Hc HQ. apply wp_bind, wp_gets. fold l in Hg, Hlog |- *.
  rewrite (lg_dev _ _ Hg). pose proof (log_key_ok s (tail + 1) Hg ltac:(fold l; lia)) as Hk.
  pose proof (Hlog (tail + 1) ltac:(lia)) as Hn. fold l in Hk. rewrite Z.add_assoc in Hk, Hn.
  set (kt := (ROOTDEV, log_start l + tail + 1)) in *. set (kf := (ROOTDEV, b)) in *.
  assert (kt ≠ kf) as Hne by (intros E; rewrite E in Hn; congruence).
  apply wp_bind, wp_bread_miss; [done|done|done|done|done|]. fold kt.
  apply wp_bind, wp_lh_get; [done|]. simpl. fold l. rewrite Hb.
  apply wp_bind. eapply wp_bread_hit; fold kf.
  { klia. } { destruct Hh; klia. }
  { intros k' b'. simpl. rewrite lookup_insert. case_decide; [intros [= <-]; by left|apply Hng]. }
  { simpl. by rewrite lookup_insert_ne. } { done. } { done. }
  simpl. apply wp_bind. eapply wp_bdata; [by apply lookup_insert_eq|]. simpl.
  apply wp_bind. eapply wp_set_bdata.
  { simpl. by rewrite lookup_insert_ne, lookup_insert_eq. }
  simpl. apply wp_bind. eapply wp_bwrite; [done|done|by apply lookup_insert_eq|done|by left|].
  simpl. apply wp_bind. eapply wp_brelse.
  { simpl. by rewrite !(lookup_insert_ne _ kt), lookup_insert_eq. } { done. } { done. }
  simpl. eapply wp_brelse.
  { simpl. by rewrite lookup_insert_ne, lookup_insert_eq. } { done. } { done. }
  simpl. revert HQ. unfold wr, set_disk, set_bcache. simpl.
  replace (delete kt _) with (k_bcache s); [done|].
  apply map_eq. intros k. rewrite lookup_delete, !lookup_insert.
  repeat case_decide; by subst.
Qed.

(** [write_log] copies the transaction's blocks into the log. *)
Lemma wp_write_log Q s :
  fs_ok ∅ s → nlog s < NBUF →
  Q tt (wr (log_writes (log_start (k_log s)) (logged s) (λ b, view s (ROOTDEV, b))) s) →
  wp write_log Q s.
Proof.
  intros Hs Hn HQ. pose proof (ok_geom _ _ Hs) as Hg.
  set (ws := log_writes _ _ _) in *. unfold write_log. apply wp_bind, wp_gets.
  apply (wp_for_each _ _ (λ i s', s' = wr (take i ws) s)).
  { by rewrite take_0, wr_nil. }
  - intros i x s' [-> Hi]%lookup_seqZ ->.
    pose proof (lg_n _ _ Hg) as Hn'. pose proof (lg_room _ _ Hg) as Hr. pose proof (length_logged s Hg) as Hlen.
    destruct (lookup_lt_is_Some_2 (logged s) i) as [b Hb]; [lia|].
    destruct (ok_cached _ _ Hs b) as [bf Hbf]; [by eapply list_elem_of_lookup_2|].
    destruct (ok_buf _ _ Hs _ _ Hbf) as (Hbf' & _ & _).
    apply (wp_write_log_body _ b (b_data bf)).
    + split; try done; simpl.
      * apply (ok_spin _ _ Hs).
      * by eapply fs_ok_no_garbage.
      * intros j Hj. by eapply fs_ok_log_uncached.
    + simpl. pose proof (fs_ok_size _ _ Hs). rewrite size_empty in *. lia.
    + lia.
    + simpl. lia.
    + simpl. rewrite Z.add_0_l, Nat2Z.id. apply list_lookup_total_correct.
      unfold logged in Hb. by apply lookup_take_Some in Hb as [? _].
    + apply (ok_home _ _ Hs). by eapply list_elem_of_lookup_2.
    + simpl. rewrite Hbf. f_equal. rewrite Hbf' at 1. unfold buf_of.
      rewrite decide_True by (split; [done|by eapply list_elem_of_lookup_2]).
      by rewrite !decide_False by set_solver.
    + rewrite wr_wr. f_equal. symmetry. apply take_S_r. unfold ws. rewrite lookup_log_writes, Hb. simpl.
      unfold view. by rewrite Hbf.
  - intros s'. rewrite length_seqZ. intros ->.
    rewrite take_ge; [done|]. unfold ws, log_writes. rewrite length_imap, length_logged by done. done.
Qed.

(** A buffer of the transaction that nobody holds. *)
Definition idle (b : buf) : Prop := ∃ d, b = Buf (Z.lor B_VALID B_DIRTY) None 0 d.

(** One turn of [install_trans]'s loop: the home block goes to the disk and
    leaves the cache. *)
Lemma wp_install_body tail b Q s :
  let l := k_log s in
  let c := k_bcache s in
  quiet c s → 0 ≤ tail < LOGSIZE → tail + 1 < log_size l → lh_block (log_lh l) !!! Z.to_nat tail = b → home s b →
  (c !! (ROOTDEV, b) = None ∧ Z.of_nat (size c) + 1 < NBUF ∨
   (∃ bf, c !! (ROOTDEV, b) = Some bf ∧ idle bf) ∧ Z.of_nat (size c) < NBUF) →
  Q tt (set_bcache (delete (ROOTDEV, b) c)
    (wr [((ROOTDEV, b), disk_get (k_disk s) (ROOTDEV, log_start l + tail + 1))] s)) →
  wp (l ← gets k_log;
      lbuf ← bread (log_dev l) (log_start l + tail + 1);
      b ← lh_get tail;
      dbuf ← bread (log_dev l) b;
      d ← bdata lbuf;
      set_bdata dbuf d ;; bwrite dbuf ;; brelse lbuf ;; brelse dbuf) Q s.
Proof.
  intros l c [Hg Hsp Hng Hlog] Ht Ht' Hb Hh Hc HQ. apply wp_bind, wp_gets. fold l in Hg, Hlog |- *.
  rewrite (lg_dev _ _ Hg). pose proof (log_key_ok s (tail + 1) Hg ltac:(fold l; lia)) as Hk.
  pose proof (Hlog (tail + 1) ltac:(lia)) as Hn. fold l in Hk. rewrite Z.add_assoc in Hk, Hn.
  set (kl := (ROOTDEV, log_start l + tail + 1)) in *. set (kb := (ROOTDEV, b)) in *.
  assert (kl ≠ kb) as Hne.
  { intros [= E]. destruct Hh as [_ Hh]. fold l in Hh. klia. }
  assert (key_ok s ROOTDEV b) as Hkb by (destruct Hh; split_and!; [done|apply Hg|lia|lia]).
  apply wp_bind, wp_bread_miss; [done|done|done|done|fold c; lia|]. fold kl.
  apply wp_bind, wp_lh_get; [done|]. simpl. fold l. rewrite Hb.
  set (c1 := <[kl := Buf B_VALID (Some (k_pid s)) 1 (disk_get (k_disk s) kl)]> c).
  assert (no_garbage c1) as Hng1.
  { intros k' b'. unfold c1. rewrite lookup_insert. case_decide; [intros [= <-]; by left|apply Hng]. }
  (* the home block, cached or not, is now held *)
  apply wp_bind.
  assert (∃ f d, (f = B_VALID ∨ f = Z.lor B_VALID B_DIRTY) ∧ ∀ Q',
    Q' kb (set_bcache (<[kb := Buf f (Some (k_pid s)) 1 d]> c1) s) →
    wp (bread ROOTDEV b) Q' (set_bcache c1 s)) as (f & d & Hf & Hread).
  { destruct Hc as [[Hc Hsz]|[(bf & Hc & [d ->]) Hsz]].
    - exists B_VALID, (disk_get (k_disk s) kb). split; [by left|]. intros Q' HQ'.
      apply wp_bread_miss; [done|done|done| |..].
      + simpl. unfold c1. fold kb. by rewrite lookup_insert_ne.
      + simpl. unfold c1. rewrite map_size_insert_None by done. lia.
      + done.
    - exists (Z.lor B_VALID B_DIRTY), d. split; [by right|]. intros Q' HQ'.
      apply (wp_bread_hit _ _ (Buf (Z.lor B_VALID B_DIRTY) None 0 d)); fold kb;
        [klia|destruct Hh; klia|done| |done|done|done].
      simpl. unfold c1. by rewrite lookup_insert_ne. }
  apply Hread. clear Hread Hc. apply wp_bind. eapply wp_bdata.
  { simpl. unfold c1. by rewrite lookup_insert_ne, lookup_insert_eq. }
  simpl. apply wp_bind. eapply wp_set_bdata; [by apply lookup_insert_eq|].
  simpl. apply wp_bind. eapply wp_bwrite; [done|done|by apply lookup_insert_eq|done|done|].
  simpl. apply wp_bind. eapply wp_brelse.
  { simpl. unfold c1. by rewrite !(lookup_insert_ne _ kb), lookup_insert_eq. } { done. } { done. }
  simpl. eapply wp_brelse.
  { simpl. by rewrite lookup_delete_ne, lookup_insert_eq. } { done. } { done. }
  simpl. revert HQ. unfold wr, set_disk, set_bcache. simpl.
  replace (delete kb (delete _ _)) with (delete kb c); [done|].
  apply map_eq. intros k. unfold c1. rewrite !lookup_delete, !lookup_insert.
  repeat case_decide; by subst.
Qed.

(** The cache without the home blocks [bl]. *)
Definition uncache (bl : list Z) c : gmap bkey buf := foldl (λ c b, delete (ROOTDEV, b) c) c bl.

Lemma lookup_uncache bl c k :
  uncache bl c !! k = if decide (k.1 = ROOTDEV ∧ k.2 ∈ bl) then None else c !! k.
Proof.
  revert c. induction bl as [|b bl IH]; intros c; simpl.
  - rewrite decide_False; [done|]. set_solver.
  - rewrite IH. destruct (decide (k = (ROOTDEV, b))) as [->|Hne].
    + rewrite lookup_delete_eq. by repeat case_decide; simpl in *; set_solver.
    + rewrite lookup_delete_ne by done.
      assert (k.1 = ROOTDEV ∧ k.2 ∈ b :: bl ↔ k.1 = ROOTDEV ∧ k.2 ∈ bl) as Hiff.
      { rewrite elem_of_cons. split; [|tauto]. intros [? [?|?]]; [|done].
        destruct Hne, k; simpl in *; congruence. }
      by repeat case_decide; try tauto.
Qed.

Lemma size_uncache bl c : (size (uncache bl c) ≤ size c)%nat.
Proof.
  apply map_subseteq_size. apply map_subseteq_spec. intros k b.
  rewrite lookup_uncache. by case_decide.
Qed.

(** [install_trans] writes the log's blocks to their homes, in order. *)
Lemma wp_install_trans Q s :
  let l := k_log s in
  let c := k_bcache s in
  let bl := logged s in
  quiet c s → (∀ b, b ∈ bl → home s b) → (∀ k b, c !! k = Some b → idle b) →
  (Z.of_nat (size c) + 1 < NBUF ∨
   NoDup bl ∧ (∀ b, b ∈ bl → is_Some (c !! (ROOTDEV, b))) ∧ Z.of_nat (size c) < NBUF) →
  Q tt (set_bcache (uncache bl c) (wr (home_writes (log_start l) bl (k_disk s)) s)) →
  wp install_trans Q s.
Proof.
  intros l c bl [Hg Hsp Hng Hlog] Hh Hid Hroom HQ.
  set (ws := home_writes _ _ _) in *. unfold install_trans. apply wp_bind, wp_gets.
  apply (wp_for_each _ _ (λ i s', s' = set_bcache (uncache (take i bl) c) (wr (take i ws) s))).
  { unfold uncache. rewrite !take_0, wr_nil. by destruct s. }
  - intros i x s' [-> Hi]%lookup_seqZ ->.
    pose proof (lg_n _ _ Hg) as Hn'. pose proof (lg_room _ _ Hg) as Hr. pose proof (length_logged s Hg) as Hlen. fold bl in Hlen.
    destruct (lookup_lt_is_Some_2 bl i) as [b Hb]; [lia|].
    apply (wp_install_body _ b); simpl.
    + split; simpl; try done.
      * intros k bf. rewrite lookup_uncache. case_decide; [done|apply Hng].
      * intros j Hj. rewrite lookup_uncache. case_decide; [done|]. by apply Hlog.
    + lia.
    + lia.
    + rewrite Z.add_0_l, Nat2Z.id. apply list_lookup_total_correct.
      unfold bl, logged in Hb. by apply lookup_take_Some in Hb as [? _].
    + apply Hh. by eapply list_elem_of_lookup_2.
    + pose proof (size_uncache (take i bl) c).
      destruct (uncache (take i bl) c !! (ROOTDEV, b)) as [bf|] eqn:E.
      * right. rewrite lookup_uncache in E. case_decide; [done|]. split; [|lia].
        exists bf. split; [done|]. by eapply Hid.
      * destruct Hroom as [?|(Hnd & Hin & ?)]; [left; split; [done|lia]|]. exfalso.
        rewrite lookup_uncache in E. case_decide as Hd.
        -- destruct Hd as [_ [j Hj]%list_elem_of_lookup]. simpl in Hj.
           apply lookup_take_Some in Hj as [Hj ?]. pose proof (NoDup_lookup _ _ _ _ Hnd Hb Hj). lia.
        -- destruct (Hin b) as [? He]; [by eapply list_elem_of_lookup_2|congruence].
    + assert (ws !! i = Some ((ROOTDEV, b), disk_get (k_disk s) (ROOTDEV, log_start l + Z.of_nat i + 1))) as Hw.
      { unfold ws. by rewrite lookup_home_writes, Hb. }
      rewrite !(take_S_r _ _ _ Hw), (take_S_r _ _ _ Hb).
      rewrite Z.add_0_l. unfold wr, set_bcache, set_disk, uncache. simpl.
      rewrite foldl_app, apply_writes_app, app_assoc. simpl.
      rewrite (apply_writes_other (take i ws)); [done| |].
      * apply Forall_take. unfold ws, home_writes. apply Forall_forall.
        intros w Hw'. apply elem_of_lookup_imap_1 in Hw' as (? & ? & -> & _). done.
      * apply Forall_take, Forall_lookup_2. intros j w. unfold ws. rewrite lookup_home_writes.
        destruct (bl !! j) eqn:Ej; [|done]. intros [= <-]. simpl. intros ->.
        apply list_elem_of_lookup_2, Hh in Ej as [_ Ej]. lia.
  - intros s'. rewrite length_seqZ. intros ->.
    pose proof (length_logged s Hg) as Hlen. fold bl in Hlen.
    rewrite !take_ge; [done| |lia]. unfold ws, home_writes. rewrite length_imap. lia.
Qed.

(** *** Commit *)

Definition txdata (s : kst) (b : Z) : list Z := view s (ROOTDEV, b).
Definition old_head (s : kst) : list Z := disk_get (k_disk s) (ROOTDEV, log_start (k_log s)).
Definition new_head (s : kst) : list Z :=
  put_header (lh_n (log_lh (k_log s))) (lh_block (log_lh (k_log s))) (old_head s).
Definition erased_head (s : kst) : list Z := put_header 0 (lh_block (log_lh (k_log s))) (new_head s).

(** Everything [commit] writes, in order. *)
Definition commit_log (s : kst) : list swrite := log_writes (log_start (k_log s)) (logged s) (txdata s).
Definition commit_home (s : kst) : list swrite := (λ b, ((ROOTDEV, b), txdata s b)) <$> logged s.
Definition commit_writes (s : kst) : list swrite :=
  (commit_log s ++ [((ROOTDEV, log_start (k_log s)), new_head s)]) ++
  commit_home s ++ [((ROOTDEV, log_start (k_log s)), erased_head s)].

(** The header block of [s] is a [struct logheader]. *)
Definition header_ok (start len : Z) (data : list Z) : Prop :=
  (0 ≤ hdr_n data ≤ LOGSIZE ∧ hdr_n data < len) ∧
  ∀ b, b ∈ hdr_list data → 0 ≤ b < FSSIZE ∧ ¬ (start ≤ b < start + len).

Lemma root_log_writes start bl data : root_writes (log_writes start bl data).
Proof.
  apply Forall_lookup_2. intros i w. rewrite lookup_log_writes.
  destruct (bl !! i); [|done]. by intros [= <-].
Qed.

Lemma root_home_writes start bl d : root_writes (home_writes start bl d).
Proof.
  apply Forall_lookup_2. intros i w. rewrite lookup_home_writes.
  destruct (bl !! i); [|done]. by intros [= <-].
Qed.

(** Log writes land strictly inside the log, past the header. *)
Lemma log_writes_range start bl data i w :
  log_writes start bl data !! i = Some w → w.1.2 = start + Z.of_nat i + 1 ∧ (i < length bl)%nat.
Proof.
  rewrite lookup_log_writes. destruct (bl !! i) eqn:E; [|done].
  apply lookup_lt_Some in E. by intros [= <-].
Qed.

Lemma apply_log_writes_other start bl data d b :
  ¬ (start < b ≤ start + Z.of_nat (length bl)) →
  disk_get (apply_writes (log_writes start bl data) d) (ROOTDEV, b) = disk_get d (ROOTDEV, b).
Proof.
  intros Hb. apply apply_writes_other; [apply root_log_writes|].
  apply Forall_lookup_2. intros i w [Hw Hi]%log_writes_range. lia.
Qed.

Lemma apply_log_writes_at start bl data d i b :
  bl !! i = Some b →
  disk_get (apply_writes (log_writes start bl data) d) (ROOTDEV, start + Z.of_nat i + 1) = data b.
Proof.
  intros Hb. eapply (apply_writes_nodup _ _ i); [apply root_log_writes| |].
  - apply NoDup_alt. intros j1 j2 x. rewrite !list_lookup_fmap.
    destruct (log_writes start bl data !! j1) eqn:E1; [|done].
    destruct (log_writes start bl data !! j2) eqn:E2; [|done].
    apply log_writes_range in E1 as [E1 _], E2 as [E2 _]. simpl. intros [= <-] [= ?]. lia.
  - by rewrite lookup_log_writes, Hb.
Qed.

Lemma fs_ok_quiet s : fs_ok ∅ s → quiet (k_bcache s) s.
Proof.
  intros Hs. split; [apply Hs|apply Hs|by eapply fs_ok_no_garbage|].
  intros j Hj. by eapply fs_ok_log_uncached.
Qed.

Lemma fs_ok_idle s k b : fs_ok ∅ s → k_bcache s !! k = Some b → idle b ∧ klogged s k.
Proof.
  intros Hs Hb. destruct (ok_buf _ _ Hs _ _ Hb) as (Hb' & _ & Hc).
  destruct (decide (klogged s k)) as [Hk|Hn]; [|by destruct (Hc Hn)]. split; [|done].
  exists (b_data b). rewrite Hb' at 1. unfold buf_of. rewrite decide_True by done.
  by rewrite !decide_False by set_solver.
Qed.

Lemma fs_ok_uncache s : fs_ok ∅ s → uncache (logged s) (k_bcache s) = ∅.
Proof.
  intros Hs. apply map_eq. intros k. rewrite lookup_uncache, lookup_empty. case_decide as Hn; [done|].
  destruct (k_bcache s !! k) eqn:E; [|done]. by apply fs_ok_idle in E as [_ ?].
Qed.

Lemma commit_home_writes s ws :
  fs_ok ∅ s → ws = [((ROOTDEV, log_start (k_log s)), new_head s)] →
  home_writes (log_start (k_log s)) (logged s) (apply_writes (commit_log s ++ ws) (k_disk s)) = commit_home s.
Proof.
  intros Hs ->. apply list_eq. intros i. rewrite lookup_home_writes. unfold commit_home.
  rewrite list_lookup_fmap. destruct (logged s !! i) as [b|] eqn:Hb; [|done]. simpl. do 2 f_equal.
  rewrite apply_writes_app, apply_writes_other;
    [|by apply Forall_singleton|apply Forall_singleton; simpl; lia].
  by apply apply_log_writes_at.
Qed.

Lemma commit_home_range s w :
  w ∈ commit_home s → ∃ b, w = ((ROOTDEV, b), txdata s b) ∧ b ∈ logged s.
Proof. by intros (b & -> & Hb)%list_elem_of_fmap; exists b. Qed.

Lemma apply_commit_home_other s ws d b :
  ws ⊆ commit_home s → b ∉ logged s →
  disk_get (apply_writes ws d) (ROOTDEV, b) = disk_get d (ROOTDEV, b).
Proof.
  intros Hws Hb. apply apply_writes_other; apply Forall_forall; intros w Hw;
    apply Hws, commit_home_range in Hw as (b' & -> & Hb'); simpl; [done|].
  intros ->. done.
Qed.

(** Where [commit] ends: every write done, the cache empty, no transaction. *)
Definition committed (s : kst) : kst :=
  set_log (set_lh (Logheader 0 (lh_block (log_lh (k_log s)))) (k_log s))
    (set_bcache ∅ (wr (commit_writes s) s)).

Lemma commit_run s : fs_ok ∅ s → 0 < nlog s < NBUF → commit s = Ok tt (committed s).
Proof.
  intros Hs Hn. enough (wp commit (λ _ s', s' = committed s) s) as Hw.
  { apply wp_run in Hw as ([] & s' & -> & ->). done. }
  pose proof (ok_geom _ _ Hs) as Hg. pose proof (nlog_lh_n s Hg) as Hnl.
  pose proof (fs_ok_quiet s Hs) as Hq. pose proof (fs_ok_size _ _ Hs) as Hsz. rewrite size_empty in Hsz.
  assert (log_start (k_log s) ∉ logged s) as Hst.
  { intros [_ Hb]%(ok_home _ _ Hs). pose proof (lg_room _ _ Hg). lia. }
  unfold commit. apply wp_bind, wp_gets, wp_when; [intros _|rewrite Z.ltb_ge; lia].
  apply wp_bind, wp_write_log; [done|lia|]. fold (txdata s) (commit_log s).
  apply wp_bind, wp_write_head; [by destruct Hq; split|simpl; lia|]. simpl. rewrite wr_wr.
  assert (head_write (log_start (k_log s)) (lh_n (log_lh (k_log s))) (lh_block (log_lh (k_log s)))
    (apply_writes (commit_log s) (k_disk s)) = ((ROOTDEV, log_start (k_log s)), new_head s)) as ->.
  { unfold head_write, commit_log. by rewrite apply_log_writes_other by lia. }
  apply wp_bind, wp_install_trans; simpl.
  { by destruct Hq; split. } { apply (ok_home _ _ Hs). }
  { intros k b Hb. by apply (fs_ok_idle s) in Hb as [? _]. }
  { right. split_and!; [apply Hs|apply Hs|lia]. }
  change (logged (wr _ s)) with (logged s). rewrite commit_home_writes by done.
  rewrite fs_ok_uncache by done. rewrite wr_wr.
  apply wp_bind, wp_bind, wp_gets, wp_modify, wp_write_head; simpl.
  { destruct Hq as [[] ? ? ?]. split; try done. split; simpl; (done || lia). }
  { rewrite map_size_empty. klia. }
  assert (head_write (log_start (k_log s)) 0 (lh_block (log_lh (k_log s))) (apply_writes
    ((commit_log s ++ [((ROOTDEV, log_start (k_log s)), new_head s)]) ++ commit_home s) (k_disk s))
    = ((ROOTDEV, log_start (k_log s)), erased_head s)) as ->.
  { unfold head_write, erased_head. do 2 f_equal.
    rewrite !apply_writes_app, (apply_commit_home_other s) by done.
    unfold disk_get at 1. by rewrite disk_key_root; simpl; rewrite lookup_insert_eq. }
  unfold committed, wr, set_log, set_disk, set_bcache, commit_writes. simpl.
  by rewrite <- !app_assoc, !apply_writes_app.
Qed.

(** *** Recovery *)

(** The header block as read into [log.lh]. *)
Definition head_of (data : list Z) (blk : list Z) : logheader :=
  Logheader (hdr_n data) (foldl (λ bl i, <[Z.to_nat i := hdr_block data i]> bl) blk (seqZ 0 (hdr_n data))).

Lemma head_of_loop data (blk : list Z) m :
  (m ≤ length blk)%nat →
  let bl := foldl (λ bl i, <[Z.to_nat i := hdr_block data i]> bl) blk (seqZ 0 (Z.of_nat m)) in
  length bl = length blk ∧ take m bl = hdr_block data <$> seqZ 0 (Z.of_nat m).
Proof.
  induction m as [|m IH]; intros Hm bl; [done|]. unfold bl. clear bl.
  rewrite !seqZ_S, !Z.add_0_l, foldl_app. destruct IH as [IH1 IH2]; [lia|]. set (bl := foldl _ _ _) in *. simpl.
  rewrite length_insert, Nat2Z.id. split; [done|]. rewrite fmap_app.
  rewrite (take_S_r _ _ (hdr_block data (Z.of_nat m))) by (rewrite list_lookup_insert_eq; [done|lia]).
  by rewrite take_insert_ge, IH2 by lia.
Qed.

Lemma head_of_ok data (blk : list Z) :
  length blk = Z.to_nat LOGSIZE → 0 ≤ hdr_n data ≤ LOGSIZE →
  length (lh_block (head_of data blk)) = Z.to_nat LOGSIZE ∧
  take (Z.to_nat (hdr_n data)) (lh_block (head_of data blk)) = hdr_list data.
Proof.
  intros Hl Hn. destruct (head_of_loop data blk (Z.to_nat (hdr_n data))) as [H1 H2]; [lia|].
  rewrite Z2Nat.id in H1, H2 by lia. unfold head_of. simpl. split; [by rewrite H1|done].
Qed.

Lemma wp_read_head Q s :
  let l := k_log s in
  let data := disk_get (k_disk s) (ROOTDEV, log_start l) in
  quiet (k_bcache s) s → Z.of_nat (size (k_bcache s)) < NBUF → 0 ≤ hdr_n data ≤ LOGSIZE →
  Q tt (set_log (set_lh (head_of data (lh_block (log_lh l))) l) s) →
  wp read_head Q s.
Proof.
  intros l data [Hg Hsp Hng Hlog] Hsz Hn HQ. pose proof (log_size_pos _ _ Hg) as Hpos.
  fold l in Hg, Hlog, Hpos. unfold read_head.
  apply wp_bind, wp_gets. fold l. rewrite (lg_dev _ _ Hg).
  pose proof (log_key_ok s 0 Hg ltac:(fold l; lia)) as Hk. fold l in Hk. rewrite Z.add_0_r in Hk.
  pose proof (Hlog 0 ltac:(lia)) as Hc. rewrite Z.add_0_r in Hc.
  set (k := (ROOTDEV, log_start l)) in *.
  apply wp_bind, wp_bread_miss; [done|done|done|done|done|]. fold k.
  apply wp_bind. eapply wp_bdata; [by apply lookup_insert_eq|]. simpl. fold data.
  apply wp_bind, wp_bind, wp_gets, wp_modify. simpl. fold l.
  set (bl i := foldl (λ bl i, <[Z.to_nat i := hdr_block data i]> bl) (lh_block (log_lh l))
                 (seqZ 0 (Z.of_nat i))).
  set (st i := set_log (set_lh (Logheader (hdr_n data) (bl i)) l)
                 (set_bcache (<[k := Buf B_VALID (Some (k_pid s)) 1 data]> (k_bcache s)) s)).
  apply wp_bind, (wp_for_each _ _ (λ i s', s' = st i)); [done|..].
  - intros i x s' [-> Hi]%lookup_seqZ ->. unfold lh_put. apply wp_bind, wp_gets.
    rewrite (proj2 (Z.leb_le 0 _)), (proj2 (Z.ltb_lt _ LOGSIZE)) by lia. apply wp_modify.
    unfold st, bl. by rewrite seqZ_S, foldl_app.
  - intros s'. rewrite length_seqZ. intros ->.
    eapply wp_brelse; [by apply lookup_insert_eq|done|done|]. simpl.
    unfold st, bl. rewrite Z2Nat.id by lia.
    unfold set_log, set_bcache in *. simpl in *. by rewrite delete_insert_id.
Qed.

(** What recovery leaves: the header's blocks installed, the header erased. *)
Definition recover_writes (start : Z) (blk : list Z) (d : gmap bkey (list Z)) : list swrite :=
  rec_writes start d ++
  [((ROOTDEV, start), put_header 0 (lh_block (head_of (disk_get d (ROOTDEV, start)) blk))
                        (disk_get d (ROOTDEV, start)))].

Lemma wp_recover Q s :
  let l := k_log s in
  let data := disk_get (k_disk s) (ROOTDEV, log_start l) in
  let blk := lh_block (log_lh l) in
  log_geom l (k_havedisk1 s) → k_spin s = [] → k_bcache s = ∅ → header_ok (log_start l) (log_size l) data →
  Q tt (set_log (set_lh (Logheader 0 (lh_block (head_of data blk))) l)
         (wr (recover_writes (log_start l) blk (k_disk s)) s)) →
  wp recover_from_log Q s.
Proof.
  intros l data blk Hg Hsp Hc [[Hn Hn'] Hb] HQ.
  destruct (head_of_ok data blk) as [Hlen Htake]; [apply Hg|done|].
  assert (∀ s', k_log s' = set_lh (Logheader (lh_n (log_lh (k_log s'))) (lh_block (log_lh (k_log s')))) l →
    length (lh_block (log_lh (k_log s'))) = Z.to_nat LOGSIZE → 0 ≤ lh_n (log_lh (k_log s')) ≤ LOGSIZE →
    lh_n (log_lh (k_log s')) < log_size l → k_havedisk1 s' = k_havedisk1 s → k_spin s' = [] → quiet ∅ s') as Hq.
  { intros s' Hl H1 H2 H2' H3 H4. split; [|done|by intros ? ?|by intros; rewrite lookup_empty].
    destruct Hg. rewrite H3. split; try done; rewrite Hl; done. }
  unfold recover_from_log. apply wp_bind, wp_read_head.
  { rewrite Hc. apply Hq; try done; [|apply Hg..]. fold l. by destruct l as [? ? ? ? ? []]. }
  { rewrite Hc, map_size_empty. klia. } { done. }
  fold l data blk. set (s1 := set_log _ s).
  assert (logged s1 = hdr_list data) as Hl by exact Htake.
  apply wp_bind, wp_install_trans.
  { change (k_bcache s1) with (k_bcache s). rewrite Hc. by apply Hq. }
  { intros b. rewrite Hl. apply Hb. }
  { change (k_bcache s1) with (k_bcache s). rewrite Hc. by intros k b. }
  { left. change (k_bcache s1) with (k_bcache s). rewrite Hc, map_size_empty. klia. }
  change (k_bcache s1) with (k_bcache s). rewrite Hc, Hl.
  assert (uncache (hdr_list data) ∅ = ∅) as ->.
  { apply map_eq. intros k. rewrite lookup_uncache. by case_decide. }
  apply wp_bind, wp_bind, wp_gets, wp_modify, wp_write_head.
  { apply Hq; try done. simpl. lia. } { simpl. rewrite map_size_empty. klia. }
  assert (disk_get (apply_writes (home_writes (log_start l) (hdr_list data) (k_disk s)) (k_disk s))
    (ROOTDEV, log_start l) = data) as Hd.
  { apply apply_writes_other; [apply root_home_writes|].
    apply Forall_lookup_2. intros i w. rewrite lookup_home_writes.
    destruct (hdr_list data !! i) eqn:E; [|done]. intros [= <-]. simpl.
    apply list_elem_of_lookup_2, Hb in E. lia. }
  unfold head_write. simpl. fold l. rewrite Hd.
  revert HQ. unfold recover_writes, rec_writes. fold data.
  unfold wr, set_log, set_bcache, set_disk. simpl.
  by rewrite apply_writes_app, app_assoc, Hc.
Qed.
End commit.
