(* ===== verification/LogSafety.v ===== *)
(** * LogSafety: the guarantees of log.c

    Atomicity of [commit] under crashes, idempotence of recovery, and what a
    commit leaves on the disk. *)

From S2P Require Import Prelude State Bio Log LogOps LogCrash.

(** ** Booting

    The kernel's globals right after power-on, with the disk as the crash
    left it: nothing cached, [struct log] zero. *)
Definition boot (havedisk1 : bool) (pid : Z) (d : gmap bkey (list Z)) : kst :=
  KS d [] havedisk1 ∅ (Log 0 0 0 0 0 (Logheader 0 (replicate (Z.to_nat LOGSIZE) 0)))
    (Superblock 0 0 0 0 0 0 0) [] [] pid.

(** The super block on disk [d] gives the log [len] blocks from [start] on. *)
Definition sb_start (d : gmap bkey (list Z)) (start len : Z) : Prop :=
  let sb := sb_decode (disk_get d (ROOTDEV, 1)) in sb_logstart sb = start ∧ sb_nlog sb = len.

Section recovery.
Context (start len : Z) (Hstart : 2 ≤ start) (Hlen : 1 ≤ len) (Hend : start + len ≤ FSSIZE).
Implicit Types (d : gmap bkey (list Z)).

Abbreviation head d := (disk_get d (ROOTDEV, start)).
Abbreviation blk0 := (replicate (Z.to_nat LOGSIZE) 0).

Lemma initlog_run pid d :
  sb_start d start len → header_ok start len (head d) →
  ∃ s', initlog ROOTDEV (boot true pid d) = Ok tt s' ∧
    k_disk s' = apply_writes (recover_writes start blk0 d) d ∧
    k_hist s' = recover_writes start blk0 d ∧
    k_bcache s' = ∅ ∧ k_spin s' = [] ∧ log_start (k_log s') = start ∧ lh_n (log_lh (k_log s')) = 0.
Proof.
  intros [Hsb Hsb'] Hh.
  assert (wp (initlog ROOTDEV) (λ _ s',
    k_disk s' = apply_writes (recover_writes start blk0 d) d ∧ k_hist s' = recover_writes start blk0 d ∧
    k_bcache s' = ∅ ∧ k_spin s' = [] ∧ log_start (k_log s') = start ∧ lh_n (log_lh (k_log s')) = 0)
    (boot true pid d)) as Hw.
  2: { apply wp_run in Hw as ([] & s' & ? & ?). eauto. }
  unfold initlog. rewrite (proj2 (Z.leb_gt BSIZE LOGHEADER_SIZE)) by done.
  apply wp_bind. unfold readsb. apply wp_bind, wp_bread_miss; try done.
  apply wp_bind. eapply wp_bdata; [by apply lookup_insert_eq|].
  apply wp_bind. eapply wp_brelse; [by apply lookup_insert_eq|done|done|]. simpl.
  apply wp_ret, wp_bind, wp_modify. rewrite Hsb, Hsb'.
  rewrite delete_insert_id by done. simpl. rewrite (s32_small start), (s32_small len) by klia.
  apply wp_recover; simpl; [|done|done|done|done].
  split; simpl; try done; klia.
Qed.

Lemma recover_disk_home blk d b :
  ¬ (start ≤ b < start + len) →
  disk_get (apply_writes (recover_writes start blk d) d) (ROOTDEV, b) =
    disk_get (recovered start d) (ROOTDEV, b).
Proof.
  intros Hb. unfold recover_writes. rewrite apply_writes_app. apply apply_writes_other.
  - by apply Forall_singleton.
  - apply Forall_singleton. simpl. lia.
Qed.

(** A disk whose header names no block is left as it is. *)
Lemma recovered_empty d : hdr_n (head d) = 0 → recovered start d = d.
Proof. intros Hn. unfold recovered, rec_writes, hdr_list. by rewrite Hn. Qed.

Lemma header_empty_ok d : hdr_n (head d) = 0 → header_ok start len (head d).
Proof. clear Hstart Hend. intros Hn. split; [rewrite Hn; split; [done|lia]|]. unfold hdr_list. rewrite Hn. simpl. set_solver. Qed.
End recovery.

Section crash.
Context (s : kst) (Hs : fs_ok ∅ s).

Abbreviation start := (log_start (k_log s)).
Abbreviation bl := (logged s).

Let Hg := ok_geom _ _ Hs.

Lemma home_s32 b : b ∈ bl → s32 b = b.
Proof. intros Hb. apply (ok_home _ _ Hs) in Hb as [? _]. apply s32_small. klia. Qed.

Lemma new_head_ok : hdr_n (new_head s) = lh_n (log_lh (k_log s)) ∧ hdr_list (new_head s) = bl.
Proof.
  destruct (put_header_ok (lh_n (log_lh (k_log s))) (lh_block (log_lh (k_log s))) (old_head s))
    as (_ & H1 & H2); [by apply disk_get_ok, Hs|apply Hg|]. split; [done|].
  unfold hdr_list. unfold new_head in *. rewrite H1. apply list_eq. intros i. rewrite list_lookup_fmap.
  pose proof (length_logged s Hg) as Hlen.
  destruct (decide (Z.of_nat i < lh_n (log_lh (k_log s)))) as [Hi|Hi].
  - rewrite (proj2 (lookup_seqZ 0 _ i (Z.of_nat i))) by (split; lia). simpl. rewrite H2 by lia.
    rewrite Nat2Z.id. destruct (lookup_lt_is_Some_2 bl i) as [b Hb]; [lia|]. rewrite Hb. f_equal.
    rewrite <- (home_s32 b) by (by eapply list_elem_of_lookup_2). f_equal.
    apply list_lookup_total_correct. unfold logged in Hb. by apply lookup_take_Some in Hb as [? _].
  - rewrite lookup_seqZ_ge by lia. simpl. symmetry. apply lookup_ge_None_2. lia.
Qed.

Lemma erased_head_n : hdr_n (erased_head s) = 0.
Proof.
  destruct (put_header_ok (lh_n (log_lh (k_log s))) (lh_block (log_lh (k_log s))) (old_head s))
    as (Hok & _ & _); [by apply disk_get_ok, Hs|apply Hg|].
  by destruct (put_header_ok 0 (lh_block (log_lh (k_log s))) (new_head s) Hok) as (_ & ? & _); [klia|].
Qed.

(** Writes that stay in the log, or that go to the transaction's homes. *)
Lemma commit_log_home ws d b :
  ws `prefix_of` commit_log s → (b = start ∨ home s b) →
  disk_get (apply_writes ws d) (ROOTDEV, b) = disk_get d (ROOTDEV, b).
Proof.
  intros [ws' Hws] Hb. pose proof (length_logged s Hg) as Hlen. pose proof (lg_n _ _ Hg) as Hnn. pose proof (lg_room _ _ Hg) as Hroom.
  assert (∀ w, w ∈ ws → w.1.1 = ROOTDEV ∧ w.1.2 ≠ b) as Hw.
  { intros w Hw. assert (w ∈ commit_log s) as [i Hi]%list_elem_of_lookup by (rewrite Hws; set_solver).
    split.
    - unfold commit_log in Hi. rewrite lookup_log_writes in Hi. destruct (bl !! i); [|done].
      by injection Hi as <-.
    - apply log_writes_range in Hi as [-> Hi]. unfold home in Hb. lia. }
  apply apply_writes_other; apply Forall_forall; intros w Hw'; by apply Hw.
Qed.

Lemma commit_home_get d b :
  disk_get (apply_writes (commit_home s) d) (ROOTDEV, b) =
    if decide (b ∈ bl) then txdata s b else disk_get d (ROOTDEV, b).
Proof.
  case_decide as Hb; [|by apply (apply_commit_home_other s)].
  apply list_elem_of_lookup in Hb as [i Hi].
  eapply (apply_writes_nodup _ _ i).
  - apply Forall_forall. by intros w (? & -> & _)%commit_home_range.
  - unfold commit_home. rewrite <- list_fmap_compose. change (NoDup ((λ b, b) <$> bl)).
    rewrite list_fmap_id. apply Hs.
  - unfold commit_home. by rewrite list_lookup_fmap, Hi.
Qed.

(** A block outside the transaction is not cached: the view is the disk. *)
Lemma txdata_unlogged b : b ∉ bl → disk_get (k_disk s) (ROOTDEV, b) = txdata s b.
Proof.
  intros Hb. unfold txdata, view. destruct (k_bcache s !! (ROOTDEV, b)) eqn:E; [|done].
  by apply (fs_ok_idle s) in E as [_ [_ ?]].
Qed.

(** The three kinds of disk a crash during [commit] can leave. *)
Lemma crash_before p :
  hdr_n (old_head s) = 0 → p `prefix_of` commit_log s →
  let d := apply_writes p (k_disk s) in
  hdr_n (disk_get d (ROOTDEV, start)) = 0 ∧
  ∀ b, home s b → disk_get (recovered start d) (ROOTDEV, b) = disk_get (k_disk s) (ROOTDEV, b).
Proof.
  intros Hh Hp d.
  assert (hdr_n (disk_get d (ROOTDEV, start)) = 0) as H0.
  { unfold d. rewrite commit_log_home by (done || by left). done. }
  split; [done|]. intros b Hb. rewrite recovered_empty by done.
  apply commit_log_home; [done|by right].
Qed.

Lemma crash_after q :
  q `prefix_of` commit_home s →
  let d := apply_writes ((commit_log s ++ [((ROOTDEV, start), new_head s)]) ++ q) (k_disk s) in
  disk_get d (ROOTDEV, start) = new_head s ∧
  ∀ b, home s b → disk_get (recovered start d) (ROOTDEV, b) = txdata s b.
Proof.
  intros [q' Hq] d. pose proof (ok_home _ _ Hs) as Hhome.
  pose proof (length_logged s Hg) as Hlen. pose proof (lg_n _ _ Hg) as Hnn. pose proof (lg_room _ _ Hg) as Hroom.
  assert (q ⊆ commit_home s) as Hsub by (rewrite Hq; set_solver).
  assert (∀ b, ¬ home s b → disk_get d (ROOTDEV, b) =
    disk_get (apply_writes [((ROOTDEV, start), new_head s)] (apply_writes (commit_log s) (k_disk s))) (ROOTDEV, b)) as Hnh.
  { intros b Hb. unfold d. rewrite !apply_writes_app.
    apply (apply_commit_home_other s); [done|]. intros Hin. by apply Hb, Hhome. }
  assert (disk_get d (ROOTDEV, start) = new_head s) as Hhd.
  { rewrite Hnh by (unfold home; klia). unfold disk_get. by rewrite disk_key_root; simpl; rewrite lookup_insert_eq. }
  split; [done|]. intros b Hb. unfold recovered, rec_writes. rewrite Hhd.
  destruct new_head_ok as [_ ->].
  assert (home_writes start bl d = commit_home s) as ->.
  { apply list_eq. intros i. rewrite lookup_home_writes. unfold commit_home. rewrite list_lookup_fmap.
    destruct (bl !! i) as [b'|] eqn:Hi; [|done]. simpl. do 2 f_equal.
    pose proof (lookup_lt_Some _ _ _ Hi).
    rewrite Hnh by (unfold home; klia).
    rewrite apply_writes_other; [|by apply Forall_singleton|apply Forall_singleton; simpl; lia].
    by apply apply_log_writes_at. }
  rewrite commit_home_get. case_decide as Hin; [done|].
  rewrite <- txdata_unlogged by done. unfold d. rewrite !apply_writes_app.
  rewrite (apply_commit_home_other s) by done.
  rewrite apply_writes_other; [|by apply Forall_singleton|apply Forall_singleton; simpl; unfold home in Hb; klia].
  apply commit_log_home; [done|by right].
Qed.

Lemma crash_done :
  let d := apply_writes (commit_writes s) (k_disk s) in
  disk_get d (ROOTDEV, start) = erased_head s ∧
  ∀ b, home s b → disk_get (recovered start d) (ROOTDEV, b) = txdata s b.
Proof.
  intros d. pose proof (log_size_pos _ _ Hg) as Hpos.
  assert (disk_get d (ROOTDEV, start) = erased_head s) as Hhd.
  { unfold d, commit_writes. rewrite !apply_writes_app. unfold disk_get.
    by rewrite disk_key_root; simpl; rewrite lookup_insert_eq. }
  split; [done|]. intros b Hb. rewrite recovered_empty by (rewrite Hhd; apply erased_head_n).
  unfold d, commit_writes. rewrite !apply_writes_app.
  rewrite apply_writes_other; [|by apply Forall_singleton|apply Forall_singleton; simpl; unfold home in Hb; klia].
  rewrite commit_home_get. case_decide as Hin; [done|]. rewrite <- txdata_unlogged by done.
  rewrite apply_writes_other; [|by apply Forall_singleton|apply Forall_singleton; simpl; unfold home in Hb; klia].
  apply commit_log_home; [done|by right].
Qed.
End crash.

Lemma length_commit_log s : Z.of_nat (length (commit_log s)) = nlog s.
Proof. unfold commit_log, log_writes, nlog. by rewrite length_imap. Qed.

Lemma header_new_ok s : fs_ok ∅ s → header_ok (log_start (k_log s)) (log_size (k_log s)) (new_head s).
Proof.
  intros Hs. destruct (new_head_ok s Hs) as [H1 H2]. split.
  - rewrite H1. split; apply (ok_geom _ _ Hs).
  - rewrite H2. apply (ok_home _ _ Hs).
Qed.

(** The disks a crash can leave, classified by how much was written. *)
Lemma commit_prefix s p :
  fs_ok ∅ s → hdr_n (old_head s) = 0 → p `prefix_of` commit_writes s →
  let start := log_start (k_log s) in
  let d := apply_writes p (k_disk s) in
  header_ok start (log_size (k_log s)) (disk_get d (ROOTDEV, start)) ∧
  ∀ b, home s b → disk_get (recovered start d) (ROOTDEV, b) =
    if decide (Z.of_nat (length p) ≤ nlog s) then disk_get (k_disk s) (ROOTDEV, b)
    else view s (ROOTDEV, b).
Proof.
  intros Hs Hh Hp start d. pose proof (log_size_pos _ _ (ok_geom _ _ Hs)) as Hpos.
  assert (Hlen := length_commit_log s).
  unfold commit_writes in Hp. rewrite <- app_assoc in Hp.
  apply prefix_app_cases in Hp as [Hp|(q & -> & Hq & Hne)].
  { destruct (crash_before s Hs p Hh Hp) as [H0 Hb].
    split; [by apply header_empty_ok|]. intros b Hb'. rewrite decide_True; [by apply Hb|].
    apply prefix_length in Hp. lia. }
  assert (∀ A (x y : A), (if decide (Z.of_nat (length (commit_log s ++ q)) ≤ nlog s) then x else y) = y) as Hif.
  { intros A x y. rewrite decide_False; [done|]. rewrite length_app. destruct q; [done|simpl; lia]. }
  apply prefix_app_cases in Hq as [[r Hr]|(q' & -> & Hq & Hne')].
  { (* exactly the header *)
    destruct q as [|w q]; [done|]. injection Hr as <- Hr. destruct q; [|done]. clear Hr.
    destruct (crash_after s Hs []) as [H1 H2]; [apply prefix_nil|]. rewrite app_nil_r in H1, H2.
    split; [unfold d, start; rewrite H1; by apply header_new_ok|]. intros b Hb. rewrite Hif. by apply H2. }
  apply prefix_app_cases in Hq as [Hq|(q'' & -> & [r Hr] & Hne'')].
  { destruct (crash_after s Hs q' Hq) as [H1 H2]. rewrite <- app_assoc in H1, H2.
    split; [unfold d, start; rewrite H1; by apply header_new_ok|]. intros b Hb. rewrite Hif. by apply H2. }
  destruct q'' as [|w q'']; [done|]. injection Hr as <- Hr. destruct q''; [|done].
  destruct (crash_done s Hs) as [H1 H2]. unfold commit_writes in H1, H2. rewrite <- app_assoc in H1, H2.
  split; [apply header_empty_ok; [done|]; unfold d, start; rewrite H1; by apply erased_head_n|].
  intros b Hb. rewrite Hif. by apply H2.
Qed.

(** Where the writes of a commit go: the log or the transaction's blocks. *)
Lemma commit_writes_range s w :
  fs_ok ∅ s → w ∈ commit_writes s →
  w.1.1 = ROOTDEV ∧ (log_start (k_log s) ≤ w.1.2 ∨ w.1.2 ∈ logged s).
Proof.
  intros Hs. unfold commit_writes. rewrite !elem_of_app, !list_elem_of_singleton.
  intros [[[i Hi]%list_elem_of_lookup| ->]|[(b & -> & Hb)%commit_home_range| ->]]; simpl;
    [|split; [done|left; lia]|by split; [|right]|split; [done|left; lia]].
  split.
  - unfold commit_log in Hi. rewrite lookup_log_writes in Hi. destruct (logged s !! i); [|done].
    by injection Hi as <-.
  - apply log_writes_range in Hi as [-> _]. left. lia.
Qed.

(** C1 Crash atomicity of [commit]. Let the file system be between operations
    with a non-empty transaction, and let the log on the disk be empty. Then
    [commit] returns, and if the machine stops after any prefix [p] of the
    sector writes it makes, the next boot's [initlog] returns and leaves every
    block outside the log as it was before the transaction, when [p] does not
    reach the write of the log header, and as the transaction has it
    otherwise: all of the transaction or nothing. *)
Theorem commit_crash_atomic s :
  fs_ok ∅ s → 0 < nlog s < NBUF → hdr_n (old_head s) = 0 →
  sb_start (k_disk s) (log_start (k_log s)) (log_size (k_log s)) → 1 ∉ logged s →
  ∃ s' ws, commit s = Ok tt s' ∧ k_hist s' = k_hist s ++ ws ∧ k_disk s' = apply_writes ws (k_disk s) ∧
  ∀ p pid, p `prefix_of` ws →
    ∃ s'', initlog ROOTDEV (boot true pid (apply_writes p (k_disk s))) = Ok tt s'' ∧
      ∀ b, home s b → disk_get (k_disk s'') (ROOTDEV, b) =
        if decide (Z.of_nat (length p) ≤ nlog s) then disk_get (k_disk s) (ROOTDEV, b)
        else view s (ROOTDEV, b).
Proof.
  intros Hs Hn Hh Hsb H1. exists (committed s), (commit_writes s).
  rewrite commit_run by done. split_and!; [done|done|done|]. intros p pid Hp.
  destruct (commit_prefix s p Hs Hh Hp) as [Hok Hget].
  pose proof (ok_geom _ _ Hs) as Hg.
  assert (sb_start (apply_writes p (k_disk s)) (log_start (k_log s)) (log_size (k_log s))) as Hsb'.
  { unfold sb_start. rewrite apply_writes_other; [done|..]; apply Forall_forall; intros w Hw.
    - by apply (commit_writes_range s w), elem_of_prefix with p.
    - apply elem_of_prefix with (l2 := commit_writes s) in Hw; [|done].
      apply (commit_writes_range s w Hs) in Hw as [_ [Hw|Hw]].
      + pose proof (lg_start _ _ Hg). lia.
      + intros E. rewrite E in Hw. done. }
  destruct (initlog_run _ _ (lg_start _ _ Hg) (log_size_pos _ _ Hg) (lg_end _ _ Hg) pid _ Hsb' Hok)
    as (s'' & Hrun & Hdisk & _).
  exists s''. split; [done|]. intros b Hb. 
  rewrite Hdisk, (recover_disk_home _ (log_size (k_log s))) by (apply Hb || by eapply log_size_pos).
  by apply Hget.
Qed.

(** ** Recovery may itself be interrupted *)

Lemma lookup_apply_writes ws d k :
  apply_writes ws d !! k =
    if decide (k ∈ (λ w : swrite, disk_key w.1) <$> ws) then apply_writes ws ∅ !! k else d !! k.
Proof.
  revert d. induction ws as [|w ws IH]; intros d; [done|].
  simpl. rewrite IH. rewrite (IH (<[_ := _]> ∅)).
  destruct (decide (k ∈ (λ w0 : swrite, disk_key w0.1) <$> ws)) as [Hin|Hn].
  - rewrite (decide_True (P := k ∈ _ :: _)) by set_solver. done.
  - destruct (decide (k = disk_key w.1)) as [->|Hne].
    + rewrite decide_True by set_solver. by rewrite !lookup_insert_eq.
    + rewrite decide_False by set_solver. by rewrite lookup_insert_ne.
Qed.

(** Writes that are all overwritten again leave no trace. *)
Lemma apply_writes_absorb ws ws' d :
  ws' ⊆ ws → apply_writes ws (apply_writes ws' d) = apply_writes ws d.
Proof.
  intros Hsub. apply map_eq. intros k. rewrite lookup_apply_writes, (lookup_apply_writes ws d).
  case_decide as Hk; [done|]. rewrite lookup_apply_writes, decide_False; [done|].
  intros (w & -> & Hw)%list_elem_of_fmap. apply Hk, list_elem_of_fmap. exists w. by auto.
Qed.

Section recrash.
Context (start len : Z) (d : gmap bkey (list Z)).
Context (Hd : disk_ok d) (Hh : header_ok start len (disk_get d (ROOTDEV, start))).

Abbreviation W := (rec_writes start d).

(** A write of recovery goes to a block outside the log. *)
Lemma rec_writes_home ws b :
  ws ⊆ W → start ≤ b < start + len →
  disk_get (apply_writes ws d) (ROOTDEV, b) = disk_get d (ROOTDEV, b).
Proof.
  intros Hsub Hb. apply apply_writes_other; apply Forall_forall; intros w Hw;
    apply Hsub, list_elem_of_lookup in Hw as [i Hi]; unfold rec_writes in Hi;
    rewrite lookup_home_writes in Hi; destruct (hdr_list _ !! i) eqn:E; try done;
    injection Hi as <-; [done|]. simpl.
  apply list_elem_of_lookup_2, Hh in E. lia.
Qed.

(** Interrupted before the header is erased, recovery starts over with the
    same header and the same log blocks. *)
Lemma recovered_again ws :
  ws ⊆ W → recovered start (apply_writes ws d) = recovered start d.
Proof.
  intros Hsub. unfold recovered.
  assert (rec_writes start (apply_writes ws d) = W) as ->.
  { unfold rec_writes. rewrite rec_writes_home by (done || (destruct Hh; lia)). apply list_eq. intros i.
    rewrite !lookup_home_writes. destruct (hdr_list _ !! i) as [b|] eqn:E; [|done].
    simpl. do 2 f_equal. apply rec_writes_home; [done|].
    apply lookup_lt_Some in E. unfold hdr_list in E. rewrite length_fmap, length_seqZ in E.
    destruct Hh. klia. }
  by apply apply_writes_absorb.
Qed.

Lemma erased_header_n blk : hdr_n (put_header 0 blk (disk_get d (ROOTDEV, start))) = 0.
Proof.
  by destruct (put_header_ok 0 blk (disk_get d (ROOTDEV, start)))
    as (_ & ? & _); [by apply disk_get_ok|klia|].
Qed.
End recrash.

(** C10 Recovery is idempotent under crashes. Let disk [d] have a well-formed
    log header that does not name the super block. Then [initlog] returns, and
    if the machine stops after any prefix of the sector writes recovery makes,
    the next [initlog] also returns and leaves the same contents in every
    block outside the log. *)
Theorem recovery_idempotent pid d start len :
  2 ≤ start → start + len ≤ FSSIZE → disk_ok d → sb_start d start len →
  header_ok start len (disk_get d (ROOTDEV, start)) → 1 ∉ hdr_list (disk_get d (ROOTDEV, start)) →
  ∃ s', initlog ROOTDEV (boot true pid d) = Ok tt s' ∧
  ∀ p, p `prefix_of` k_hist s' →
    ∃ s'', initlog ROOTDEV (boot true pid (apply_writes p d)) = Ok tt s'' ∧
      ∀ b, ¬ (start ≤ b < start + len) →
        disk_get (k_disk s'') (ROOTDEV, b) = disk_get (k_disk s') (ROOTDEV, b).
Proof.
  intros Hst He Hd Hsb Hh H1.
  assert (1 ≤ len) as Hlen by (destruct Hh; lia).
  destruct (initlog_run start len Hst Hlen He pid d Hsb Hh) as (s' & Hrun & Hdisk & Hhist & _).
  exists s'. split; [done|]. intros p. rewrite Hhist. set (blk := replicate _ _).
  set (d' := apply_writes p d). intros Hp.
  assert (header_ok start len (disk_get d' (ROOTDEV, start)) ∧ sb_start d' start len ∧
    ∀ b, ¬ (start ≤ b < start + len) →
      disk_get (recovered start d') (ROOTDEV, b) = disk_get (recovered start d) (ROOTDEV, b))
    as (Hh' & Hsb' & Hget).
  { assert (∀ q, q ⊆ rec_writes start d → sb_start (apply_writes q d) start len) as Hsbq.
    { intros q Hq. unfold sb_start. rewrite apply_writes_other; [done|..]; apply Forall_forall; intros w Hw;
        apply Hq, list_elem_of_lookup in Hw as [i Hi]; unfold rec_writes in Hi;
        rewrite lookup_home_writes in Hi; destruct (hdr_list _ !! i) eqn:E; try done;
        injection Hi as <-; [done|]. simpl. intros ->. by apply H1, list_elem_of_lookup_2 with i. }
    apply prefix_app_cases in Hp as [[q Hp]|(q & Hp & [r Hr] & Hne)].
    - assert (p ⊆ rec_writes start d) as Hsub by (rewrite Hp; set_solver).
      split_and!; [|by apply Hsbq|].
      + unfold d'. rewrite (rec_writes_home start len d) by (done || lia). done.
      + intros b _. unfold d'. by rewrite (recovered_again start len d).
    - destruct q as [|w q]; [done|]. injection Hr as <- Hr. destruct q; [|done]. clear Hr Hne.
      assert (disk_get d' (ROOTDEV, start) = put_header 0 (lh_block (head_of (disk_get d (ROOTDEV, start)) blk))
        (disk_get d (ROOTDEV, start))) as Hhd.
      { unfold d'. rewrite Hp, apply_writes_app. unfold disk_get.
        by rewrite disk_key_root; simpl; rewrite lookup_insert_eq. }
      assert (hdr_n (disk_get d' (ROOTDEV, start)) = 0) as H0 by (rewrite Hhd; by apply erased_header_n).
      assert (∀ b, b ≠ start → disk_get d' (ROOTDEV, b) = disk_get (recovered start d) (ROOTDEV, b)) as Hb.
      { intros b Hb. unfold d'. rewrite Hp, apply_writes_app. apply apply_writes_other;
          by apply Forall_singleton. }
      split_and!; [by apply header_empty_ok| |].
      + unfold sb_start. rewrite Hb by lia. by apply Hsbq.
      + intros b Hb'. rewrite recovered_empty by done. apply Hb. lia. }
  destruct (initlog_run start len Hst Hlen He pid d' Hsb' Hh') as (s'' & Hrun' & Hdisk' & _).
  exists s''. split; [done|]. intros b Hb.
  rewrite Hdisk', Hdisk, !(recover_disk_home start len) by done. by apply Hget.
Qed.

(** ** What a commit leaves *)

Lemma committed_durable s :
  fs_ok ∅ s →
  fs_ok ∅ (committed s) ∧
  ∀ b, home s b → view (committed s) (ROOTDEV, b) = view s (ROOTDEV, b) ∧
                  disk_get (k_disk (committed s)) (ROOTDEV, b) = view s (ROOTDEV, b).
Proof.
  intros Hs. pose proof (ok_geom _ _ Hs) as Hg.
  assert (logged (committed s) = []) as Hl by done.
  assert (∀ b, home s b → disk_get (k_disk (committed s)) (ROOTDEV, b) = view s (ROOTDEV, b)) as Hget.
  { intros b Hb. destruct (crash_done s Hs) as [H1 H2]. change (view s (ROOTDEV, b)) with (txdata s b).
    rewrite <- (H2 b Hb).
    symmetry. by rewrite recovered_empty by (rewrite H1; by apply erased_head_n). }
  split.
  - split; try by destruct Hs.
    + destruct Hg. split; try done. simpl. klia.
    + simpl. apply apply_writes_ok; [apply Hs|].
      apply Forall_forall. intros w. unfold commit_writes. rewrite !elem_of_app, !list_elem_of_singleton.
      assert (block_ok (new_head s)) as Hnh.
      { apply put_header_ok; [by apply disk_get_ok, Hs|apply Hg]. }
      intros [[[i Hi]%list_elem_of_lookup| ->]|[(b & -> & Hb)%commit_home_range| ->]]; [|done|by eapply view_ok|].
      * unfold commit_log in Hi. rewrite lookup_log_writes in Hi. destruct (logged s !! i); [|done].
        injection Hi as <-. by eapply view_ok.
      * simpl. apply put_header_ok; [done|klia].
    + rewrite Hl. constructor.
    + rewrite Hl. set_solver.
    + rewrite Hl. set_solver.
  - intros b Hb. split; [|by apply Hget]. unfold view at 1. simpl. rewrite lookup_empty. by apply Hget.
Qed.

(** [commit] makes the transaction durable: it returns with an empty
    transaction and an empty cache, the invariant of the block store holds
    again, every block outside the log reads as before the call, and that is
    also what the disk holds. *)
Theorem commit_durable s :
  fs_ok ∅ s → 0 < nlog s < NBUF →
  ∃ s', commit s = Ok tt s' ∧ fs_ok ∅ s' ∧ nlog s' = 0 ∧ k_bcache s' = ∅ ∧
    ∀ b, home s b → view s' (ROOTDEV, b) = view s (ROOTDEV, b) ∧
                    disk_get (k_disk s') (ROOTDEV, b) = view s (ROOTDEV, b).
Proof.
  intros Hs Hn. destruct (committed_durable s Hs). exists (committed s). by rewrite commit_run by done.
Qed.

(** ** A file system to try it on

    The image mkfs.c makes has its log in blocks 2 to 31. *)

Definition demo_sb : list Z :=
  put_u32 0 1000 (put_u32 4 941 (put_u32 8 200 (put_u32 12 30
    (put_u32 16 2 (put_u32 20 32 (put_u32 24 58 zero_block)))))).

Definition demo_disk : gmap bkey (list Z) := {[ (ROOTDEV, 1) := demo_sb ]}.

(** One operation has stored a block of ones to block 40. *)
Definition demo_block : list Z := replicate 512 1.

Definition demo_state : kst :=
  KS demo_disk [] true {[ (ROOTDEV, 40) := Buf 6 None 0 demo_block ]}
    (Log 2 30 0 1 ROOTDEV (Logheader 1 (40 :: replicate 29 0)))
    (sb_decode demo_sb) [] [] 1.

(** The same transaction after its header reached the disk. *)
Definition demo_crashed : gmap bkey (list Z) :=
  apply_writes [((ROOTDEV, 3), demo_block); ((ROOTDEV, 2), put_header 1 [40] zero_block)] demo_disk.

Lemma block_ok_put_u32 off v d : (off + 4 ≤ 512)%nat → block_ok d → block_ok (put_u32 off v d).
Proof. apply put_u32_ok. Qed.

Lemma demo_sb_ok : block_ok demo_sb.
Proof. unfold demo_sb. repeat (apply block_ok_put_u32; [lia|]). apply zero_block_ok. Qed.

Lemma demo_disk_ok : disk_ok demo_disk.
Proof. apply map_Forall_singleton, demo_sb_ok. Qed.

Lemma demo_block_ok : block_ok demo_block.
Proof. split; [done|]. apply Forall_replicate. by split. Qed.

Lemma demo_state_ok : fs_ok ∅ demo_state.
Proof.
  assert (logged demo_state = [40]) as Hl by done.
  split.
  - by split.
  - done.
  - apply demo_disk_ok.
  - rewrite Hl. apply NoDup_singleton.
  - intros b. rewrite Hl, list_elem_of_singleton. intros ->. vm_compute. by intuition.
  - intros b. rewrite Hl, list_elem_of_singleton. intros ->. simpl. rewrite lookup_singleton_eq. by eexists.
  - set_solver.
  - intros k b. simpl. rewrite lookup_singleton_Some. intros [<- <-].
    split_and!; [done|apply demo_block_ok|]. intros []. split; [done|]. rewrite Hl. set_solver.
Qed.

Lemma commit_crash_atomic_witness :
  ∃ s' ws, commit demo_state = Ok tt s' ∧ k_hist s' = ws ∧ length ws = 4%nat ∧
    ∀ p, p `prefix_of` ws → ∃ s'', initlog ROOTDEV (boot true 1 (apply_writes p demo_disk)) = Ok tt s'' ∧
      disk_get (k_disk s'') (ROOTDEV, 40) =
        if decide (Z.of_nat (length p) ≤ 1) then zero_block else demo_block.
Proof.
  destruct (commit_crash_atomic demo_state) as (s' & ws & Hr & Hh & Hd & H).
  - apply demo_state_ok.
  - done.
  - done.
  - done.
  - set_solver.
  - exists s', ws. split_and!; [done|done| |].
    + change (k_hist s' = ws) in Hh. rewrite <- Hh.
      change (match Ok tt s' with Ok _ s => length (k_hist s) | Fault _ => 0%nat end = 4%nat).
      rewrite <- Hr. vm_compute. done.
    + intros p Hp. destruct (H p 1 Hp) as (s'' & Hr' & Hb). exists s''. split; [done|].
      rewrite Hb; [done|]. vm_compute. by intuition.
Defined.

Lemma recovery_idempotent_witness :
  ∃ s', initlog ROOTDEV (boot true 1 demo_crashed) = Ok tt s' ∧
    disk_get (k_disk s') (ROOTDEV, 40) = demo_block ∧
    ∀ p, p `prefix_of` k_hist s' →
      ∃ s'', initlog ROOTDEV (boot true 1 (apply_writes p demo_crashed)) = Ok tt s'' ∧
        disk_get (k_disk s'') (ROOTDEV, 40) = demo_block.
Proof.
  assert (hdr_list (disk_get demo_crashed (ROOTDEV, 2)) = [40]) as Hl by (vm_compute; done).
  destruct (recovery_idempotent 1 demo_crashed 2 30) as (s' & Hr & H).
  - lia.
  - by vm_compute.
  - apply apply_writes_ok; [apply demo_disk_ok|].
    apply Forall_cons. split; [apply demo_block_ok|]. apply Forall_singleton.
    apply put_header_ok; [apply zero_block_ok|done].
  - by vm_compute.
  - split; [by vm_compute|]. rewrite Hl. intros b ->%list_elem_of_singleton. vm_compute. by intuition.
  - rewrite Hl. set_solver.
  - assert (disk_get (k_disk s') (ROOTDEV, 40) = demo_block) as Hd.
    { change (match Ok tt s' with Ok _ s => disk_get (k_disk s) (ROOTDEV, 40) | Fault _ => [] end = demo_block).
      rewrite <- Hr. by vm_compute. }
    exists s'. split_and!; [done|done|]. intros p Hp. destruct (H p Hp) as (s'' & Hr' & Hb).
    exists s''. split; [done|]. rewrite Hb; [done|lia].
Defined.

Lemma commit_durable_witness :
  ∃ s', commit demo_state = Ok tt s' ∧ disk_get (k_disk s') (ROOTDEV, 40) = demo_block.
Proof.
  destruct (commit_durable demo_state) as (s' & Hr & _ & _ & _ & H); [apply demo_state_ok|done|].
  exists s'. split; [done|]. destruct (H 40) as [_ ->]; [|done]. vm_compute. by intuition.
Defined.
