(* ===== verification/LogTrans.v ===== *)
(** * LogTrans: concurrent file-system calls and the space of the log

    Several processes may be between [begin_op] and [end_op] at once. Their
    calls into log.c are atomic under [log.lock], except that [end_op] drops
    the lock while it commits. The interleavings are a step relation whose
    steps run the functions of [Log]; a call that would sleep takes no step. *)

From S2P Require Import Prelude State Bio Log LogOps.

(** ** [end_op] in two critical sections *)

(** Up to the first [release]: whether this process is to commit. *)
Definition end_op_locked : KM bool :=
  acquire L_log ;;
  l ← gets k_log;
  let l := set_outstanding (log_outstanding l - 1) l in
  modify (set_log l) ;;
  if negb (log_committing l =? 0) then panic "log.committing" else
  if log_outstanding l =? 0 then
    modify (set_log (set_committing 1 l)) ;; release L_log ;; mret true
  else release L_log ;; mret false.

(** After the commit. *)
Definition end_op_done : KM unit :=
  acquire L_log ;;
  modify (λ s, set_log (set_committing 0 (k_log s)) s) ;;
  release L_log.

Lemma end_op_split s :
  end_op s = (b ← end_op_locked; if b : bool then commit ;; end_op_done else mret tt) s.
Proof.
  unfold end_op, end_op_locked, mbind, K_bind, gets, modify, mret, K_ret.
  destruct (acquire L_log s) as [[] s1|]; [|done].
  destruct (negb _); [done|]. destruct (_ =? 0).
  - by destruct (release L_log _).
  - by destruct (release L_log _) as [[] ?|].
Qed.

(** ** Configurations and steps *)

Record config := Config {
  c_st : kst;
  c_ops : gmap Z Z;        (* processes inside an operation, and their [log_write] calls so far *)
  c_commit : option Z      (* the process that is committing *)
}.

(** How much of its reservation an operation has not used. *)
Definition reserve (ops : gmap Z Z) : Z := map_fold (λ _ w r, MAXOPBLOCKS - w + r) 0 ops.

(** One step of some process. An operation calls [log_write] at most
    [MAXOPBLOCKS] times; between calls it may do anything that leaves
    [struct log] alone. *)
Inductive step : config → config → Prop :=
  | step_begin s ops cm p s' :
      ops !! p = None → begin_op s = Ok tt s' →
      step (Config s ops cm) (Config s' (<[p := 0]> ops) cm)
  | step_write s ops cm p w k s' :
      ops !! p = Some w → w < MAXOPBLOCKS → log_write k s = Ok tt s' →
      step (Config s ops cm) (Config s' (<[p := w + 1]> ops) cm)
  | step_other s ops cm s' :
      k_log s' = k_log s →
      step (Config s ops cm) (Config s' ops cm)
  | step_end s ops cm p w b s' :
      ops !! p = Some w → end_op_locked s = Ok b s' →
      step (Config s ops cm) (Config s' (delete p ops) (if b then Some p else cm))
  | step_commit s ops p s1 s2 :
      commit s = Ok tt s1 → end_op_done s1 = Ok tt s2 →
      step (Config s ops (Some p)) (Config s2 ops None).

(** ** What each call does to [struct log] *)

Section frame.
Implicit Types (k : bkey).

Lemma buf_at_keeps k : keeps k_log (buf_at k).
Proof. unfold buf_at. solve_keeps. Qed.

Lemma buf_put_keeps k b : keeps k_log (buf_put k b).
Proof. unfold buf_put. solve_keeps. Qed.
End frame.
#[export] Hint Resolve buf_at_keeps buf_put_keeps : keeps.

Lemma iderw_keeps k : keeps k_log (iderw k).
Proof. unfold iderw. solve_keeps. Qed.
#[export] Hint Resolve iderw_keeps : keeps.

Lemma bread_keeps d b : keeps k_log (bread d b).
Proof. unfold bread, bget. solve_keeps. Qed.

Lemma bwrite_keeps k : keeps k_log (bwrite k).
Proof. unfold bwrite. solve_keeps. Qed.

Lemma brelse_keeps k : keeps k_log (brelse k).
Proof. unfold brelse. solve_keeps. Qed.

Lemma bdata_keeps k : keeps k_log (bdata k).
Proof. unfold bdata. solve_keeps. Qed.

Lemma set_bdata_keeps k d : keeps k_log (set_bdata k d).
Proof. unfold set_bdata. solve_keeps. Qed.

Lemma lh_get_keeps i : keeps k_log (lh_get i).
Proof. unfold lh_get, get_lh. solve_keeps. Qed.

Lemma acquire_keeps l : keeps k_log (acquire l).
Proof. unfold acquire. solve_keeps. Qed.

Lemma release_keeps l : keeps k_log (release l).
Proof. unfold release. solve_keeps. Qed.
#[export] Hint Resolve bread_keeps bwrite_keeps brelse_keeps bdata_keeps set_bdata_keeps
  lh_get_keeps acquire_keeps release_keeps : keeps.

Lemma write_log_keeps : keeps k_log write_log.
Proof. unfold write_log, get_lh. solve_keeps. Qed.

Lemma write_head_keeps : keeps k_log write_head.
Proof. unfold write_head, get_lh. solve_keeps. Qed.

Lemma install_trans_keeps : keeps k_log install_trans.
Proof. unfold install_trans, get_lh. solve_keeps. Qed.

Lemma begin_op_log s :
  let l := k_log s in
  wlp begin_op (λ _ s', log_committing l = 0 ∧
    lh_n (log_lh l) + (log_outstanding l + 1) * MAXOPBLOCKS ≤ LOGSIZE ∧
    k_log s' = set_outstanding (log_outstanding l + 1) l) s.
Proof.
  intros l. unfold begin_op.
  apply wlp_bind, (wlp_keeps k_log); [apply acquire_keeps|]. intros _ s1 H1.
  apply wlp_bind, wlp_gets. rewrite H1. fold l.
  destruct (Z.eqb_spec (log_committing l) 0) as [Hc|]; [simpl|done].
  destruct (Z.ltb_spec LOGSIZE (lh_n (log_lh l) + (log_outstanding l + 1) * MAXOPBLOCKS)); [done|].
  apply wlp_bind, wlp_modify, (wlp_keeps k_log); [apply release_keeps|].
  intros _ s2 ->. simpl. by rewrite H1.
Qed.

Lemma log_write_log k s :
  let l := k_log s in
  wlp (log_write k) (λ _ s', 1 ≤ log_outstanding l ∧ ∃ lh', k_log s' = set_lh lh' l ∧
    (lh_n lh' = lh_n (log_lh l) ∨ lh_n lh' = lh_n (log_lh l) + 1)) s.
Proof.
  intros l. unfold log_write. apply wlp_bind, wlp_gets. fold l. cbv zeta.
  destruct (_ || _); [done|]. destruct (Z.ltb_spec (log_outstanding l) 1); [done|].
  apply wlp_bind, (wlp_keeps k_log); [apply acquire_keeps|]. intros _ s1 H1.
  apply wlp_bind. unfold lh_put, get_lh. apply wlp_bind, wlp_gets. destruct (_ && _); [|done].
  apply wlp_modify. rewrite H1. fold l. apply wlp_bind.
  assert (∀ s2 lh', k_log s2 = set_lh lh' l → (lh_n lh' = lh_n (log_lh l) ∨ lh_n lh' = lh_n (log_lh l) + 1) →
    wlp (b ← buf_at k; buf_put k (Buf (Z.lor (b_flags b) B_DIRTY) (b_lock b) (b_refcnt b) (b_data b)) ;;
         release L_log) (λ _ s', 1 ≤ log_outstanding l ∧ ∃ lh', k_log s' = set_lh lh' l ∧
      (lh_n lh' = lh_n (log_lh l) ∨ lh_n lh' = lh_n (log_lh l) + 1)) s2) as Hrest.
  { intros s2 lh' H2 Hn. apply (wlp_keeps k_log); [solve_keeps|]. intros _ s3 H3. rewrite H3. eauto. }
  apply wlp_when; intros _.
  - apply wlp_bind, wlp_gets, wlp_modify. eapply Hrest; [reflexivity|]. by right.
  - eapply Hrest; [reflexivity|]. by left.
Qed.

Lemma end_op_locked_log s :
  let l := k_log s in
  wlp end_op_locked (λ b s', log_committing l = 0 ∧ b = (log_outstanding l - 1 =? 0) ∧
    k_log s' = set_committing (if b then 1 else 0) (set_outstanding (log_outstanding l - 1) l)) s.
Proof.
  intros l. unfold end_op_locked.
  apply wlp_bind, (wlp_keeps k_log); [apply acquire_keeps|]. intros _ s1 H1.
  apply wlp_bind, wlp_gets. rewrite H1. fold l. cbv zeta. apply wlp_bind, wlp_modify.
  simpl. destruct (Z.eqb_spec (log_committing l) 0) as [Hc|]; [simpl|done].
  destruct (log_outstanding l - 1 =? 0) eqn:E.
  - apply wlp_bind, wlp_modify, wlp_bind, (wlp_keeps k_log); [apply release_keeps|].
    intros _ s2 H2. apply wlp_ret. by rewrite H2.
  - apply wlp_bind, (wlp_keeps k_log); [apply release_keeps|].
    intros _ s2 H2. apply wlp_ret. rewrite H2. simpl. split_and!; [done|done|]. by destruct l; simpl in *; subst.
Qed.

Lemma commit_log_n s :
  let l := k_log s in
  wlp commit (λ _ s', ∃ lh', k_log s' = set_lh lh' l ∧ (0 ≤ lh_n (log_lh l) → lh_n lh' = 0)) s.
Proof.
  intros l. unfold commit. apply wlp_bind, wlp_gets. fold l. apply wlp_when; intros Hn.
  - apply wlp_bind, (wlp_keeps k_log); [apply write_log_keeps|]. intros _ s1 H1.
    apply wlp_bind, (wlp_keeps k_log); [apply write_head_keeps|]. intros _ s2 H2.
    apply wlp_bind, (wlp_keeps k_log); [apply install_trans_keeps|]. intros _ s3 H3.
    apply wlp_bind, wlp_bind, wlp_gets, wlp_modify, (wlp_keeps k_log); [apply write_head_keeps|].
    intros _ s4 H4. rewrite H4. simpl. rewrite H3, H2, H1. fold l. eexists. by split.
  - apply Z.ltb_ge in Hn. exists (log_lh l). split; [by unfold l; destruct (k_log s)|lia].
Qed.

Lemma end_op_done_log s : wlp end_op_done (λ _ s', k_log s' = set_committing 0 (k_log s)) s.
Proof.
  unfold end_op_done.
  apply wlp_bind, (wlp_keeps k_log); [apply acquire_keeps|]. intros _ s1 H1.
  apply wlp_bind, wlp_modify, (wlp_keeps k_log); [apply release_keeps|]. intros _ s2 ->. simpl. by rewrite H1.
Qed.

(** ** The invariant *)

Section reserve.
Implicit Types (ops : gmap Z Z).

Lemma reserve_insert ops p w : ops !! p = None → reserve (<[p := w]> ops) = MAXOPBLOCKS - w + reserve ops.
Proof. intros Hp. unfold reserve. rewrite map_fold_insert_L; [done| |done]. intros. lia. Qed.

Lemma reserve_delete ops p w : ops !! p = Some w → reserve ops = MAXOPBLOCKS - w + reserve (delete p ops).
Proof.
  intros Hp. rewrite <- (insert_delete_id ops p w) at 1 by done.
  apply reserve_insert, lookup_delete_eq.
Qed.

Definition ops_ok ops : Prop := map_Forall (λ _ w, 0 ≤ w ≤ MAXOPBLOCKS) ops.

Lemma reserve_range ops : ops_ok ops → 0 ≤ reserve ops ≤ Z.of_nat (size ops) * MAXOPBLOCKS.
Proof.
  induction ops as [|p w ops Hp IH] using map_ind; intros Hok; [done|].
  apply map_Forall_insert in Hok as [Hw Hok]; [|done]. specialize (IH Hok).
  rewrite reserve_insert, map_size_insert_None by done. lia.
Qed.
End reserve.

(** Every operation inside has room for all it may still write. *)
Record log_inv (sz : Z) (c : config) : Prop := {
  li_size : log_size (k_log (c_st c)) = sz;
  li_ops : ops_ok (c_ops c);
  li_out : log_outstanding (k_log (c_st c)) = Z.of_nat (size (c_ops c));
  li_n : 0 ≤ lh_n (log_lh (k_log (c_st c)));
  li_room : lh_n (log_lh (k_log (c_st c))) + reserve (c_ops c) ≤ LOGSIZE;
  li_commit : match c_commit c with
              | Some _ => log_committing (k_log (c_st c)) ≠ 0 ∧ c_ops c = ∅
              | None => log_committing (k_log (c_st c)) = 0
              end
}.

(** The log as [initlog] leaves it. *)
Definition log_init (sz : Z) (c : config) : Prop :=
  let l := k_log (c_st c) in
  log_size l = sz ∧ log_outstanding l = 0 ∧ log_committing l = 0 ∧ lh_n (log_lh l) = 0 ∧
  c_ops c = ∅ ∧ c_commit c = None.

Lemma log_init_inv sz c : log_init sz c → log_inv sz c.
Proof.
  intros (Hs & Ho & Hc & Hn & Hops & Hcm). split; rewrite ?Hops, ?Hcm, ?Hn; try done.
Qed.

Lemma step_inv sz c c' : step c c' → log_inv sz c → log_inv sz c'.
Proof.
  intros Hst [Hsz Hops Hout Hn Hroom Hcm]. destruct Hst; simpl in *.
  - apply (wlp_Ok _ _ _ _ _ (begin_op_log s)) in H0 as (Hc & Hb & Hl).
    pose proof (reserve_range ops Hops) as Hr.
    split; simpl; rewrite ?Hl; simpl; try done.
    + by apply map_Forall_insert_2.
    + rewrite map_size_insert_None by done. lia.
    + rewrite reserve_insert by done. lia.
    + destruct cm; [by destruct Hcm|done].
  - apply (wlp_Ok _ _ _ _ _ (log_write_log k s)) in H1 as (Ho & lh' & Hl & Hn').
    pose proof (map_Forall_lookup_1 _ _ _ _ Hops H) as Hw. simpl in Hw.
    split; simpl; rewrite ?Hl; simpl; try done.
    + apply map_Forall_insert_2; [lia|done].
    + by rewrite map_size_insert_Some by done.
    + destruct Hn'; lia.
    + rewrite <- insert_delete_eq, reserve_insert by apply lookup_delete_eq.
      rewrite (reserve_delete ops p w) in Hroom by done. destruct Hn'; lia.
    + destruct cm; [|done]. destruct Hcm as [_ ->]. by rewrite lookup_empty in H.
  - split; simpl; rewrite ?H; done.
  - apply (wlp_Ok _ _ _ _ _ (end_op_locked_log s)) in H0 as (Hc & Hb & Hl).
    pose proof (map_Forall_lookup_1 _ _ _ _ Hops H) as Hw. simpl in Hw.
    assert (Z.of_nat (size (delete p ops)) = Z.of_nat (size ops) - 1) as Hsize.
    { rewrite map_size_delete_Some by eauto. assert (size ops ≠ 0%nat); [|lia].
      intros ->%map_size_empty_iff. by rewrite lookup_empty in H. }
    split; simpl; rewrite ?Hl; simpl; try done.
    + by apply map_Forall_delete.
    + lia.
    + rewrite (reserve_delete ops p w) in Hroom by done. lia.
    + destruct b; [|destruct cm; [by destruct Hcm|done]]. split; [done|].
      symmetry in Hb. apply Z.eqb_eq in Hb. apply map_size_empty_iff. lia.
  - apply (wlp_Ok _ _ _ _ _ (commit_log_n s)) in H as (lh' & Hl & Hn0).
    apply (wlp_Ok _ _ _ _ _ (end_op_done_log s1)) in H0. destruct Hcm as [_ ->].
    split; simpl; rewrite ?H0, ?Hl; simpl; rewrite ?Hn0 by done; done.
Qed.

Lemma reachable_inv sz c c' : log_init sz c → rtc step c c' → log_inv sz c'.
Proof.
  intros Hi%log_init_inv. induction 1 as [|c1 c2 c3 Hst _ IH]; [done|].
  apply IH. by eapply step_inv.
Qed.

(** The faults of the calls, given what the invariant says of [struct log]. *)
Lemma end_op_locked_no_panic s :
  log_committing (k_log s) = 0 → end_op_locked s ≠ Fault (FPanic "log.committing").
Proof.
  intros Hc. unfold end_op_locked, acquire, release, mbind, K_bind, gets, modify, mret, K_ret. simpl.
  case_bool_decide; [done|]. simpl. rewrite Hc. simpl.
  destruct (_ - 1 =? 0); simpl; done.
Qed.

Lemma log_index_le l b : (log_index l b ≤ length l)%nat.
Proof. induction l as [|x l IH]; simpl; [lia|]. destruct (_ =? _); lia. Qed.

Lemma log_write_faults k s f :
  0 ≤ lh_n (log_lh (k_log s)) < LOGSIZE → lh_n (log_lh (k_log s)) < log_size (k_log s) - 1 →
  1 ≤ log_outstanding (k_log s) → log_write k s = Fault f →
  f = FPanic "assertion failed: !self.is_locked()" ∨ f = FUndef "dangling struct buf*".
Proof.
  intros Hn Hsz Ho. unfold log_write, mbind, K_bind, gets. simpl.
  destruct (Z.leb_spec LOGSIZE (lh_n (log_lh (k_log s)))); [lia|].
  destruct (Z.leb_spec (log_size (k_log s) - 1) (lh_n (log_lh (k_log s)))); [lia|]. simpl.
  destruct (Z.ltb_spec (log_outstanding (k_log s)) 1); [lia|].
  unfold acquire, mbind, K_bind, gets. simpl. case_bool_decide as Hl; [intros [= <-]; by left|]. simpl.
  set (i := Z.of_nat (log_index _ _)).
  assert (0 ≤ i < LOGSIZE) as [Hi1%Z.leb_le Hi2%Z.ltb_lt].
  { pose proof (log_index_le (take (Z.to_nat (lh_n (log_lh (k_log s)))) (lh_block (log_lh (k_log s)))) k.2) as H'.
    rewrite length_take in H'. lia. }
  unfold lh_put, get_lh, mbind, K_bind, gets. rewrite Hi1, Hi2. simpl.
  destruct (i =? _); simpl; unfold buf_at, mbind, K_bind, gets; simpl;
    (destruct (k_bcache s !! k); [|intros [= <-]; by right]); simpl;
    unfold release, mbind, K_bind, gets; simpl; done.
Qed.

(** C5 With a log of more than LOGSIZE blocks, the reservations of [begin_op]
    are enough. In every interleaving of operations that make at most
    MAXOPBLOCKS calls of [log_write] each, an operation that has calls left
    may make the next one: it never panics for lack of log space or for being
    outside a transaction and never indexes past [log.lh.block]; the only
    faults left are that the CPU already holds [log.lock] or that the argument
    is no buffer. Neither does [end_op] find a commit in progress. *)
Theorem log_space_safe sz c c' p w k :
  LOGSIZE < sz → log_init sz c → rtc step c c' → c_ops c' !! p = Some w →
  log_outstanding (k_log (c_st c')) = Z.of_nat (size (c_ops c')) ∧
  0 ≤ lh_n (log_lh (k_log (c_st c'))) ≤ LOGSIZE ∧
  end_op_locked (c_st c') ≠ Fault (FPanic "log.committing") ∧
  (w < MAXOPBLOCKS → ∀ f, log_write k (c_st c') = Fault f →
     f = FPanic "assertion failed: !self.is_locked()" ∨ f = FUndef "dangling struct buf*").
Proof.
  intros Hsz Hi Hr Hp. destruct (reachable_inv sz c c' Hi Hr) as [Hs Hops Hout Hn Hroom Hcm].
  set (s := c_st c') in *. pose proof (map_Forall_lookup_1 _ _ _ _ Hops Hp) as Hw. simpl in Hw.
  pose proof (reserve_delete _ _ _ Hp) as Hrd.
  assert (ops_ok (delete p (c_ops c'))) as Hrr%reserve_range by by apply map_Forall_delete.
  assert (log_committing (k_log s) = 0) as Hc.
  { destruct (c_commit c'); [|done]. destruct Hcm as [_ Hcm]. by rewrite Hcm, lookup_empty in Hp. }
  assert (1 ≤ log_outstanding (k_log s)) as Ho.
  { rewrite Hout. assert (size (c_ops c') ≠ 0%nat); [|lia].
    intros Hz%map_size_empty_iff. by rewrite Hz, lookup_empty in Hp. }
  split_and!; [done|done|lia| |].
  - by apply end_op_locked_no_panic.
  - intros Hw' f. apply log_write_faults; klia.
Qed.

(** ** Traces *)

Inductive action :=
  | ABegin (p : Z)
  | AWrite (p : Z) (k : bkey).

(** One action, or nothing if it cannot be taken. *)
Definition act (a : action) (c : config) : option config :=
  match a with
  | ABegin p =>
      match c_ops c !! p, begin_op (c_st c) with
      | None, Ok _ s' => Some (Config s' (<[p := 0]> (c_ops c)) (c_commit c))
      | _, _ => None
      end
  | AWrite p k =>
      match c_ops c !! p, log_write k (c_st c) with
      | Some w, Ok _ s' =>
          if w <? MAXOPBLOCKS then Some (Config s' (<[p := w + 1]> (c_ops c)) (c_commit c)) else None
      | _, _ => None
      end
  end.

Fixpoint acts (l : list action) (c : config) : option config :=
  match l with
  | [] => Some c
  | a :: l => match act a c with Some c' => acts l c' | None => None end
  end.

Lemma act_sound a c c' : act a c = Some c' → step c c'.
Proof.
  destruct c as [s ops cm], a; simpl; destruct (ops !! p) eqn:Hp; try done.
  - destruct (begin_op s) as [[] s'|] eqn:Hb; [|done]. intros [= <-]. by constructor.
  - destruct (log_write k s) as [[] s'|] eqn:Hb; [|done].
    destruct (Z.ltb_spec z MAXOPBLOCKS); [|done]. intros [= <-]. by eapply step_write.
Qed.

Lemma acts_sound l c c' : acts l c = Some c' → rtc step c c'.
Proof.
  revert c. induction l as [|a l IH]; intros c; simpl; [by intros [= <-]|].
  destruct (act a c) as [c1|] eqn:E; [|done]. intros H.
  eapply rtc_l; [by eapply act_sound|by apply IH].
Qed.

(** Run a trace and evaluate [f] at its end. *)
Lemma acts_check {A} l c (f : config → A) v :
  (f <$> acts l c) = Some v → ∃ c', rtc step c c' ∧ f c' = v.
Proof.
  destruct (acts l c) as [c'|] eqn:E; [|done]. intros [= <-].
  exists c'. split; [by eapply acts_sound|done].
Qed.

(** A cache with a buffer for each block in [bl], and a log of [sz] blocks. *)
Definition trans_state (sz : Z) (bl : list Z) : kst :=
  KS ∅ [] true (list_to_map ((λ b, ((ROOTDEV, b), Buf B_VALID (Some 1) 1 zero_block)) <$> bl))
    (Log 2 sz 0 0 ROOTDEV (Logheader 0 (replicate 30 0))) (Superblock 0 0 0 0 0 0 0) [] [] 1.

(** Processes 1, 2 and 3 begin, and write ten blocks each. *)
Definition three_ops : list action :=
  [ABegin 1; ABegin 2; ABegin 3] ++
  ((λ b, AWrite 1 (ROOTDEV, b)) <$> seqZ 100 10) ++
  ((λ b, AWrite 2 (ROOTDEV, b)) <$> seqZ 110 10) ++
  ((λ b, AWrite 3 (ROOTDEV, b)) <$> seqZ 120 9).

(** With the log mkfs.c lays out, [nlog = LOGSIZE] blocks, the reservations
    are one block short: three operations that [begin_op] admits together, and
    that write ten blocks each, reach a state in which the third has used nine
    of its ten [log_write] calls and the tenth panics. *)
Theorem log_space_mkfs_panic :
  ∃ c c' k, log_init LOGSIZE c ∧ rtc step c c' ∧ c_ops c' !! 3 = Some 9 ∧ 9 < MAXOPBLOCKS ∧
    log_write k (c_st c') = Fault (FPanic "too big a transaction").
Proof.
  set (c := Config (trans_state LOGSIZE (seqZ 100 30)) ∅ None).
  destruct (acts_check three_ops c (λ c', (c_ops c' !! 3, log_write (ROOTDEV, 129) (c_st c')))
    (Some 9, Fault (FPanic "too big a transaction"))) as (c' & Hr & Hc); [by vm_compute|].
  injection Hc as Hops Hw. exists c, c', (ROOTDEV, 129). by split_and!.
Qed.

Lemma log_space_safe_witness :
  ∃ c', rtc step (Config (trans_state 31 (seqZ 100 30)) ∅ None) c' ∧
    0 ≤ lh_n (log_lh (k_log (c_st c'))) ≤ LOGSIZE ∧
    end_op_locked (c_st c') ≠ Fault (FPanic "log.committing").
Proof.
  set (c := Config (trans_state 31 (seqZ 100 30)) ∅ None).
  destruct (acts_check three_ops c (λ c', c_ops c' !! 3) (Some 9)) as (c' & Hr & Hc); [by vm_compute|].
  destruct (log_space_safe 31 c c' 3 9 (ROOTDEV, 129)) as (_ & H1 & H2 & _).
  - done.
  - by repeat split.
  - done.
  - done.
  - exists c'. done.
Defined.
