(* ===== verification/Kalloc.v ===== *)
(** * Kalloc: the physical page allocator (kernel/c/kalloc.c)

    The free pages form a linked list threaded through the pages themselves.
    Memory is a map from page addresses to the 4096 bytes of the page; the
    first four bytes of a free page are its [struct run]. The linker's [end],
    the first address after the kernel, is a parameter of the definitions. *)

From S2P Require Import Prelude.

(** mmu.h, memlayout.h *)
Definition PGSIZE : Z := 4096.
Definition PHYSTOP : Z := 0xE000000.
Definition KERNBASE : Z := 0x80000000.
Definition V2P (a : Z) : Z := u32 (a - KERNBASE).
Definition P2V (a : Z) : Z := u32 (a + KERNBASE).
Definition PGROUNDUP (sz : Z) : Z := Z.land (u32 (sz + PGSIZE - 1)) (u32 (Z.lnot (PGSIZE - 1))).
Definition PGROUNDDOWN (a : Z) : Z := Z.land a (u32 (Z.lnot (PGSIZE - 1))).

(** [kmem], and the memory its list runs through. *)
Record kmem := Kmem {
  km_locked : bool;          (* kmem.lock *)
  km_use_lock : Z;
  km_freelist : Z;
  km_mem : gmap Z (list Z)
}.

Abbreviation MM := (K kmem).

Definition set_locked (b : bool) (s : kmem) : kmem := Kmem b (km_use_lock s) (km_freelist s) (km_mem s).
Definition set_use_lock (n : Z) (s : kmem) : kmem := Kmem (km_locked s) n (km_freelist s) (km_mem s).
Definition set_freelist (r : Z) (s : kmem) : kmem := Kmem (km_locked s) (km_use_lock s) r (km_mem s).
Definition set_mem (m : gmap Z (list Z)) (s : kmem) : kmem :=
  Kmem (km_locked s) (km_use_lock s) (km_freelist s) m.

Definition acquire_kmem : MM unit :=
  b ← gets km_locked;
  if b : bool then panic "assertion failed: !self.is_locked()" else modify (set_locked true).
Definition release_kmem : MM unit :=
  b ← gets km_locked;
  if b : bool then modify (set_locked false) else panic "assertion failed: self.is_locked()".

(** The page at [v]. *)
Definition page_at (v : Z) : MM (list Z) :=
  m ← gets km_mem; of_option (FUndef "no memory at the address") (m !! v).

(** [r->next] and a store to it. *)
Definition run_next (r : Z) : MM Z := pg ← page_at r; mret (get_u32 pg 0).
Definition set_run_next (r next : Z) : MM unit :=
  pg ← page_at r; modify (λ s, set_mem (<[r := put_u32 0 next pg]> (km_mem s)) s).

(** [memset(v, 1, PGSIZE)] *)
Definition junk_page : list Z := replicate 4096 1.
Definition fill_junk (v : Z) : MM unit :=
  page_at v ;; modify (λ s, set_mem (<[v := junk_page]> (km_mem s)) s).

Section kalloc.
Context (kend : Z).

(** The addresses [kfree] takes. *)
Definition kfree_ok (v : Z) : bool :=
  (v mod PGSIZE =? 0) && (kend <=? v) && (V2P v <? PHYSTOP).

(** Free the page of physical memory pointed at by v. *)
Definition kfree (v : Z) : MM unit :=
  if negb (kfree_ok v) then panic "kfree" else
  fill_junk v ;; (* Fill with junk to catch dangling refs. *)
  ul ← gets km_use_lock;
  when (negb (ul =? 0)) acquire_kmem ;;
  fl ← gets km_freelist;
  set_run_next v fl ;;
  modify (set_freelist v) ;;
  ul ← gets km_use_lock;
  when (negb (ul =? 0)) release_kmem.

(** Allocate one 4096-byte page of physical memory; 0 if there is none. *)
Definition kalloc : MM Z :=
  ul ← gets km_use_lock;
  when (negb (ul =? 0)) acquire_kmem ;;
  r ← gets km_freelist;
  when (negb (r =? 0)) (next ← run_next r; modify (set_freelist next)) ;;
  ul ← gets km_use_lock;
  when (negb (ul =? 0)) release_kmem ;;
  mret r.

(** The loop of [freerange], with [fuel] turns at most. *)
Fixpoint freerange_loop (fuel : nat) (p vend : Z) : MM unit :=
  match fuel with
  | O => undef "freerange: out of fuel"
  | S fuel =>
      if u32 (p + PGSIZE) <=? vend then kfree p ;; freerange_loop fuel (u32 (p + PGSIZE)) vend
      else mret tt
  end.

Definition freerange (vstart vend : Z) : MM unit :=
  freerange_loop (Z.to_nat (vend / PGSIZE + 1)) (PGROUNDUP vstart) vend.

Definition kinit1 (vstart vend : Z) : MM unit :=
  modify (set_locked false) ;; (* initlock *)
  modify (set_use_lock 0) ;;
  freerange vstart vend.

Definition kinit2 (vstart vend : Z) : MM unit :=
  freerange vstart vend ;;
  modify (set_use_lock 1).
End kalloc.

(** ** Arithmetic of page addresses *)

Lemma land_page_mask x : 0 ≤ x < 2 ^ 32 → Z.land x (u32 (Z.lnot (PGSIZE - 1))) = x / PGSIZE * PGSIZE.
Proof.
  intros Hx. replace (u32 (Z.lnot (PGSIZE - 1))) with (Z.ldiff (Z.ones 32) (Z.ones 12)) by done.
  replace (Z.land x _) with (Z.ldiff (Z.land x (Z.ones 32)) (Z.ones 12)).
  - rewrite Z.land_ones, Z.mod_small, Z.ldiff_ones_r by lia.
    by rewrite Z.shiftl_mul_pow2, Z.shiftr_div_pow2 by lia.
  - apply Z.bits_inj'. intros n Hn. rewrite Z.land_spec, !Z.ldiff_spec, Z.land_spec. by rewrite andb_assoc.
Qed.

Lemma PGROUNDUP_spec v :
  0 ≤ v ≤ 2 ^ 32 - PGSIZE → PGROUNDUP v = (v + PGSIZE - 1) / PGSIZE * PGSIZE.
Proof.
  intros Hv. unfold PGROUNDUP. rewrite (u32_small (v + _ - _)) by (unfold PGSIZE in *; lia).
  apply land_page_mask. unfold PGSIZE in *. lia.
Qed.

Lemma PGROUNDUP_bounds v :
  0 ≤ v ≤ 2 ^ 32 - PGSIZE → v ≤ PGROUNDUP v < v + PGSIZE ∧ PGROUNDUP v mod PGSIZE = 0.
Proof.
  intros Hv. rewrite PGROUNDUP_spec by done. split; [|by apply Z.mod_mul].
  pose proof (Z.div_mod (v + PGSIZE - 1) PGSIZE ltac:(done)).
  pose proof (Z.mod_pos_bound (v + PGSIZE - 1) PGSIZE ltac:(done)). unfold PGSIZE in *. lia.
Qed.

(** ** The free list *)

Lemma length_junk_page : length junk_page = 4096%nat.
Proof. apply length_replicate. Qed.

Definition page_ok (pg : list Z) : Prop := length pg = 4096%nat.

(** [r] heads the linked list of pages [l] in memory [m]. *)
Fixpoint chain (m : gmap Z (list Z)) (r : Z) (l : list Z) : Prop :=
  match l with
  | [] => r = 0
  | v :: l => r = v ∧ ∃ pg, m !! v = Some pg ∧ chain m (get_u32 pg 0) l
  end.

Lemma chain_insert m r l v pg : v ∉ l → chain m r l → chain (<[v := pg]> m) r l.
Proof.
  revert r. induction l as [|u l IH]; intros r Hv; simpl; [done|].
  intros (-> & pg' & Hu & Hc). split; [done|]. exists pg'.
  rewrite lookup_insert_ne by set_solver. split; [done|]. apply IH; [set_solver|done].
Qed.

Section rep.
Context (kend : Z).

Definition page_valid (v : Z) : Prop := 0 ≤ v < 2 ^ 32 ∧ kfree_ok kend v = true.

Lemma page_valid_nonzero v : page_valid v → v ≠ 0.
Proof. intros [_ Hk] ->. unfold kfree_ok in Hk. by rewrite andb_false_r in Hk. Qed.

(** The allocator in state [s] has the free pages [free] and has handed out
    the pages [owned]. *)
Record rep (s : kmem) (free : list Z) (owned : gset Z) : Prop := {
  rep_lock : km_locked s = false;
  rep_chain : chain (km_mem s) (km_freelist s) free;
  rep_nodup : NoDup free;
  rep_valid : ∀ v, v ∈ free ∨ v ∈ owned → page_valid v;
  rep_page : ∀ v, v ∈ free ∨ v ∈ owned → ∃ pg, km_mem s !! v = Some pg ∧ page_ok pg;
  rep_disj : ∀ v, v ∈ free → v ∉ owned
}.

(** What the two functions do, with the lock free, whether it is used or not. *)
Lemma kfree_run v s pg :
  kfree_ok kend v = true → km_locked s = false → km_mem s !! v = Some pg →
  kfree kend v s = Ok tt (set_freelist v
    (set_mem (<[v := put_u32 0 (km_freelist s) junk_page]> (km_mem s)) s)).
Proof.
  intros Hv Hl Hpg. unfold kfree. rewrite Hv. simpl.
  unfold fill_junk, set_run_next, page_at, acquire_kmem, release_kmem, when, of_option, mbind, K_bind, gets, modify, mret, K_ret.
  rewrite Hpg. simpl. destruct (km_use_lock s =? 0) eqn:E; simpl; rewrite ?Hl; simpl; rewrite lookup_insert_eq; simpl; rewrite ?E;
    simpl; unfold set_freelist, set_mem, set_locked; simpl; rewrite insert_insert_eq; by rewrite ?Hl.
Qed.

Lemma kalloc_run_nil s : km_locked s = false → km_freelist s = 0 → kalloc s = Ok 0 s.
Proof.
  intros Hl Hf. unfold kalloc, acquire_kmem, release_kmem, when, mbind, K_bind, gets, modify, mret, K_ret.
  destruct (km_use_lock s =? 0) eqn:E; simpl; rewrite ?Hl; simpl; rewrite Hf; simpl; rewrite ?E; simpl;
    [by destruct s|]. destruct s; simpl in *. by subst.
Qed.

Lemma kalloc_run_cons s v pg :
  km_locked s = false → km_freelist s = v → v ≠ 0 → km_mem s !! v = Some pg →
  kalloc s = Ok v (set_freelist (get_u32 pg 0) s).
Proof.
  intros Hl Hf Hv Hpg.
  unfold kalloc, run_next, page_at, acquire_kmem, release_kmem, when, of_option, mbind, K_bind, gets, modify, mret, K_ret.
  destruct (km_use_lock s =? 0) eqn:E; simpl; rewrite ?Hl; simpl; rewrite Hf, (proj2 (Z.eqb_neq v 0) Hv); simpl;
    rewrite Hpg; simpl; rewrite ?E; simpl; [done|]. unfold set_freelist, set_locked. simpl. by rewrite Hl.
Qed.
End rep.

(** ** The allocator's contract *)

Section contract.
Context (kend : Z).
Abbreviation rep := (rep kend).

Lemma rep_alloc_nil s owned : rep s [] owned → kalloc s = Ok 0 s.
Proof. intros Hr. apply kalloc_run_nil; apply Hr. Qed.

Lemma rep_alloc s v free owned :
  rep s (v :: free) owned →
  ∃ s', kalloc s = Ok v s' ∧ km_mem s' = km_mem s ∧ rep s' free ({[v]} ∪ owned).
Proof.
  intros [Hl Hc Hnd Hv Hp Hd]. simpl in Hc. destruct Hc as (Hf & pg & Hpg & Hc).
  apply NoDup_cons in Hnd as [Hvf Hnd].
  exists (set_freelist (get_u32 pg 0) s). split_and!; [|done|].
  - apply kalloc_run_cons; [done|done| |done]. apply (page_valid_nonzero kend), Hv. set_solver.
  - split; try done.
    + intros u Hu. apply Hv. set_solver.
    + intros u Hu. apply Hp. set_solver.
    + intros u Hu. specialize (Hd u). set_solver.
Qed.

(** [kfree] of a page that is neither free nor handed out. *)
Lemma rep_donate s v free owned pg :
  rep s free owned → page_valid kend v → km_mem s !! v = Some pg → v ∉ free → v ∉ owned →
  ∃ s', kfree kend v s = Ok tt s' ∧ km_use_lock s' = km_use_lock s ∧ rep s' (v :: free) owned ∧
    ∀ u, u ≠ v → km_mem s' !! u = km_mem s !! u.
Proof.
  intros [Hl Hc Hnd Hv Hp Hd] Hval Hpg Hvf Hvo.
  eexists. split_and!; [by eapply kfree_run; [apply Hval|..]|done| |].
  2: { intros u Hu. simpl. by rewrite lookup_insert_ne. }
  split; simpl; try done.
  - split; [done|]. eexists. split; [by apply lookup_insert_eq|].
    rewrite get_put_u32_eq by (rewrite length_junk_page; lia).
    assert (u32 (km_freelist s) = km_freelist s) as ->.
    { apply u32_small. destruct free as [|u free]; simpl in Hc; [lia|].
      destruct Hc as [-> _]. apply (Hv u). set_solver. }
    by apply chain_insert.
  - by apply NoDup_cons.
  - intros u Hu. destruct (decide (u = v)) as [->|]; [done|]. apply Hv. set_solver.
  - intros u Hu. destruct (decide (u = v)) as [->|].
    + eexists. split; [by apply lookup_insert_eq|]. unfold page_ok.
      rewrite length_put_u32 by (rewrite length_junk_page; lia). apply length_junk_page.
    + rewrite lookup_insert_ne by done. apply Hp. set_solver.
  - intros u Hu. destruct (decide (u = v)) as [->|]; [done|]. apply Hd. set_solver.
Qed.

Lemma rep_free s v free owned :
  rep s free owned → v ∈ owned →
  ∃ s', kfree kend v s = Ok tt s' ∧ rep s' (v :: free) (owned ∖ {[v]}) ∧
    ∀ u, u ≠ v → km_mem s' !! u = km_mem s !! u.
Proof.
  intros Hr Hv. pose proof Hr as [Hl Hc Hnd Hval Hp Hd]. destruct (Hp v) as (pg & Hpg & _); [by right|].
  destruct (rep_donate s v free (owned ∖ {[v]}) pg) as (s' & ? & _ & ? & ?).
  - split; try done.
    + intros u Hu. apply Hval. set_solver.
    + intros u Hu. apply Hp. set_solver.
    + intros u Hu. specialize (Hd u Hu). set_solver.
  - apply Hval. by right.
  - done.
  - intros Hf. by apply (Hd v).
  - set_solver.
  - eauto.
Qed.

(** The owner of a page may fill it with anything. *)
Lemma rep_write s v pg free owned :
  rep s free owned → v ∈ owned → page_ok pg → rep (set_mem (<[v := pg]> (km_mem s)) s) free owned.
Proof.
  intros [Hl Hc Hnd Hval Hp Hd] Hv Hpg. split; simpl; try done.
  - apply chain_insert; [|done]. intros Hf. by apply (Hd v).
  - intros u Hu. destruct (decide (u = v)) as [->|].
    + rewrite lookup_insert_eq. eauto.
    + rewrite lookup_insert_ne by done. by apply Hp.
Qed.

(** ** Clients

    The allocator together with its clients: the set is the pages that have
    been handed out. A client frees or fills only pages it was given. *)
Inductive mstep : kmem * gset Z → kmem * gset Z → Prop :=
  | m_alloc s o v s' :
      kalloc s = Ok v s' → mstep (s, o) (s', if decide (v = 0) then o else {[v]} ∪ o)
  | m_free s o v s' :
      v ∈ o → kfree kend v s = Ok tt s' → mstep (s, o) (s', o ∖ {[v]})
  | m_write s o v pg :
      v ∈ o → page_ok pg → mstep (s, o) (set_mem (<[v := pg]> (km_mem s)) s, o).

(** The pages the allocator manages, free or not, stay the same. *)
Lemma mstep_rep c c' free :
  mstep c c' → rep c.1 free c.2 →
  ∃ free', rep c'.1 free' c'.2 ∧ list_to_set free' ∪ c'.2 = (list_to_set free ∪ c.2 : gset Z).
Proof.
  destruct 1 as [s o v s' Ha|s o v s' Hv Hf|s o v pg Hv Hpg]; simpl; intros Hr.
  - destruct free as [|u free].
    + rewrite (rep_alloc_nil s o Hr) in Ha. injection Ha as <- <-. simpl. eauto.
    + destruct (rep_alloc _ _ _ _ Hr) as (s1 & Ha' & _ & Hr'). rewrite Ha' in Ha. injection Ha as <- <-.
      rewrite decide_False by (apply (page_valid_nonzero kend), Hr; set_solver).
      exists free. split; [done|]. simpl. set_solver.
  - destruct (rep_free _ _ _ _ Hr Hv) as (s1 & Hf' & Hr' & _). rewrite Hf' in Hf. injection Hf as <-.
    exists (v :: free). split; [done|]. simpl. apply set_eq. intros u.
    destruct (decide (u = v)) as [->|]; set_solver.
  - exists free. split; [by apply rep_write|done].
Qed.

Lemma msteps_rep c c' free :
  rtc mstep c c' → rep c.1 free c.2 →
  ∃ free', rep c'.1 free' c'.2 ∧ list_to_set free' ∪ c'.2 = (list_to_set free ∪ c.2 : gset Z).
Proof.
  intros Hst. revert free. induction Hst as [c|c1 c2 c3 Hst _ IH]; intros free Hr; [by exists free|].
  destruct (mstep_rep _ _ _ Hst Hr) as (f2 & Hr2 & Heq). destruct (IH f2 Hr2) as (f3 & Hr3 & Heq3).
  exists f3. split; [done|]. by rewrite Heq3.
Qed.
End contract.

(** ** Filling the free list *)

(** The pages of [freerange], in the order it frees them. *)
Definition pages (p : Z) (n : nat) : list Z := (λ i, p + i * PGSIZE) <$> seqZ 0 (Z.of_nat n).

Lemma pages_S p n : pages p (S n) = p :: pages (p + PGSIZE) n.
Proof.
  unfold pages. rewrite seqZ_cons by lia. rewrite fmap_cons. f_equal; [lia|].
  replace (Z.pred (Z.of_nat (S n))) with (Z.of_nat n) by lia.
  apply list_eq. intros i. rewrite !list_lookup_fmap.
  destruct (decide (i < n)%nat).
  - rewrite !lookup_seqZ_lt by lia. simpl. f_equal. lia.
  - by rewrite !lookup_seqZ_ge by lia.
Qed.

Lemma elem_of_pages p n v : v ∈ pages p n ↔ ∃ i, 0 ≤ i < Z.of_nat n ∧ v = p + i * PGSIZE.
Proof. unfold pages. rewrite list_elem_of_fmap. setoid_rewrite elem_of_seqZ. naive_solver lia. Qed.

Section freerange.
Context (kend : Z).

(** Addresses from the kernel's end to the top of memory. *)
Lemma page_valid_intro v :
  KERNBASE ≤ kend ≤ v → v < KERNBASE + PHYSTOP → v mod PGSIZE = 0 → page_valid kend v.
Proof.
  intros Hk Hv Hm. unfold page_valid, kfree_ok, V2P.
  rewrite u32_small by (unfold KERNBASE, PHYSTOP in *; lia).
  rewrite !andb_true_iff, Z.eqb_eq, Z.leb_le, Z.ltb_lt. unfold KERNBASE, PHYSTOP in *. lia.
Qed.

Lemma freerange_loop_rep n : ∀ fuel p vend s free,
  (n < fuel)%nat → rep kend s free ∅ → (∀ v, v ∈ pages p n → page_valid kend v ∧ is_Some (km_mem s !! v) ∧ v ∉ free) →
  p + Z.of_nat n * PGSIZE ≤ vend < p + Z.of_nat n * PGSIZE + PGSIZE → 0 ≤ p → vend < 2 ^ 32 - PGSIZE →
  ∃ s', freerange_loop kend fuel p vend s = Ok tt s' ∧ km_use_lock s' = km_use_lock s ∧
    rep kend s' (reverse (pages p n) ++ free) ∅ ∧
    ∀ u, u ∉ pages p n → km_mem s' !! u = km_mem s !! u.
Proof.
  induction n as [|n IH]; intros fuel p vend s free Hfuel Hr Hp Hend Hp0 Hv.
  - destruct fuel as [|fuel]; [lia|]. simpl. rewrite u32_small by (unfold PGSIZE in *; lia).
    rewrite (proj2 (Z.leb_gt (p + PGSIZE) vend)) by lia. exists s. done.
  - destruct fuel as [|fuel]; [lia|]. simpl. rewrite u32_small by (unfold PGSIZE in *; lia).
    rewrite (proj2 (Z.leb_le (p + PGSIZE) vend)) by (unfold PGSIZE in *; lia).
    rewrite pages_S in Hp. destruct (Hp p) as (Hpv & [pg Hpg] & Hpf); [set_solver|].
    destruct (rep_donate kend s p free ∅ pg) as (s1 & Hk & Hu & Hr1 & Hm); [done..|set_solver|].
    destruct (IH fuel (p + PGSIZE) vend s1 (p :: free)) as (s2 & Hl & Hu2 & Hr2 & Hm2).
    + lia.
    + done.
    + intros v Hv'. assert (v ≠ p) as Hne.
      { apply elem_of_pages in Hv' as (i & Hi & ->). unfold PGSIZE. lia. }
      rewrite Hm by done. destruct (Hp v) as (? & ? & ?); [set_solver|]. split_and!; [done|done|set_solver].
    + unfold PGSIZE in *. lia.
    + unfold PGSIZE in *. lia.
    + done.
    + exists s2. unfold mbind, K_bind. rewrite Hk. split_and!; [done|congruence| |].
      * rewrite pages_S, reverse_cons, <- app_assoc. done.
      * intros u Hu'. rewrite pages_S in Hu'. rewrite Hm2, Hm by set_solver. done.
Qed.
(** [freerange] adds the aligned pages that lie in the range. *)
Lemma freerange_rep vstart vend s free :
  rep kend s free ∅ → KERNBASE ≤ kend ≤ vstart → vstart ≤ vend ≤ KERNBASE + PHYSTOP → vend mod PGSIZE = 0 →
  (∀ v, vstart ≤ v < vend → v mod PGSIZE = 0 → is_Some (km_mem s !! v) ∧ v ∉ free) →
  ∃ s' free', freerange kend vstart vend s = Ok tt s' ∧ km_use_lock s' = km_use_lock s ∧
    rep kend s' (free' ++ free) ∅ ∧
    (∀ v, v ∈ free' ↔ vstart ≤ v < vend ∧ v mod PGSIZE = 0) ∧
    (∀ v, v ∉ free' → km_mem s' !! v = km_mem s !! v).
Proof.
  intros Hr Hk Hv Hal Hm. assert (0 ≤ vstart ≤ 2 ^ 32 - PGSIZE) as Hvs by (unfold KERNBASE, PHYSTOP, PGSIZE in *; lia).
  destruct (PGROUNDUP_bounds vstart Hvs) as [Hb Hb0]. set (p := PGROUNDUP vstart) in *.
  apply Z.mod_divide in Hb0 as [q Hq]; [|done]. apply Z.mod_divide in Hal as [r Hr']; [|done].
  set (n := Z.to_nat (r - q)).
  assert (∀ v, v ∈ pages p n ↔ vstart ≤ v < vend ∧ v mod PGSIZE = 0) as Hin.
  { intros v. rewrite elem_of_pages. split.
    - intros (i & Hi & ->). rewrite Hq, <- Z.mul_add_distr_r, Z.mod_mul by done. unfold PGSIZE in *. lia.
    - intros [Hv1 [j Hj]%Z.mod_divide]; [|done]. exists (j - q). unfold PGSIZE in *. lia. }
  destruct (freerange_loop_rep n (Z.to_nat (vend / PGSIZE + 1)) p vend s free)
    as (s' & Hrun & Hu & Hrep & Hmem).
  - rewrite Hr', Z.div_mul by done. unfold n, PGSIZE, KERNBASE in *. lia.
  - done.
  - intros v [Hv1 Hv2]%Hin. split; [|by apply Hm]. apply page_valid_intro; [lia|lia|done].
  - unfold n, PGSIZE in *. lia.
  - lia.
  - unfold KERNBASE, PHYSTOP, PGSIZE in *. lia.
  - exists s', (reverse (pages p n)). split_and!; [done|done|done| |].
    + intros v. by rewrite elem_of_reverse.
    + intros v. rewrite elem_of_reverse. apply Hmem.
Qed.
End freerange.

(** The two phases of initialization. Whatever address the kernel ends at
    in its first 4 MB, if memory is there up to PHYSTOP, then
    [kinit1(end, P2V(4MB))] followed by [kinit2(P2V(4MB), P2V(PHYSTOP))]
    returns; locking is then on, no page is handed out, and the free list
    holds exactly the page-aligned addresses from [end] to the top of
    memory, each once. *)
Theorem kinit_free_list kend s :
  KERNBASE ≤ kend ≤ P2V 0x400000 → km_freelist s = 0 →
  (∀ v, kend ≤ v < KERNBASE + PHYSTOP → v mod PGSIZE = 0 → ∃ pg, km_mem s !! v = Some pg) →
  ∃ s' free,
    (kinit1 kend kend (P2V 0x400000) ;; kinit2 kend (P2V 0x400000) (P2V PHYSTOP)) s = Ok tt s' ∧
    rep kend s' free ∅ ∧ km_use_lock s' = 1 ∧
    ∀ v, v ∈ free ↔ kend ≤ v < KERNBASE + PHYSTOP ∧ v mod PGSIZE = 0.
Proof.
  change (P2V 0x400000) with (KERNBASE + 0x400000). change (P2V PHYSTOP) with (KERNBASE + PHYSTOP).
  intros Hk Hf Hm. set (s0 := set_use_lock 0 (set_locked false s)).
  destruct (freerange_rep kend kend (KERNBASE + 0x400000) s0 []) as (s1 & f1 & Hr1 & Hu1 & Hrep1 & Hf1 & Hm1).
  - split; simpl; try done; first [by apply NoDup_nil | set_solver].
  - lia.
  - unfold PHYSTOP. lia.
  - done.
  - intros v Hv Hv0. destruct (Hm v) as [pg Hpg]; [unfold PHYSTOP; lia|done|].
    split; [by exists pg|set_solver].
  - rewrite app_nil_r in Hrep1.
    destruct (freerange_rep kend (KERNBASE + 0x400000) (KERNBASE + PHYSTOP) s1 f1)
      as (s2 & f2 & Hr2 & Hu2 & Hrep2 & Hf2 & _); try done.
    + intros v Hv Hv0. assert (v ∉ f1) as Hvf by (rewrite Hf1; lia). rewrite Hm1 by done.
      destruct (Hm v) as [pg Hpg]; [lia|done|]. split; [by exists pg|done].
    + exists (set_use_lock 1 s2), (f2 ++ f1). unfold kinit1, kinit2, mbind, K_bind, modify. fold s0.
      rewrite Hr1, Hr2. split_and!; [done| |done|].
      * by destruct Hrep2; split.
      * intros v. rewrite elem_of_app, Hf1, Hf2. unfold PHYSTOP. destruct (decide (v < KERNBASE + 0x400000)); lia.
Qed.

(** C29 Exclusive ownership of pages. Start with any free list and let clients
    call [kalloc], free pages they were given and write to them, in any order.
    Then [kalloc] returns, changing no page, with 0 exactly when all pages are
    handed out and otherwise with a page of the original list that nobody has;
    and [kfree] of a page that was handed out returns and changes no other
    page. *)
Theorem kalloc_exclusive kend s0 free0 s owned :
  rep kend s0 free0 ∅ → rtc (mstep kend) (s0, ∅) (s, owned) →
  (∃ v s', kalloc s = Ok v s' ∧ km_mem s' = km_mem s ∧
     (v = 0 ∧ owned = list_to_set free0 ∨ v ≠ 0 ∧ v ∈ free0 ∧ v ∉ owned)) ∧
  (∀ v, v ∈ owned →
     ∃ s', kfree kend v s = Ok tt s' ∧ ∀ u, u ≠ v → km_mem s' !! u = km_mem s !! u).
Proof.
  intros Hr0 Hst. destruct (msteps_rep kend _ _ _ Hst Hr0) as (free & Hr & Heq). simpl in Hr, Heq. split.
  - destruct free as [|v free].
    + exists 0, s. rewrite (rep_alloc_nil kend s owned) by done. split_and!; [done|done|]. left. set_solver.
    + destruct (rep_alloc kend _ _ _ _ Hr) as (s' & Ha & Hm & _). exists v, s'.
      split_and!; [done|done|]. right. split_and!.
      * apply (page_valid_nonzero kend), Hr. set_solver.
      * assert (v ∈ (list_to_set free0 ∪ ∅ : gset Z)); [rewrite <- Heq|]; set_solver.
      * apply Hr. set_solver.
  - intros v Hv. destruct (rep_free kend _ _ _ _ Hr Hv) as (s' & ? & _ & ?). eauto.
Qed.

(** Two free pages above a kernel that ends in its second page. *)
Definition two_pages : kmem :=
  Kmem false 1 0x80003000
    {[ 0x80003000 := put_u32 0 0x80002000 junk_page; 0x80002000 := put_u32 0 0 junk_page ]}.

Lemma two_pages_rep : rep 0x80001234 two_pages [0x80003000; 0x80002000] ∅.
Proof.
  assert (∀ n, page_ok (put_u32 0 n junk_page)) as Hok.
  { intros n. unfold page_ok. rewrite length_put_u32; rewrite length_junk_page; lia. }
  split.
  - done.
  - simpl. split; [done|]. eexists. rewrite lookup_insert_eq. split; [done|].
    split; [by vm_compute|]. eexists. rewrite lookup_insert_ne, lookup_singleton_eq by done.
    split; [done|]. by vm_compute.
  - apply NoDup_cons. split; [set_solver by lia|apply NoDup_singleton].
  - intros v [[->|[->|[]%not_elem_of_nil]%elem_of_cons]%elem_of_cons|[]%not_elem_of_empty]; by vm_compute.
  - intros v [[->|[->|[]%not_elem_of_nil]%elem_of_cons]%elem_of_cons|[]%not_elem_of_empty]; simpl.
    + rewrite lookup_insert_eq. eauto.
    + rewrite lookup_insert_ne, lookup_singleton_eq by done. eauto.
  - set_solver.
Qed.

Lemma kalloc_exclusive_witness :
  (∃ v s', kalloc two_pages = Ok v s' ∧ (v = 0 ∧ ∅ = list_to_set (C := gset Z) [0x80003000; 0x80002000] ∨
     v ≠ 0 ∧ v ∈ [0x80003000; 0x80002000] ∧ v ∉ (∅ : gset Z))).
Proof.
  destruct (kalloc_exclusive 0x80001234 two_pages _ two_pages ∅ two_pages_rep) as [(v & s' & Hr & _ & H) _].
  - reflexivity.
  - exists v, s'. done.
Defined.

(** All of physical memory. *)
Definition all_memory : kmem :=
  Kmem true 0 0 (list_to_map ((λ v, (v, junk_page)) <$> pages KERNBASE (Z.to_nat (PHYSTOP / PGSIZE)))).

Lemma lookup_const_map (l : list Z) (pg : list Z) v :
  v ∈ l → ∃ pg', (list_to_map ((λ v, (v, pg)) <$> l) : gmap Z (list Z)) !! v = Some pg'.
Proof.
  induction l as [|u l IH]; [by intros ?%not_elem_of_nil|]. intros Hv. simpl.
  destruct (decide (u = v)) as [->|].
  - rewrite lookup_insert_eq. eauto.
  - rewrite lookup_insert_ne by done. apply IH. set_solver.
Qed.

Lemma all_memory_lookup v :
  KERNBASE ≤ v < KERNBASE + PHYSTOP → v mod PGSIZE = 0 → ∃ pg, km_mem all_memory !! v = Some pg.
Proof.
  intros Hv [q Hq]%Z.mod_divide; [|done]. apply lookup_const_map.
  apply elem_of_pages. exists (q - KERNBASE / PGSIZE).
  rewrite Z2Nat.id by done. change (PHYSTOP / PGSIZE) with 57344. change (KERNBASE / PGSIZE) with 524288.
  unfold PHYSTOP, KERNBASE, PGSIZE in *. lia.
Qed.

Lemma kinit_free_list_witness :
  ∃ s' free,
    (kinit1 0x80115000 0x80115000 (P2V 0x400000) ;; kinit2 0x80115000 (P2V 0x400000) (P2V PHYSTOP)) all_memory
      = Ok tt s' ∧ 0x80115000 ∈ (free : list Z).
Proof.
  destruct (kinit_free_list 0x80115000 all_memory) as (s' & free & Hr & _ & _ & Hf).
  - by vm_compute.
  - reflexivity.
  - intros v Hv. apply all_memory_lookup. unfold KERNBASE in *. lia.
  - exists s', free. split; [exact Hr|]. clear Hr. apply Hf. by vm_compute.
Defined.
