(* ===== verification/Spinlock.v ===== *)
(** * Spinlock: spin locks on several processors (kernel/src/spinlock.rs, interrupt.rs)

    The other files take a critical section of a spin lock as one step. This
    file is why they may: the code of [SpinLockC] and [SpinLock], one access to
    shared memory at a time, with any number of processors and locks, and the
    nesting of [push_cli] and [pop_cli] that keeps interrupts off meanwhile.
    Accesses to memory are sequentially consistent. *)

From stdpp Require Import functions gmap.
From S2P Require Import Prelude.

(** ** A processor *)

Definition FL_IF : Z := 0x200.

(** [eflags], and of [struct Cpu] the two fields of the nesting. *)
Record cpu := Cpu { c_eflags : Z; c_ncli : Z; c_intena : Z }.

Definition set_eflags (e : Z) (k : cpu) : cpu := Cpu e (c_ncli k) (c_intena k).
Definition set_ncli (n : Z) (k : cpu) : cpu := Cpu (c_eflags k) n (c_intena k).
Definition set_intena (i : Z) (k : cpu) : cpu := Cpu (c_eflags k) (c_ncli k) i.

Definition cli : K cpu unit := modify (λ k, set_eflags (Z.ldiff (c_eflags k) FL_IF) k).
Definition sti : K cpu unit := modify (λ k, set_eflags (Z.lor (c_eflags k) FL_IF) k).

(** The test of [my_cpu_id]; which processor it is, the caller knows. *)
Definition my_cpu : K cpu unit :=
  e ← gets c_eflags;
  if negb (Z.land e FL_IF =? 0) then panic "cpuid called with interrupts enabled" else mret tt.

Definition push_cli : K cpu unit :=
  eflags ← gets c_eflags;
  cli ;;
  my_cpu ;;
  n ← gets c_ncli;
  when (n =? 0) (modify (set_intena (Z.land eflags FL_IF))) ;;
  modify (set_ncli (s32 (n + 1))).

Definition pop_cli : K cpu unit :=
  e ← gets c_eflags;
  if negb (Z.land e FL_IF =? 0) then panic "pop_cli - interruptible" else
  my_cpu ;;
  n ← gets c_ncli;
  if n =? 0 then panic "pop_cli" else
  modify (set_ncli (s32 (n - 1))) ;;
  n ← gets c_ncli;
  i ← gets c_intena;
  when ((n =? 0) && negb (i =? 0)) sti.

(** [interrupt::free] *)
Definition free {A} (f : K cpu A) : K cpu A :=
  push_cli ;;
  ret ← f;
  pop_cli ;;
  mret ret.

(** ** Locks *)

(** [locked] and [cpu] of [SpinLockC]; a [SpinLock] has only [locked]. *)
Record lock := Lock { lk_locked : Z; lk_cpu : option nat }.

(** Where a processor is. [AcqTest] to [AcqRecord] are in [SpinLockC::acquire]:
    the two loads of [is_locked], the loop, the store to [cpu]. [RelTest] to
    [RelStore] are in [release]. [GSpin] is in [SpinLock::lock] and [GStore] in
    its [release]. [Halted]: the processor has panicked. *)
Inductive point :=
  | Idle
  | AcqTest (l : nat) | AcqOwner (l : nat) | AcqSpin (l : nat) | AcqRecord (l : nat)
  | RelTest (l : nat) | RelOwner (l : nat) | RelClear (l : nat) | RelStore (l : nat)
  | GSpin (l : nat) | GStore (l : nat)
  | Halted.

(** [y_held c] are the locks processor [c] has: from the exchange that took the
    lock to the store that gives it back. The code does not see it. *)
Record sys := Sys {
  y_cpu : nat → cpu;
  y_lock : nat → lock;
  y_at : nat → point;
  y_held : nat → gset nat
}.

Section turn.
Context (c : nat).

Definition on_cpu (m : K cpu unit) : K sys unit := λ s,
  match m (y_cpu s c) with
  | Ok _ k => Ok tt (Sys (<[c:=k]> (y_cpu s)) (y_lock s) (y_at s) (y_held s))
  | Fault f => Fault f
  end.
Definition goto (p : point) : K sys unit :=
  modify (λ s, Sys (y_cpu s) (y_lock s) (<[c:=p]> (y_at s)) (y_held s)).
Definition load (l : nat) : K sys lock := gets (λ s, y_lock s l).
Definition store (l : nat) (k : lock) : K sys unit :=
  modify (λ s, Sys (y_cpu s) (<[l:=k]> (y_lock s)) (y_at s) (y_held s)).
Definition hold (l : nat) : K sys unit :=
  modify (λ s, Sys (y_cpu s) (y_lock s) (y_at s) (<[c:={[l]} ∪ y_held s c]> (y_held s))).
Definition unhold (l : nat) : K sys unit :=
  modify (λ s, Sys (y_cpu s) (y_lock s) (y_at s) (<[c:=y_held s c ∖ {[l]}]> (y_held s))).

(** [acquire], [release] and [lock] up to the first access to the lock; the
    drop of a guard. *)
Definition acquire (l : nat) : K sys unit := on_cpu push_cli ;; goto (AcqTest l).
Definition release (l : nat) : K sys unit := goto (RelTest l).
Definition guard_lock (l : nat) : K sys unit := on_cpu push_cli ;; goto (GSpin l).
Definition guard_drop (l : nat) : K sys unit := goto (GStore l).

(** One access to shared memory, with what the processor does by itself up to
    the next one. *)
Definition turn : K sys unit :=
  p ← gets (λ s, y_at s c);
  match p with
  | Idle | Halted => mret tt
  | AcqTest l => (* assert!(!self.is_locked()) *)
      on_cpu push_cli ;;
      k ← load l;
      if lk_locked k =? 0 then on_cpu pop_cli ;; goto (AcqSpin l) else goto (AcqOwner l)
  | AcqOwner l =>
      k ← load l;
      on_cpu my_cpu ;;
      on_cpu pop_cli ;;
      if bool_decide (lk_cpu k = Some c) then goto Halted else goto (AcqSpin l)
  | AcqSpin l => (* compare_exchange_weak; where it fails for no reason, nothing changes *)
      k ← load l;
      when (lk_locked k =? 0) (store l (Lock 1 (lk_cpu k)) ;; hold l ;; goto (AcqRecord l))
  | AcqRecord l => (* self.cpu = my_cpu() *)
      on_cpu my_cpu ;;
      k ← load l;
      store l (Lock (lk_locked k) (Some c)) ;;
      goto Idle
  | RelTest l => (* assert!(self.is_locked()) *)
      on_cpu push_cli ;;
      k ← load l;
      if lk_locked k =? 0 then on_cpu pop_cli ;; goto Halted else goto (RelOwner l)
  | RelOwner l =>
      k ← load l;
      on_cpu my_cpu ;;
      on_cpu pop_cli ;;
      if bool_decide (lk_cpu k = Some c) then goto (RelClear l) else goto Halted
  | RelClear l => (* self.cpu = null *)
      k ← load l;
      store l (Lock (lk_locked k) None) ;;
      goto (RelStore l)
  | RelStore l => (* self.locked.store(0), pop_cli() *)
      k ← load l;
      store l (Lock 0 (lk_cpu k)) ;;
      unhold l ;;
      on_cpu pop_cli ;;
      goto Idle
  | GSpin l =>
      k ← load l;
      when (lk_locked k =? 0) (store l (Lock 1 (lk_cpu k)) ;; hold l ;; goto Idle)
  | GStore l =>
      k ← load l;
      store l (Lock 0 (lk_cpu k)) ;;
      unhold l ;;
      on_cpu pop_cli ;;
      goto Idle
  end.
End turn.

(** ** The system *)

Section system.
(** Locks are the numbers below [nlock]; [guarded] are those of type
    [SpinLock]. *)
Context (nlock : nat) (guarded : nat → bool).

(** A processor that is in none of the functions calls one, for any lock:
    only the drop of a guard is limited to locks it has, by ownership. While
    it has no lock, interrupts may be turned on and off (by [sti] and [cli], on
    entry to a handler and on return from it), and inside, [sched] replaces
    [intena]. *)
Inductive step : sys → sys → Prop :=
  | step_acquire c l s s' :
      y_at s c = Idle → (l < nlock)%nat → guarded l = false → acquire c l s = Ok tt s' → step s s'
  | step_release c l s s' :
      y_at s c = Idle → (l < nlock)%nat → guarded l = false → release c l s = Ok tt s' → step s s'
  | step_lock c l s s' :
      y_at s c = Idle → (l < nlock)%nat → guarded l = true → guard_lock c l s = Ok tt s' → step s s'
  | step_drop c l s s' :
      y_at s c = Idle → guarded l = true → l ∈ y_held s c → guard_drop c l s = Ok tt s' → step s s'
  | step_turn c s s' : turn c s = Ok tt s' → step s s'
  | step_eflags c e s s' :
      y_at s c = Idle → c_ncli (y_cpu s c) = 0 → on_cpu c (modify (set_eflags e)) s = Ok tt s' → step s s'
  | step_intena c i s s' :
      y_at s c = Idle → c_ncli (y_cpu s c) ≠ 0 → on_cpu c (modify (set_intena i)) s = Ok tt s' → step s s'.

Definition start : sys :=
  Sys (λ _, Cpu 0 0 0) (λ _, Lock 0 None) (λ _, Idle) (λ _, ∅).

Definition reachable : sys → Prop := rtc step start.

(** ** The nesting *)

Definition off (k : cpu) : Prop := Z.land (c_eflags k) FL_IF = 0.

Lemma off_cli e n i : off (Cpu (Z.ldiff e FL_IF) n i).
Proof.
  unfold off. cbn. apply Z.bits_inj'. intros j Hj. rewrite Z.land_spec, Z.ldiff_spec, Z.bits_0.
  destruct (Z.testbit FL_IF j); by rewrite ?andb_false_r, ?andb_false_l.
Qed.

Lemma my_cpu_off k : off k → my_cpu k = Ok tt k.
Proof. intros H. unfold my_cpu, mbind, K_bind, gets. by rewrite H. Qed.

Lemma push_cli_spec k :
  0 ≤ c_ncli k < 2 ^ 31 - 1 → ∃ k', push_cli k = Ok tt k' ∧ off k' ∧ c_ncli k' = c_ncli k + 1.
Proof.
  destruct k as [e n i]. cbn [c_ncli]. intros Hn. unfold push_cli, cli, mbind, K_bind, gets, modify, when, mret, K_ret.
  cbn [c_eflags c_ncli c_intena set_eflags set_ncli set_intena].
  rewrite my_cpu_off by apply off_cli. cbn [c_eflags c_ncli c_intena set_eflags set_ncli set_intena].
  rewrite s32_small by lia.
  destruct (n =? 0); eexists; (split; [done|]); (split; [apply off_cli|done]).
Qed.

Lemma pop_cli_spec k :
  off k → 0 < c_ncli k < 2 ^ 31 →
  ∃ k', pop_cli k = Ok tt k' ∧ c_ncli k' = c_ncli k - 1 ∧ (c_ncli k ≠ 1 → off k').
Proof.
  destruct k as [e n i]. cbn [c_ncli]. intros Hoff Hn. unfold pop_cli, sti, mbind, K_bind, gets, modify, when, mret, K_ret.
  cbn [c_eflags c_ncli c_intena set_eflags set_ncli set_intena].
  unfold off in Hoff. cbn [c_eflags] in Hoff. rewrite Hoff. cbn [negb Z.eqb]. cbv iota.
  rewrite my_cpu_off by done. cbn [c_eflags c_ncli c_intena set_eflags set_ncli set_intena].
  rewrite (proj2 (Z.eqb_neq n 0)), s32_small by lia. destruct (Z.eqb_spec (n - 1) 0) as [E|E].
  - cbn [c_intena set_ncli andb]. destruct (i =? 0); eexists; (split; [done|]); (split; [done|]); cbn; lia.
  - eexists. split; [done|]. split; [done|]. done.
Qed.

Lemma FL_IF_bit j : 0 ≤ j → Z.testbit FL_IF j = (9 =? j).
Proof. intros Hj. apply (Z.pow2_bits_eqb 9 j). lia. Qed.

Lemma ldiff_off e : Z.land e FL_IF = 0 → Z.ldiff e FL_IF = e.
Proof.
  intros E. apply Z.bits_inj'. intros j Hj. rewrite Z.ldiff_spec.
  assert (Z.testbit (Z.land e FL_IF) j = false) as Hb by (rewrite E; apply Z.bits_0). rewrite Z.land_spec in Hb.
  by destruct (Z.testbit e j), (Z.testbit FL_IF j).
Qed.

Lemma lor_on e : Z.land e FL_IF ≠ 0 → Z.lor (Z.ldiff e FL_IF) FL_IF = e.
Proof.
  intros E. assert (Z.testbit e 9 = true) as H9.
  { destruct (Z.testbit e 9) eqn:E9; [done|]. exfalso. apply E, Z.bits_inj'. intros j Hj.
    rewrite Z.land_spec, Z.bits_0, FL_IF_bit by done. destruct (Z.eqb_spec 9 j) as [<-|]; [by rewrite E9|apply andb_false_r]. }
  apply Z.bits_inj'. intros j Hj. rewrite Z.lor_spec, Z.ldiff_spec, FL_IF_bit by done.
  destruct (Z.eqb_spec 9 j) as [<-|]; [by rewrite H9|by rewrite andb_true_r, orb_false_r].
Qed.

(** [push_cli] and [pop_cli] are matched: what was off stays off, what was on
    comes back on. *)
Lemma push_pop k :
  0 ≤ c_ncli k < 2 ^ 31 - 1 → (0 < c_ncli k → off k) →
  ∃ k', (push_cli ;; pop_cli) k = Ok tt k' ∧ c_eflags k' = c_eflags k ∧ c_ncli k' = c_ncli k.
Proof.
  destruct k as [e n i]. cbn [c_ncli c_eflags]. intros Hn Hoff. unfold push_cli, pop_cli, cli, sti, mbind, K_bind, gets, modify, when, mret, K_ret.
  cbn [c_eflags c_ncli c_intena set_eflags set_ncli set_intena].
  rewrite my_cpu_off by apply off_cli. cbn [c_eflags c_ncli c_intena set_eflags set_ncli set_intena].
  rewrite s32_small by lia. pose proof (off_cli e 0 0) as Ho. unfold off in Ho. cbn [c_eflags] in Ho.
  destruct (Z.eqb_spec n 0) as [->|Hne]; cbn [c_eflags c_ncli c_intena set_eflags set_ncli set_intena]; rewrite Ho; cbn [negb Z.eqb]; cbv iota;
    rewrite my_cpu_off by done; cbn [c_eflags c_ncli c_intena set_eflags set_ncli set_intena].
  - change (s32 (0 + 1 - 1)) with 0. change (0 + 1 =? 0) with false. cbn [Z.eqb andb c_intena c_eflags c_ncli set_ncli set_intena set_eflags].
    destruct (Z.land e FL_IF =? 0) eqn:E; cbn [negb]; eexists; (split; [done|]); cbn [c_eflags c_ncli set_eflags]; (split; [|done]).
    + by apply ldiff_off, Z.eqb_eq.
    + apply lor_on. intros H. by rewrite H in E.
  - rewrite (proj2 (Z.eqb_neq (n + 1) 0)), (s32_small (n + 1 - 1)) by lia. replace (n + 1 - 1) with n by lia.
    rewrite (proj2 (Z.eqb_neq n 0)) by done. cbn [andb]. eexists. split; [done|]. split; [|done].
    apply ldiff_off, Hoff. lia.
Qed.

(** ** The invariant *)

(** The calls of [push_cli] that a processor has made for a lock it does not
    have yet, or inside [is_locked]. *)
Definition pending (p : point) : Z :=
  match p with
  | AcqOwner _ => 2
  | AcqTest _ | AcqSpin _ | RelOwner _ | GSpin _ => 1
  | _ => 0
  end.

(** What the point of a processor says about the lock it deals with. *)
Definition point_ok (p : point) (H : gset nat) : Prop :=
  match p with
  | Idle | Halted => True
  | AcqTest l | AcqOwner l | AcqSpin l => guarded l = false ∧ (l < nlock)%nat
  | AcqRecord l => guarded l = false ∧ l ∈ H
  | RelTest l | RelOwner l => guarded l = false
  | RelClear l | RelStore l => l ∈ H
  | GSpin l => guarded l = true ∧ (l < nlock)%nat
  | GStore l => guarded l = true ∧ l ∈ H
  end.

Record cpu_ok (k : cpu) (p : point) (H : gset nat) : Prop := {
  co_ncli : p ≠ Halted → c_ncli k = Z.of_nat (size H) + pending p;
  co_pend : p ≠ Halted → 0 < c_ncli k → off k;
  co_off : H ≠ ∅ → off k;
  co_dom : ∀ l, l ∈ H → (l < nlock)%nat;
  co_point : point_ok p H
}.

Record inv (s : sys) : Prop := {
  iv_cpu : ∀ c, cpu_ok (y_cpu s c) (y_at s c) (y_held s c);
  iv_free : ∀ l, lk_locked (y_lock s l) = 0 → lk_cpu (y_lock s l) = None ∧ ∀ c, l ∉ y_held s c;
  iv_taken : ∀ l, lk_locked (y_lock s l) ≠ 0 → ∃ c, l ∈ y_held s c;
  iv_guard : ∀ l, guarded l = true → lk_cpu (y_lock s l) = None;
  iv_excl : ∀ l c c', l ∈ y_held s c → l ∈ y_held s c' → c = c';
  iv_owner : ∀ l c, lk_cpu (y_lock s l) = Some c → l ∈ y_held s c ∧ y_at s c ≠ AcqRecord l ∧ y_at s c ≠ RelStore l;
  iv_mine : ∀ l c, l ∈ y_held s c → guarded l = false →
    lk_cpu (y_lock s l) = Some c ∨ y_at s c = AcqRecord l ∨ y_at s c = RelStore l
}.

Lemma inv_start : inv start.
Proof.
  split; cbn.
  - intros c. split; cbn; done || lia || set_solver.
  - set_solver.
  - done.
  - done.
  - set_solver.
  - done.
  - set_solver.
Qed.

(** What a processor does to a lock it deals with: take it, give it back,
    write its name there or erase it, or nothing. *)
Inductive access (c l : nat) (k : lock) (p : point) (H : gset nat) : lock → point → gset nat → Prop :=
  | access_none p' : 
      (∀ l', p ≠ AcqRecord l' ∧ p ≠ RelStore l') → (∀ l', p' ≠ AcqRecord l' ∧ p' ≠ RelStore l') → access c l k p H k p' H
  | access_take p' :
      lk_locked k = 0 → (∀ l', p ≠ AcqRecord l' ∧ p ≠ RelStore l') → (p' = AcqRecord l ∨ p' = Idle ∧ guarded l = true) →
      access c l k p H (Lock 1 (lk_cpu k)) p' ({[l]} ∪ H)
  | access_record :
      p = AcqRecord l → access c l k p H (Lock (lk_locked k) (Some c)) Idle H
  | access_clear : p = RelClear l → access c l k p H (Lock (lk_locked k) None) (RelStore l) H
  | access_give : p = RelStore l ∨ p = GStore l → access c l k p H (Lock 0 (lk_cpu k)) Idle (H ∖ {[l]}).

Section access.
Context (c l : nat) (s s' : sys) (Hi : inv s).
Context (Ha : access c l (y_lock s l) (y_at s c) (y_held s c) (y_lock s' l) (y_at s' c) (y_held s' c)).
Context (Hc : ∀ c', c' ≠ c → y_cpu s' c' = y_cpu s c' ∧ y_at s' c' = y_at s c' ∧ y_held s' c' = y_held s c').
Context (Hl : ∀ l', l' ≠ l → y_lock s' l' = y_lock s l').

Lemma access_mine : y_at s c = AcqRecord l ∨ y_at s c = RelClear l ∨ y_at s c = RelStore l ∨ y_at s c = GStore l → l ∈ y_held s c.
Proof. pose proof (co_point _ _ _ (iv_cpu _ Hi c)) as Hp. intros [E|[E|[E|E]]]; rewrite E in Hp; cbn in Hp; tauto. Qed.

(** A processor about to give a lock back has erased its name. *)
Lemma access_unnamed : y_at s c = RelStore l ∨ y_at s c = GStore l → lk_cpu (y_lock s l) = None.
Proof.
  intros [Hp|Hp].
  - destruct (lk_cpu (y_lock s l)) as [c0|] eqn:E; [|done]. exfalso. destruct (iv_owner _ Hi _ _ E) as (H1 & H2 & H3).
    assert (c0 = c) as -> by (apply (iv_excl _ Hi l); [done|]; apply access_mine; auto). auto.
  - pose proof (co_point _ _ _ (iv_cpu _ Hi c)) as Hpt. rewrite Hp in Hpt. by apply (iv_guard _ Hi), Hpt.
Qed.

Lemma access_held l' : l' ∈ y_held s' c → l' ∈ y_held s c ∨ l' = l ∧ lk_locked (y_lock s l) = 0.
Proof. destruct Ha; set_solver. Qed.

Lemma access_keeps l' : l' ∈ y_held s c → l' ≠ l → l' ∈ y_held s' c.
Proof. destruct Ha; set_solver. Qed.

Lemma access_free l' :
  lk_locked (y_lock s' l') = 0 → lk_cpu (y_lock s' l') = None ∧ ∀ c', l' ∉ y_held s' c'.
Proof.
  assert (∀ c', c' ≠ c → l' ∈ y_held s' c' → l' ∈ y_held s c') as Hne by (intros c' Hd; by destruct (Hc c' Hd) as (_ & _ & ->)).
  destruct (decide (l' = l)) as [->|Hnl].
  - pose proof access_held l as Hh. pose proof access_mine as Hm. pose proof access_unnamed as Hu.
    intros Hz. assert (lk_cpu (y_lock s' l) = None ∧ (l ∉ y_held s' c) ∧ ∀ c', c' ≠ c → l ∉ y_held s c') as (H1 & H2 & H3).
    { destruct Ha as [p' Hn Hn'|p' Hz0 Hn Hp'|Hpr|Hpr|Hpr]; cbn in *; try done.
      - destruct (iv_free _ Hi l Hz). auto.
      - destruct (iv_free _ Hi l Hz) as [_ Hno]. exfalso. apply (Hno c), Hm. auto.
      - destruct (iv_free _ Hi l Hz) as [_ Hno]. exfalso. apply (Hno c), Hm. auto.
      - split; [auto|]. split; [set_solver|]. intros c' Hd Hin. apply Hd, (iv_excl _ Hi l); [done|]. apply Hm. naive_solver. }
    split; [done|]. intros c' Hin. destruct (decide (c' = c)) as [->|Hd]; [done|]. apply (H3 c' Hd). auto.
  - rewrite Hl by done. intros Hz. destruct (iv_free _ Hi l' Hz) as [? Hno]. split; [done|]. intros c' Hin.
    destruct (decide (c' = c)) as [->|Hd]; [|apply (Hno c'); auto]. destruct (access_held l' Hin) as [?|[? _]]; [|done]. by apply (Hno c).
Qed.

Lemma access_taken l' : lk_locked (y_lock s' l') ≠ 0 → ∃ c', l' ∈ y_held s' c'.
Proof.
  destruct (decide (l' = l)) as [->|Hnl].
  - pose proof access_mine as Hm. pose proof (iv_taken _ Hi l) as Ht.
    assert (∀ c', c' ≠ c → l ∈ y_held s c' → ∃ c', l ∈ y_held s' c') as Hother.
    { intros c' Hd Hin. exists c'. by destruct (Hc c' Hd) as (_ & _ & ->). }
    assert (l ∈ y_held s' c → ∃ c', l ∈ y_held s' c') as Hown by (intros Hin; by exists c).
    destruct Ha as [p' Hn Hn'|p' Hz0 Hn Hp'|Hpr|Hpr|Hpr]; cbn; intros Hz.
    + destruct (Ht Hz) as [c' Hin]. destruct (decide (c' = c)) as [->|Hd]; [by apply Hown|by apply (Hother c')].
    + apply Hown, elem_of_union_l, elem_of_singleton. done.
    + apply Hown, Hm. auto.
    + apply Hown, Hm. auto.
    + done.
  - rewrite Hl by done. intros Hz. destruct (iv_taken _ Hi l' Hz) as [c' Hin].
    destruct (decide (c' = c)) as [->|Hd]; [exists c; by apply access_keeps|].
    exists c'. by destruct (Hc c' Hd) as (_ & _ & ->).
Qed.

Lemma access_excl l' c1 : l' ∈ y_held s' c → l' ∈ y_held s' c1 → c1 = c.
Proof.
  intros H1 H2. destruct (decide (c1 = c)) as [|Hd]; [done|]. destruct (Hc c1 Hd) as (_ & _ & E). rewrite E in H2.
  destruct (access_held l' H1) as [Hin|[-> Hz]]; [by apply (iv_excl _ Hi l')|].
  destruct (iv_free _ Hi l Hz) as [_ Hno]. by destruct (Hno c1).
Qed.

Lemma access_owner l' c' :
  lk_cpu (y_lock s' l') = Some c' → l' ∈ y_held s' c' ∧ y_at s' c' ≠ AcqRecord l' ∧ y_at s' c' ≠ RelStore l'.
Proof.
  assert (lk_cpu (y_lock s l') = Some c' → c' ≠ c → l' ∈ y_held s' c' ∧ y_at s' c' ≠ AcqRecord l' ∧ y_at s' c' ≠ RelStore l') as Hother.
  { intros E Hd. destruct (Hc c' Hd) as (_ & -> & ->). by apply (iv_owner _ Hi). }
  destruct (decide (l' = l)) as [->|Hnl].
  - pose proof Ha as Hacc. remember (y_lock s' l) as kl eqn:E1 in Hacc. remember (y_at s' c) as p' eqn:E2 in Hacc.
    remember (y_held s' c) as H' eqn:E3 in Hacc. intros E. rewrite <- E1 in E.
    destruct Hacc as [p' Hn Hn'|p' Hz0 Hn Hp'|Hpr|Hpr|Hpr]; cbn in E.
    + destruct (decide (c' = c)) as [->|Hd]; [|auto]. rewrite <- E2, <- E3. split; [by apply (iv_owner _ Hi)|auto].
    + destruct (iv_free _ Hi l Hz0). congruence.
    + injection E as <-. rewrite <- E2, <- E3. split; [apply access_mine; auto|done].
    + done.
    + rewrite access_unnamed in E by done. done.
  - rewrite Hl by done. intros E. destruct (decide (c' = c)) as [->|Hd]; [|auto].
    destruct (iv_owner _ Hi _ _ E) as (H1 & H2 & H3). split; [by apply access_keeps|].
    destruct Ha; naive_solver.
Qed.

Lemma access_named l' c' :
  l' ∈ y_held s' c' → guarded l' = false →
  lk_cpu (y_lock s' l') = Some c' ∨ y_at s' c' = AcqRecord l' ∨ y_at s' c' = RelStore l'.
Proof.
  intros Hin Hg. pose proof Ha as Hacc. remember (y_lock s' l) as kl eqn:E1 in Hacc. remember (y_at s' c) as p' eqn:E2 in Hacc.
  remember (y_held s' c) as H' eqn:E3 in Hacc. destruct (decide (c' = c)) as [->|Hd].
  - destruct (decide (l' = l)) as [->|Hnl].
    + rewrite <- E1, <- E2. rewrite <- E3 in Hin. pose proof (iv_mine _ Hi l c) as Hm.
      destruct Hacc as [p' Hn Hn'|p' Hz0 Hn Hp'|Hpr|Hpr|Hpr]; cbn; auto.
      * destruct (Hm Hin Hg) as [|[E|E]]; [by left|..]; by apply Hn in E.
      * destruct Hp' as [->|[-> Hg']]; [auto|congruence].
      * set_solver.
    + rewrite (Hl l') by done. rewrite <- E2. assert (l' ∈ y_held s c) as Hin0.
      { destruct (access_held l' Hin) as [|[? _]]; done. }
      destruct (iv_mine _ Hi l' c Hin0 Hg) as [Hm|Hm]; [by left|].
      destruct Hacc as [p' Hn Hn'|p' Hz0 Hn Hp'|Hpr|Hpr|Hpr]; exfalso.
      * destruct (Hn l'); tauto.
      * destruct (Hn l'); tauto.
      * destruct Hm; congruence.
      * destruct Hm; congruence.
      * destruct Hm, Hpr; congruence.
  - destruct (Hc c' Hd) as (_ & Ep & Eh). rewrite Ep. rewrite Eh in Hin. pose proof (iv_mine _ Hi l' c' Hin Hg) as Hm.
    destruct (decide (l' = l)) as [->|Hnl]; [|by rewrite Hl]. rewrite <- E1.
    assert (l ∉ y_held s c) as Hno by (intros H; apply Hd, (iv_excl _ Hi l); done). pose proof access_mine as Hm'.
    destruct Hacc as [p' Hn Hn'|p' Hz0 Hn Hp'|Hpr|Hpr|Hpr]; cbn; try done; exfalso; apply Hno, Hm'; tauto.
Qed.

Lemma inv_access : cpu_ok (y_cpu s' c) (y_at s' c) (y_held s' c) → inv s'.
Proof.
  intros Hk. split.
  - intros c'. destruct (decide (c' = c)) as [->|Hd]; [done|]. destruct (Hc c' Hd) as (-> & -> & ->). apply Hi.
  - exact access_free.
  - exact access_taken.
  - intros l' Hg. destruct (decide (l' = l)) as [->|Hnl]; [|rewrite Hl by done; by apply (iv_guard _ Hi)].
    pose proof (iv_guard _ Hi l Hg) as Hn. pose proof (co_point _ _ _ (iv_cpu _ Hi c)) as Hpt.
    destruct Ha as [| |Hpr| |]; cbn; try done. rewrite Hpr in Hpt. destruct Hpt. congruence.
  - intros l' c1 c2 H1 H2. destruct (decide (c1 = c)) as [->|Hd1]; [symmetry; by eapply access_excl|].
    destruct (decide (c2 = c)) as [->|Hd2]; [by eapply access_excl|].
    destruct (Hc c1 Hd1) as (_ & _ & E1), (Hc c2 Hd2) as (_ & _ & E2). rewrite E1 in H1. rewrite E2 in H2. by apply (iv_excl _ Hi l').
  - exact access_owner.
  - exact access_named.
Qed.
End access.

(** ** Every step keeps it *)

Lemma size_insert (l : nat) (H : gset nat) : (l ∉ H) → Z.of_nat (size ({[l]} ∪ H)) = Z.of_nat (size H) + 1.
Proof. intros Hl. rewrite size_union, size_singleton by set_solver. lia. Qed.

Lemma size_remove (l : nat) (H : gset nat) : l ∈ H → Z.of_nat (size (H ∖ {[l]})) = Z.of_nat (size H) - 1.
Proof.
  intros Hl. rewrite size_difference, size_singleton by set_solver.
  assert (size H ≠ 0%nat) by (intros E%size_empty_inv; set_solver). lia.
Qed.

Context (Hmany : Z.of_nat nlock < 2 ^ 31 - 3).

Lemma size_held (H : gset nat) : (∀ l, l ∈ H → (l < nlock)%nat) → Z.of_nat (size H) ≤ Z.of_nat nlock.
Proof.
  intros Hd. assert (H ⊆ list_to_set (seq 0 nlock)) as Hsub%subseteq_size.
  { intros l Hl%Hd. apply elem_of_list_to_set, elem_of_seq. lia. }
  rewrite size_list_to_set in Hsub by apply NoDup_seq. rewrite length_seq in Hsub. lia.
Qed.

Lemma cpu_ok_ncli k p H : cpu_ok k p H → p ≠ Halted → 0 ≤ c_ncli k < 2 ^ 31 - 1 ∧ c_ncli k = Z.of_nat (size H) + pending p.
Proof.
  intros Hk Hp. rewrite (co_ncli _ _ _ Hk Hp). pose proof (size_held H (co_dom _ _ _ Hk)).
  split; [|done]. destruct p; cbn; lia.
Qed.

Lemma on_cpu_Ok c m s k :
  m (y_cpu s c) = Ok tt k → on_cpu c m s = Ok tt (Sys (<[c:=k]> (y_cpu s)) (y_lock s) (y_at s) (y_held s)).
Proof. intros E. unfold on_cpu. by rewrite E. Qed.

Ltac look := cbn [y_cpu y_lock y_at y_held] in *; rewrite ?fn_lookup_insert in *.
Ltac run := unfold turn, acquire, release, guard_lock, guard_drop, goto, load, store, hold, unhold, modify, gets, mbind, K_bind, mret, K_ret, when;
  cbv beta; look.
(** The state after a step of processor [c] on lock [l]. *)
Ltac keep c l Hi := apply (inv_access c l _ _ Hi); look;
  [|intros c' Hd; rewrite ?fn_lookup_insert_ne by done; done|intros l' Hd; rewrite ?fn_lookup_insert_ne by done; done|].

(** A processor panics for a lock it has and asks for, or does not have and
    gives back. *)
Definition misuse (s : sys) (c : nat) : Prop :=
  ∃ l, y_at s c = AcqOwner l ∧ l ∈ y_held s c ∨ (y_at s c = RelTest l ∨ y_at s c = RelOwner l) ∧ l ∉ y_held s c.

Definition turn_ok (s : sys) (c : nat) : Prop :=
  ∃ s', turn c s = Ok tt s' ∧ inv s' ∧ (y_at s c ≠ Halted → y_at s' c = Halted → misuse s c).

Lemma cpu_ok_intro k p H :
  c_ncli k = Z.of_nat (size H) + pending p → (0 < c_ncli k → off k) → (∀ l, l ∈ H → (l < nlock)%nat) → point_ok p H →
  cpu_ok k p H.
Proof.
  intros Hn Ho Hd Hp. split; auto. intros Hne. apply Ho. rewrite Hn.
  assert (size H ≠ 0%nat) by (intros E%size_empty_inv; set_solver). destruct p; cbn; lia.
Qed.

(** The facts about a processor at a known point. *)
Ltac at_point s c Hi Hp := pose proof (iv_cpu _ Hi c) as Hk; rewrite Hp in Hk;
  destruct (cpu_ok_ncli _ _ _ Hk) as [Hb Hn]; [done|];
  pose proof (co_point _ _ _ Hk) as Hpt; pose proof (co_dom _ _ _ Hk) as Hdom; pose proof (co_pend _ _ _ Hk) as Hoff;
  cbn [pending point_ok] in *; unfold turn_ok; run; rewrite Hp.
(** The new state is [s'] up to evaluation. *)
Ltac settle c l Hi := eexists; split; [done|]; split; [keep c l Hi|look; try done].

Lemma turn_AcqTest s c l : inv s → y_at s c = AcqTest l → turn_ok s c.
Proof.
  intros Hi Hp. at_point s c Hi Hp. destruct (push_cli_spec (y_cpu s c)) as (k1 & E1 & Ho1 & Hn1); [done|].
  rewrite (on_cpu_Ok _ _ _ _ E1). look. case_match eqn:Hz.
  - destruct (pop_cli_spec k1) as (k2 & E2 & Hn2 & Ho2); [done|lia|]. rewrite (on_cpu_Ok _ _ _ k2) by (look; done). look.
    settle c l Hi.
    + rewrite Hp. by constructor.
    + apply cpu_ok_intro; [cbn; lia|intros _; apply Ho2; lia|done|done].
  - settle c l Hi.
    + rewrite Hp. by constructor.
    + apply cpu_ok_intro; [cbn; lia|done|done|done].
Qed.

Lemma turn_AcqOwner s c l : inv s → y_at s c = AcqOwner l → turn_ok s c.
Proof.
  intros Hi Hp. at_point s c Hi Hp. rewrite (on_cpu_Ok _ _ _ (y_cpu s c)) by (apply my_cpu_off, Hoff; [done|lia]). look.
  destruct (pop_cli_spec (y_cpu s c)) as (k2 & E2 & Hn2 & Ho2); [apply Hoff; [done|lia]|lia|].
  rewrite (on_cpu_Ok _ _ _ k2) by (look; done). look. case_bool_decide as Hown.
  - settle c l Hi.
    + rewrite Hp. by constructor.
    + split; try done. intros _. apply Ho2. lia.
    + intros _ _. exists l. left. split; [done|]. by apply (iv_owner _ Hi).
  - settle c l Hi.
    + rewrite Hp. by constructor.
    + apply cpu_ok_intro; [cbn; lia|intros _; apply Ho2; lia|done|done].
Qed.

(** The exchange: it takes a free lock, and does nothing to a locked one. *)
Lemma turn_spin s c l (guard : bool) :
  inv s → y_at s c = (if guard then GSpin l else AcqSpin l) → turn_ok s c.
Proof.
  intros Hi Hp. assert (∃ s', turn c s = Ok tt s' ∧ s' = if lk_locked (y_lock s l) =? 0
    then Sys (y_cpu s) (<[l:=Lock 1 (lk_cpu (y_lock s l))]> (y_lock s)) (<[c:=if guard then Idle else AcqRecord l]> (y_at s))
      (<[c:={[l]} ∪ y_held s c]> (y_held s)) else s) as (s' & E & Es').
  { run. rewrite Hp. destruct guard, (lk_locked (y_lock s l) =? 0); look; eauto. }
  exists s'. split; [done|]. destruct (Z.eqb_spec (lk_locked (y_lock s l)) 0) as [Hz|Hz]; subst s'.
  2:{ split; [done|]. intros ?. done. }
  destruct (iv_free _ Hi l Hz) as [_ Hno]. specialize (Hno c). pose proof (iv_cpu _ Hi c) as Hk.
  split; [|look; by destruct guard]. keep c l Hi.
  - pose proof (co_point _ _ _ Hk) as Hpt. rewrite Hp in Hpt |- *. constructor; [done|by destruct guard|].
    destruct guard; [right|by left]. split; [done|]. apply Hpt.
  - rewrite Hp in Hk. destruct (cpu_ok_ncli _ _ _ Hk) as [Hb Hn]; [by destruct guard|].
    pose proof (co_point _ _ _ Hk) as Hpt. apply cpu_ok_intro.
    + rewrite Hn, size_insert by done. destruct guard; cbn; lia.
    + apply (co_pend _ _ _ Hk). by destruct guard.
    + pose proof (co_dom _ _ _ Hk) as Hdom. intros l' [->%elem_of_singleton|?]%elem_of_union; [|auto]. destruct guard; apply Hpt.
    + destruct guard; cbn in *; [done|]. split; [apply Hpt|set_solver].
Qed.

Lemma turn_AcqRecord s c l : inv s → y_at s c = AcqRecord l → turn_ok s c.
Proof.
  intros Hi Hp. at_point s c Hi Hp. assert (off (y_cpu s c)) as Ho by (apply (co_off _ _ _ Hk); set_solver).
  rewrite (on_cpu_Ok _ _ _ (y_cpu s c)) by (by apply my_cpu_off). look. settle c l Hi.
  - rewrite Hp. by constructor.
  - apply cpu_ok_intro; [cbn; lia|done|done|done].
Qed.

Lemma turn_RelTest s c l : inv s → y_at s c = RelTest l → turn_ok s c.
Proof.
  intros Hi Hp. at_point s c Hi Hp. destruct (push_cli_spec (y_cpu s c)) as (k1 & E1 & Ho1 & Hn1); [done|].
  rewrite (on_cpu_Ok _ _ _ _ E1). look. case_match eqn:Hz.
  - destruct (pop_cli_spec k1) as (k2 & E2 & Hn2 & Ho2); [done|lia|]. rewrite (on_cpu_Ok _ _ _ k2) by (look; done). look.
    settle c l Hi.
    + rewrite Hp. by constructor.
    + split; try done. intros Hne. apply Ho2. assert (size (y_held s c) ≠ 0%nat) by (intros E%size_empty_inv; set_solver). lia.
    + intros _ _. exists l. right. split; [by left|]. apply Z.eqb_eq in Hz. by destruct (iv_free _ Hi l Hz).
  - settle c l Hi.
    + rewrite Hp. by constructor.
    + apply cpu_ok_intro; [cbn; lia|done|done|done].
Qed.

Lemma turn_RelOwner s c l : inv s → y_at s c = RelOwner l → turn_ok s c.
Proof.
  intros Hi Hp. at_point s c Hi Hp. rewrite (on_cpu_Ok _ _ _ (y_cpu s c)) by (apply my_cpu_off, Hoff; [done|lia]). look.
  destruct (pop_cli_spec (y_cpu s c)) as (k2 & E2 & Hn2 & Ho2); [apply Hoff; [done|lia]|lia|].
  rewrite (on_cpu_Ok _ _ _ k2) by (look; done). look.
  assert (y_held s c ≠ ∅ → off k2) as Ho3.
  { intros Hne. apply Ho2. assert (size (y_held s c) ≠ 0%nat) by (intros E%size_empty_inv; set_solver). lia. }
  case_bool_decide as Hown.
  - settle c l Hi.
    + rewrite Hp. by constructor.
    + assert (l ∈ y_held s c) as Hin by (by apply (iv_owner _ Hi)). apply cpu_ok_intro; [cbn; lia| |done|done].
      intros _. apply Ho3. set_solver.
  - settle c l Hi.
    + rewrite Hp. by constructor.
    + by split.
    + intros _ _. exists l. right. split; [by right|]. intros Hin. destruct (iv_mine _ Hi l c Hin Hpt) as [|[]]; congruence.
Qed.

Lemma turn_RelClear s c l : inv s → y_at s c = RelClear l → turn_ok s c.
Proof.
  intros Hi Hp. at_point s c Hi Hp. look. settle c l Hi.
  - rewrite Hp. by constructor.
  - apply cpu_ok_intro; [cbn; lia|by apply Hoff|done|done].
Qed.

Lemma turn_give s c l : inv s → y_at s c = RelStore l ∨ y_at s c = GStore l → turn_ok s c.
Proof.
  intros Hi Hp. pose proof (iv_cpu _ Hi c) as Hk. assert (l ∈ y_held s c) as Hin.
  { pose proof (co_point _ _ _ Hk) as Hpt. destruct Hp as [Hp|Hp]; rewrite Hp in Hpt; [done|apply Hpt]. }
  destruct (cpu_ok_ncli _ _ _ Hk) as [Hb Hn]; [by destruct Hp as [-> | ->]|].
  assert (pending (y_at s c) = 0) as H0 by (by destruct Hp as [-> | ->]). rewrite H0 in Hn.
  pose proof (size_remove _ _ Hin) as Hsz.
  destruct (pop_cli_spec (y_cpu s c)) as (k2 & E2 & Hn2 & Ho2); [apply (co_off _ _ _ Hk); set_solver|lia|].
  assert (∃ s', turn c s = Ok tt s' ∧ s' = Sys (<[c:=k2]> (y_cpu s)) (<[l:=Lock 0 (lk_cpu (y_lock s l))]> (y_lock s)) (<[c:=Idle]> (y_at s))
      (<[c:=y_held s c ∖ {[l]}]> (y_held s))) as (s' & E & ->).
  { run. destruct Hp as [Hp|Hp]; rewrite Hp; look; rewrite (on_cpu_Ok _ _ _ k2) by (look; done); look; eauto. }
  exists (Sys (<[c:=k2]> (y_cpu s)) (<[l:=Lock 0 (lk_cpu (y_lock s l))]> (y_lock s)) (<[c:=Idle]> (y_at s))
      (<[c:=y_held s c ∖ {[l]}]> (y_held s))).
  split; [done|]. split; [|look; done]. keep c l Hi.
  - by constructor.
  - apply cpu_ok_intro; [cbn; lia| | |done].
    + intros ?. apply Ho2. lia.
    + intros l' Hl'. apply (co_dom _ _ _ Hk). set_solver.
Qed.

Lemma turn_all s c : inv s → turn_ok s c.
Proof.
  intros Hi. destruct (y_at s c) as [ |l|l|l|l|l|l|l|l|l|l| ] eqn:Hp.
  - exists s. unfold turn, mbind, K_bind, gets. rewrite Hp. split; [done|]. split; [done|]. congruence.
  - by eapply turn_AcqTest.
  - by eapply turn_AcqOwner.
  - by apply (turn_spin s c l false).
  - by eapply turn_AcqRecord.
  - by eapply turn_RelTest.
  - by eapply turn_RelOwner.
  - by eapply turn_RelClear.
  - eapply turn_give; eauto.
  - by apply (turn_spin s c l true).
  - eapply turn_give; eauto.
  - exists s. unfold turn, mbind, K_bind, gets. rewrite Hp. done.
Qed.

(** A processor outside of the functions: a change of its own state. *)
Lemma inv_local c k p s :
  inv s → y_at s c = Idle → (∀ l, p ≠ AcqRecord l ∧ p ≠ RelStore l) →
  c_ncli k = c_ncli (y_cpu s c) + pending p → (0 < c_ncli k → off k) → point_ok p (y_held s c) →
  inv (Sys (<[c:=k]> (y_cpu s)) (y_lock s) (<[c:=p]> (y_at s)) (y_held s)).
Proof.
  intros Hi Hp Hpp Hn Ho Hpt. pose proof (iv_cpu _ Hi c) as Hk. rewrite Hp in Hk.
  destruct (cpu_ok_ncli _ _ _ Hk) as [Hb Hn0]; [done|]. cbn in Hn0. keep c 0%nat Hi.
  - rewrite Hp. by constructor.
  - apply cpu_ok_intro; [lia|done|apply (co_dom _ _ _ Hk)|done].
Qed.

Lemma inv_ext s s' :
  (∀ c, y_cpu s' c = y_cpu s c ∧ y_at s' c = y_at s c) → y_lock s' = y_lock s → y_held s' = y_held s → inv s → inv s'.
Proof.
  intros Hc Hl Hh Hi. split; rewrite ?Hl, ?Hh; try apply Hi.
  - intros c. destruct (Hc c) as [-> ->]. apply Hi.
  - intros l c. destruct (Hc c) as [_ ->]. apply Hi.
  - intros l c. destruct (Hc c) as [_ ->]. apply Hi.
Qed.

Lemma inv_call c l p s s' :
  inv s → y_at s c = Idle → (p = AcqTest l ∧ guarded l = false ∨ p = GSpin l ∧ guarded l = true) → (l < nlock)%nat →
  (on_cpu c push_cli ;; goto c p) s = Ok tt s' → inv s'.
Proof.
  intros Hi Hp Hpp Hl. pose proof (iv_cpu _ Hi c) as Hk. rewrite Hp in Hk.
  destruct (cpu_ok_ncli _ _ _ Hk) as [Hb Hn]; [done|].
  destruct (push_cli_spec (y_cpu s c)) as (k1 & E1 & Ho1 & Hn1); [done|]. run. rewrite (on_cpu_Ok _ _ _ _ E1). look.
  intros [= <-]. destruct Hpp as [[-> Hg]|[-> Hg]]; by apply inv_local.
Qed.

Lemma inv_step s s' : step s s' → inv s → inv s'.
Proof.
  intros Hs Hi. destruct Hs as [c l s s' Hp Hl Hg E|c l s s' Hp Hl Hg E|c l s s' Hp Hl Hg E|c l s s' Hp Hg Hin E|c s s' E|c e s s' Hp Hn E|c i s s' Hp Hn E];
    pose proof (co_pend _ _ _ (iv_cpu _ Hi c)) as Hoff; try (rewrite Hp in Hoff; specialize (Hoff ltac:(done))).
  - apply (inv_call c l (AcqTest l) s s'); auto.
  - revert E. run. intros [= <-]. apply (inv_ext (Sys (<[c:=y_cpu s c]> (y_cpu s)) (y_lock s) (<[c:=RelTest l]> (y_at s)) (y_held s))); try done.
    + intros c'. look. split; [|done]. destruct (decide (c' = c)) as [->|Hd]; [by rewrite fn_lookup_insert|by rewrite fn_lookup_insert_ne].
    + apply inv_local; try done. cbn. lia.
  - apply (inv_call c l (GSpin l) s s'); auto.
  - revert E. run. intros [= <-]. apply (inv_ext (Sys (<[c:=y_cpu s c]> (y_cpu s)) (y_lock s) (<[c:=GStore l]> (y_at s)) (y_held s))); try done.
    + intros c'. look. split; [|done]. destruct (decide (c' = c)) as [->|Hd]; [by rewrite fn_lookup_insert|by rewrite fn_lookup_insert_ne].
    + apply inv_local; try done. cbn. lia.
  - destruct (turn_all s c Hi) as (s1 & E1 & Hi1 & _). congruence.
  - rewrite (on_cpu_Ok _ _ _ (set_eflags e (y_cpu s c))) in E by done. injection E as <-.
    apply (inv_ext (Sys (<[c:=set_eflags e (y_cpu s c)]> (y_cpu s)) (y_lock s) (<[c:=Idle]> (y_at s)) (y_held s))); try done.
    + intros c'. look. split; [done|]. destruct (decide (c' = c)) as [->|Hd]; [by rewrite fn_lookup_insert|by rewrite fn_lookup_insert_ne].
    + apply inv_local; try done; cbn; lia.
  - rewrite (on_cpu_Ok _ _ _ (set_intena i (y_cpu s c))) in E by done. injection E as <-.
    apply (inv_ext (Sys (<[c:=set_intena i (y_cpu s c)]> (y_cpu s)) (y_lock s) (<[c:=Idle]> (y_at s)) (y_held s))); try done.
    + intros c'. look. split; [done|]. destruct (decide (c' = c)) as [->|Hd]; [by rewrite fn_lookup_insert|by rewrite fn_lookup_insert_ne].
    + apply inv_local; try done. cbn. lia.
Qed.

Lemma inv_reachable s : reachable s → inv s.
Proof.
  intros Hr. unfold reachable in Hr. remember start as s0 eqn:E. assert (inv s0) as Hi by (subst; apply inv_start). clear E.
  induction Hr as [|s1 s2 s3 Hs Hr IH]; [done|]. apply IH. by eapply inv_step.
Qed.
End system.

(** C9 Mutual exclusion of spin locks. With any number of processors, each of
    which calls acquire and release (or the guards' lock and drop) as it likes
    and is interleaved with the others at every access to a lock: a lock is had
    by one processor at most, and is free as soon as nobody has it; a processor
    that has a lock runs with interrupts off; outside of the functions the
    depth of its nesting of push_cli is the number of its locks; and it panics
    only if it asks for a lock it has or gives back a lock it does not have. *)
Theorem spinlock_exclusive nlock guarded s :
  Z.of_nat nlock < 2 ^ 31 - 3 → reachable nlock guarded s →
  (∀ l c c', l ∈ y_held s c → l ∈ y_held s c' → c = c') ∧
  (∀ l, lk_locked (y_lock s l) = 0 ↔ ∀ c, l ∉ y_held s c) ∧
  (∀ c, y_held s c ≠ ∅ → Z.land (c_eflags (y_cpu s c)) FL_IF = 0) ∧
  (∀ c, y_at s c = Idle → c_ncli (y_cpu s c) = Z.of_nat (size (y_held s c))) ∧
  (∀ c, ∃ s', turn c s = Ok tt s' ∧ (y_at s c ≠ Halted → y_at s' c = Halted → misuse s c)).
Proof.
  intros Hm Hr. apply inv_reachable in Hr as Hi; [|done]. split_and!.
  - apply Hi.
  - intros l. split; [apply Hi|]. intros Hno. destruct (decide (lk_locked (y_lock s l) = 0)) as [|Hz]; [done|].
    apply (iv_taken _ _ _ Hi) in Hz as [c Hc]. by destruct (Hno c).
  - intros c. apply (co_off _ _ _ _ _ (iv_cpu _ _ _ Hi c)).
  - intros c Hp. rewrite (co_ncli _ _ _ _ _ (iv_cpu _ _ _ Hi c)), Hp by (by rewrite Hp). cbn. lia.
  - intros c. destruct (turn_all nlock guarded Hm s c Hi) as (s' & E & _ & Hmis). eauto.
Qed.

(** ** A run

    A script: processor [c] asks for lock [l] ([Some l]), or goes on ([None]). *)
Fixpoint run_script (l : list (nat * option nat)) (s : sys) : option sys :=
  match l with
  | [] => Some s
  | (c, None) :: r => match turn c s with Ok _ s => run_script r s | Fault _ => None end
  | (c, Some l) :: r =>
      match y_at s c, acquire c l s with
      | Idle, Ok _ s => if bool_decide (l = 0%nat) then run_script r s else None
      | _, _ => None
      end
  end.

Lemma run_script_steps l s s' : run_script l s = Some s' → rtc (step 1 (λ _, false)) s s'.
Proof.
  revert s. induction l as [|[c [k|]] l IH]; intros s; cbn [run_script].
  - intros [= <-]. apply rtc_refl.
  - destruct (y_at s c) eqn:Hp; try done. destruct (acquire c k s) as [[] s1|] eqn:E; [|done].
    case_bool_decide as Hk; [|done]. subst k. intros Hr. eapply rtc_l; [|by apply IH]. by apply (step_acquire _ _ c 0 s s1); [|lia|..].
  - destruct (turn c s) as [[] s1|] eqn:E; [|done]. intros Hr. eapply rtc_l; [|by apply IH]. by eapply step_turn.
Qed.

(** Processor 0 takes the lock; processor 1 asks for it and waits. *)
Definition demo_script : list (nat * option nat) :=
  [(0, Some 0); (0, None); (0, None); (0, None); (1, Some 0); (1, None); (1, None); (1, None)]%nat.
Definition demo_sys : sys := default start (run_script demo_script start).

Lemma spinlock_exclusive_witness :
  (0%nat ∈ y_held demo_sys 0) ∧ y_at demo_sys 1 = AcqSpin 0 ∧ (0%nat ∉ y_held demo_sys 1) ∧
  Z.land (c_eflags (y_cpu demo_sys 0)) FL_IF = 0.
Proof.
  assert (0%nat ∈ y_held demo_sys 0) as H0 by (apply (bool_decide_eq_true _); vm_compute; reflexivity).
  destruct (spinlock_exclusive 1 (λ _, false) demo_sys) as (H1 & _ & H2 & _).
  - done.
  - apply (run_script_steps demo_script). unfold demo_sys.
    destruct (run_script demo_script start) as [s|] eqn:E; [done|]. exfalso.
    assert (bool_decide (is_Some (run_script demo_script start)) = true) as H by (vm_compute; reflexivity).
    rewrite E in H. done.
  - split; [exact H0|]. split; [vm_compute; reflexivity|]. split.
    + intros Hin. specialize (H1 0%nat 0%nat 1%nat H0 Hin). discriminate H1.
    + apply H2. intros E. rewrite E in H0. by apply not_elem_of_empty in H0.
Defined.
