(* ===== verification/Vm.v ===== *)
(** * Vm: page tables (kernel/src/vm.rs, kernel/src/kalloc.rs)

    A page directory and the page tables it points to are pages of the memory
    of the allocator (Kalloc.v): an entry is the four bytes at its place in the
    page. Addresses are kernel virtual addresses, as in the code; [P2V] and
    [V2P] go between them and the physical addresses in the entries. The
    linker's symbols [end] and [data] are parameters. *)

From S2P Require Import Prelude Kalloc.

(** ** Entries *)

Definition PTE_P : Z := 0x001.
Definition PTE_W : Z := 0x002.
Definition PTE_U : Z := 0x004.

(** [PDE] and [PTE] have the same operations but for [index]. *)
Definition PTE_new (addr flags : Z) : Z := Z.lor (Z.land (u32 addr) (u32 (Z.lnot 0xfff))) (Z.land flags 0xfff).
Definition PTE_is_present (e : Z) : bool := negb (Z.land e PTE_P =? 0).
Definition PTE_is_user (e : Z) : bool := negb (Z.land e PTE_U =? 0).
Definition PTE_address (e : Z) : Z := Z.land e (u32 (Z.lnot 0xfff)).
Definition PTE_flags (e : Z) : Z := Z.land e 0xfff.
Definition PDE_index (va : Z) : Z := Z.land (Z.shiftr va 22) 0x3ff.
Definition PTE_index (va : Z) : Z := Z.land (Z.shiftr va 12) 0x3ff.

(** mmu.rs, memlayout.rs *)
Definition NPDENTRIES : Z := 1024.
Definition pg_address (d t o : Z) : Z := u32 (Z.lor (Z.lor (Z.shiftl d 22) (Z.shiftl t 12)) o).
Definition EXTMEM : Z := 0x100000.
Definition DEVSPACE : Z := 0xFE000000.
Definition KERNLINK : Z := KERNBASE + EXTMEM.

(** [*a] and [*a = v] for a pointer to a 32-bit word. *)
Definition load32 (a : Z) : MM Z :=
  pg ← page_at (PGROUNDDOWN a); mret (get_u32 pg (Z.to_nat (a - PGROUNDDOWN a))).
Definition store32 (a v : Z) : MM unit :=
  pg ← page_at (PGROUNDDOWN a);
  modify (λ s, set_mem (<[PGROUNDDOWN a := put_u32 (Z.to_nat (a - PGROUNDDOWN a)) v pg]> (km_mem s)) s).
(** Store bytes that lie in one page. *)
Definition store_page (a : Z) (bytes : list Z) : MM unit :=
  pg ← page_at (PGROUNDDOWN a);
  modify (λ s, set_mem (<[PGROUNDDOWN a := splice (Z.to_nat (a - PGROUNDDOWN a)) bytes pg]> (km_mem s)) s).

(** ** kalloc.rs *)

Definition kalloc_opt : MM (option Z) := addr ← kalloc; mret (if addr =? 0 then None else Some addr).

Definition zero_page : list Z := replicate 4096 0.
Definition kalloc_zeroed : MM (option Z) :=
  r ← kalloc_opt;
  match r with
  | None => mret None
  | Some addr => store_page addr zero_page ;; mret (Some addr)
  end.

(** [(lo..hi).step_by(PGSIZE)] *)
Definition step_by (lo hi : Z) : list Z := (λ i, lo + i * PGSIZE) <$> seqZ 0 ((hi - lo + PGSIZE - 1) / PGSIZE).

(** ** vm.rs *)

(** Return the address of the PTE in page table pgdir that corresponds to
    virtual address va. If alloc, create any required page table pages. *)
Definition walk_pgdir (pgdir va : Z) (alloc : bool) : MM (option Z) :=
  let pde := u32 (pgdir + 4 * PDE_index va) in
  e ← load32 pde;
  if PTE_is_present e then mret (Some (u32 (P2V (PTE_address e) + 4 * PTE_index va)))
  else if negb alloc then mret None
  else
    r ← kalloc_zeroed;
    match r with
    | None => mret None
    | Some pgtab =>
        store32 pde (PTE_new (V2P pgtab) (Z.lor (Z.lor PTE_P PTE_W) PTE_U)) ;;
        mret (Some (u32 (pgtab + 4 * PTE_index va)))
    end.

(** Create PTEs for the pages from [a] to [last]. The address wraps around, so
    it comes to [last] after this many turns. *)
Definition map_turns (a last : Z) : nat := S (Z.to_nat (u32 (last - a) / PGSIZE)).
Fixpoint map_pages_loop (fuel : nat) (pgdir a last pa perm : Z) : MM bool :=
  match fuel with
  | O => undef "map_pages: out of fuel"
  | S fuel =>
      r ← walk_pgdir pgdir a true;
      match r with
      | None => mret false
      | Some pte =>
          e ← load32 pte;
          if PTE_is_present e then panic "remap" else
          store32 pte (PTE_new pa (Z.lor perm PTE_P)) ;;
          if a =? last then mret true
          else map_pages_loop fuel pgdir (u32 (a + PGSIZE)) last (u32 (pa + PGSIZE)) perm
      end
  end.
Definition map_pages (pgdir va size pa perm : Z) : MM bool :=
  let a := PGROUNDDOWN va in
  let last := PGROUNDDOWN (u32 (va + size - 1)) in
  map_pages_loop (map_turns a last) pgdir a last pa perm.

(** Deallocate user pages to bring the process size from oldsz to newsz. *)
Fixpoint uvm_dealloc_loop (fuel : nat) (pgdir a size_old : Z) : MM unit :=
  match fuel with
  | O => undef "uvm_dealloc: out of fuel"
  | S fuel =>
      if a <? size_old then
        r ← walk_pgdir pgdir a false;
        match r with
        | Some pte =>
            e ← load32 pte;
            when (PTE_is_present e) (if PTE_address e =? 0 then panic "kfree" else store32 pte 0) ;;
            uvm_dealloc_loop fuel pgdir (u32 (a + PGSIZE)) size_old
        | None => uvm_dealloc_loop fuel pgdir (pg_address (PDE_index a + 1) 0 0) size_old
        end
      else mret tt
  end.
Definition uvm_dealloc (pgdir size_old size_new : Z) : MM Z :=
  if size_old <=? size_new then mret size_old else
  uvm_dealloc_loop (Z.to_nat (size_old / PGSIZE + 2)) pgdir (PGROUNDUP size_new) size_old ;;
  mret size_new.

Section vm.
Context (kend kdata : Z).

(** Free a page table and all the physical memory pages in the user part. *)
Fixpoint free_tables (pgdir : Z) (idxs : list Z) : MM unit :=
  match idxs with
  | [] => mret tt
  | i :: idxs =>
      e ← load32 (u32 (pgdir + 4 * i));
      when (PTE_is_present e) (kfree kend (P2V (PTE_address e))) ;;
      free_tables pgdir idxs
  end.
Definition vm_free (pgdir : Z) : MM unit :=
  if pgdir =? 0 then panic "vm_Free: no pgdir" else
  uvm_dealloc pgdir KERNBASE 0 ;;
  free_tables pgdir (seqZ 0 NPDENTRIES) ;;
  kfree kend pgdir.

(** The kernel's mappings, which are present in every process's page table. *)
Record KMap := { virt : Z; phys_start : Z; phys_end : Z; perm : Z }.
Definition kmap : list KMap := [
  {| virt := KERNBASE; phys_start := 0; phys_end := EXTMEM; perm := PTE_W |};
  {| virt := KERNLINK; phys_start := V2P KERNLINK; phys_end := V2P kdata; perm := 0 |};
  {| virt := kdata; phys_start := V2P kdata; phys_end := PHYSTOP; perm := PTE_W |};
  {| virt := DEVSPACE; phys_start := DEVSPACE; phys_end := 2 ^ 32 - 1; perm := PTE_W |}
].
Fixpoint map_all (pgdir : Z) (ks : list KMap) : MM bool :=
  match ks with
  | [] => mret true
  | k :: ks =>
      ok ← map_pages pgdir (virt k) (u32 (phys_end k - phys_start k)) (phys_start k) (perm k);
      if ok : bool then map_all pgdir ks else mret false
  end.
Definition kvm_setup : MM (option Z) :=
  r ← kalloc_zeroed;
  match r with
  | None => mret None
  | Some pgdir =>
      if DEVSPACE <? P2V PHYSTOP then panic "PHYSTOP too high" else
      ok ← map_all pgdir kmap;
      if ok : bool then mret (Some pgdir) else vm_free pgdir ;; mret None
  end.

(** Load the initcode into address 0 of pgdir. *)
Definition uvm_init (pgdir : Z) (init : list Z) : MM unit :=
  if PGSIZE <? Z.of_nat (length init) then panic "uvm_init: more than a page" else
  r ← kalloc_zeroed;
  match r with
  | None => panic "oom"
  | Some mem =>
      map_pages pgdir 0 PGSIZE (V2P mem) (Z.lor PTE_W PTE_U) ;;
      store_page mem init
  end.

(** Allocate page tables and physical memory to grow process from oldsz to
    newsz, which need not be page aligned. Returns new size or 0 on error. *)
Fixpoint uvm_alloc_loop (pgdir : Z) (addrs : list Z) : MM unit :=
  match addrs with
  | [] => mret tt
  | a :: addrs =>
      r ← kalloc_zeroed;
      match r with
      | None => panic "not implemented"
      | Some mem =>
          ok ← map_pages pgdir a PGSIZE (V2P mem) (Z.lor PTE_W PTE_U);
          if ok : bool then uvm_alloc_loop pgdir addrs else panic "not implemented"
      end
  end.
Definition uvm_alloc (pgdir size_old size_new : Z) : MM Z :=
  if KERNBASE <=? size_new then mret 0
  else if size_new <? size_old then mret size_old
  else uvm_alloc_loop pgdir (step_by (PGROUNDUP size_old) size_new) ;; mret size_new.

(** Clear PTE_U on a page. *)
Definition clear_pte_u (pgdir uva : Z) : MM unit :=
  r ← walk_pgdir pgdir uva false;
  match r with
  | None => panic "clear_pte_u"
  | Some pte => e ← load32 pte; store32 pte (Z.land e (u32 (Z.lnot PTE_U)))
  end.

(** Given a parent process's page table, create a copy of it for a child. *)
Definition copy_page (dir i pa flags : Z) : MM bool :=
  r ← kalloc_opt;
  match r with
  | None => mret false
  | Some mem =>
      bytes ← page_at (P2V pa);
      store_page mem bytes ;;
      ok ← map_pages dir i PGSIZE (V2P mem) flags;
      if ok : bool then mret true else kfree kend mem ;; mret false
  end.
Fixpoint uvm_copy_loop (pgdir dir : Z) (addrs : list Z) : MM bool :=
  match addrs with
  | [] => mret true
  | i :: addrs =>
      r ← walk_pgdir pgdir i false;
      match r with
      | None => panic "uvm_copy: pte should exist"
      | Some pte =>
          e ← load32 pte;
          if negb (PTE_is_present e) then panic "uvm_copy: page not present" else
          ok ← copy_page dir i (PTE_address e) (PTE_flags e);
          if ok : bool then uvm_copy_loop pgdir dir addrs
          else vm_free pgdir ;; mret false
      end
  end.
Definition uvm_copy (pgdir size : Z) : MM (option Z) :=
  r ← kvm_setup;
  match r with
  | None => mret None
  | Some dir =>
      ok ← uvm_copy_loop pgdir dir (step_by 0 size);
      mret (if ok : bool then Some dir else None)
  end.

(** Map user virtual address to kernel address. *)
Definition uva_to_ka (pgdir uva : Z) : MM (option Z) :=
  r ← walk_pgdir pgdir uva false;
  match r with
  | None => mret None
  | Some pte =>
      e ← load32 pte;
      mret (if PTE_is_present e && PTE_is_user e then Some (P2V (PTE_address e)) else None)
  end.

(** Copy bytes to user address va in page table pgdir. *)
Fixpoint copy_out_loop (fuel : nat) (pgdir va : Z) (bytes : list Z) : MM bool :=
  match fuel with
  | O => undef "copyout: out of fuel"
  | S fuel =>
      match bytes with
      | [] => mret true
      | _ =>
          let va0 := PGROUNDDOWN va in
          r ← uva_to_ka pgdir va0;
          match r with
          | None => mret false
          | Some pa0 =>
              let n := Z.to_nat (Z.min (PGSIZE - (va - va0)) (Z.of_nat (length bytes))) in
              store_page (u32 (pa0 + (va - va0))) (take n bytes) ;;
              copy_out_loop fuel pgdir (u32 (va0 + PGSIZE)) (drop n bytes)
          end
      end
  end.
Definition copy_out (pgdir va : Z) (bytes : list Z) : MM bool := copy_out_loop (S (length bytes)) pgdir va bytes.
End vm.
