(* ===== verification/VmTable.v ===== *)
(** * VmTable: what the page tables hold

    An address space as a mathematical object, and what the operations of Vm.v
    on one entry do to it: the page directory, the page tables it points to,
    and the mapping from page numbers to physical pages they encode. *)

From S2P Require Import Prelude Kalloc Vm.

Ltac pconst := change PGSIZE with 4096 in *; change KERNBASE with 2147483648 in *; change PHYSTOP with 234881024 in *.
Ltac plia := pconst; lia.
(** Linear arithmetic with division and remainder by constants. *)
Ltac dlia := pconst; Z.to_euclidean_division_equations; lia.

(** ** Entries *)

Lemma land_low_high q f k : 0 ≤ k → 0 ≤ f < 2 ^ k → Z.land (q * 2 ^ k) f = 0.
Proof.
  intros Hk Hf. apply Z.bits_inj'. intros n Hn. rewrite Z.land_spec, Z.bits_0.
  destruct (decide (n < k)).
  - by rewrite Z.mul_pow2_bits_low by lia.
  - assert (Z.testbit f n = false) as ->; [|by rewrite andb_false_r].
    rewrite <- (Z.mod_small f (2 ^ k)) by lia. apply Z.mod_pow2_bits_high. lia.
Qed.

Definition entry_ok (pa f : Z) : Prop := 0 ≤ pa < 2 ^ 32 ∧ pa mod PGSIZE = 0 ∧ 0 ≤ f < 4096.

Lemma PTE_new_add pa f : entry_ok pa f → PTE_new pa f = pa + f.
Proof.
  intros (Hpa & Hm & Hf). unfold PTE_new. rewrite u32_small by lia.
  change (u32 (Z.lnot 0xfff)) with (u32 (Z.lnot (PGSIZE - 1))). rewrite land_page_mask by lia.
  change 0xfff with (Z.ones 12). rewrite Z.land_ones, (Z.mod_small f) by lia.
  rewrite <- Z.lxor_lor, <- Z.add_nocarry_lxor by (apply (land_low_high _ _ 12); lia).
  dlia.
Qed.

Lemma PTE_new_range pa f : entry_ok pa f → 0 ≤ PTE_new pa f < 2 ^ 32.
Proof. intros He. rewrite PTE_new_add by done. destruct He as (? & ? & ?). dlia. Qed.

Lemma PTE_address_new pa f : entry_ok pa f → PTE_address (PTE_new pa f) = pa.
Proof.
  intros He. unfold PTE_address. change (u32 (Z.lnot 0xfff)) with (u32 (Z.lnot (PGSIZE - 1))).
  rewrite land_page_mask by (by apply PTE_new_range). rewrite PTE_new_add by done. destruct He as (? & ? & ?). dlia.
Qed.

Lemma PTE_flags_new pa f : entry_ok pa f → PTE_flags (PTE_new pa f) = f.
Proof.
  intros He. unfold PTE_flags. change 0xfff with (Z.ones 12). rewrite Z.land_ones, PTE_new_add by (done || lia).
  destruct He as (? & ? & ?). dlia.
Qed.

(** A flag of an entry is a flag it was made with. *)
Lemma PTE_new_land pa f m : entry_ok pa f → Z.land 0xfff m = m → Z.land (PTE_new pa f) m = Z.land f m.
Proof. intros He Hm. rewrite <- Hm at 1. rewrite Z.land_assoc. change (Z.land (PTE_new pa f) 0xfff) with (PTE_flags (PTE_new pa f)). by rewrite PTE_flags_new. Qed.

Lemma PTE_new_present pa f : entry_ok pa f → PTE_is_present (PTE_new pa f) = PTE_is_present f.
Proof. intros He. unfold PTE_is_present. by rewrite PTE_new_land. Qed.
Lemma PTE_new_user pa f : entry_ok pa f → PTE_is_user (PTE_new pa f) = PTE_is_user f.
Proof. intros He. unfold PTE_is_user. by rewrite PTE_new_land. Qed.

(** ** Indices *)

Lemma PDE_index_spec va : 0 ≤ va < 2 ^ 32 → PDE_index va = va / PGSIZE / 1024.
Proof.
  intros H. unfold PDE_index. change 0x3ff with (Z.ones 10). rewrite Z.land_ones, Z.shiftr_div_pow2 by lia.
  change (2 ^ 22) with (4096 * 1024). change PGSIZE with 4096. rewrite <- Z.div_div by lia. dlia.
Qed.
Lemma PTE_index_spec va : 0 ≤ va < 2 ^ 32 → PTE_index va = (va / PGSIZE) mod 1024.
Proof. intros H. unfold PTE_index. change 0x3ff with (Z.ones 10). by rewrite Z.land_ones, Z.shiftr_div_pow2 by lia. Qed.

(** ** Words of a page *)

Definition page_addr (t : Z) : Prop := 0 ≤ t < 2 ^ 32 ∧ t mod PGSIZE = 0.

Lemma PGROUNDDOWN_in t o : page_addr t → 0 ≤ o < PGSIZE → PGROUNDDOWN (t + o) = t.
Proof. intros [Ht Hm] Ho. unfold PGROUNDDOWN. rewrite land_page_mask by dlia. dlia. Qed.

Lemma page_at_run t s pg : km_mem s !! t = Some pg → page_at t s = Ok pg s.
Proof. intros H. unfold page_at, gets, mbind, K_bind. by rewrite H. Qed.

Lemma load32_run t i s pg :
  page_addr t → 0 ≤ i < 1024 → km_mem s !! t = Some pg → load32 (u32 (t + 4 * i)) s = Ok (get_u32 pg (Z.to_nat (4 * i))) s.
Proof.
  intros Ht Hi Hpg. rewrite u32_small by (destruct Ht; dlia). unfold load32. rewrite PGROUNDDOWN_in by (done || plia).
  unfold mbind, K_bind. rewrite (page_at_run _ _ _ Hpg). unfold mret, K_ret. do 3 f_equal. lia.
Qed.

Lemma store32_run t i v s pg :
  page_addr t → 0 ≤ i < 1024 → km_mem s !! t = Some pg →
  store32 (u32 (t + 4 * i)) v s = Ok tt (set_mem (<[t := put_u32 (Z.to_nat (4 * i)) v pg]> (km_mem s)) s).
Proof.
  intros Ht Hi Hpg. rewrite u32_small by (destruct Ht; dlia). unfold store32. rewrite PGROUNDDOWN_in by (done || plia).
  unfold mbind, K_bind. rewrite (page_at_run _ _ _ Hpg). unfold modify. do 4 f_equal. f_equal. lia.
Qed.

Lemma store_page_run t o bytes s pg :
  page_addr t → 0 ≤ o < PGSIZE → km_mem s !! t = Some pg →
  store_page (t + o) bytes s = Ok tt (set_mem (<[t := splice (Z.to_nat o) bytes pg]> (km_mem s)) s).
Proof.
  intros Ht Ho Hpg. unfold store_page. rewrite PGROUNDDOWN_in by (done || plia).
  unfold mbind, K_bind. rewrite (page_at_run _ _ _ Hpg). unfold modify. do 4 f_equal. f_equal. lia.
Qed.

(** The page [v] holds the 1024 entries [f]. *)
Definition holds (m : gmap Z (list Z)) (v : Z) (f : Z → Z) : Prop :=
  ∃ pg, m !! v = Some pg ∧ page_ok pg ∧ ∀ i, 0 ≤ i < 1024 → get_u32 pg (Z.to_nat (4 * i)) = f i.

Lemma holds_ext m m' v f g :
  m' !! v = m !! v → (∀ i, 0 ≤ i < 1024 → f i = g i) → holds m v f → holds m' v g.
Proof. intros Hm Hfg (pg & Hpg & Hok & Hf). exists pg. rewrite Hm. split_and!; [done..|]. intros i Hi. by rewrite Hf, Hfg. Qed.

Lemma holds_store m v f g i e :
  holds m v f → 0 ≤ i < 1024 → 0 ≤ e < 2 ^ 32 → g i = e → (∀ j, 0 ≤ j < 1024 → j ≠ i → g j = f j) →
  ∃ pg, m !! v = Some pg ∧ page_ok pg ∧ page_ok (put_u32 (Z.to_nat (4 * i)) e pg) ∧
    holds (<[v := put_u32 (Z.to_nat (4 * i)) e pg]> m) v g.
Proof.
  intros (pg & Hpg & Hok & Hf) Hi He Hgi Hgj. unfold page_ok in *.
  assert (length (put_u32 (Z.to_nat (4 * i)) e pg) = 4096%nat) as Hl by (rewrite length_put_u32; lia).
  exists pg. split_and!; [done..|]. eexists. split_and!; [apply lookup_insert_eq|done|]. intros j Hj.
  destruct (decide (j = i)) as [->|Hne].
  - rewrite get_put_u32_eq by lia. by rewrite u32_small.
  - rewrite get_put_u32_ne by lia. by rewrite Hf, Hgj.
Qed.

Lemma get_u32_zero_page i : get_u32 zero_page i = 0.
Proof.
  unfold get_u32, slice, zero_page. rewrite drop_replicate, take_replicate.
  generalize (4 `min` (4096 - i))%nat. intros n. induction n as [|n IH]; simpl; lia.
Qed.

(** ** Address spaces *)

(** The directory, the tables by directory index, and the physical page and
    flags of each mapped page by page number. *)
Record aspace := ASpace { as_dir : Z; as_tabs : gmap Z Z; as_map : gmap Z (Z * Z) }.

Definition pde_of (o : option Z) : Z := match o with Some t => PTE_new (V2P t) 7 | None => 0 end.
Definition pte_of (o : option (Z * Z)) : Z := match o with Some (pa, f) => PTE_new pa f | None => 0 end.

(** The memory [m] encodes the address space [A]. *)
Record pt_at (m : gmap Z (list Z)) (A : aspace) : Prop := {
  pt_dir : holds m (as_dir A) (λ i, pde_of (as_tabs A !! i));
  pt_tab : ∀ i t, as_tabs A !! i = Some t → 0 ≤ i < 1024 ∧ holds m t (λ j, pte_of (as_map A !! (i * 1024 + j)));
  pt_dom : ∀ n e, as_map A !! n = Some e → is_Some (as_tabs A !! (n / 1024));
  pt_ent : ∀ n pa f, as_map A !! n = Some (pa, f) → entry_ok pa f ∧ PTE_is_present f = true
}.

(** The pages that hold it. *)
Definition tables (A : aspace) : list Z := as_dir A :: (map_to_list (as_tabs A)).*2.

Lemma elem_of_tables A v : v ∈ tables A ↔ v = as_dir A ∨ ∃ i, as_tabs A !! i = Some v.
Proof.
  unfold tables. rewrite elem_of_cons, list_elem_of_fmap. split.
  - intros [->|([i t] & -> & Hit%elem_of_map_to_list)]; [by left|right; eauto].
  - intros [->|[i Hi]]; [by left|right]. exists (i, v). split; [done|]. by apply elem_of_map_to_list.
Qed.

Section tables.
Context (kend : Z).

(** The allocator has the free pages [free]; the pages of the tables of [A] and
    the pages [rest] are handed out. *)
Record pt_ok (s : kmem) (free : list Z) (A : aspace) (rest : gset Z) : Prop := {
  po_rep : rep kend s free (list_to_set (tables A) ∪ rest);
  po_at : pt_at (km_mem s) A;
  po_nodup : NoDup (tables A);
  po_rest : ∀ v, v ∈ tables A → v ∉ rest
}.

(** The pages [rest] hold what they held. *)
Definition same_on (rest : gset Z) (s s' : kmem) : Prop := ∀ v, v ∈ rest → km_mem s' !! v = km_mem s !! v.

Lemma same_on_refl rest s : same_on rest s s.
Proof. done. Qed.
Lemma same_on_trans rest s1 s2 s3 : same_on rest s1 s2 → same_on rest s2 s3 → same_on rest s1 s3.
Proof. intros H1 H2 v Hv. by rewrite H2, H1. Qed.

Lemma page_valid_addr v : page_valid kend v → page_addr v.
Proof.
  intros [Hr Hk]. split; [done|]. unfold kfree_ok in Hk. rewrite !andb_true_iff, Z.eqb_eq in Hk. tauto.
Qed.

Lemma P2V_V2P v : 0 ≤ v < 2 ^ 32 → P2V (V2P v) = v.
Proof.
  intros Hv. unfold P2V, V2P, u32. rewrite Zplus_mod_idemp_l. replace (v - KERNBASE + KERNBASE) with v by lia.
  by apply Z.mod_small.
Qed.

Lemma V2P_page v : page_addr v → 0 ≤ V2P v < 2 ^ 32 ∧ V2P v mod PGSIZE = 0.
Proof. intros [Hv Hm]. split; [apply u32_range|]. unfold V2P, u32. change (2 ^ 32) with 4294967296. dlia. Qed.

Lemma V2P_entry v f : page_addr v → 0 ≤ f < 4096 → entry_ok (V2P v) f.
Proof. intros Hv Hf. destruct (V2P_page v Hv). unfold entry_ok. tauto. Qed.

Section at_state.
Context (s : kmem) (free : list Z) (A : aspace) (rest : gset Z) (Hok : pt_ok s free A rest).

Lemma po_addr v : v ∈ tables A ∨ v ∈ rest ∨ v ∈ free → page_addr v.
Proof. intros Hv. apply page_valid_addr. eapply rep_valid; [apply Hok|]. set_solver. Qed.

Lemma po_tab i t : as_tabs A !! i = Some t → page_addr t ∧ t ∈ tables A ∧ 0 ≤ i < 1024.
Proof.
  intros Hi. assert (t ∈ tables A) as Ht by (apply elem_of_tables; eauto).
  split_and!; [by apply po_addr; left|done|..]; by eapply pt_tab; [apply Hok|].
Qed.

(** The entry of the directory for an address. *)
Lemma load_pde va : 0 ≤ va < 2 ^ 32 →
  load32 (u32 (as_dir A + 4 * PDE_index va)) s = Ok (pde_of (as_tabs A !! (va / PGSIZE / 1024))) s.
Proof.
  intros Hva. rewrite PDE_index_spec by done. destruct (pt_dir _ _ (po_at _ _ _ _ Hok)) as (pg & Hpg & _ & Hd).
  rewrite (load32_run _ _ _ pg); [|by apply po_addr; left; apply elem_of_tables; left|dlia|done]. by rewrite Hd by dlia.
Qed.

Lemma pde_present t : page_addr t → PTE_is_present (pde_of (Some t)) = true ∧ PTE_address (pde_of (Some t)) = V2P t.
Proof.
  intros Ht. pose proof (V2P_entry t 7 Ht ltac:(lia)) as He. simpl. by rewrite PTE_new_present, PTE_address_new.
Qed.

Lemma walk_present va alloc t : 0 ≤ va < 2 ^ 32 → as_tabs A !! (va / PGSIZE / 1024) = Some t →
  walk_pgdir (as_dir A) va alloc s = Ok (Some (u32 (t + 4 * ((va / PGSIZE) mod 1024)))) s.
Proof.
  intros Hva Ht. unfold walk_pgdir, mbind, K_bind. rewrite load_pde, Ht by done.
  destruct (po_tab _ _ Ht) as (Hta & _). destruct (pde_present t Hta) as [-> ->].
  by rewrite P2V_V2P, PTE_index_spec by apply Hta || done.
Qed.

Lemma walk_absent va : 0 ≤ va < 2 ^ 32 → as_tabs A !! (va / PGSIZE / 1024) = None →
  walk_pgdir (as_dir A) va false s = Ok None s.
Proof. intros Hva Ht. unfold walk_pgdir, mbind, K_bind. by rewrite load_pde, Ht by done. Qed.

Lemma walk_alloc_nil va : 0 ≤ va < 2 ^ 32 → as_tabs A !! (va / PGSIZE / 1024) = None → free = [] →
  walk_pgdir (as_dir A) va true s = Ok None s.
Proof.
  intros Hva Ht Hf. unfold walk_pgdir, mbind, K_bind. rewrite load_pde, Ht by done. simpl.
  unfold kalloc_zeroed, kalloc_opt, mbind, K_bind. rewrite Hf in Hok. by rewrite (rep_alloc_nil kend _ _ (po_rep _ _ _ _ Hok)).
Qed.

(** The entry of a table. *)
Lemma load_pte i t j : as_tabs A !! i = Some t → 0 ≤ j < 1024 →
  load32 (u32 (t + 4 * j)) s = Ok (pte_of (as_map A !! (i * 1024 + j))) s.
Proof.
  intros Ht Hj. destruct (po_tab _ _ Ht) as (Hta & _). destruct (pt_tab _ _ (po_at _ _ _ _ Hok) _ _ Ht) as (_ & pg & Hpg & _ & Hd).
  rewrite (load32_run _ _ _ pg) by done. by rewrite Hd.
Qed.
End at_state.

(** ** Changing the tables *)

Lemma kalloc_opt_nil s owned : rep kend s [] owned → kalloc_opt s = Ok None s.
Proof. intros Hr. unfold kalloc_opt, mbind, K_bind. by rewrite (rep_alloc_nil kend _ _ Hr). Qed.

Lemma kalloc_opt_run s v free owned :
  rep kend s (v :: free) owned →
  ∃ s', kalloc_opt s = Ok (Some v) s' ∧ km_mem s' = km_mem s ∧ rep kend s' free ({[v]} ∪ owned).
Proof.
  intros Hr. destruct (rep_alloc kend _ _ _ _ Hr) as (s' & E & Hm & Hr'). exists s'. split_and!; [|done..].
  unfold kalloc_opt, mbind, K_bind. rewrite E, (proj2 (Z.eqb_neq _ _)); [done|].
  apply (page_valid_nonzero kend), Hr. set_solver.
Qed.

Lemma kalloc_zeroed_nil s owned : rep kend s [] owned → kalloc_zeroed s = Ok None s.
Proof. intros Hr. unfold kalloc_zeroed, mbind, K_bind. by rewrite (kalloc_opt_nil _ _ Hr). Qed.

Lemma zero_page_ok : page_ok zero_page.
Proof. apply length_replicate. Qed.

(** A page that has been handed out is filled. *)
Lemma store_whole_run s v pg free owned :
  rep kend s free owned → v ∈ owned → page_ok pg →
  ∃ s', store_page v pg s = Ok tt s' ∧ rep kend s' free owned ∧ km_mem s' = <[v := pg]> (km_mem s).
Proof.
  intros Hr Hv Hpg. destruct (rep_page _ _ _ _ Hr v) as (pg0 & Hpg0 & Hok0); [by right|].
  exists (set_mem (<[v := pg]> (km_mem s)) s). split_and!; [|by apply rep_write|done].
  pose proof (store_page_run v 0 pg s pg0) as E. rewrite Z.add_0_r in E. rewrite E.
  - unfold splice. simpl. rewrite drop_ge by (unfold page_ok in *; lia). by rewrite app_nil_r.
  - apply page_valid_addr. eapply rep_valid; [done|by right].
  - plia.
  - done.
Qed.

Lemma kalloc_zeroed_run s v free owned :
  rep kend s (v :: free) owned →
  ∃ s', kalloc_zeroed s = Ok (Some v) s' ∧ rep kend s' free ({[v]} ∪ owned) ∧ km_mem s' = <[v := zero_page]> (km_mem s).
Proof.
  intros Hr. destruct (kalloc_opt_run _ _ _ _ Hr) as (s1 & E1 & Hm1 & Hr1).
  destruct (store_whole_run s1 v zero_page free _ Hr1) as (s2 & E2 & Hr2 & Hm2); [set_solver|apply zero_page_ok|].
  exists s2. rewrite Hm2, Hm1. split_and!; [|done..]. unfold kalloc_zeroed, mbind, K_bind. by rewrite E1, E2.
Qed.

Definition add_tab (i t : Z) (A : aspace) : aspace := ASpace (as_dir A) (<[i := t]> (as_tabs A)) (as_map A).
Definition set_pte (n : Z) (o : option (Z * Z)) (A : aspace) : aspace :=
  ASpace (as_dir A) (as_tabs A) (partial_alter (λ _, o) n (as_map A)).

Lemma tables_add_tab i t A : as_tabs A !! i = None → tables (add_tab i t A) ≡ₚ t :: tables A.
Proof. intros Hi. unfold tables, add_tab. simpl. rewrite (map_to_list_insert _ _ _ Hi). simpl. apply Permutation_swap. Qed.

Lemma pt_ok_tab_inj s free A rest i i' t : pt_ok s free A rest → as_tabs A !! i = Some t → as_tabs A !! i' = Some t → i = i'.
Proof.
  intros Hok Hi Hi'. pose proof (po_nodup _ _ _ _ Hok) as Hnd. unfold tables in Hnd. apply NoDup_cons in Hnd as [_ Hnd].
  apply elem_of_map_to_list, list_elem_of_lookup in Hi as [k Hk]. apply elem_of_map_to_list, list_elem_of_lookup in Hi' as [k' Hk'].
  assert (k = k') as ->; [|congruence].
  eapply NoDup_lookup; [exact Hnd|rewrite list_lookup_fmap, Hk; done|rewrite list_lookup_fmap, Hk'; done].
Qed.

Lemma pt_ok_dir_ne s free A rest i t : pt_ok s free A rest → as_tabs A !! i = Some t → t ≠ as_dir A.
Proof.
  intros Hok Hi ->. pose proof (po_nodup _ _ _ _ Hok) as Hnd. unfold tables in Hnd. apply NoDup_cons in Hnd as [Hnd _].
  apply Hnd, list_elem_of_fmap. exists (i, as_dir A). split; [done|]. by apply elem_of_map_to_list.
Qed.

(** A store to an entry of a table. *)
Lemma store_pte s free A rest i t j o :
  pt_ok s free A rest → as_tabs A !! i = Some t → 0 ≤ j < 1024 →
  (∀ pa f, o = Some (pa, f) → entry_ok pa f ∧ PTE_is_present f = true) →
  ∃ s', store32 (u32 (t + 4 * j)) (pte_of o) s = Ok tt s' ∧ pt_ok s' free (set_pte (i * 1024 + j) o A) rest ∧ same_on rest s s'.
Proof.
  intros Hok Ht Hj Ho. destruct (po_tab _ _ _ _ Hok _ _ Ht) as (Hta & Htt & Hi).
  pose proof (po_at _ _ _ _ Hok) as [Hd Htab Hdom Hent]. destruct (Htab _ _ Ht) as [_ Hh].
  destruct (holds_store _ _ _ (λ k, pte_of (as_map (set_pte (i * 1024 + j) o A) !! (i * 1024 + k))) j (pte_of o) Hh)
    as (pg & Hpg & _ & Hpg' & Hh').
  { done. }
  { destruct o as [[pa f]|]; simpl; [|lia]. apply PTE_new_range. by apply Ho. }
  { simpl. by rewrite lookup_partial_alter_eq. }
  { intros k Hk Hne. simpl. rewrite lookup_partial_alter_ne by lia. done. }
  eexists. split_and!; [by apply store32_run| |].
  2:{ intros v Hv. simpl. rewrite lookup_insert_ne; [done|]. intros ->. by eapply po_rest in Hv. }
  split; [|split|apply Hok|apply Hok].
  - apply rep_write; [apply Hok| |done]. change (tables (set_pte _ _ _)) with (tables A). set_solver.
  - simpl. eapply holds_ext; [|done|exact Hd]. rewrite lookup_insert_ne; [done|]. by eapply pt_ok_dir_ne.
  - simpl. intros i' t' Ht'. destruct (Htab _ _ Ht') as [Hi' Hh2]. split; [done|].
    destruct (decide (i' = i)) as [->|Hne]; [by replace t' with t by congruence|].
    eapply holds_ext; [| |exact Hh2].
    + rewrite lookup_insert_ne; [done|]. intros <-. by apply Hne, (pt_ok_tab_inj s free A rest i' i t).
    + intros k Hk. simpl. rewrite lookup_partial_alter_ne; [done|]. lia.
  - simpl. intros n e. destruct (decide (n = i * 1024 + j)) as [->|Hne].
    + intros _. rewrite Z.div_add_l, (Z.div_small j) by lia. rewrite Z.add_0_r. eauto.
    + rewrite lookup_partial_alter_ne by done. apply Hdom.
  - simpl. intros n pa f. destruct (decide (n = i * 1024 + j)) as [->|Hne].
    + rewrite lookup_partial_alter_eq. apply Ho.
    + rewrite lookup_partial_alter_ne by done. apply Hent.
Qed.

(** A new table. *)
Lemma walk_alloc s v free A rest va :
  pt_ok s (v :: free) A rest → 0 ≤ va < 2 ^ 32 → as_tabs A !! (va / PGSIZE / 1024) = None →
  ∃ s', walk_pgdir (as_dir A) va true s = Ok (Some (u32 (v + 4 * ((va / PGSIZE) mod 1024)))) s' ∧
    pt_ok s' free (add_tab (va / PGSIZE / 1024) v A) rest ∧ same_on rest s s'.
Proof.
  intros Hok Hva Hn. pose proof (po_at _ _ _ _ Hok) as [Hd Htab Hdom Hent]. set (i := va / PGSIZE / 1024) in *.
  assert (0 ≤ i < 1024) as Hi by (unfold i; dlia).
  assert (v ∉ list_to_set (tables A) ∪ rest) as Hv by (eapply rep_disj; [apply Hok|set_solver]).
  assert (page_addr v) as Hva' by (eapply po_addr; [done|set_solver]).
  assert (page_addr (as_dir A)) as Hda by (eapply po_addr; [done|left; apply elem_of_tables; by left]).
  assert (v ≠ as_dir A) as Hvd by (intros ->; apply Hv; rewrite elem_of_union, elem_of_list_to_set, elem_of_tables; by left; left).
  destruct (kalloc_zeroed_run _ _ _ _ (po_rep _ _ _ _ Hok)) as (s1 & E1 & Hr1 & Hm1).
  assert (holds (km_mem s1) (as_dir A) (λ i, pde_of (as_tabs A !! i))) as Hd1.
  { eapply holds_ext; [|done|exact Hd]. by rewrite Hm1, lookup_insert_ne. }
  destruct (holds_store _ _ _ (λ k, pde_of (<[i := v]> (as_tabs A) !! k)) i (pde_of (Some v)) Hd1) as (pg & Hpg & _ & Hpg' & Hh').
  { done. }
  { apply PTE_new_range, V2P_entry; [done|lia]. }
  { by rewrite lookup_insert_eq. }
  { intros k Hk Hne. by rewrite lookup_insert_ne. }
  pose proof (tables_add_tab i v A Hn) as Hp.
  eexists. split_and!.
  - unfold walk_pgdir, mbind, K_bind. rewrite (load_pde _ _ _ _ Hok) by done. fold i. rewrite Hn. simpl. rewrite E1.
    rewrite PDE_index_spec by done. fold i. change (PTE_new _ (Z.lor _ _)) with (pde_of (Some v)).
    rewrite (store32_run _ _ _ _ pg) by done. by rewrite PTE_index_spec.
  - split; [|split| |].
    + assert (list_to_set (tables (add_tab i v A)) ∪ rest = {[v]} ∪ (list_to_set (tables A) ∪ rest : gset Z)) as ->.
      { rewrite Hp. set_solver. }
      apply rep_write; [done| |done]. rewrite !elem_of_union, elem_of_list_to_set, elem_of_tables. by right; left; left.
    + done.
    + simpl. intros i' t'. destruct (decide (i' = i)) as [->|Hne].
      * rewrite lookup_insert_eq. intros [= <-]. split; [done|]. exists zero_page.
        rewrite lookup_insert_ne, Hm1, lookup_insert_eq by done. split_and!; [done|apply zero_page_ok|]. intros j Hj.
        rewrite get_u32_zero_page. destruct (as_map A !! (i * 1024 + j)) eqn:Em; [|done].
        apply Hdom in Em. rewrite Z.div_add_l, (Z.div_small j), Z.add_0_r in Em by lia. rewrite Hn in Em. by destruct Em.
      * rewrite lookup_insert_ne by done. intros Ht'. destruct (Htab _ _ Ht') as [Hi' Hh2]. split; [done|].
        eapply holds_ext; [|done|exact Hh2].
        rewrite lookup_insert_ne, Hm1, lookup_insert_ne; [done| |].
        -- intros <-. apply Hv. rewrite elem_of_union, elem_of_list_to_set, elem_of_tables. left. right. eauto.
        -- intros Heq. by eapply pt_ok_dir_ne in Ht'.
    + simpl. intros n e Hne%Hdom. destruct (decide (n / 1024 = i)) as [->|]; [rewrite lookup_insert_eq; eauto|].
      by rewrite lookup_insert_ne.
    + apply Hent.
    + rewrite Hp. apply NoDup_cons. split; [set_solver|apply Hok].
    + intros u Hu. rewrite Hp in Hu. apply elem_of_cons in Hu as [->|Hu]; [set_solver|by eapply po_rest].
  - intros u Hu. simpl. rewrite lookup_insert_ne, Hm1, lookup_insert_ne; [done|set_solver|].
    intros <-. eapply po_rest; [exact Hok| |done]. apply elem_of_tables. by left.
Qed.
End tables.
