(* ===== verification/VmMap.v ===== *)
(** * VmMap: mapping pages

    What [map_pages] does to an address space, and exactly when it runs out of
    pages for tables; the same for [kvm_setup], [uvm_alloc] and [uvm_dealloc]. *)

From S2P Require Import Prelude Kalloc Vm VmTable.

(** The tables that page numbers need and that are not among [D]. *)
Definition missing (D : gset Z) (ns : list Z) : gset Z := list_to_set ((λ n, n / 1024) <$> ns) ∖ D.

Lemma missing_cons D n ns :
  size (missing D (n :: ns)) = ((if decide ((n / 1024)%Z ∈ D) then 0 else 1) + size (missing ({[(n / 1024)%Z]} ∪ D) ns))%nat.
Proof.
  unfold missing. rewrite fmap_cons, list_to_set_cons. set (X := list_to_set _). destruct (decide (n / 1024 ∈ D)) as [Hd|Hd].
  - assert (({[n / 1024]} ∪ X) ∖ D = X ∖ ({[n / 1024]} ∪ D)) as ->; [|lia]. apply set_eq. intros x. destruct (decide (x = n / 1024)); set_solver.
  - replace (({[n / 1024]} ∪ X) ∖ D) with ({[n / 1024]} ∪ X ∖ ({[n / 1024]} ∪ D)).
    + rewrite size_union by set_solver. by rewrite size_singleton.
    + apply set_eq. intros x. destruct (decide (x = n / 1024)); set_solver.
Qed.

Lemma missing_nil D : missing D [] = ∅.
Proof. unfold missing. set_solver. Qed.

(** The tables of all are those of the first and those still missing. *)
Lemma missing_cons_dom D n ns : missing ({[n / 1024]} ∪ D) ns ∪ ({[n / 1024]} ∪ D) = missing D (n :: ns) ∪ D.
Proof.
  unfold missing. rewrite fmap_cons, list_to_set_cons. set (X := list_to_set _). apply set_eq. intros x.
  destruct (decide (x = n / 1024)), (decide (x ∈ D)); set_solver.
Qed.

Lemma PTE_is_present_or p : PTE_is_present (Z.lor p PTE_P) = true.
Proof.
  unfold PTE_is_present. apply negb_true_iff, Z.eqb_neq. intros H. rewrite Z.land_lor_distr_l in H.
  by apply Z.lor_eq_0_iff in H as [_ H].
Qed.

(** [A'] is [A] with more tables, and mappings changed only at [P]. *)
Record extends (P : Z → Prop) (A A' : aspace) : Prop := {
  ex_dir : as_dir A' = as_dir A;
  ex_tabs : as_tabs A ⊆ as_tabs A';
  ex_map : ∀ m, ¬ P m → as_map A' !! m = as_map A !! m
}.

Lemma extends_refl P A : extends P A A.
Proof. by split. Qed.
Lemma extends_trans P A B C : extends P A B → extends P B C → extends P A C.
Proof. intros [H1 H2 H3] [H4 H5 H6]. split; [congruence|by etrans|]. intros m Hm. by rewrite H6, H3. Qed.
Lemma extends_weaken (P Q : Z → Prop) A B : (∀ m, P m → Q m) → extends P A B → extends Q A B.
Proof. intros HPQ [? ? H]. split; [done..|]. intros m Hm. apply H. by intros ?%HPQ. Qed.

Section map.
Context (kend : Z) (rest : gset Z).
Abbreviation pt_ok := (pt_ok kend).

(** [walk_pgdir] with [alloc] takes a page if the table is missing. *)
Lemma walk_any s free A va :
  pt_ok s free A rest → 0 ≤ va < 2 ^ 32 →
  let i := va / PGSIZE / 1024 in
  let k := if decide (i ∈ dom (as_tabs A)) then 0%nat else 1%nat in
  if decide (k ≤ length free)%nat then
    ∃ t s' A', walk_pgdir (as_dir A) va true s = Ok (Some (u32 (t + 4 * ((va / PGSIZE) mod 1024)))) s' ∧
      pt_ok s' (drop k free) A' rest ∧ same_on rest s s' ∧ extends (λ _, False) A A' ∧
      as_tabs A' !! i = Some t ∧ dom (as_tabs A') = {[i]} ∪ dom (as_tabs A)
  else walk_pgdir (as_dir A) va true s = Ok None s ∧ free = [].
Proof.
  intros Hok Hva i k. unfold k. destruct (decide (i ∈ dom (as_tabs A))) as [Hd|Hd].
  - rewrite decide_True by lia. apply elem_of_dom in Hd as Ht. destruct Ht as [t Ht]. exists t, s, A.
    rewrite (walk_present _ _ _ _ _ Hok va true t) by done. split_and!; [done|done|done|by split|done|set_solver].
  - apply not_elem_of_dom in Hd as Hn. destruct free as [|v free].
    + simpl. split; [|done]. by eapply walk_alloc_nil.
    + simpl. destruct (walk_alloc kend s v free A rest va Hok Hva Hn) as (s' & E & Hok' & Hs).
      exists v, s', (add_tab i v A). split_and!; [done|by rewrite drop_0|done| |by apply lookup_insert_eq|by simpl; rewrite dom_insert_L].
      split; [done|by apply insert_subseteq|done].
Qed.

(** One turn of the loop of [map_pages], with [next] after it. *)
Lemma map_turn s free A n pa perm (next : MM bool) :
  pt_ok s free A rest → 0 ≤ n < 2 ^ 20 → 0 ≤ pa < 2 ^ 32 → pa mod PGSIZE = 0 → 0 ≤ Z.lor perm PTE_P < 4096 →
  as_map A !! n = None →
  let c := if decide (n / 1024 ∈ dom (as_tabs A)) then 0%nat else 1%nat in
  let turn :=
    r ← walk_pgdir (as_dir A) (n * PGSIZE) true;
    match r with
    | None => mret false
    | Some pte =>
        e ← load32 pte;
        if PTE_is_present e then panic "remap" else
        store32 pte (PTE_new pa (Z.lor perm PTE_P)) ;; next
    end in
  if decide (c ≤ length free)%nat then
    ∃ s' A', turn s = next s' ∧ pt_ok s' (drop c free) A' rest ∧ same_on rest s s' ∧ extends (eq n) A A' ∧
      dom (as_tabs A') = {[n / 1024]} ∪ dom (as_tabs A) ∧ as_map A' !! n = Some (pa, Z.lor perm PTE_P)
  else turn s = Ok false s ∧ free = [].
Proof.
  intros Hok Hn Hpa Hal Hperm Hnone c turn. unfold turn, mbind, K_bind.
  pose proof (walk_any s free A (n * PGSIZE) Hok ltac:(plia)) as Hw. rewrite Z.div_mul in Hw by done. cbv zeta in Hw. fold c in Hw.
  destruct (decide (c ≤ length free)%nat); [|by destruct Hw as [-> ?]].
  destruct Hw as (t & s1 & A1 & -> & Hok1 & Hs1 & Hex1 & Ht & Hdom). pose proof Hex1 as [Hdir1 Htabs1 Hmap1].
  rewrite (load_pte _ _ _ _ _ Hok1 (n / 1024)) by (done || dlia).
  replace (n / 1024 * 1024 + n mod 1024) with n by dlia. rewrite Hmap1, Hnone by tauto. simpl.
  destruct (store_pte kend s1 _ A1 rest (n / 1024) t (n mod 1024) (Some (pa, Z.lor perm PTE_P)) Hok1 Ht)
    as (s2 & E2 & Hok2 & Hs2).
  { dlia. }
  { intros ? ? [= <- <-]. split; [unfold entry_ok; tauto|apply PTE_is_present_or]. }
  replace (n / 1024 * 1024 + n mod 1024) with n in Hok2 by dlia. cbn [pte_of] in E2. rewrite E2.
  exists s2, (set_pte n (Some (pa, Z.lor perm PTE_P)) A1). split_and!; [done|done| | |done|].
  - by eapply same_on_trans.
  - split; [done|done|]. intros m Hm. simpl. rewrite lookup_partial_alter_ne by done. apply Hmap1. tauto.
  - simpl. by rewrite lookup_partial_alter_eq.
Qed.

Lemma map_pages_loop_S fuel pgdir a last pa perm :
  map_pages_loop (S fuel) pgdir a last pa perm =
    (r ← walk_pgdir pgdir a true;
     match r with
     | None => mret false
     | Some pte =>
         e ← load32 pte;
         if PTE_is_present e then panic "remap" else
         store32 pte (PTE_new pa (Z.lor perm PTE_P)) ;;
         if a =? last then mret true
         else map_pages_loop fuel pgdir (u32 (a + PGSIZE)) last (u32 (pa + PGSIZE)) perm
     end).
Proof. done. Qed.

(** The loop of [map_pages], for [k + 1] pages from number [n] on. *)
Definition in_range (n k : Z) (m : Z) : Prop := n ≤ m < n + k.

Lemma map_loop perm k : ∀ s free A n pa,
  pt_ok s free A rest → 0 ≤ n → n + Z.of_nat k < 2 ^ 20 → 0 ≤ pa → pa mod PGSIZE = 0 → pa + Z.of_nat k * PGSIZE < 2 ^ 32 →
  0 ≤ Z.lor perm PTE_P < 4096 → (∀ m, in_range n (Z.of_nat k + 1) m → as_map A !! m = None) →
  let need := size (missing (dom (as_tabs A)) (seqZ n (Z.of_nat k + 1))) in
  ∃ s' A', map_pages_loop (S k) (as_dir A) (n * PGSIZE) ((n + Z.of_nat k) * PGSIZE) pa perm s
      = Ok (bool_decide (need ≤ length free)%nat) s' ∧
    pt_ok s' (drop need free) A' rest ∧ same_on rest s s' ∧ extends (in_range n (Z.of_nat k + 1)) A A' ∧
    ((need ≤ length free)%nat → dom (as_tabs A') = missing (dom (as_tabs A)) (seqZ n (Z.of_nat k + 1)) ∪ dom (as_tabs A) ∧
      ∀ m, in_range n (Z.of_nat k + 1) m → as_map A' !! m = Some (pa + (m - n) * PGSIZE, Z.lor perm PTE_P)).
Proof.
  induction k as [|k IH]; intros s free A n pa Hok Hn Hnk Hpa Hal Hpak Hperm Hnone need; rewrite map_pages_loop_S.
  all: unfold need; clear need; rewrite seqZ_cons by lia; rewrite missing_cons, <- missing_cons_dom.
  all: set (next := if _ =? _ then _ else _ : MM bool).
  all: pose proof (map_turn s free A n pa perm next Hok ltac:(lia) ltac:(plia) Hal Hperm
         ltac:(by apply Hnone; unfold in_range; lia)) as Ht; cbv zeta in Ht.
  all: set (c := if decide (n / 1024 ∈ dom (as_tabs A)) then 0%nat else 1%nat) in *.
  all: destruct (decide (c ≤ length free)%nat) as [Hc|Hc];
    [|destruct Ht as [-> ->]; exists s, A; rewrite bool_decide_eq_false_2 by (simpl in *; lia); rewrite drop_nil; split_and!;
      [done|done|done|apply extends_refl|simpl in *; lia]].
  all: destruct Ht as (s1 & A1 & -> & Hok1 & Hs1 & Hex1 & Hdom1 & Hm1); unfold next.
  - rewrite (proj2 (Z.eqb_eq _ _)) by lia. replace (Z.pred (Z.of_nat 0 + 1)) with 0 by lia.
    rewrite missing_nil, size_empty, Nat.add_0_r, bool_decide_eq_true_2 by done. exists s1, A1. split_and!; [done..| |].
    + eapply extends_weaken; [|done]. intros m <-. unfold in_range. lia.
    + intros _. split; [set_solver|]. intros m Hm. unfold in_range in Hm. replace m with n by lia. rewrite Hm1. do 2 f_equal. lia.
  - rewrite (proj2 (Z.eqb_neq _ _)) by plia. rewrite !u32_small by plia.
    destruct (IH s1 (drop c free) A1 (n + 1) (pa + PGSIZE)) as (s2 & A2 & E2 & Hok2 & Hs2 & Hex2 & Hdone); try done; try plia.
    { dlia. }
    { intros m Hm. unfold in_range in *. rewrite (ex_map _ _ _ Hex1) by lia. apply Hnone. unfold in_range. lia. }
    rewrite <- Hdom1. replace (Z.pred (Z.of_nat (S k) + 1)) with (Z.of_nat k + 1) by lia. replace (Z.succ n) with (n + 1) by lia.
    set (need := size _) in *. rewrite length_drop in E2, Hdone. rewrite drop_drop in Hok2.
    exists s2, A2. split_and!; [|done|by eapply same_on_trans| |].
    + rewrite <- (ex_dir _ _ _ Hex1). replace (n * PGSIZE + PGSIZE) with ((n + 1) * PGSIZE) by lia.
      replace (n + Z.of_nat (S k)) with (n + 1 + Z.of_nat k) by lia. rewrite E2. f_equal. apply bool_decide_ext. lia.
    + eapply extends_trans; (eapply extends_weaken; [|done]); unfold in_range; lia.
    + intros Hle. destruct (Hdone ltac:(lia)) as [Hd2 Hm2]. rewrite Hd2. split; [done|]. intros m Hm. unfold in_range in *.
      destruct (decide (m = n)) as [->|Hne].
      * rewrite (ex_map _ _ _ Hex2) by lia. rewrite Hm1. do 2 f_equal. lia.
      * rewrite Hm2 by lia. do 2 f_equal. lia.
Qed.

Lemma map_pages_run s free A n sz pa perm :
  pt_ok s free A rest → 0 ≤ n → 0 < sz → n * PGSIZE + sz ≤ 2 ^ 32 → 0 ≤ pa → pa mod PGSIZE = 0 →
  pa + sz ≤ 2 ^ 32 → 0 ≤ Z.lor perm PTE_P < 4096 →
  let np := (sz + PGSIZE - 1) / PGSIZE in
  (∀ m, in_range n np m → as_map A !! m = None) →
  let need := size (missing (dom (as_tabs A)) (seqZ n np)) in
  ∃ s' A', map_pages (as_dir A) (n * PGSIZE) sz pa perm s = Ok (bool_decide (need ≤ length free)%nat) s' ∧
    pt_ok s' (drop need free) A' rest ∧ same_on rest s s' ∧ extends (in_range n np) A A' ∧
    ((need ≤ length free)%nat → dom (as_tabs A') = missing (dom (as_tabs A)) (seqZ n np) ∪ dom (as_tabs A) ∧
      ∀ m, in_range n np m → as_map A' !! m = Some (pa + (m - n) * PGSIZE, Z.lor perm PTE_P)).
Proof.
  intros Hok Hn Hsz Hend Hpa Hal Hpaend Hperm np Hnone need.
  set (k := Z.to_nat (np - 1)). assert (np = Z.of_nat k + 1) as Hk by (unfold k, np; dlia).
  unfold map_pages, PGROUNDDOWN. rewrite (u32_small (n * PGSIZE + sz - 1)) by plia. rewrite !land_page_mask by plia.
  rewrite Z.div_mul by done. replace ((n * PGSIZE + sz - 1) / PGSIZE) with (n + Z.of_nat k) by (unfold k, np; dlia).
  assert (map_turns (n * PGSIZE) ((n + Z.of_nat k) * PGSIZE) = S k) as ->.
  { unfold map_turns. replace ((n + Z.of_nat k) * PGSIZE - n * PGSIZE) with (Z.of_nat k * PGSIZE) by lia.
    rewrite u32_small by (unfold np in *; dlia). rewrite Z.div_mul by done. lia. }
  unfold need. rewrite Hk in *. apply map_loop; try done; unfold np in *; dlia.
Qed.

(** Without a page for the table, nothing changes. *)
Lemma map_one_fail s free A n pa perm :
  pt_ok s free A rest → 0 ≤ n < 2 ^ 20 → 0 ≤ pa < 2 ^ 32 → pa mod PGSIZE = 0 → 0 ≤ Z.lor perm PTE_P < 4096 →
  as_map A !! n = None → n / 1024 ∉ dom (as_tabs A) → free = [] →
  map_pages (as_dir A) (n * PGSIZE) PGSIZE pa perm s = Ok false s.
Proof.
  intros Hok Hn Hpa Hal Hperm Hnone Hd ->. unfold map_pages, PGROUNDDOWN. rewrite (u32_small (n * PGSIZE + PGSIZE - 1)) by plia.
  rewrite !land_page_mask by plia. replace ((n * PGSIZE + PGSIZE - 1) / PGSIZE) with n by dlia. rewrite Z.div_mul by done.
  unfold map_turns. rewrite Z.sub_diag. change (Z.to_nat (u32 0 / PGSIZE)) with 0%nat. rewrite map_pages_loop_S.
  set (next := if _ =? _ then _ else _ : MM bool). pose proof (map_turn s [] A n pa perm next Hok Hn Hpa Hal Hperm Hnone) as Ht.
  cbv zeta in Ht. rewrite (decide_False (P := n / 1024 ∈ dom (as_tabs A))), decide_False in Ht by (done || simpl; lia). apply Ht.
Qed.
End map.

(** ** Taking mappings away *)

Section unmap.
Context (kend : Z).
Abbreviation pt_ok := (pt_ok kend).

(** The entries that [uvm_dealloc] takes can be told from null pointers. *)
Definition user_pages (A : aspace) : Prop := ∀ n pa f, as_map A !! n = Some (pa, f) → n < 2 ^ 19 → pa ≠ 0.

Lemma pg_address_next i : 0 ≤ i < 1023 → pg_address (i + 1) 0 0 = (i + 1) * 1024 * PGSIZE.
Proof.
  intros Hi. unfold pg_address. change (Z.shiftl 0 12) with 0. rewrite !Z.lor_0_r, Z.shiftl_mul_pow2, u32_small by lia. plia.
Qed.

Lemma set_pte_none A m : as_map A !! m = None → set_pte m None A = A.
Proof.
  intros Hm. destruct A as [d t mp]. unfold set_pte. simpl in *. f_equal. apply map_eq. intros k.
  destruct (decide (k = m)) as [->|]; [by rewrite lookup_partial_alter_eq|by rewrite lookup_partial_alter_ne].
Qed.

(** One turn for a page whose table is there. *)
Lemma unmap_turn s free A rest n t (next : MM unit) :
  pt_ok s free A rest → user_pages A → 0 ≤ n < 2 ^ 19 → as_tabs A !! (n / 1024) = Some t →
  ∃ s', (e ← load32 (u32 (t + 4 * (n mod 1024)));
         when (PTE_is_present e)
           (if PTE_address e =? 0 then panic "kfree" else store32 (u32 (t + 4 * (n mod 1024))) 0) ;; next) s = next s' ∧
    pt_ok s' free (set_pte n None A) rest ∧ same_on rest s s'.
Proof.
  intros Hok Hu Hn Ht. unfold mbind, K_bind. rewrite (load_pte _ _ _ _ _ Hok (n / 1024)) by (done || dlia).
  replace (n / 1024 * 1024 + n mod 1024) with n by dlia. destruct (as_map A !! n) as [[pa f]|] eqn:Em; simpl.
  - destruct (pt_ent _ _ (po_at _ _ _ _ _ Hok) _ _ _ Em) as [He Hp]. rewrite PTE_new_present, Hp, PTE_address_new by done. simpl.
    rewrite (proj2 (Z.eqb_neq pa 0)) by (apply (Hu _ _ _ Em); lia).
    destruct (store_pte kend s free A rest (n / 1024) t (n mod 1024) None Hok Ht) as (s' & E & Hok' & Hs); [dlia|done|].
    replace (n / 1024 * 1024 + n mod 1024) with n in Hok' by dlia. exists s'. simpl in E. rewrite E. done.
  - exists s. by rewrite set_pte_none.
Qed.

Lemma user_pages_set A n : user_pages A → user_pages (set_pte n None A).
Proof.
  intros Hu m pa f. simpl. destruct (decide (m = n)) as [->|]; [by rewrite lookup_partial_alter_eq|].
  rewrite lookup_partial_alter_ne by done. apply Hu.
Qed.

(** What is left when the pages from [n] to the one below address [hi] are
    unmapped. *)
Record unmapped (n hi : Z) (A A' : aspace) : Prop := {
  um_dir : as_dir A' = as_dir A;
  um_tabs : as_tabs A' = as_tabs A;
  um_map : ∀ m, as_map A' !! m = if decide (n ≤ m ∧ m * PGSIZE < hi) then None else as_map A !! m
}.

Lemma uvm_dealloc_loop_run hi rest fuel : ∀ s free A n,
  pt_ok s free A rest → user_pages A → 0 ≤ n → hi ≤ KERNBASE → hi / PGSIZE + 1 - n < Z.of_nat fuel → (0 < fuel)%nat → n < 2 ^ 20 →
  ∃ s' A', uvm_dealloc_loop fuel (as_dir A) (n * PGSIZE) hi s = Ok tt s' ∧ pt_ok s' free A' rest ∧ same_on rest s s' ∧
    unmapped n hi A A'.
Proof.
  induction fuel as [|fuel IH]; intros s free A n Hok Hu Hn Hhi Hfuel Hpos Hn20; [lia|]. cbn [uvm_dealloc_loop].
  destruct (Z.ltb_spec (n * PGSIZE) hi) as [Hlt|Hge].
  2:{ exists s, A. split_and!; [done..|]. split; [done..|]. intros m. rewrite decide_False; [done|plia]. }
  assert (0 ≤ n < 2 ^ 19) as Hn19 by plia.
  assert ((0 < fuel)%nat) as Hpos' by dlia.
  destruct (as_tabs A !! (n / 1024)) as [t|] eqn:Et.
  - rewrite mbind_Ok with (a := Some (u32 (t + 4 * (n mod 1024)))) (s1 := s).
    2:{ rewrite (walk_present _ _ _ _ _ Hok (n * PGSIZE) false t); rewrite ?Z.div_mul by done; [done|plia|done]. }
    destruct (unmap_turn s free A rest n t (uvm_dealloc_loop fuel (as_dir A) (u32 (n * PGSIZE + PGSIZE)) hi) Hok Hu Hn19 Et)
      as (s1 & -> & Hok1 & Hs1).
    replace (u32 (n * PGSIZE + PGSIZE)) with ((n + 1) * PGSIZE) by (rewrite u32_small; plia).
    destruct (IH s1 free (set_pte n None A) (n + 1)) as (s2 & A2 & E & Hok2 & Hs2 & [Hd2 Ht2 Hm2]);
      [done|by apply user_pages_set|lia|done|lia|done|lia|].
    exists s2, A2. split_and!; [done|done|by eapply same_on_trans|]. split; [done..|]. intros m. rewrite Hm2. simpl.
    destruct (decide (m = n)) as [->|Hne].
    + rewrite decide_False, decide_True by lia. by rewrite lookup_partial_alter_eq.
    + rewrite lookup_partial_alter_ne by done. destruct (decide _), (decide _); try done; lia.
  - rewrite mbind_Ok with (a := None) (s1 := s).
    2:{ rewrite (walk_absent _ _ _ _ _ Hok (n * PGSIZE)); rewrite ?Z.div_mul by done; [done|plia|done]. }
    rewrite PDE_index_spec, Z.div_mul, pg_address_next by (done || dlia).
    destruct (IH s free A ((n / 1024 + 1) * 1024)) as (s2 & A2 & E & Hok2 & Hs2 & [Hd2 Ht2 Hm2]); [done|done|dlia|done|dlia|done|dlia|].
    exists s2, A2. split_and!; [done..|]. split; [done..|]. intros m. rewrite Hm2.
    destruct (decide (n ≤ m < (n / 1024 + 1) * 1024)) as [Hin|Hout]; [|destruct (decide _), (decide _); try done; dlia].
    rewrite decide_False by lia. assert (as_map A !! m = None) as ->; [|by destruct (decide _)].
    destruct (as_map A !! m) eqn:Em; [|done]. apply (pt_dom _ _ (po_at _ _ _ _ _ Hok)) in Em.
    replace (m / 1024) with (n / 1024) in Em by dlia. rewrite Et in Em. by destruct Em.
Qed.

Lemma uvm_dealloc_run s free A rest old new :
  pt_ok s free A rest → user_pages A → 0 ≤ new < old → old ≤ KERNBASE →
  ∃ s' A', uvm_dealloc (as_dir A) old new s = Ok new s' ∧ pt_ok s' free A' rest ∧ same_on rest s s' ∧
    unmapped (PGROUNDUP new / PGSIZE) old A A'.
Proof.
  intros Hok Hu Hn Ho. unfold uvm_dealloc. rewrite (proj2 (Z.leb_gt _ _)) by lia.
  assert (PGROUNDUP new = (new + PGSIZE - 1) / PGSIZE * PGSIZE) as Hup by (apply PGROUNDUP_spec; plia).
  destruct (uvm_dealloc_loop_run old rest (Z.to_nat (old / PGSIZE + 2)) s free A (PGROUNDUP new / PGSIZE))
    as (s' & A' & E & Hok' & Hs & Hun); [done|done|rewrite Hup; dlia|done|rewrite Hup; dlia|dlia|rewrite Hup; dlia|].
  exists s', A'. split_and!; [|done..]. replace (PGROUNDUP new / PGSIZE * PGSIZE) with (PGROUNDUP new) in E by (rewrite Hup; dlia).
  unfold mbind, K_bind. by rewrite E.
Qed.

(** ** Giving the tables back *)

Abbreviation vals T := ((map_to_list T).*2).

Lemma free_tables_run d (T0 : gmap Z Z) (rest : gset Z) idxs : ∀ (T : gmap Z Z) s free,
  rep kend s free ({[d]} ∪ (list_to_set (vals T) ∪ rest)) → NoDup (vals T) →
  (∀ v, v ∈ vals T → v ≠ d ∧ v ∉ rest) → holds (km_mem s) d (λ i, pde_of (T0 !! i)) →
  Forall (λ i, 0 ≤ i < 1024 ∧ T0 !! i = T !! i) idxs → NoDup idxs → (∀ i t, T !! i = Some t → i ∈ idxs) →
  ∃ s' fr, free_tables kend d idxs s = Ok tt s' ∧ rep kend s' (fr ++ free) ({[d]} ∪ rest) ∧ fr ≡ₚ vals T ∧
    same_on ({[d]} ∪ rest) s s'.
Proof.
  induction idxs as [|i idxs IH]; intros T s free Hr Hnd Hd Hh Hall Hndi Hk; cbn [free_tables].
  { assert (T = ∅) as ->. { apply map_empty. intros i. destruct (T !! i) eqn:E; [|done]. by apply Hk, elem_of_nil in E. }
    exists s, []. rewrite map_to_list_empty in *. split_and!; [done| |done|done]. simpl.
    assert ({[d]} ∪ rest = {[d]} ∪ (list_to_set [] ∪ rest)) as -> by set_solver. done. }
  apply Forall_cons in Hall as [[Hi HT] Hall]. apply NoDup_cons in Hndi as [Hii Hndi].
  assert (page_addr d) as Hda by (eapply page_valid_addr, rep_valid; [done|set_solver]).
  pose proof Hh as (pg & Hpg & _ & Hent). unfold mbind, K_bind. rewrite (load32_run _ _ _ pg), Hent, HT by done.
  destruct (T !! i) as [t|] eqn:Et.
  - assert (t ∈ vals T) as Htv by (apply list_elem_of_fmap; exists (i, t); split; [done|by apply elem_of_map_to_list]).
    destruct (Hd t Htv) as [Htd Htr].
    assert (page_addr t) as Hta by (eapply page_valid_addr, rep_valid; [done|set_solver]).
    destruct (pde_present t Hta) as [-> ->]. rewrite P2V_V2P by apply Hta. simpl.
    assert (vals T ≡ₚ t :: vals (delete i T)) as Hp.
    { rewrite <- (insert_delete_id T i t Et) at 1. by rewrite map_to_list_insert by apply lookup_delete_eq. }
    rewrite Hp in Hnd. apply NoDup_cons in Hnd as [Htn Hnd].
    assert (∀ v, v ∈ vals T ↔ v = t ∨ v ∈ vals (delete i T)) as Hin by (intros v; rewrite Hp; apply elem_of_cons).
    destruct (rep_free kend s t free _ Hr) as (s1 & E1 & Hr1 & Hm1); [set_solver|]. rewrite E1.
    destruct (IH (delete i T) s1 (t :: free)) as (s2 & fr & E2 & Hr2 & Hfr & Hs2).
    + assert ({[d]} ∪ (list_to_set (vals (delete i T)) ∪ rest) = ({[d]} ∪ (list_to_set (vals T) ∪ rest)) ∖ {[t]}) as ->; [|done].
      apply set_eq. intros v. rewrite Hp, list_to_set_cons. set_solver.
    + done.
    + intros v Hv. apply Hd, Hin. by right.
    + eapply holds_ext; [|done|exact Hh]. by apply Hm1.
    + eapply Forall_impl; [apply Forall_and; split; [exact Hall|apply Forall_forall; intros j Hj; exact Hj]|].
      intros j [[Hj HTj] Hjin]. split; [done|]. rewrite lookup_delete_ne; [done|]. by intros <-.
    + done.
    + intros j t'. destruct (decide (j = i)) as [->|Hne]; [by rewrite lookup_delete_eq|]. rewrite lookup_delete_ne by done.
      intros Hj%Hk. set_solver.
    + exists s2, (fr ++ [t]). split_and!; [done|by rewrite <- app_assoc|by rewrite Hfr, Hp, Permutation_app_comm|].
      intros v Hv. rewrite Hs2 by done. apply Hm1. set_solver.
  - simpl. apply IH; try done. intros j t Hj. pose proof (Hk _ _ Hj) as Hjin. apply elem_of_cons in Hjin as [->|]; [congruence|done].
Qed.

(** [vm_free] gives back the tables and the directory, and nothing else. *)
Lemma vm_free_run s free A rest :
  pt_ok s free A rest → user_pages A →
  ∃ s' fr, vm_free kend (as_dir A) s = Ok tt s' ∧ rep kend s' (fr ++ free) rest ∧ fr ≡ₚ tables A ∧ same_on rest s s'.
Proof.
  intros Hok Hu. assert (as_dir A ∈ tables A) as Hdt by (apply elem_of_tables; by left).
  assert (page_valid kend (as_dir A)) as Hdv by (eapply rep_valid; [apply Hok|set_solver]).
  unfold vm_free. rewrite (proj2 (Z.eqb_neq _ _)) by (by apply (page_valid_nonzero kend)).
  destruct (uvm_dealloc_run s free A rest KERNBASE 0 Hok Hu ltac:(plia) ltac:(plia)) as (s1 & A1 & E1 & Hok1 & Hs1 & [Hd1 Ht1 _]).
  pose proof Hok1 as [Hr1 Hat1 Hnd1 Hrest1].
  assert (tables A1 = tables A) as Htab by (unfold tables; by rewrite Hd1, Ht1). rewrite Htab in *.
  pose proof Hnd1 as Hnd. unfold tables in Hnd. apply NoDup_cons in Hnd as [Hdn Hnd].
  destruct (free_tables_run (as_dir A) (as_tabs A) rest (seqZ 0 NPDENTRIES) (as_tabs A) s1 free) as (s2 & fr & E2 & Hr2 & Hfr & Hs2).
  - unfold tables in Hr1. rewrite list_to_set_cons in Hr1. by rewrite (assoc_L (∪)).
  - done.
  - intros v Hv. split; [by intros ->|]. apply Hrest1. unfold tables. set_solver.
  - rewrite <- Hd1, <- Ht1. apply Hat1.
  - apply Forall_forall. intros i Hi%elem_of_seqZ. unfold NPDENTRIES in Hi. split; [lia|done].
  - apply NoDup_seqZ.
  - intros i t Hi. rewrite <- Ht1 in Hi. apply (pt_tab _ _ Hat1) in Hi as [Hi _]. apply elem_of_seqZ. unfold NPDENTRIES. lia.
  - destruct (rep_free kend s2 (as_dir A) (fr ++ free) _ Hr2) as (s3 & E3 & Hr3 & Hm3); [by apply elem_of_union_l, elem_of_singleton|].
    assert (as_dir A ∉ rest) as Hdr by (by apply Hrest1).
    exists s3, (as_dir A :: fr). split_and!.
    + unfold mbind, K_bind. by rewrite E1, E2, E3.
    + assert (({[as_dir A]} ∪ rest) ∖ {[as_dir A]} = rest) as Heq by (clear -Hdr; set_solver). by rewrite Heq in Hr3.
    + unfold tables. by rewrite Hfr.
    + intros v Hv. rewrite Hm3 by (by intros ->). rewrite Hs2 by (by apply elem_of_union_r). by apply Hs1.
Qed.
End unmap.
