(* ===== verification/VmUser.v ===== *)
(** * VmUser: address spaces of processes

    The kernel half that [kvm_setup] gives every address space, and the user
    half as the list of its pages, with what [uvm_alloc], [uvm_copy] and
    [copy_out] do to it. *)

From S2P Require Import Prelude Kalloc Vm VmTable VmMap.

Lemma missing_app D xs ys :
  size (missing D (xs ++ ys)) = (size (missing D xs) + size (missing (missing D xs ∪ D) ys))%nat ∧
  missing D (xs ++ ys) ∪ D = missing (missing D xs ∪ D) ys ∪ (missing D xs ∪ D).
Proof.
  unfold missing. rewrite fmap_app, list_to_set_app_L. set (X := list_to_set ((λ n, n / 1024) <$> xs)).
  set (Y := list_to_set ((λ n, n / 1024) <$> ys)). split.
  - rewrite <- size_union by set_solver. f_equal. apply set_eq. intros i. destruct (decide (i ∈ X)), (decide (i ∈ D)); set_solver.
  - apply set_eq. intros i. destruct (decide (i ∈ X)), (decide (i ∈ D)); set_solver.
Qed.

(** ** The kernel's mappings *)

(** The page numbers a line of [kmap] maps. *)
Definition kpages (k : KMap) : list Z :=
  seqZ (virt k / PGSIZE) ((u32 (phys_end k - phys_start k) + PGSIZE - 1) / PGSIZE).

Record kmap_ok (k : KMap) : Prop := {
  kk_virt : 0 ≤ virt k ∧ virt k mod PGSIZE = 0;
  kk_phys : 0 ≤ phys_start k < phys_end k ∧ phys_end k < 2 ^ 32 ∧ phys_start k mod PGSIZE = 0;
  kk_end : virt k + (phys_end k - phys_start k) ≤ 2 ^ 32;
  kk_perm : 0 ≤ Z.lor (perm k) PTE_P < 4096
}.

Definition kentry (k : KMap) (m : Z) : Z * Z := (phys_start k + (m - virt k / PGSIZE) * PGSIZE, Z.lor (perm k) PTE_P).

Section kernel.
Context (kend : Z) (rest : gset Z).
Abbreviation pt_ok := (pt_ok kend).

Lemma map_all_run ks : ∀ s free A,
  pt_ok s free A rest → Forall kmap_ok ks → NoDup (ks ≫= kpages) → (∀ m, m ∈ ks ≫= kpages → as_map A !! m = None) →
  let need := size (missing (dom (as_tabs A)) (ks ≫= kpages)) in
  ∃ s' A', map_all (as_dir A) ks s = Ok (bool_decide (need ≤ length free)%nat) s' ∧
    pt_ok s' (drop need free) A' rest ∧ same_on rest s s' ∧ extends (λ m, m ∈ ks ≫= kpages) A A' ∧
    ((need ≤ length free)%nat → dom (as_tabs A') = missing (dom (as_tabs A)) (ks ≫= kpages) ∪ dom (as_tabs A) ∧
      ∀ k m, k ∈ ks → m ∈ kpages k → as_map A' !! m = Some (kentry k m)).
Proof.
  induction ks as [|k ks IH]; intros s free A Hok Hks Hnd Hnone need.
  { unfold need. simpl. rewrite missing_nil, size_empty, bool_decide_eq_true_2 by lia. exists s, A.
    split_and!; [done..|apply extends_refl|]. intros _. split; [set_solver|]. intros ? ? []%elem_of_nil. }
  unfold need. clear need. apply Forall_cons in Hks as [Hk Hks]. rewrite bind_cons in *. apply NoDup_app in Hnd as (_ & Hdisj & Hnd).
  destruct (missing_app (dom (as_tabs A)) (kpages k) (ks ≫= kpages)) as [Hsize Hdom]. rewrite Hdom, Hsize.
  pose proof Hk as [[Hv Hva] (Hp & Hpe & Hpa) Hend Hperm].
  assert (u32 (phys_end k - phys_start k) = phys_end k - phys_start k) as Hu by (apply u32_small; lia).
  assert (kpages k = seqZ (virt k / PGSIZE) ((phys_end k - phys_start k + PGSIZE - 1) / PGSIZE)) as Hkp by (unfold kpages; by rewrite Hu).
  assert (∀ m, in_range (virt k / PGSIZE) ((phys_end k - phys_start k + PGSIZE - 1) / PGSIZE) m ↔ m ∈ kpages k) as Hin
    by (intros m; rewrite Hkp; unfold in_range; by rewrite elem_of_seqZ).
  destruct (map_pages_run kend rest s free A (virt k / PGSIZE) (phys_end k - phys_start k) (phys_start k) (perm k) Hok)
    as (s1 & A1 & E1 & Hok1 & Hs1 & Hex1 & Hdone1); try done; try dlia.
  { intros m Hm. apply Hnone, elem_of_app. left. by apply Hin. }
  replace (virt k / PGSIZE * PGSIZE) with (virt k) in E1 by dlia. rewrite <- Hkp in *.
  set (n1 := size (missing (dom (as_tabs A)) (kpages k))) in *. set (D1 := missing (dom (as_tabs A)) (kpages k) ∪ dom (as_tabs A)) in *.
  cbn [map_all]. rewrite Hu, (mbind_Ok _ _ _ _ _ E1). destruct (decide (n1 ≤ length free)%nat) as [Hle|Hle].
  - rewrite bool_decide_eq_true_2 by done. destruct (Hdone1 Hle) as [Hd1 Hm1].
    destruct (IH s1 (drop n1 free) A1 Hok1 Hks Hnd) as (s2 & A2 & E2 & Hok2 & Hs2 & Hex2 & Hdone2).
    { intros m Hm. rewrite (ex_map _ _ _ Hex1). { apply Hnone, elem_of_app. by right. }
      rewrite Hin. intros Hm'. by apply (Hdisj m). }
    rewrite Hd1 in *. rewrite (ex_dir _ _ _ Hex1), length_drop in E2. rewrite length_drop in Hdone2. rewrite drop_drop in Hok2.
    exists s2, A2. split_and!; [|done|by eapply same_on_trans| |].
    + rewrite E2. f_equal. apply bool_decide_ext. lia.
    + eapply extends_trans; (eapply extends_weaken; [|done]); intros m Hm; apply elem_of_app; [left; by apply Hin|by right].
    + intros Hle2. destruct (Hdone2 ltac:(lia)) as [Hd2 Hm2]. split; [done|]. intros k' m [->|Hk']%elem_of_cons Hm; [|by apply Hm2].
      rewrite (ex_map _ _ _ Hex2) by (intros ?; by apply (Hdisj m)). unfold kentry. rewrite Hm1 by (by apply Hin). done.
  - rewrite bool_decide_eq_false_2 by done. exists s1, A1. rewrite bool_decide_eq_false_2 by lia. split_and!; [done| |done| |lia].
    + rewrite drop_ge in Hok1 by lia. by rewrite drop_ge by lia.
    + eapply extends_weaken; [|done]. intros m Hm. apply elem_of_app. left. by apply Hin.
Qed.
End kernel.

Section kvm.
Context (kend kdata : Z).
(** The linker puts the kernel's data on a page boundary, after its code. *)
Context (Hdata : KERNLINK < kdata < KERNBASE + PHYSTOP) (Hdata_al : kdata mod PGSIZE = 0).

(** The kernel half of an address space: I/O space, kernel code and read-only
    data, kernel data and free memory, devices; no page of it is for the user. *)
Definition kern_map (m : Z) : option (Z * Z) :=
  if decide (0x80000 ≤ m < 0x80100) then Some ((m - 0x80000) * PGSIZE, Z.lor PTE_W PTE_P)
  else if decide (0x80100 ≤ m < kdata / PGSIZE) then Some ((m - 0x80000) * PGSIZE, PTE_P)
  else if decide (kdata / PGSIZE ≤ m < 0x8E000) then Some ((m - 0x80000) * PGSIZE, Z.lor PTE_W PTE_P)
  else if decide (0xFE000 ≤ m < 0x100000) then Some (m * PGSIZE, Z.lor PTE_W PTE_P)
  else None.

(** The directory and the tables that it takes. *)
Definition KVM_PAGES : nat := 65.
Definition kern_dirs : gset Z := list_to_set (seqZ 512 56 ++ seqZ 1016 8).

Ltac kconst := change KERNLINK with 2148532224 in *; change EXTMEM with 1048576 in *; change DEVSPACE with 4261412864 in *; pconst.

Lemma V2P_high v : KERNBASE ≤ v < 2 ^ 32 → V2P v = v - KERNBASE.
Proof. intros Hv. apply u32_small. plia. Qed.

Lemma kmap_all_ok : Forall kmap_ok (kmap kdata).
Proof.
  unfold kmap. rewrite !V2P_high by (kconst; lia).
  repeat apply Forall_cons_2; [..|by apply Forall_nil]; (split; cbn [virt phys_start phys_end perm]); try done;
    try (kconst; Z.to_euclidean_division_equations; lia).
Qed.

Lemma elem_of_kpages k m : kmap_ok k →
  m ∈ kpages k ↔ virt k / PGSIZE ≤ m < virt k / PGSIZE + (phys_end k - phys_start k + PGSIZE - 1) / PGSIZE.
Proof. intros [? ? ? ?]. unfold kpages. rewrite u32_small by lia. apply elem_of_seqZ. Qed.

Lemma kpages_all :
  kmap kdata ≫= kpages = seqZ 0x80000 0x100 ++ seqZ 0x80100 (kdata / PGSIZE - 0x80100) ++
    seqZ (kdata / PGSIZE) (0x8E000 - kdata / PGSIZE) ++ seqZ 0xFE000 0x2000.
Proof.
  unfold kmap. rewrite !bind_cons. change (mbind kpages []) with (@nil Z). rewrite app_nil_r. unfold kpages. cbn [virt phys_start phys_end].
  rewrite !V2P_high by (kconst; lia). repeat f_equal; kconst; try done;
    rewrite ?u32_small by lia; Z.to_euclidean_division_equations; lia.
Qed.

Lemma elem_of_kpages_all m : m ∈ kmap kdata ≫= kpages ↔ 0x80000 ≤ m < 0x8E000 ∨ 0xFE000 ≤ m < 0x100000.
Proof. rewrite kpages_all, !elem_of_app, !elem_of_seqZ. kconst. Z.to_euclidean_division_equations. lia. Qed.

Lemma kpages_nodup : NoDup (kmap kdata ≫= kpages).
Proof.
  rewrite kpages_all. repeat (apply NoDup_app; split_and!; [apply NoDup_seqZ| |]); [..|apply NoDup_seqZ];
    intros m; rewrite ?elem_of_app, !elem_of_seqZ; kconst; Z.to_euclidean_division_equations; lia.
Qed.

Lemma kern_missing : missing ∅ (kmap kdata ≫= kpages) = kern_dirs.
Proof.
  unfold missing, kern_dirs. apply set_eq. intros i. rewrite elem_of_difference, !elem_of_list_to_set, list_elem_of_fmap.
  setoid_rewrite elem_of_kpages_all. rewrite elem_of_app, !elem_of_seqZ. split.
  - intros [(m & -> & Hm) _]. dlia.
  - intros Hi. split; [|apply not_elem_of_empty]. exists (i * 1024). rewrite Z.div_mul by done. split; [done|lia].
Qed.

Lemma kern_dirs_size : size kern_dirs = 64%nat.
Proof. by vm_compute. Qed.

(** A new directory. *)
Lemma new_dir s v free owned :
  rep kend s (v :: free) owned →
  ∃ s', kalloc_zeroed s = Ok (Some v) s' ∧ pt_ok kend s' free (ASpace v ∅ ∅) owned ∧ same_on owned s s'.
Proof.
  intros Hr. destruct (kalloc_zeroed_run kend _ _ _ _ Hr) as (s' & E & Hr' & Hm).
  assert (v ∉ owned) as Hv by (eapply rep_disj; [done|set_solver]).
  assert (tables (ASpace v ∅ ∅) = [v]) as Ht by (unfold tables; simpl; by rewrite map_to_list_empty).
  exists s'. split_and!; [done| |].
  - split; rewrite ?Ht.
    + assert (list_to_set [v] = ({[v]} : gset Z)) as -> by (clear; set_solver). done.
    + split; simpl; try done. exists zero_page. rewrite Hm, lookup_insert_eq. split_and!; [done|apply zero_page_ok|].
      intros i _. by rewrite get_u32_zero_page.
    + apply NoDup_singleton.
    + intros u ->%list_elem_of_singleton. done.
  - intros u Hu. rewrite Hm, lookup_insert_ne; [done|]. by intros ->.
Qed.

Lemma kern_map_lookup v A m :
  extends (λ m, m ∈ kmap kdata ≫= kpages) (ASpace v ∅ ∅) A →
  (∀ k m, k ∈ kmap kdata → m ∈ kpages k → as_map A !! m = Some (kentry k m)) → as_map A !! m = kern_map m.
Proof.
  intros Hex Hm. pose proof kmap_all_ok as Hok. rewrite Forall_lookup in Hok.
  assert (∀ i k, kmap kdata !! i = Some k → virt k / PGSIZE ≤ m < virt k / PGSIZE + (phys_end k - phys_start k + PGSIZE - 1) / PGSIZE →
    as_map A !! m = Some (kentry k m)) as Hk.
  { intros i k Hi Hin. apply Hm; [by eapply list_elem_of_lookup_2|]. by apply elem_of_kpages; [eapply Hok|]. }
  assert (V2P kdata = kdata - KERNBASE) as HV by (apply V2P_high; kconst; lia).
  unfold kern_map. repeat destruct (decide _).
  - rewrite (Hk 0%nat _ eq_refl); [unfold kentry|]; cbn [virt phys_start phys_end perm]; kconst; [do 2 f_equal|]; Z.to_euclidean_division_equations; lia.
  - rewrite (Hk 1%nat _ eq_refl); [unfold kentry|]; cbn [virt phys_start phys_end perm]; rewrite ?HV; kconst; [do 2 f_equal|]; change (V2P 2148532224) with 1048576; Z.to_euclidean_division_equations; lia.
  - rewrite (Hk 2%nat _ eq_refl); [unfold kentry|]; cbn [virt phys_start phys_end perm]; rewrite ?HV; kconst; [do 2 f_equal|]; Z.to_euclidean_division_equations; lia.
  - rewrite (Hk 3%nat _ eq_refl); [unfold kentry|]; cbn [virt phys_start phys_end perm]; kconst; [do 2 f_equal|]; Z.to_euclidean_division_equations; lia.
  - rewrite (ex_map _ _ _ Hex); [done|]. rewrite elem_of_kpages_all. kconst. Z.to_euclidean_division_equations. lia.
Qed.

Lemma kvm_setup_run s free owned :
  rep kend s free owned →
  if decide (KVM_PAGES ≤ length free)%nat then
    ∃ s' A, kvm_setup kend kdata s = Ok (Some (as_dir A)) s' ∧ pt_ok kend s' (drop KVM_PAGES free) A owned ∧ same_on owned s s' ∧
      dom (as_tabs A) = kern_dirs ∧ ∀ m, as_map A !! m = kern_map m
  else
    ∃ s' free', kvm_setup kend kdata s = Ok None s' ∧ rep kend s' free' owned ∧ same_on owned s s'.
Proof.
  intros Hr. unfold kvm_setup. destruct free as [|v free].
  { rewrite (mbind_Ok _ _ _ _ _ (kalloc_zeroed_nil kend _ _ Hr)).
    rewrite decide_False by (unfold KVM_PAGES; simpl; lia). by exists s, []. }
  destruct (new_dir _ _ _ _ Hr) as (s1 & E1 & Hok1 & Hs1). rewrite (mbind_Ok _ _ _ _ _ E1).
  change (DEVSPACE <? P2V PHYSTOP) with false. cbv iota.
  destruct (map_all_run kend owned (kmap kdata) s1 free (ASpace v ∅ ∅) Hok1 kmap_all_ok kpages_nodup) as (s2 & A & E2 & Hok2 & Hs2 & Hex & Hdone).
  { done. }
  cbn [as_tabs as_dir] in *. rewrite dom_empty_L, kern_missing, kern_dirs_size in *. rewrite (mbind_Ok _ _ _ _ _ E2).
  change (KVM_PAGES ≤ length (v :: free))%nat with (65 ≤ S (length free))%nat.
  destruct (decide (64 ≤ length free)%nat) as [Hle|Hle].
  - rewrite bool_decide_eq_true_2, decide_True by lia. destruct (Hdone Hle) as [Hd Hm]. exists s2, A.
    rewrite (ex_dir _ _ _ Hex). split_and!; [done|done|by eapply same_on_trans|by rewrite Hd, union_empty_r_L|].
    intros m. by eapply kern_map_lookup.
  - rewrite bool_decide_eq_false_2, decide_False by lia.
    destruct (vm_free_run kend s2 _ A owned Hok2) as (s3 & fr & E3 & Hr3 & _ & Hs3).
    { intros n pa f Hn Hlt. rewrite (ex_map _ _ _ Hex) in Hn by (rewrite elem_of_kpages_all; lia). done. }
    rewrite (ex_dir _ _ _ Hex) in E3. exists s3, (fr ++ drop 64 free). rewrite (mbind_Ok _ _ _ _ _ E3).
    split_and!; [done|done|]. by do 2 (eapply same_on_trans; [done|]).
Qed.
End kvm.

(** ** The user half *)

(** The user pages of [A] are [us], from address 0 on: the kernel address of
    each page, and its flags. Nothing else is in them: [rest] has the pages of
    others. *)
Record ushape (A : aspace) (us : list (Z * Z)) (rest : gset Z) : Prop := {
  us_nodup : NoDup us.*1;
  us_rest : ∀ v, v ∈ us.*1 → v ∉ rest;
  us_len : Z.of_nat (length us) ≤ 2 ^ 19;
  us_map : ∀ n, 0 ≤ n < 2 ^ 19 → as_map A !! n = (λ p, (V2P p.1, p.2)) <$> us !! Z.to_nat n;
  us_kern : ∀ n pa f, 2 ^ 19 ≤ n → as_map A !! n = Some (pa, f) → PTE_is_user f = false
}.

(** The bytes of a page, and those of the user half. *)
Definition page_of (s : kmem) (v : Z) : list Z := default [] (km_mem s !! v).
Definition umem (s : kmem) (us : list (Z * Z)) : list Z := us.*1 ≫= page_of s.

Section user.
Context (kend : Z).
Abbreviation pt_ok := (pt_ok kend).

Record uspace (s : kmem) (free : list Z) (A : aspace) (us : list (Z * Z)) (rest : gset Z) : Prop := {
  us_pt : pt_ok s free A (list_to_set us.*1 ∪ rest);
  us_shape : ushape A us rest
}.

Lemma umem_same s s' us : same_on (list_to_set us.*1) s s' → umem s' us = umem s us.
Proof.
  intros Hs. unfold umem. assert (∀ v, v ∈ us.*1 → page_of s' v = page_of s v) as H.
  { intros v Hv. unfold page_of. rewrite Hs; [done|]. by apply elem_of_list_to_set. }
  clear Hs. induction us.*1 as [|v vs IH]; [done|]. rewrite !bind_cons, H, IH by set_solver. done.
Qed.

(** The page that comes next is mapped. *)
Lemma ushape_push A A' us rest v f :
  ushape A us rest → v ∉ us.*1 → v ∉ rest → Z.of_nat (length us) < 2 ^ 19 →
  extends (in_range (Z.of_nat (length us)) 1) A A' → as_map A' !! Z.of_nat (length us) = Some (V2P v, f) →
  ushape A' (us ++ [(v, f)]) rest.
Proof.
  intros [Hnd Hr Hl Hm Hk] Hv Hvr Hlt Hex Hv'.
  split.
  - rewrite fmap_app. apply NoDup_app. split_and!; [done| |apply NoDup_singleton]. intros u Hu ->%list_elem_of_singleton. done.
  - intros u. rewrite fmap_app, elem_of_app. simpl. rewrite list_elem_of_singleton. intros [Hu| ->]; [by apply Hr|done].
  - rewrite length_app. simpl. lia.
  - intros n Hn. destruct (decide (n < Z.of_nat (length us))) as [Hlo|Hhi].
    + rewrite (ex_map _ _ _ Hex) by (unfold in_range; lia). rewrite Hm by done. by rewrite lookup_app_l by lia.
    + destruct (decide (n = Z.of_nat (length us))) as [->|Hne].
      * rewrite lookup_app_r by lia. rewrite Hv'. replace (Z.to_nat _ - length us)%nat with 0%nat by lia. done.
      * rewrite (ex_map _ _ _ Hex) by (unfold in_range; lia). rewrite Hm by done.
        rewrite !lookup_ge_None_2; [done| |]; rewrite ?length_app; simpl; lia.
  - intros n pa g Hn. rewrite (ex_map _ _ _ Hex) by (unfold in_range; lia). by apply Hk.
Qed.

(** Mapping a page that has been handed out as the next page of the user half. *)
Lemma map_next s free A us rest v perm :
  pt_ok s free A ({[v]} ∪ (list_to_set us.*1 ∪ rest)) → ushape A us rest → v ∉ us.*1 → v ∉ rest →
  Z.of_nat (length us) < 2 ^ 19 → 0 ≤ Z.lor perm PTE_P < 4096 →
  let n := Z.of_nat (length us) in
  let c := if decide (n / 1024 ∈ dom (as_tabs A)) then 0%nat else 1%nat in
  ∃ s' A', map_pages (as_dir A) (n * PGSIZE) PGSIZE (V2P v) perm s = Ok (bool_decide (c ≤ length free)%nat) s' ∧
    same_on ({[v]} ∪ (list_to_set us.*1 ∪ rest)) s s' ∧ extends (in_range n 1) A A' ∧
    ((length free < c)%nat → s' = s) ∧
    ((c ≤ length free)%nat → uspace s' (drop c free) A' (us ++ [(v, Z.lor perm PTE_P)]) rest ∧
      dom (as_tabs A') = {[n / 1024]} ∪ dom (as_tabs A)).
Proof.
  intros Hok Hsh Hv Hvr Hlt Hperm n c. pose proof Hsh as [Hnd Hr Hl Hm Hk].
  assert (page_addr v) as Hva by (eapply po_addr; [done|right; left; set_solver]).
  pose proof (V2P_page v Hva) as [Hp Hpm].
  destruct (map_pages_run kend _ s free A n PGSIZE (V2P v) perm Hok) as (s1 & A1 & E1 & Hok1 & Hs1 & Hex & Hdone); try done; try plia; try dlia.
  { change ((PGSIZE + PGSIZE - 1) / PGSIZE) with 1. intros m Hin. unfold in_range in Hin. rewrite Hm by lia.
    rewrite lookup_ge_None_2 by lia. done. }
  change ((PGSIZE + PGSIZE - 1) / PGSIZE) with 1 in *. assert (seqZ n 1 = [n]) as Hseq by (by rewrite seqZ_cons by lia).
  rewrite Hseq in *. assert (size (missing (dom (as_tabs A)) [n]) = c) as Hc.
  { rewrite missing_cons, missing_nil, size_empty. unfold c. lia. }
  rewrite Hc in *. exists s1, A1. split_and!; [done..| |].
  { intros Hlt'. rewrite bool_decide_eq_false_2 in E1 by lia. assert ((n / 1024 ∉ dom (as_tabs A)) ∧ free = []) as [Hnd' Hf].
    { unfold c in Hlt'. destruct (decide _); [lia|]. split; [done|]. destruct free; [done|simpl in *; lia]. }
    rewrite (map_one_fail kend _ s free A n (V2P v) perm Hok) in E1; [by injection E1|lia|done|done|done| |done|done].
    rewrite Hm, lookup_ge_None_2 by lia. done. }
  intros Hle. destruct (Hdone Hle) as [Hd Hmap].
  assert (as_map A1 !! n = Some (V2P v, Z.lor perm PTE_P)) as Hmn by (rewrite Hmap by (unfold in_range; lia); do 2 f_equal; lia).
  split; [split|].
  - assert (list_to_set (us ++ [(v, Z.lor perm PTE_P)]).*1 ∪ rest = {[v]} ∪ (list_to_set us.*1 ∪ rest)) as ->; [|done].
    rewrite fmap_app, list_to_set_app_L. simpl. clear. set_solver.
  - by eapply ushape_push.
  - rewrite Hd, <- (missing_cons_dom (dom (as_tabs A)) n []), missing_nil. by rewrite union_empty_l_L.
Qed.

(** Only the pages of the tables matter to an address space. *)
Lemma pt_at_same (m m' : gmap Z (list Z)) A : (∀ v, v ∈ tables A → m' !! v = m !! v) → pt_at m A → pt_at m' A.
Proof.
  intros Hs [Hd Ht Hdom He]. split; [| |done..].
  - eapply holds_ext; [|done|exact Hd]. apply Hs, elem_of_tables. by left.
  - intros i t Hi. destruct (Ht _ _ Hi) as [Hr Hh]. split; [done|]. eapply holds_ext; [|done|exact Hh]. apply Hs, elem_of_tables. eauto.
Qed.

Lemma pt_ok_step s s' free free' A rest rest' :
  pt_ok s free A rest → rep kend s' free' (list_to_set (tables A) ∪ rest') → same_on (list_to_set (tables A)) s s' →
  (∀ v, v ∈ tables A → v ∉ rest') → pt_ok s' free' A rest'.
Proof.
  intros [_ Hat Hnd _] Hr Hs Hd. split; [done| |done|done]. eapply pt_at_same; [|done]. intros v Hv. apply Hs. by apply elem_of_list_to_set.
Qed.

(** Taking a page of memory for a user. *)
Lemma take_page s v free A rest :
  pt_ok s (v :: free) A rest →
  (v ∉ rest) ∧ (∃ s', kalloc_opt s = Ok (Some v) s' ∧ pt_ok s' free A ({[v]} ∪ rest) ∧ km_mem s' = km_mem s) ∧
  (∃ s', kalloc_zeroed s = Ok (Some v) s' ∧ pt_ok s' free A ({[v]} ∪ rest) ∧ same_on rest s s' ∧ km_mem s' !! v = Some zero_page).
Proof.
  intros Hok. pose proof (po_rep _ _ _ _ _ Hok) as Hr.
  assert (v ∉ list_to_set (tables A) ∪ rest) as Hv by (eapply rep_disj; [done|set_solver]).
  assert (∀ u, u ∈ tables A → u ∉ {[v]} ∪ rest) as Hd.
  { intros u Hu. rewrite elem_of_union, elem_of_singleton. intros [->|Hur]; [set_solver|by eapply po_rest]. }
  assert ({[v]} ∪ (list_to_set (tables A) ∪ rest) = list_to_set (tables A) ∪ ({[v]} ∪ rest)) as Hset by (clear; set_solver).
  split_and!; [set_solver| |].
  - destruct (kalloc_opt_run kend _ _ _ _ Hr) as (s' & E & Hm & Hr'). exists s'. split_and!; [done| |done].
    rewrite Hset in Hr'. eapply pt_ok_step; [done..| |done]. intros u _. by rewrite Hm.
  - destruct (kalloc_zeroed_run kend _ _ _ _ Hr) as (s' & E & Hr' & Hm). exists s'. rewrite Hset in Hr'.
    split_and!; [done| | |by rewrite Hm, lookup_insert_eq].
    + eapply pt_ok_step; [done..| |done]. intros u Hu. rewrite Hm, lookup_insert_ne; [done|]. intros ->. clear -Hu Hv. set_solver.
    + intros u Hu. rewrite Hm, lookup_insert_ne; [done|]. intros ->. clear -Hu Hv. set_solver.
Qed.

(** ** uvm_alloc *)

(** The addresses of pages. *)
Definition addrs (n k : Z) : list Z := (λ i, i * PGSIZE) <$> seqZ n k.

Lemma addrs_cons n k : 0 < k → addrs n k = n * PGSIZE :: addrs (n + 1) (k - 1).
Proof. intros Hk. unfold addrs. rewrite seqZ_cons by lia. simpl. by replace (Z.succ n) with (n + 1) by lia. Qed.

Lemma step_by_addrs n hi : step_by (n * PGSIZE) hi = addrs n ((hi + PGSIZE - 1) / PGSIZE - n).
Proof.
  unfold step_by, addrs. replace ((hi - n * PGSIZE + PGSIZE - 1) / PGSIZE) with ((hi + PGSIZE - 1) / PGSIZE - n) by dlia.
  set (k := (hi + PGSIZE - 1) / PGSIZE - n). replace (seqZ n k) with (Z.add n <$> seqZ 0 k) by (rewrite fmap_add_seqZ; f_equal; lia).
  rewrite <- list_fmap_compose. apply list_fmap_ext. intros _ i _. simpl. lia.
Qed.

(** What growing by [k] pages takes from the allocator: the pages, and the
    tables that are missing. *)
Definition grow_need (A : aspace) (n k : Z) : nat := (Z.to_nat k + size (missing (dom (as_tabs A)) (seqZ n k)))%nat.

Lemma grow_need_cons A A' n k : 0 < k → dom (as_tabs A') = {[n / 1024]} ∪ dom (as_tabs A) →
  grow_need A n k = (S ((if decide ((n / 1024)%Z ∈ dom (as_tabs A)) then 0 else 1) + grow_need A' (n + 1) (k - 1)))%nat.
Proof.
  intros Hk Hd. unfold grow_need. rewrite Hd, seqZ_cons, missing_cons by lia. replace (Z.succ n) with (n + 1) by lia.
  replace (Z.pred k) with (k - 1) by lia. destruct (decide _); lia.
Qed.

Lemma uvm_alloc_loop_run rest k : ∀ s free A us,
  uspace s free A us rest → Z.of_nat (length us) + Z.of_nat k ≤ 2 ^ 19 →
  let n := Z.of_nat (length us) in
  if decide (grow_need A n (Z.of_nat k) ≤ length free)%nat then
    ∃ s' A' vs, uvm_alloc_loop (as_dir A) (addrs n (Z.of_nat k)) s = Ok tt s' ∧
      uspace s' (drop (grow_need A n (Z.of_nat k)) free) A' (us ++ ((λ v, (v, 7)) <$> vs)) rest ∧ length vs = k ∧
      same_on (list_to_set us.*1 ∪ rest) s s' ∧ Forall (λ v, km_mem s' !! v = Some zero_page) vs ∧ extends (in_range n (Z.of_nat k)) A A'
  else uvm_alloc_loop (as_dir A) (addrs n (Z.of_nat k)) s = Fault (FPanic "not implemented").
Proof.
  induction k as [|k IH]; intros s free A us [Hok Hsh] Hlen n.
  { assert (grow_need A n (Z.of_nat 0) = 0%nat) as -> by (unfold grow_need; rewrite seqZ_nil, missing_nil by lia; by rewrite size_empty).
    rewrite decide_True by lia. exists s, A, []. rewrite app_nil_r. unfold addrs. rewrite seqZ_nil by lia.
    split_and!; [done|done|done|done|by apply Forall_nil|apply extends_refl]. }
  rewrite addrs_cons by lia. cbn [uvm_alloc_loop]. destruct free as [|v free].
  { rewrite decide_False by (unfold grow_need; simpl; lia). by rewrite (mbind_Ok _ _ _ _ _ (kalloc_zeroed_nil kend _ _ (po_rep _ _ _ _ _ Hok))). }
  destruct (take_page _ _ _ _ _ Hok) as (Hvr & _ & s1 & E1 & Hok1 & Hs1 & Hz1). rewrite (mbind_Ok _ _ _ _ _ E1).
  destruct (map_next s1 free A us rest v (Z.lor PTE_W PTE_U) Hok1 Hsh) as (s2 & A2 & E2 & Hs2 & Hex2 & _ & Hdone);
    [clear -Hvr; set_solver|clear -Hvr; set_solver|lia|done|].
  fold n in E2, Hdone, Hex2. set (c := if decide _ then 0%nat else 1%nat) in *. rewrite (mbind_Ok _ _ _ _ _ E2).
  destruct (decide (c ≤ length free)%nat) as [Hc|Hc].
  2:{ rewrite bool_decide_eq_false_2 by done. rewrite decide_False; [done|]. unfold grow_need. rewrite seqZ_cons, missing_cons by lia.
      fold c. simpl. lia. }
  rewrite bool_decide_eq_true_2 by done. destruct (Hdone Hc) as [Hu2 Hd2].
  rewrite (grow_need_cons A A2 n (Z.of_nat (S k)) ltac:(lia) Hd2). fold c.
  replace (Z.of_nat (S k) - 1) with (Z.of_nat k) by lia.
  specialize (IH s2 (drop c free) A2 (us ++ [(v, Z.lor (Z.lor PTE_W PTE_U) PTE_P)]) Hu2).
  rewrite length_app in IH. simpl in IH. replace (Z.of_nat (length us + 1)) with (n + 1) in IH by lia.
  specialize (IH ltac:(lia)). cbv zeta in IH. rewrite length_drop, (ex_dir _ _ _ Hex2) in IH.
  destruct (decide (grow_need A2 (n + 1) (Z.of_nat k) ≤ length free - c)%nat) as [Hle|Hle].
  - rewrite decide_True by (simpl; lia). destruct IH as (s3 & A3 & vs & E3 & Hu3 & Hlv & Hs3 & Hz3 & Hex3).
    exists s3, A3, (v :: vs). split_and!; [done| |by simpl; lia| | |].
    + rewrite drop_drop in Hu3. rewrite <- app_assoc in Hu3. exact Hu3.
    + intros u Hu. rewrite Hs3, Hs2, Hs1; [done|done|by apply elem_of_union_r|].
      rewrite fmap_app, list_to_set_app_L. clear -Hu. set_solver.
    + apply Forall_cons. split; [|done]. rewrite Hs3, Hs2; [done|clear; set_solver|]. rewrite fmap_app, list_to_set_app_L. clear. set_solver.
    + eapply extends_trans; (eapply extends_weaken; [|done]); unfold in_range; lia.
  - rewrite decide_False by (simpl; lia). done.
Qed.

Lemma uvm_alloc_run s free A us rest old new :
  uspace s free A us rest → Z.of_nat (length us) * PGSIZE = PGROUNDUP old → 0 ≤ old ≤ new → new < KERNBASE →
  let n := Z.of_nat (length us) in
  let k := (new + PGSIZE - 1) / PGSIZE - n in
  if decide (grow_need A n k ≤ length free)%nat then
    ∃ s' A' vs, uvm_alloc (as_dir A) old new s = Ok new s' ∧
      uspace s' (drop (grow_need A n k) free) A' (us ++ ((λ v, (v, 7)) <$> vs)) rest ∧ Z.of_nat (length vs) = k ∧
      same_on (list_to_set us.*1 ∪ rest) s s' ∧ Forall (λ v, km_mem s' !! v = Some zero_page) vs ∧ extends (in_range n k) A A'
  else uvm_alloc (as_dir A) old new s = Fault (FPanic "not implemented").
Proof.
  intros Hus Hn Ho Hk n k. assert (PGROUNDUP old = (old + PGSIZE - 1) / PGSIZE * PGSIZE) as Hup by (apply PGROUNDUP_spec; plia).
  assert (0 ≤ k ∧ n + k ≤ 2 ^ 19) as [Hk0 Hk19] by (unfold k, n; rewrite Hup in Hn; dlia).
  unfold uvm_alloc. rewrite (proj2 (Z.leb_gt _ _)), (proj2 (Z.ltb_ge _ _)), <- Hn, step_by_addrs by lia. fold n k.
  pose proof (uvm_alloc_loop_run rest (Z.to_nat k) s free A us Hus ltac:(lia)) as H. cbv zeta in H. fold n in H.
  rewrite Z2Nat.id in H by done. destruct (decide _).
  - destruct H as (s' & A' & vs & E & Hus' & Hl & Hs & Hz & Hex). exists s', A', vs. rewrite (mbind_Ok _ _ _ _ _ E).
    split_and!; [done|done|lia|done|done|done].
  - unfold mbind, K_bind. by rewrite H.
Qed.

(** ** Looking up an address *)

Section lookup.
Context (s : kmem) (free : list Z) (A : aspace) (us : list (Z * Z)) (rest : gset Z) (Hus : uspace s free A us rest).

(** The entry of an address. *)
Lemma walk_load va : 0 ≤ va < 2 ^ 32 →
  ∀ {B} (k : option Z → MM B), (walk_pgdir (as_dir A) va false ≫= k) s =
    match as_tabs A !! (va / PGSIZE / 1024) with
    | None => k None s
    | Some t => k (Some (u32 (t + 4 * ((va / PGSIZE) mod 1024)))) s
    end.
Proof.
  intros Hva B k. destruct (as_tabs A !! _) as [t|] eqn:Et.
  - apply mbind_Ok. by apply (walk_present kend _ _ _ _ (us_pt _ _ _ _ _ Hus)).
  - apply mbind_Ok. by apply (walk_absent kend _ _ _ _ (us_pt _ _ _ _ _ Hus)).
Qed.

Lemma load_entry va t : 0 ≤ va < 2 ^ 32 → as_tabs A !! (va / PGSIZE / 1024) = Some t →
  load32 (u32 (t + 4 * ((va / PGSIZE) mod 1024))) s = Ok (pte_of (as_map A !! (va / PGSIZE))) s.
Proof.
  intros Hva Ht. rewrite (load_pte kend _ _ _ _ (us_pt _ _ _ _ _ Hus) _ _ _ Ht) by dlia. do 3 f_equal. dlia.
Qed.

Lemma us_page n v f : us !! n = Some (v, f) →
  page_addr v ∧ entry_ok (V2P v) f ∧ PTE_is_present f = true ∧ Z.of_nat n < 2 ^ 19 ∧
  as_map A !! Z.of_nat n = Some (V2P v, f) ∧ is_Some (as_tabs A !! (Z.of_nat n / 1024)) ∧ ∃ pg, km_mem s !! v = Some pg ∧ page_ok pg.
Proof.
  intros Hn. pose proof (us_shape _ _ _ _ _ Hus) as [Hnd Hr Hl Hm _]. pose proof (us_pt _ _ _ _ _ Hus) as Hok.
  assert (Z.of_nat n < 2 ^ 19) as Hn19 by (apply lookup_lt_Some in Hn; lia).
  assert (as_map A !! Z.of_nat n = Some (V2P v, f)) as Hmn by (rewrite Hm by lia; by rewrite Nat2Z.id, Hn).
  destruct (pt_ent _ _ (po_at _ _ _ _ _ Hok) _ _ _ Hmn) as [He Hp].
  assert (v ∈ us.*1) as Hv by (apply list_elem_of_fmap; exists (v, f); split; [done|by eapply list_elem_of_lookup_2]).
  split_and!; [|done..| |].
  - eapply po_addr; [exact Hok|]. right. left. apply elem_of_union_l. by apply elem_of_list_to_set.
  - by eapply pt_dom; [apply Hok|].
  - eapply rep_page; [apply Hok|]. right. apply elem_of_union_r, elem_of_union_l. by apply elem_of_list_to_set.
Qed.

Lemma uva_to_ka_run va : 0 ≤ va < 2 ^ 32 →
  uva_to_ka (as_dir A) va s =
    Ok (match us !! Z.to_nat (va / PGSIZE) with Some (v, f) => if PTE_is_user f then Some v else None | None => None end) s.
Proof.
  intros Hva. pose proof (us_shape _ _ _ _ _ Hus) as [Hnd Hr Hl Hm Hkern]. pose proof (us_pt _ _ _ _ _ Hus) as Hok.
  unfold uva_to_ka. rewrite walk_load by done. destruct (us !! Z.to_nat (va / PGSIZE)) as [[v f]|] eqn:En.
  - destruct (us_page _ _ _ En) as (Hva' & He & Hp & Hn & Hmn & [t Ht] & _). rewrite Z2Nat.id in * by dlia. rewrite Ht.
    rewrite (mbind_Ok _ _ _ _ _ (load_entry va t Hva Ht)), Hmn. simpl.
    rewrite PTE_new_present, PTE_new_user, PTE_address_new, Hp by done. simpl. rewrite P2V_V2P by apply Hva'. done.
  - destruct (as_tabs A !! (va / PGSIZE / 1024)) as [t|] eqn:Et; [|done].
    rewrite (mbind_Ok _ _ _ _ _ (load_entry va t Hva Et)). destruct (as_map A !! (va / PGSIZE)) as [[pa f]|] eqn:Em; [|done]. simpl.
    destruct (pt_ent _ _ (po_at _ _ _ _ _ Hok) _ _ _ Em) as [He Hp]. rewrite PTE_new_user by done.
    destruct (decide (va / PGSIZE < 2 ^ 19)); [rewrite Hm, En in Em by dlia; done|].
    rewrite (Hkern (va / PGSIZE) pa f) by (done || lia). by rewrite andb_false_r.
Qed.
End lookup.

(** Writing into a user page. *)
Lemma uspace_write s free A us rest n v f pg :
  uspace s free A us rest → us !! n = Some (v, f) → page_ok pg → uspace (set_mem (<[v := pg]> (km_mem s)) s) free A us rest.
Proof.
  intros Hus Hn Hpg. pose proof Hus as [Hok Hsh].
  assert (v ∈ us.*1) as Hv by (apply list_elem_of_fmap; exists (v, f); split; [done|by eapply list_elem_of_lookup_2]).
  assert (v ∈ list_to_set us.*1 ∪ rest) as Hv' by (apply elem_of_union_l; by apply elem_of_list_to_set).
  split; [|done]. eapply pt_ok_step; [done| | |apply Hok].
  - apply rep_write; [apply Hok|by apply elem_of_union_r|done].
  - intros u Hu. simpl. rewrite lookup_insert_ne; [done|]. intros ->. apply elem_of_list_to_set in Hu. by eapply po_rest.
Qed.
End user.
