(* ===== verification/VmCopy.v ===== *)
(** * VmCopy: the memory of a child (uvm_copy of kernel/src/vm.rs)

    [fork] copies the parent's address space. The copy has pages of its own
    with the same bytes and flags, and the parent is as before; but if memory
    runs out on the way, it is the parent's tables that are freed. *)

From S2P Require Import Prelude Kalloc Vm VmTable VmMap VmUser.

(** The pages of an address space. *)
Definition own (A : aspace) (us : list (Z * Z)) : gset Z := list_to_set (tables A) ∪ list_to_set us.*1.

(** The pages of [us'] have the flags and, in [s'], the bytes of those of [us]
    in [s]. *)
Definition copied (s s' : kmem) (us us' : list (Z * Z)) : Prop :=
  Forall2 (λ p p', p'.2 = p.2 ∧ km_mem s' !! p'.1 = km_mem s !! p.1) us us'.

Lemma copied_umem s s' us us' : copied s s' us us' → umem s' us' = umem s us ∧ us'.*2 = us.*2.
Proof.
  unfold umem. induction 1 as [|[v f] [v' f'] us us' [Hf Hm] _ [IH1 IH2]]; [done|]. rewrite !fmap_cons, !bind_cons, IH1, IH2.
  simpl in *. rewrite Hf. split; [|done]. f_equal. unfold page_of. by rewrite Hm.
Qed.

Lemma lor_present f : PTE_is_present f = true → Z.lor f PTE_P = f.
Proof.
  unfold PTE_is_present. rewrite negb_true_iff, Z.eqb_neq. change PTE_P with (Z.ones 1) at 1. rewrite Z.land_ones by lia.
  change (2 ^ 1) with 2. rewrite <- Z.bit0_mod. intros Hf. apply Z.bits_inj'. intros n Hn. rewrite Z.lor_spec.
  destruct (decide (n = 0)) as [->|Hne]; [by destruct (Z.testbit f 0)|].
  change PTE_P with (Z.ones 1). rewrite Z.ones_spec_high by lia. by rewrite orb_false_r.
Qed.

Section copy.
Context (kend kdata : Z).
Abbreviation uspace := (uspace kend).

(** Two address spaces in one memory: what the one has is not of the other. *)
Lemma uspace_other s0 free0 s free A us B us' rest :
  uspace s0 free0 A us rest → uspace s free B us' (own A us ∪ rest) → same_on (own A us) s0 s →
  uspace s free A us (own B us' ∪ rest).
Proof.
  intros [HokA HshA] [HokB HshB] Hs. pose proof HshA as [HndA HrA HlA HmA HkA].
  assert (∀ v, v ∈ own A us → v ∉ own B us') as Hd.
  { intros v Hv Hv'. unfold own in Hv' at 1. apply elem_of_union in Hv' as [Hv'|Hv']; apply elem_of_list_to_set in Hv'.
    - eapply (po_rest _ _ _ _ _ HokB); [done|]. by apply elem_of_union_r, elem_of_union_l.
    - eapply (us_rest _ _ _ HshB); [done|]. by apply elem_of_union_l. }
  split.
  - split.
    + assert (list_to_set (tables A) ∪ (list_to_set us.*1 ∪ (own B us' ∪ rest)) =
        list_to_set (tables B) ∪ (list_to_set us'.*1 ∪ (own A us ∪ rest))) as -> by (unfold own; clear; set_solver). apply HokB.
    + eapply pt_at_same; [|apply HokA]. intros v Hv. apply Hs. unfold own. apply elem_of_union_l. by apply elem_of_list_to_set.
    + apply HokA.
    + intros v Hv. rewrite !elem_of_union. intros [Hu|[Hu|Hu]].
      * eapply (po_rest _ _ _ _ _ HokA); [done|]. by apply elem_of_union_l.
      * eapply Hd; [|done]. unfold own. apply elem_of_union_l. by apply elem_of_list_to_set.
      * eapply (po_rest _ _ _ _ _ HokA); [done|]. by apply elem_of_union_r.
  - split; [done| |done..]. intros v Hv. rewrite elem_of_union. intros [Hu|Hu]; [|by eapply HrA].
    eapply Hd; [|done]. unfold own. apply elem_of_union_r. by apply elem_of_list_to_set.
Qed.

Lemma user_pages_ok s free A us rest : KERNBASE < kend → uspace s free A us rest → user_pages A.
Proof.
  intros Hk [Hok [Hnd Hr Hl Hm _]] n pa f Hn Hlt ->.
  assert (0 ≤ n) as Hn0.
  { apply (pt_dom _ _ (po_at _ _ _ _ _ Hok)) in Hn as [t Ht]. apply (pt_tab _ _ (po_at _ _ _ _ _ Hok)) in Ht as [Ht _]. dlia. }
  rewrite Hm in Hn by lia. destruct (us !! Z.to_nat n) as [[v g]|] eqn:Eu; [|done]. injection Hn as Hv <-.
  assert (page_valid kend v) as [Hv32 Hkf].
  { eapply rep_valid; [apply Hok|]. right. apply elem_of_union_r, elem_of_union_l, elem_of_list_to_set, list_elem_of_fmap.
    exists (v, g). split; [done|by eapply list_elem_of_lookup_2]. }
  unfold kfree_ok in Hkf. rewrite !andb_true_iff, Z.leb_le in Hkf. rewrite V2P_high in Hv by plia. plia.
Qed.

(** When a page cannot be had, the parent's tables are freed. *)
Definition parent_freed (A : aspace) (s' : kmem) : Prop :=
  ∃ free' owned, rep kend s' free' owned ∧ ∀ v, v ∈ tables A → v ∈ free'.

Lemma free_parent s0 free0 s free A us B us' rest :
  KERNBASE < kend → uspace s0 free0 A us rest → uspace s free B us' (own A us ∪ rest) → same_on (own A us) s0 s →
  ∃ s', vm_free kend (as_dir A) s = Ok tt s' ∧ parent_freed A s'.
Proof.
  intros Hk HA HB Hs. pose proof (uspace_other _ _ _ _ _ _ _ _ _ HA HB Hs) as HA'.
  destruct (vm_free_run kend s free A _ (us_pt _ _ _ _ _ _ HA')) as (s' & fr & E & Hr & Hfr & _).
  { by eapply user_pages_ok. }
  exists s'. split; [done|]. exists (fr ++ free), (list_to_set us.*1 ∪ (own B us' ∪ rest)). split; [done|].
  intros v Hv. apply elem_of_app. left. by rewrite Hfr.
Qed.

(** One page. [R] has the pages of the parent. *)
Lemma copy_page_run s free B us' R v f pg :
  uspace s free B us' R → v ∈ R → km_mem s !! v = Some pg → page_ok pg → 0 ≤ f < 4096 → PTE_is_present f = true →
  Z.of_nat (length us') < 2 ^ 19 →
  let n := Z.of_nat (length us') in
  let c := if decide (n / 1024 ∈ dom (as_tabs B)) then 0%nat else 1%nat in
  if decide (S c ≤ length free)%nat then
    ∃ s' B' v', copy_page kend (as_dir B) (n * PGSIZE) (V2P v) f s = Ok true s' ∧
      uspace s' (drop (S c) free) B' (us' ++ [(v', f)]) R ∧ same_on (list_to_set us'.*1 ∪ R) s s' ∧
      km_mem s' !! v' = Some pg ∧ extends (in_range n 1) B B' ∧ dom (as_tabs B') = {[n / 1024]} ∪ dom (as_tabs B)
  else
    ∃ s' free', copy_page kend (as_dir B) (n * PGSIZE) (V2P v) f s = Ok false s' ∧ uspace s' free' B us' R ∧
      same_on (list_to_set us'.*1 ∪ R) s s'.
Proof.
  intros [Hok Hsh] HvR Hpg Hpok Hf Hp Hlt n c. unfold copy_page. destruct free as [|v' free].
  { rewrite decide_False by (simpl; lia). rewrite (mbind_Ok _ _ _ _ _ (kalloc_opt_nil kend _ _ (po_rep _ _ _ _ _ Hok))). by exists s, []. }
  destruct (take_page kend _ _ _ _ _ Hok) as (Hv' & (s1 & E1 & Hok1 & Hm1) & _). rewrite (mbind_Ok _ _ _ _ _ E1).
  assert (page_addr v) as Hva by (eapply (po_addr kend _ _ _ _ Hok); right; left; by apply elem_of_union_r).
  assert (page_at (P2V (V2P v)) s1 = Ok pg s1) as E2 by (rewrite P2V_V2P by apply Hva; apply page_at_run; by rewrite Hm1).
  rewrite (mbind_Ok _ _ _ _ _ E2).
  destruct (store_whole_run kend s1 v' pg free _ (po_rep _ _ _ _ _ Hok1)) as (s2 & E3 & Hr3 & Hm2); [clear; set_solver|done|].
  rewrite (mbind_Ok _ _ _ _ _ E3).
  assert (v' ∉ list_to_set us'.*1 ∪ R) as Hv'n by done.
  assert (same_on (list_to_set us'.*1 ∪ R) s s2) as Hs2.
  { intros u Hu. rewrite Hm2, Hm1, lookup_insert_ne; [done|]. by intros ->. }
  assert (pt_ok kend s2 free B ({[v']} ∪ (list_to_set us'.*1 ∪ R))) as Hok2.
  { eapply pt_ok_step; [exact Hok1|done| |apply Hok1]. intros u Hu. rewrite Hm2, lookup_insert_ne; [done|]. intros ->.
    apply elem_of_list_to_set in Hu. eapply (po_rest _ _ _ _ _ Hok1); [done|]. clear. set_solver. }
  destruct (map_next kend s2 free B us' R v' f Hok2 Hsh) as (s3 & B3 & E4 & Hs3 & Hex3 & Hfail & Hdone);
    [clear -Hv'n; set_solver|clear -Hv'n; set_solver|lia|by rewrite lor_present|].
  rewrite lor_present in Hdone by done. fold n c in E4, Hfail, Hdone, Hex3. rewrite (mbind_Ok _ _ _ _ _ E4).
  destruct (decide (c ≤ length free)%nat) as [Hc|Hc].
  - rewrite bool_decide_eq_true_2, decide_True by (simpl; lia). destruct (Hdone Hc) as [Hu3 Hd3]. exists s3, B3, v'.
    split_and!; [done|done| | |done|done].
    + intros u Hu. rewrite Hs3 by (by apply elem_of_union_r). by apply Hs2.
    + rewrite Hs3 by (clear; set_solver). by rewrite Hm2, lookup_insert_eq.
  - rewrite bool_decide_eq_false_2, decide_False by (simpl; lia). rewrite (Hfail ltac:(lia)).
    destruct (rep_free kend s2 v' free _ (po_rep _ _ _ _ _ Hok2)) as (s4 & E5 & Hr5 & Hm5); [clear; set_solver|].
    rewrite (mbind_Ok _ _ _ _ _ E5). exists s4, (v' :: free). split_and!; [done| |].
    + split; [|done]. eapply pt_ok_step; [exact Hok2| | |apply Hok].
      * assert (v' ∉ (list_to_set (tables B) : gset Z)) as Hvt.
        { intros Hin%elem_of_list_to_set. eapply (po_rest _ _ _ _ _ Hok2); [done|]. clear; set_solver. }
        assert (list_to_set (tables B) ∪ (list_to_set us'.*1 ∪ R) =
          (list_to_set (tables B) ∪ ({[v']} ∪ (list_to_set us'.*1 ∪ R))) ∖ {[v']}) as ->; [|done].
        clear -Hvt Hv'n. set_solver.
      * intros u Hu. apply Hm5. intros ->. apply elem_of_list_to_set in Hu. eapply (po_rest _ _ _ _ _ Hok2); [done|]. clear; set_solver.
    + intros u Hu. rewrite Hm5; [by apply Hs2|]. by intros ->.
Qed.

Lemma copied_same s0 s s' xs us' : same_on (list_to_set us'.*1) s s' → copied s0 s xs us' → copied s0 s' xs us'.
Proof.
  intros Hs Hc. assert (∀ v, v ∈ us'.*1 → km_mem s' !! v = km_mem s !! v) as H by (intros v Hv; apply Hs; by apply elem_of_list_to_set).
  clear Hs. induction Hc as [|p p' xs us' [Hf Hm] _ IH]; constructor.
  - split; [done|]. rewrite H; [done|]. by left.
  - apply IH. intros v Hv. apply H. by right.
Qed.

Section parent.
Context (s0 : kmem) (free0 : list Z) (A : aspace) (us : list (Z * Z)) (rest : gset Z).
Context (Hkend : KERNBASE < kend) (HA : uspace s0 free0 A us rest).
Abbreviation R := (own A us ∪ rest).

Lemma own_same s : same_on R s0 s → same_on (own A us) s0 s.
Proof. intros Hs v Hv. apply Hs. by apply elem_of_union_l. Qed.

Lemma copy_loop_run k : ∀ s free B us',
  uspace s free B us' R → same_on R s0 s → copied s0 s (take (length us') us) us' → (length us' + k = length us)%nat →
  let n := Z.of_nat (length us') in
  if decide (grow_need B n (Z.of_nat k) ≤ length free)%nat then
    ∃ s' B' us'', uvm_copy_loop kend (as_dir A) (as_dir B) (addrs n (Z.of_nat k)) s = Ok true s' ∧
      uspace s' (drop (grow_need B n (Z.of_nat k)) free) B' us'' R ∧ same_on R s0 s' ∧ copied s0 s' us us'' ∧
      as_dir B' = as_dir B ∧ ∀ m, 2 ^ 19 ≤ m → as_map B' !! m = as_map B !! m
  else ∃ s', uvm_copy_loop kend (as_dir A) (as_dir B) (addrs n (Z.of_nat k)) s = Ok false s' ∧ parent_freed A s'.
Proof.
  induction k as [|k IH]; intros s free B us' HB Hs Hcp Hlen n.
  { assert (grow_need B n (Z.of_nat 0) = 0%nat) as -> by (unfold grow_need; rewrite seqZ_nil, missing_nil by lia; by rewrite size_empty).
    rewrite decide_True by lia. exists s, B, us'. unfold addrs. rewrite seqZ_nil by lia. rewrite take_ge in Hcp by lia. done. }
  rewrite addrs_cons by lia. cbn [uvm_copy_loop].
  pose proof (uspace_other _ _ _ _ _ _ _ _ _ HA HB (own_same _ Hs)) as HA'.
  destruct (lookup_lt_is_Some_2 us (length us') ltac:(lia)) as [[v f] Hv].
  destruct (us_page kend _ _ _ _ _ HA' _ _ _ Hv) as (Hva & He & Hp & Hn & Hmap & [t Ht] & pg & Hpg & Hpok). fold n in Hmap, Ht, Hn.
  assert (0 ≤ n * PGSIZE < 2 ^ 32) as Hr32 by plia.
  assert (n * PGSIZE / PGSIZE = n) as Hdiv by (by rewrite Z.div_mul).
  pose proof (load_entry kend _ _ _ _ _ HA' (n * PGSIZE) t Hr32) as Hload. rewrite Hdiv in Hload. specialize (Hload Ht).
  rewrite (walk_load kend _ _ _ _ _ HA' _ Hr32), Hdiv, Ht, (mbind_Ok _ _ _ _ _ Hload), Hmap. change (pte_of (Some (V2P v, f))) with (PTE_new (V2P v) f).
  rewrite PTE_new_present, Hp, PTE_address_new, PTE_flags_new by done. change (negb true) with false. cbv iota.
  assert (v ∈ R) as HvR.
  { apply elem_of_union_l. unfold own. apply elem_of_union_r, elem_of_list_to_set, list_elem_of_fmap. exists (v, f).
    split; [done|by eapply list_elem_of_lookup_2]. }
  pose proof (copy_page_run s free B us' R v f pg HB HvR Hpg Hpok ltac:(apply He) Hp Hn) as Hcopy. cbv zeta in Hcopy. fold n in Hcopy.
  set (c := if decide (n / 1024 ∈ dom (as_tabs B)) then 0%nat else 1%nat) in *.
  destruct (decide (S c ≤ length free)%nat) as [Hc|Hc].
  - destruct Hcopy as (s1 & B1 & v' & E1 & HB1 & Hs1 & Hv' & Hex & Hd1). rewrite (mbind_Ok _ _ _ _ _ E1).
    assert (same_on R s0 s1) as HsR by (intros u Hu; rewrite Hs1 by (by apply elem_of_union_r); by apply Hs).
    specialize (IH s1 (drop (S c) free) B1 (us' ++ [(v', f)]) HB1 HsR). rewrite length_app in IH. simpl length in IH.
    replace (Z.of_nat (length us' + 1)) with (n + 1) in IH by lia. replace (Z.of_nat (S k) - 1) with (Z.of_nat k) by lia.
    rewrite (grow_need_cons B B1 n (Z.of_nat (S k)) ltac:(lia) Hd1). fold c. replace (Z.of_nat (S k) - 1) with (Z.of_nat k) by lia.
    rewrite <- (ex_dir _ _ _ Hex). rewrite length_drop in IH.
    assert (copied s0 s1 (take (length us' + 1) us) (us' ++ [(v', f)])) as Hcp1.
    { rewrite Nat.add_1_r, (take_S_r _ _ _ Hv). apply Forall2_app.
      - eapply copied_same; [|exact Hcp]. intros u Hu. apply Hs1. by apply elem_of_union_l.
      - constructor; [|constructor]. simpl. split; [done|]. rewrite Hv', <- Hpg. by apply Hs. }
    specialize (IH Hcp1 ltac:(lia)). cbv zeta in IH.
    destruct (decide (grow_need B1 (n + 1) (Z.of_nat k) ≤ length free - S c)%nat) as [Hle|Hle].
    + rewrite decide_True by lia. destruct IH as (s2 & B2 & us2 & E2 & HB2 & Hs2 & Hcp2 & Hd2 & Hm2).
      exists s2, B2, us2. rewrite drop_drop in HB2. split_and!; [done|done|done|done|done|].
      intros m Hm. rewrite Hm2 by done. apply (ex_map _ _ _ Hex). unfold in_range. lia.
    + rewrite decide_False by lia. done.
  - destruct Hcopy as (s1 & free1 & E1 & HB1 & Hs1). rewrite (mbind_Ok _ _ _ _ _ E1).
    destruct (free_parent s0 free0 s1 free1 A us B us' rest Hkend HA HB1) as (s2 & E2 & Hpf).
    { intros u Hu. rewrite Hs1 by (apply elem_of_union_r; by apply elem_of_union_l). apply Hs. by apply elem_of_union_l. }
    rewrite decide_False.
    + exists s2. by rewrite (mbind_Ok _ _ _ _ _ E2).
    + unfold grow_need. rewrite seqZ_cons, missing_cons by lia. fold c. lia.
Qed.
End parent.
End copy.

(** ** fork's copy *)

(** The pages a copy of [k] pages takes: those of the kernel half, the copies
    and their tables. *)
Definition copy_need (k : nat) : nat := (KVM_PAGES + (k + Z.to_nat ((Z.of_nat k + 1023) / 1024)))%nat.

Lemma kern_grow_need B k :
  dom (as_tabs B) = kern_dirs → Z.of_nat k ≤ 2 ^ 19 → grow_need B 0 (Z.of_nat k) = (k + Z.to_nat ((Z.of_nat k + 1023) / 1024))%nat.
Proof.
  intros Hd Hk. unfold grow_need. rewrite Hd, Nat2Z.id. f_equal.
  assert (missing kern_dirs (seqZ 0 (Z.of_nat k)) = list_to_set (seqZ 0 ((Z.of_nat k + 1023) / 1024))) as ->.
  { unfold missing, kern_dirs. apply set_eq. intros i.
    rewrite elem_of_difference, !elem_of_list_to_set, list_elem_of_fmap, elem_of_app, !elem_of_seqZ. setoid_rewrite elem_of_seqZ. split.
    - intros [(m & -> & Hm) _]. dlia.
    - intros Hi. split; [|dlia]. exists (i * 1024). rewrite Z.div_mul by done. split; [done|dlia]. }
  rewrite size_list_to_set by apply NoDup_seqZ. by rewrite length_seqZ.
Qed.

Section fork.
Context (kend kdata : Z).
Context (Hkend : KERNBASE < kend) (Hdata : KERNLINK < kdata < KERNBASE + PHYSTOP) (Hdata_al : kdata mod PGSIZE = 0).
Abbreviation uspace := (uspace kend).

Lemma kern_ushape B R : (∀ m, as_map B !! m = kern_map kdata m) → ushape B [] R.
Proof.
  intros Hm. split; [constructor|by intros ? ?%elem_of_nil|done| |].
  - intros n Hn. rewrite Hm. unfold kern_map. rewrite !decide_False; [done|change KERNLINK with 2148532224 in *; dlia..].
  - intros n pa f Hn. rewrite Hm. unfold kern_map. repeat destruct (decide _); intros [= <- <-]; done.
Qed.

(** The kernel half for the child. *)
Lemma child_start s free A us rest :
  uspace s free A us rest → (KVM_PAGES ≤ length free)%nat →
  ∃ s' B, kvm_setup kend kdata s = Ok (Some (as_dir B)) s' ∧ uspace s' (drop KVM_PAGES free) B [] (own A us ∪ rest) ∧
    same_on (own A us ∪ rest) s s' ∧ dom (as_tabs B) = kern_dirs ∧ ∀ m, as_map B !! m = kern_map kdata m.
Proof.
  intros [Hok _] Hle. assert (list_to_set (tables A) ∪ (list_to_set us.*1 ∪ rest) = own A us ∪ rest) as HR by (unfold own; clear; set_solver).
  pose proof (kvm_setup_run kend kdata Hdata Hdata_al s free _ (po_rep _ _ _ _ _ Hok)) as H. rewrite HR, decide_True in H by done.
  destruct H as (s' & B & E & Hok' & Hs & Hd & Hm). exists s', B. split_and!; [done| |done|done|done]. split; [|by apply kern_ushape].
  simpl. by rewrite union_empty_l_L.
Qed.

Lemma uvm_copy_cases s free A us rest sz :
  uspace s free A us rest → Z.of_nat (length us) = (sz + PGSIZE - 1) / PGSIZE → (KVM_PAGES ≤ length free)%nat →
  if decide (copy_need (length us) ≤ length free)%nat then
    ∃ s' free' B us', uvm_copy kend kdata (as_dir A) sz s = Ok (Some (as_dir B)) s' ∧ uspace s' free' B us' (own A us ∪ rest) ∧
      same_on (own A us ∪ rest) s s' ∧ copied s s' us us' ∧ ∀ m, 2 ^ 19 ≤ m → as_map B !! m = kern_map kdata m
  else ∃ s', uvm_copy kend kdata (as_dir A) sz s = Ok None s' ∧ parent_freed kend A s'.
Proof.
  intros HA Hsz Hle. destruct (child_start _ _ _ _ _ HA Hle) as (s1 & B1 & E1 & HB1 & Hs1 & Hd1 & Hm1).
  pose proof (us_len _ _ _ (us_shape _ _ _ _ _ _ HA)) as Hl.
  unfold uvm_copy. rewrite (mbind_Ok _ _ _ _ _ E1). change 0 with (0 * PGSIZE) at 1 2. rewrite step_by_addrs, <- Hsz, Z.sub_0_r.
  pose proof (copy_loop_run kend s free A us rest Hkend HA (length us) s1 _ B1 [] HB1 Hs1) as H.
  specialize (H ltac:(constructor) eq_refl). cbv zeta in H. simpl length in H. change (Z.of_nat 0) with 0 in H.
  rewrite (kern_grow_need _ _ Hd1 Hl), length_drop in H.
  destruct (decide (copy_need (length us) ≤ length free)%nat) as [Hn|Hn]; unfold copy_need in Hn.
  - rewrite decide_True in H by lia. destruct H as (s2 & B2 & us2 & E2 & HB2 & Hs2 & Hcp & Hd2 & Hm2).
    rewrite (mbind_Ok _ _ _ _ _ E2). eexists s2, _, B2, us2. rewrite Hd2. split_and!; [done|done|done|done|].
    intros m Hm. by rewrite Hm2, Hm1.
  - rewrite decide_False in H by lia. destruct H as (s2 & E2 & Hpf). rewrite (mbind_Ok _ _ _ _ _ E2). by exists s2.
Qed.
End fork.

(** ** A process *)

(** A machine with [n] pages of memory after the kernel, on which a process of
    two pages is made. *)
Definition demo_end : Z := 0x80200000.
Definition demo_data : Z := 0x80180000.
Definition demo_kmem (n : nat) : kmem := Kmem false 0 0 (list_to_map ((λ v, (v, zero_page)) <$> pages demo_end n)).
Definition demo_start (n : nat) : MM (option Z) :=
  freerange demo_end demo_end (demo_end + Z.of_nat n * PGSIZE) ;;
  r ← kvm_setup demo_end demo_data;
  match r with
  | None => mret None
  | Some d => uvm_alloc d 0 5000 ;; mret (Some d)
  end.

Lemma demo_freerange n : (n < 1000)%nat →
  ∃ s free, freerange demo_end demo_end (demo_end + Z.of_nat n * PGSIZE) (demo_kmem n) = Ok tt s ∧
    rep demo_end s free ∅ ∧ length free = n.
Proof.
  intros Hn. unfold freerange.
  destruct (freerange_loop_rep demo_end n (Z.to_nat ((demo_end + Z.of_nat n * PGSIZE) / PGSIZE + 1)) demo_end (demo_end + Z.of_nat n * PGSIZE)
    (demo_kmem n) []) as (s & E & _ & Hr & _).
  - change demo_end with 2149580800. dlia.
  - split; simpl; [done|done|constructor| | |]; intros v; set_solver.
  - intros v Hv. split_and!; [| |by intros ?%elem_of_nil].
    + apply elem_of_pages in Hv as (i & Hi & ->). change demo_end with 2149580800 in *. apply page_valid_intro; dlia.
    + simpl. exists zero_page. apply elem_of_list_to_map_1'.
      * intros y (u & [= _ ->] & _)%list_elem_of_fmap. done.
      * apply list_elem_of_fmap. by exists v.
  - plia.
  - change demo_end with 2149580800. lia.
  - change demo_end with 2149580800. plia.
  - exists s, (reverse (pages demo_end n)). rewrite app_nil_r in Hr. split_and!; [exact E|done|].
    rewrite length_reverse. unfold pages. by rewrite length_fmap, length_seqZ, Nat2Z.id.
Qed.

Lemma demo_process n : (68 ≤ n < 1000)%nat →
  ∃ s free A us, demo_start n (demo_kmem n) = Ok (Some (as_dir A)) s ∧ uspace demo_end s free A us ∅ ∧
    us.*2 = [7; 7] ∧ length free = (n - 68)%nat ∧ umem s us = zero_page ++ zero_page.
Proof.
  intros Hn. destruct (demo_freerange n ltac:(lia)) as (s1 & free1 & E1 & Hr1 & Hl1).
  assert (KERNLINK < demo_data < KERNBASE + PHYSTOP) as Hd by done.
  pose proof (kvm_setup_run demo_end demo_data Hd eq_refl s1 free1 ∅ Hr1) as H. rewrite decide_True in H by (unfold KVM_PAGES; lia).
  destruct H as (s2 & A & E2 & Hok2 & _ & Hd2 & Hm2).
  assert (uspace demo_end s2 (drop KVM_PAGES free1) A [] ∅) as Hu2.
  { split; [simpl; by rewrite union_empty_l_L|]. by eapply kern_ushape. }
  pose proof (uvm_alloc_run demo_end s2 _ A [] ∅ 0 5000 Hu2 eq_refl ltac:(lia) ltac:(plia)) as H. cbv zeta in H.
  change ((5000 + PGSIZE - 1) / PGSIZE - Z.of_nat (length (@nil (Z * Z)))) with (Z.of_nat 2) in H.
  change (Z.of_nat (length (@nil (Z * Z)))) with 0 in H. rewrite (kern_grow_need A 2 Hd2 ltac:(lia)), length_drop in H.
  change (2 + Z.to_nat ((Z.of_nat 2 + 1023) / 1024))%nat with 3%nat in H. unfold KVM_PAGES in H. rewrite decide_True in H by lia.
  destruct H as (s3 & A3 & vs & E3 & Hu3 & Hlv & _ & Hz & Hex). rewrite drop_drop in Hu3.
  exists s3, (drop 68 free1), A3, ((λ v, (v, 7)) <$> vs). split_and!.
  - unfold demo_start. rewrite (mbind_Ok _ _ _ _ _ E1), (mbind_Ok _ _ _ _ _ E2), (mbind_Ok _ _ _ _ _ E3). by rewrite (ex_dir _ _ _ Hex).
  - done.
  - destruct vs as [|v1 [|v2 [|]]]; simpl in Hlv; [lia|lia|done|lia].
  - rewrite length_drop. lia.
  - destruct vs as [|v1 [|v2 [|]]]; simpl in Hlv; [lia|lia| |lia]. rewrite !Forall_cons in Hz. destruct Hz as (Hz1 & Hz2 & _).
    change (umem s3 _) with (page_of s3 v1 ++ page_of s3 v2 ++ []). unfold page_of. rewrite Hz1, Hz2, app_nil_r. done.
Qed.

(** C21 The memory of a child. If there are pages enough, [uvm_copy] always
    returns a new directory. The parent and the child then have the same
    bytes at the same user addresses, with the same permissions, in pages that
    are apart: the pages of each, tables included, are among the others' pages
    that the other's operations leave alone. The parent's memory is what it
    was, and the upper half of the child is the kernel's. *)
Theorem uvm_copy_isolated kend kdata s free A us rest sz :
  KERNBASE < kend → KERNLINK < kdata < KERNBASE + PHYSTOP → kdata mod PGSIZE = 0 →
  uspace kend s free A us rest → Z.of_nat (length us) = (sz + PGSIZE - 1) / PGSIZE → (copy_need (length us) ≤ length free)%nat →
  ∃ s' free' B us', uvm_copy kend kdata (as_dir A) sz s = Ok (Some (as_dir B)) s' ∧
    uspace kend s' free' B us' (own A us ∪ rest) ∧ uspace kend s' free' A us (own B us' ∪ rest) ∧
    umem s' us' = umem s us ∧ us'.*2 = us.*2 ∧ umem s' us = umem s us ∧
    (∀ v, v ∈ rest → km_mem s' !! v = km_mem s !! v) ∧ (∀ m, 2 ^ 19 ≤ m → as_map B !! m = kern_map kdata m).
Proof.
  intros Hkend Hdata Hal HA Hsz Hn.
  pose proof (uvm_copy_cases kend kdata Hkend Hdata Hal s free A us rest sz HA Hsz ltac:(unfold copy_need in Hn; lia)) as H.
  rewrite decide_True in H by done. destruct H as (s' & free' & B & us' & E & HB & Hs & Hcp & Hm).
  exists s', free', B, us'. destruct (copied_umem _ _ _ _ Hcp) as [Hu Hf].
  assert (same_on (own A us) s s') as HsA by (intros v Hv; apply Hs; by apply elem_of_union_l).
  split_and!; [done|done|by eapply uspace_other|done|done| |intros v Hv; apply Hs; by apply elem_of_union_r|done].
  apply umem_same. intros v Hv. apply HsA. unfold own. by apply elem_of_union_r.
Qed.

(** C37 The copy that fails. If the kernel half of the child can be made but
    the pages run out after that, [uvm_copy] returns no directory, and it has
    freed the page directory and the page tables of the parent, which goes on
    running with them, instead of those of the child. *)
Theorem uvm_copy_frees_parent kend kdata s free A us rest sz :
  KERNBASE < kend → KERNLINK < kdata < KERNBASE + PHYSTOP → kdata mod PGSIZE = 0 →
  uspace kend s free A us rest → Z.of_nat (length us) = (sz + PGSIZE - 1) / PGSIZE →
  (KVM_PAGES ≤ length free < copy_need (length us))%nat →
  ∃ s' free' owned, uvm_copy kend kdata (as_dir A) sz s = Ok None s' ∧ rep kend s' free' owned ∧
    ∀ v, v ∈ tables A → v ∈ free'.
Proof.
  intros Hkend Hdata Hal HA Hsz [Hlo Hhi].
  pose proof (uvm_copy_cases kend kdata Hkend Hdata Hal s free A us rest sz HA Hsz Hlo) as H.
  rewrite decide_False in H by lia. destruct H as (s' & E & free' & owned & Hr & Hfr). by exists s', free', owned.
Qed.

(** Freeing a page table. For the address space of a process, [vm_free]
    always returns. It gives back the directory and the page tables, and only
    them: every page of user memory stays handed out, with no one to free it. *)
Theorem vm_free_leaks kend s free A us rest :
  KERNBASE < kend → uspace kend s free A us rest →
  ∃ s' fr, vm_free kend (as_dir A) s = Ok tt s' ∧ rep kend s' (fr ++ free) (list_to_set us.*1 ∪ rest) ∧ fr ≡ₚ tables A ∧
    umem s' us = umem s us.
Proof.
  intros Hk Hu. destruct (vm_free_run kend s free A _ (us_pt _ _ _ _ _ _ Hu)) as (s' & fr & E & Hr & Hfr & Hs).
  { by eapply user_pages_ok. }
  exists s', fr. split_and!; [done|done|done|]. apply umem_same. intros v Hv. apply Hs. by apply elem_of_union_l.
Qed.

Lemma vm_free_leaks_witness :
  ∃ s d, demo_start 68 (demo_kmem 68) = Ok (Some d) s ∧
  ∃ s' free' owned, vm_free demo_end d s = Ok tt s' ∧ rep demo_end s' free' owned ∧ size owned = 2%nat.
Proof.
  destruct (demo_process 68) as (s & free & A & us & E & Hu & Hl%(f_equal length) & Hf & Hz); [lia|]. rewrite length_fmap in Hl.
  exists s, (as_dir A). split; [exact E|].
  destruct (vm_free_leaks demo_end s free A us ∅) as (s' & fr & E' & Hr & _).
  - reflexivity.
  - exact Hu.
  - exists s', (fr ++ free), (list_to_set us.*1 ∪ ∅). split; [exact E'|]. split; [exact Hr|].
    rewrite union_empty_r_L, size_list_to_set by apply (us_nodup _ _ _ (us_shape _ _ _ _ _ _ Hu)). rewrite length_fmap. exact Hl.
Defined.

(** With 200 pages the child of the process gets its copy; with 134 the memory
    is enough for the kernel half of the child, and not for its pages. *)
Lemma uvm_copy_isolated_witness :
  ∃ s d, demo_start 200 (demo_kmem 200) = Ok (Some d) s ∧
  ∃ s' d' us', uvm_copy demo_end demo_data d 5000 s = Ok (Some d') s' ∧ umem s' us' = zero_page ++ zero_page.
Proof.
  destruct (demo_process 200) as (s & free & A & us & E & Hu & Hl%(f_equal length) & Hf & Hz); [lia|]. rewrite length_fmap in Hl. exists s, (as_dir A). split; [exact E|].
  destruct (uvm_copy_isolated demo_end demo_data s free A us ∅ 5000) as (s' & _ & B & us' & E' & _ & _ & Hc & _).
  - reflexivity.
  - split; reflexivity.
  - reflexivity.
  - exact Hu.
  - rewrite Hl. reflexivity.
  - rewrite Hl, Hf. vm_compute. lia.
  - exists s', (as_dir B), us'. split; [exact E'|]. rewrite Hc. exact Hz.
Defined.

Lemma uvm_copy_frees_parent_witness :
  ∃ s d, demo_start 134 (demo_kmem 134) = Ok (Some d) s ∧
  ∃ s' free' owned, uvm_copy demo_end demo_data d 5000 s = Ok None s' ∧ rep demo_end s' free' owned ∧ d ∈ free'.
Proof.
  destruct (demo_process 134) as (s & free & A & us & E & Hu & Hl%(f_equal length) & Hf & Hz); [lia|]. rewrite length_fmap in Hl. exists s, (as_dir A). split; [exact E|].
  destruct (uvm_copy_frees_parent demo_end demo_data s free A us ∅ 5000) as (s' & free' & owned & E' & Hr & Hfr).
  - reflexivity.
  - split; reflexivity.
  - reflexivity.
  - exact Hu.
  - rewrite Hl. reflexivity.
  - rewrite Hl, Hf. vm_compute. lia.
  - exists s', free', owned. split; [exact E'|]. split; [exact Hr|]. apply Hfr, elem_of_tables. left. reflexivity.
Defined.
