(* ===== verification/Fs.v ===== *)
(** * Fs: the file system (kernel/c/fs.c)

    One definition per function of fs.c, over the block cache of [Bio] and
    the log of [Log]. A [struct inode*] is an index into [icache.inode] and a
    null pointer is [None]. C strings are the lists of their bytes without
    the terminating NUL; a [char name[DIRSIZ]] is the list of its 14 bytes. *)

From S2P Require Import Prelude State Bio Log.

(** ** Blocks *)

(** Zero a block. *)
Definition bzero (dev bno : Z) : KM unit :=
  bp ← bread dev bno;
  set_bdata bp zero_block ;;
  log_write bp ;;
  brelse bp.

(** [1 << (bi % 8)], the byte [bp->data[bi/8]] and its bit. *)
Definition bit_mask (bi : Z) : Z := Z.shiftl 1 (bi mod 8).
Definition bmap_byte (data : list Z) (bi : Z) : Z := data !!! Z.to_nat (bi / 8).
Definition bit_clear (data : list Z) (bi : Z) : bool := Z.land (bmap_byte data bi) (bit_mask bi) =? 0.
Definition set_bit (data : list Z) (bi : Z) : list Z :=
  <[Z.to_nat (bi / 8) := u8 (Z.lor (bmap_byte data bi) (bit_mask bi))]> data.
Definition clear_bit (data : list Z) (bi : Z) : list Z :=
  <[Z.to_nat (bi / 8) := u8 (Z.land (bmap_byte data bi) (Z.lnot (bit_mask bi)))]> data.

(** The inner loop of [balloc]: the first free bit of one bitmap block. *)
Fixpoint balloc_scan (data : list Z) (b size : Z) (bis : list Z) : option Z :=
  match bis with
  | [] => None
  | bi :: bis =>
      if u32 (b + bi) <? size then
        if bit_clear data bi then Some bi else balloc_scan data b size bis
      else None
  end.

(** The outer loop of [balloc]: one bitmap block per turn. *)
Fixpoint balloc_loop (fuel : nat) (dev b : Z) : KM Z :=
  match fuel with
  | O => undef "balloc: out of fuel"
  | S fuel =>
      sb ← gets k_sb;
      if u32 b <? sb_size sb then
        bp ← bread dev (BBLOCK b sb);
        data ← bdata bp;
        match balloc_scan data b (sb_size sb) (seqZ 0 BPB) with
        | Some bi =>
            set_bdata bp (set_bit data bi) ;; (* Mark block in use. *)
            log_write bp ;;
            brelse bp ;;
            bzero dev (b + bi) ;;
            mret (b + bi)
        | None =>
            brelse bp ;;
            balloc_loop fuel dev (b + BPB)
        end
      else panic "balloc: out of blocks"
  end.

(** Allocate a zeroed disk block. *)
Definition balloc (dev : Z) : KM Z :=
  sb ← gets k_sb;
  balloc_loop (Z.to_nat (sb_size sb / BPB + 2)) dev 0.

(** Free a disk block. *)
Definition bfree (dev b : Z) : KM unit :=
  sb ← gets k_sb;
  bp ← bread dev (BBLOCK b sb);
  let bi := b mod BPB in
  data ← bdata bp;
  if bit_clear data bi then panic "freeing free block" else
  set_bdata bp (clear_bit data bi) ;;
  log_write bp ;;
  brelse bp.

(** ** Inodes *)

(** [*ip] and a store to it. *)
Definition inode_at (ip : nat) : KM inode :=
  c ← gets k_icache; of_option (FUndef "struct inode* outside icache") (c !! ip).
Definition inode_put (ip : nat) (i : inode) : KM unit :=
  modify (λ s, set_icache (<[ip := i]> (k_icache s)) s).
Definition inode_upd (ip : nat) (f : inode → inode) : KM unit := i ← inode_at ip; inode_put ip (f i).

(** [(struct dinode* )bp->data + inum%IPB] *)
Definition dinode_off (inum : Z) : nat := Z.to_nat (inum mod IPB * DINODE_SIZE).

Definition dinode_get (data : list Z) (off : nat) : dinode :=
  Dinode (s16 (get_u16 data off)) (s16 (get_u16 data (off + 2))) (s16 (get_u16 data (off + 4)))
    (s16 (get_u16 data (off + 6))) (get_u32 data (off + 8))
    ((λ i, get_u32 data (off + 12 + 4 * Z.to_nat i)) <$> seqZ 0 (NDIRECT + 1)).

Definition put_addrs (off : nat) (addrs : list Z) (data : list Z) : list Z :=
  splice off (addrs ≫= le_enc 4) data.

Definition dinode_put (off : nat) (d : dinode) (data : list Z) : list Z :=
  put_addrs (off + 12) (di_addrs d) (put_u32 (off + 8) (di_size d) (put_u16 (off + 6) (di_nlink d)
    (put_u16 (off + 4) (di_minor d) (put_u16 (off + 2) (di_major d) (put_u16 off (di_type d) data))))).

Definition iinit (dev : Z) : KM unit :=
  modify (λ s, set_icache (set_i_lock None <$> k_icache s) s) ;; (* initsleeplock *)
  sb ← readsb dev;
  modify (set_sb sb).

(** The search of [iget]: the entry for (dev, inum), and the first empty one. *)
Fixpoint iget_scan (l : list inode) (i : nat) (dev inum : Z) (empty : option nat) : option nat * option nat :=
  match l with
  | [] => (None, empty)
  | ip :: l =>
      if (0 <? i_ref ip) && (i_dev ip =? dev) && (i_inum ip =? inum) then (Some i, empty)
      else iget_scan l (S i) dev inum
             (match empty with
              | None => if i_ref ip =? 0 then Some i else None
              | Some _ => empty
              end)
  end.

(** Find the inode with number inum on device dev and return the in-memory
    copy, without locking it or reading it from disk. *)
Definition iget (dev inum : Z) : KM nat :=
  acquire L_icache ;;
  c ← gets k_icache;
  match iget_scan c 0 dev inum None with
  | (Some ip, _) =>
      inode_upd ip (λ i, set_i_ref (i_ref i + 1) i) ;;
      release L_icache ;;
      mret ip
  | (None, None) => panic "iget: no inodes"
  | (None, Some ip) => (* Recycle an inode cache entry. *)
      inode_upd ip (λ i, Inode dev inum 1 (i_lock i) 0 (i_type i) (i_major i) (i_minor i)
                          (i_nlink i) (i_size i) (i_addrs i)) ;;
      release L_icache ;;
      mret ip
  end.

(** The loop of [ialloc] over the inode numbers. *)
Fixpoint ialloc_loop (inums : list Z) (dev type : Z) : KM nat :=
  match inums with
  | [] => panic "ialloc: no inodes"
  | inum :: inums =>
      sb ← gets k_sb;
      bp ← bread dev (IBLOCK inum sb);
      data ← bdata bp;
      if di_type (dinode_get data (dinode_off inum)) =? 0 then (* a free inode *)
        set_bdata bp (dinode_put (dinode_off inum)
          (Dinode type 0 0 0 0 (replicate 13 0)) data) ;;
        log_write bp ;; (* mark it allocated on the disk *)
        brelse bp ;;
        iget dev inum
      else
        brelse bp ;;
        ialloc_loop inums dev type
  end.

(** Allocate an inode on device dev, of the given type; unlocked, referenced. *)
Definition ialloc (dev type : Z) : KM nat :=
  sb ← gets k_sb;
  ialloc_loop (seqZ 1 (sb_ninodes sb - 1)) dev type.

(** Copy a modified in-memory inode to disk. *)
Definition iupdate (ip : nat) : KM unit :=
  i ← inode_at ip;
  sb ← gets k_sb;
  bp ← bread (i_dev i) (IBLOCK (i_inum i) sb);
  data ← bdata bp;
  set_bdata bp (dinode_put (dinode_off (i_inum i))
    (Dinode (i_type i) (i_major i) (i_minor i) (i_nlink i) (i_size i) (i_addrs i)) data) ;;
  log_write bp ;;
  brelse bp.

(** Increment reference count for ip. *)
Definition idup (ip : nat) : KM nat :=
  acquire L_icache ;;
  inode_upd ip (λ i, set_i_ref (i_ref i + 1) i) ;;
  release L_icache ;;
  mret ip.

(** sleeplock.rs; a lock that is taken makes the caller sleep. *)
Definition acquiresleep (ip : nat) : KM unit :=
  i ← inode_at ip;
  match i_lock i with
  | Some _ => fail (FSleep "inode")
  | None => pid ← gets k_pid; inode_put ip (set_i_lock (Some pid) i)
  end.
Definition releasesleep (ip : nat) : KM unit := inode_upd ip (set_i_lock None).

(** Lock the given inode; read it from disk if necessary. *)
Definition ilock (ip : nat) : KM unit :=
  i ← inode_at ip;
  if i_ref i <? 1 then panic "ilock" else
  acquiresleep ip ;;
  i ← inode_at ip;
  when (i_valid i =? 0)
    (sb ← gets k_sb;
     bp ← bread (i_dev i) (IBLOCK (i_inum i) sb);
     data ← bdata bp;
     let d := dinode_get data (dinode_off (i_inum i)) in
     inode_upd ip (λ i, Inode (i_dev i) (i_inum i) (i_ref i) (i_lock i) (i_valid i)
                         (di_type d) (di_major d) (di_minor d) (di_nlink d) (di_size d) (di_addrs d)) ;;
     brelse bp ;;
     inode_upd ip (set_i_valid 1) ;;
     if di_type d =? 0 then panic "ilock: no type" else mret tt).

(** Unlock the given inode. *)
Definition iunlock (ip : nat) : KM unit :=
  i ← inode_at ip;
  pid ← gets k_pid;
  if negb (holdingsleep pid (i_lock i)) || (i_ref i <? 1) then panic "iunlock" else
  releasesleep ip.

(** ** Inode content *)

(** [ip->addrs[n]] and a store to it. *)
Definition addr_get (ip : nat) (n : Z) : KM Z := i ← inode_at ip; mret (i_addrs i !!! Z.to_nat n).
Definition addr_put (ip : nat) (n a : Z) : KM unit :=
  inode_upd ip (λ i, set_i_addrs (<[Z.to_nat n := a]> (i_addrs i)) i).

(** [addr = ip->addrs[n]], allocating a block if it is 0. *)
Definition bmap_slot (ip : nat) (n : Z) : KM Z :=
  addr ← addr_get ip n;
  if addr =? 0 then
    i ← inode_at ip;
    addr ← balloc (i_dev i);
    addr_put ip n addr ;;
    mret addr
  else mret addr.

(** Return the disk block address of the nth block in inode ip, allocating
    one if there is none. *)
Definition bmap (ip : nat) (bn : Z) : KM Z :=
  if bn <? NDIRECT then bmap_slot ip bn else
  let bn := bn - NDIRECT in
  if bn <? NINDIRECT then
    addr ← bmap_slot ip NDIRECT;
    i ← inode_at ip;
    bp ← bread (i_dev i) addr;
    data ← bdata bp;
    let addr := get_u32 data (Z.to_nat (4 * bn)) in
    addr ← (if addr =? 0 then
              addr ← balloc (i_dev i);
              data ← bdata bp;
              set_bdata bp (put_u32 (Z.to_nat (4 * bn)) addr data) ;;
              log_write bp ;;
              mret addr
            else mret addr);
    brelse bp ;;
    mret addr
  else panic "bmap: out of range".

(** Truncate inode (discard contents). *)
Definition itrunc (ip : nat) : KM unit :=
  for_each (seqZ 0 NDIRECT) (λ n,
    addr ← addr_get ip n;
    when (negb (addr =? 0))
      (i ← inode_at ip;
       bfree (i_dev i) addr ;;
       addr_put ip n 0)) ;;
  addr ← addr_get ip NDIRECT;
  when (negb (addr =? 0))
    (i ← inode_at ip;
     bp ← bread (i_dev i) addr;
     for_each (seqZ 0 NINDIRECT) (λ j,
       data ← bdata bp;
       let a := get_u32 data (Z.to_nat (4 * j)) in
       when (negb (a =? 0)) (bfree (i_dev i) a)) ;;
     brelse bp ;;
     bfree (i_dev i) addr ;;
     addr_put ip NDIRECT 0) ;;
  inode_upd ip (set_i_size 0) ;;
  iupdate ip.

(** Drop a reference to an in-memory inode; free the inode on disk if that
    was the last reference and it has no links. *)
Definition iput (ip : nat) : KM unit :=
  acquiresleep ip ;;
  i ← inode_at ip;
  when (negb (i_valid i =? 0) && (i_nlink i =? 0))
    (acquire L_icache ;;
     i ← inode_at ip;
     release L_icache ;;
     when (i_ref i =? 1)
       (itrunc ip ;;
        inode_upd ip (set_i_type 0) ;;
        iupdate ip ;;
        inode_upd ip (set_i_valid 0))) ;;
  releasesleep ip ;;
  acquire L_icache ;;
  inode_upd ip (λ i, set_i_ref (i_ref i - 1) i) ;;
  release L_icache.

(** Common idiom: unlock, then put. *)
Definition iunlockput (ip : nat) : KM unit := iunlock ip ;; iput ip.

(** [struct stat] (stat.h) and [stati]. *)
Record stat := Stat { st_type : Z; st_dev : Z; st_ino : Z; st_nlink : Z; st_size : Z }.

Definition stati (ip : nat) : KM stat :=
  i ← inode_at ip;
  mret (Stat (i_type i) (s32 (i_dev i)) (i_inum i) (i_nlink i) (i_size i)).

Section content.
(** The device switch [devsw]: the read and write functions of a device. A
    read gives the return value and the bytes it stored at [dst]. *)
Context (devread : Z → option (nat → Z → KM (Z * list Z)))
        (devwrite : Z → option (nat → list Z → Z → KM Z)).

(** [m = min(n - tot, BSIZE - off%BSIZE)] *)
Definition chunk (off tot n : Z) : Z := Z.min (u32 (n - tot)) (BSIZE - off mod BSIZE).

Fixpoint readi_loop (fuel : nat) (ip : nat) (off tot n : Z) (acc : list Z) : KM (list Z) :=
  match fuel with
  | O => undef "readi: out of fuel"
  | S fuel =>
      if tot <? n then
        addr ← bmap ip (off / BSIZE);
        i ← inode_at ip;
        bp ← bread (i_dev i) addr;
        let m := chunk off tot n in
        data ← bdata bp;
        let bytes := slice (Z.to_nat (off mod BSIZE)) (Z.to_nat m) data in
        brelse bp ;;
        readi_loop fuel ip (u32 (off + m)) (u32 (tot + m)) n (acc ++ bytes)
      else mret acc
  end.

(** Read data from inode: the return value and the bytes stored at [dst]. *)
Definition readi (ip : nat) (off n : Z) : KM (Z * list Z) :=
  i ← inode_at ip;
  if i_type i =? T_DEV then
    if (i_major i <? 0) || (NDEV <=? i_major i) then mret (-1, []) else
    match devread (i_major i) with
    | None => mret (-1, [])
    | Some f => f ip (s32 n)
    end
  else
  if (i_size i <? off) || (u32 (off + n) <? off) then mret (-1, []) else
  let n := if i_size i <? u32 (off + n) then u32 (i_size i - off) else n in
  bytes ← readi_loop (Z.to_nat (n / BSIZE + 3)) ip off 0 n [];
  mret (s32 n, bytes).

Fixpoint writei_loop (fuel : nat) (ip : nat) (src : list Z) (off tot n : Z) : KM Z :=
  match fuel with
  | O => undef "writei: out of fuel"
  | S fuel =>
      if tot <? n then
        addr ← bmap ip (off / BSIZE);
        i ← inode_at ip;
        bp ← bread (i_dev i) addr;
        let m := chunk off tot n in
        data ← bdata bp;
        set_bdata bp (splice (Z.to_nat (off mod BSIZE)) (slice (Z.to_nat tot) (Z.to_nat m) src) data) ;;
        log_write bp ;;
        brelse bp ;;
        writei_loop fuel ip src (u32 (off + m)) (u32 (tot + m)) n
      else mret off
  end.

(** Write data to inode. *)
Definition writei (ip : nat) (src : list Z) (off n : Z) : KM Z :=
  i ← inode_at ip;
  if i_type i =? T_DEV then
    if (i_major i <? 0) || (NDEV <=? i_major i) then mret (-1) else
    match devwrite (i_major i) with
    | None => mret (-1)
    | Some f => f ip src (s32 n)
    end
  else
  if (i_size i <? off) || (u32 (off + n) <? off) then mret (-1) else
  if MAXFILE * BSIZE <? u32 (off + n) then mret (-1) else
  off ← writei_loop (Z.to_nat (n / BSIZE + 3)) ip src off 0 n;
  i ← inode_at ip;
  when ((0 <? n) && (i_size i <? off))
    (inode_upd ip (set_i_size off) ;;
     iupdate ip) ;;
  mret (s32 n).

(** ** Directories *)

(** Byte [i] of a C string. *)
Definition sbyte (s : list Z) (i : nat) : Z := default 0 (s !! i).

(** string.rs *)
Fixpoint strncmp_from (s t : list Z) (i n : nat) : Z :=
  match n with
  | O => 0
  | S n =>
      let a := sbyte s i in
      let b := sbyte t i in
      if (a =? 0) || negb (a =? b) then a - b else strncmp_from s t (S i) n
  end.
Definition strncmp (s t : list Z) (n : nat) : Z := strncmp_from s t 0 n.

Fixpoint strlen (s : list Z) : nat :=
  match s with
  | [] => 0
  | c :: s => if c =? 0 then 0 else S (strlen s)
  end.

(** The [n] bytes stored at [dst]. *)
Definition strncpy (src : list Z) (n : nat) : list Z :=
  (λ i, if (i <? strlen src)%nat then sbyte src i else 0) <$> seq 0 n.

Definition namecmp (s t : list Z) : Z := strncmp s t (Z.to_nat DIRSIZ).

(** [struct dirent] in memory. *)
Definition dirent_get (bytes : list Z) : dirent := Dirent (get_u16 bytes 0) (slice 2 14 bytes).
Definition dirent_put (de : dirent) : list Z := le_enc 2 (de_inum de) ++ de_name de.

Fixpoint dirlookup_loop (fuel : nat) (dp : nat) (name : list Z) (off : Z) : KM (option (nat * Z)) :=
  match fuel with
  | O => undef "dirlookup: out of fuel"
  | S fuel =>
      i ← inode_at dp;
      if off <? i_size i then
        r ← readi dp off DIRENT_SIZE;
        if negb (r.1 =? DIRENT_SIZE) then panic "dirlookup read" else
        let de := dirent_get r.2 in
        if de_inum de =? 0 then dirlookup_loop fuel dp name (u32 (off + DIRENT_SIZE))
        else if namecmp name (de_name de) =? 0 then
          ip ← iget (i_dev i) (de_inum de); (* entry matches path element *)
          mret (Some (ip, off))
        else dirlookup_loop fuel dp name (u32 (off + DIRENT_SIZE))
      else mret None
  end.

(** Look for a directory entry in a directory: the inode and [*poff]. *)
Definition dirlookup (dp : nat) (name : list Z) : KM (option (nat * Z)) :=
  i ← inode_at dp;
  if negb (i_type i =? T_DIR) then panic "dirlookup not DIR" else
  dirlookup_loop (Z.to_nat (i_size i / DIRENT_SIZE + 2)) dp name 0.

(** The loop of [dirlink] that looks for an empty dirent. *)
Fixpoint dirlink_loop (fuel : nat) (dp : nat) (off : Z) : KM Z :=
  match fuel with
  | O => undef "dirlink: out of fuel"
  | S fuel =>
      i ← inode_at dp;
      if u32 off <? i_size i then
        r ← readi dp (u32 off) DIRENT_SIZE;
        if negb (r.1 =? DIRENT_SIZE) then panic "dirlink read" else
        if de_inum (dirent_get r.2) =? 0 then mret off
        else dirlink_loop fuel dp (off + DIRENT_SIZE)
      else mret off
  end.

(** Write a new directory entry (name, inum) into the directory dp. *)
Definition dirlink (dp : nat) (name : list Z) (inum : Z) : KM Z :=
  r ← dirlookup dp name; (* Check that name is not present. *)
  match r with
  | Some (ip, _) => iput ip ;; mret (-1)
  | None =>
      i ← inode_at dp;
      off ← dirlink_loop (Z.to_nat (i_size i / DIRENT_SIZE + 2)) dp 0;
      r ← writei dp (dirent_put (Dirent inum (strncpy name 14))) (u32 off) DIRENT_SIZE;
      if negb (r =? DIRENT_SIZE) then panic "dirlink" else
      mret 0
  end.

(** ** Paths *)

Definition SLASH : Z := 47.

Fixpoint skip_slashes (path : list Z) : list Z :=
  match path with
  | c :: path' => if c =? SLASH then skip_slashes path' else path
  | [] => []
  end.

(** The characters up to the next slash, and the path from there on. *)
Fixpoint take_elem (path : list Z) : list Z * list Z :=
  match path with
  | c :: path' =>
      if c =? SLASH then ([], path) else let '(e, r) := take_elem path' in (c :: e, r)
  | [] => ([], [])
  end.

(** Copy the next path element from path into name; the path that follows,
    or nothing if there is no element. *)
Definition skipelem (path name : list Z) : option (list Z * list Z) :=
  let path := skip_slashes path in
  match path with
  | [] => None
  | _ =>
      let '(s, path) := take_elem path in
      let len := Z.of_nat (length s) in
      let name :=
        if DIRSIZ <=? len then splice 0 (take (Z.to_nat DIRSIZ) s) name
        else <[Z.to_nat len := 0]> (splice 0 s name) in
      Some (skip_slashes path, name)
  end.

Fixpoint namex_loop (fuel : nat) (ip : nat) (path : list Z) (nameiparent : bool) (name : list Z)
    : KM (option nat * list Z) :=
  match fuel with
  | O => undef "namex: out of fuel"
  | S fuel =>
      match skipelem path name with
      | None => if nameiparent then iput ip ;; mret (None, name) else mret (Some ip, name)
      | Some (path, name) =>
          ilock ip ;;
          i ← inode_at ip;
          if negb (i_type i =? T_DIR) then iunlockput ip ;; mret (None, name) else
          if nameiparent && bool_decide (path = []) then
            (* Stop one level early. *)
            iunlock ip ;; mret (Some ip, name)
          else
            next ← dirlookup ip name;
            match next with
            | None => iunlockput ip ;; mret (None, name)
            | Some (next, _) => iunlockput ip ;; namex_loop fuel next path nameiparent name
            end
      end
  end.

(** Look up and return the inode for a path name, or for its parent with the
    final path element in name. [cwd] is [myproc()->cwd]. *)
Definition namex (cwd : nat) (path : list Z) (nameiparent : bool) (name : list Z)
    : KM (option nat * list Z) :=
  ip ← (if sbyte path 0 =? SLASH then iget ROOTDEV ROOTINO else idup cwd);
  namex_loop (length path + 1) ip path nameiparent name.

(** [name] is an uninitialized local array of the caller. *)
Definition namei (cwd : nat) (path name : list Z) : KM (option nat) :=
  r ← namex cwd path false name;
  mret r.1.

Definition nameiparent (cwd : nat) (path name : list Z) : KM (option nat * list Z) :=
  namex cwd path true name.
End content.
