(* ===== verification/Demo.v ===== *)
(** * Demo: a small file system

    The image mkfs.c makes when it is given no files, as a concrete state on
    which the theorems of the other files are tried: log in blocks 2 to 31,
    inodes in 32 to 57, the bitmap in 58 and the root directory in 59. One
    operation is inside a transaction and has written nothing yet. *)

From S2P Require Import Prelude State Bio Log LogOps Fs.

Definition demo_superblock : list Z :=
  put_u32 0 1000 (put_u32 4 941 (put_u32 8 200 (put_u32 12 30
    (put_u32 16 2 (put_u32 20 32 (put_u32 24 58 zero_block)))))).

(** Inode 1 is the root directory. *)
Definition demo_inodes : list Z :=
  dinode_put 64 (Dinode T_DIR 0 0 1 512 (59 :: replicate 12 0)) zero_block.

(** The entries "." and "..". *)
Definition demo_root : list Z :=
  splice 0 (dirent_put (Dirent 1 (46 :: replicate 13 0)))
    (splice 16 (dirent_put (Dirent 1 (46 :: 46 :: replicate 12 0))) zero_block).

(** Blocks 0 to 59 are in use. *)
Definition demo_bitmap : list Z := splice 0 (replicate 7 255 ++ [15]) zero_block.

Definition demo_image : gmap bkey (list Z) :=
  {[ (ROOTDEV, 1) := demo_superblock; (ROOTDEV, 32) := demo_inodes;
     (ROOTDEV, 58) := demo_bitmap; (ROOTDEV, 59) := demo_root ]}.

Definition empty_inode : inode := Inode 0 0 0 None 0 0 0 0 0 0 (replicate 13 0).

(** Slot 0 of the inode cache holds the root directory, locked by process 1. *)
Definition demo_icache : list inode :=
  Inode ROOTDEV 1 1 (Some 1) 1 T_DIR 0 0 1 512 (59 :: replicate 12 0) :: replicate 49 empty_inode.

Definition demo_fs : kst :=
  KS demo_image [] true ∅ (Log 2 30 1 0 ROOTDEV (Logheader 0 (replicate 30 0)))
    (sb_decode demo_superblock) demo_icache [] 1.

(** A decision on a block's bytes. *)
Definition block_okb (d : list Z) : bool :=
  (length d =? 512)%nat && forallb (λ b, (0 <=? b) && (b <? 256)) d.

Lemma block_okb_ok d : block_okb d = true → block_ok d.
Proof.
  unfold block_okb. rewrite andb_true_iff, Nat.eqb_eq, forallb_forall. intros [Hl Hb]. split; [done|].
  apply Forall_forall. intros x Hx. apply list_elem_of_In, Hb in Hx. unfold byte_ok. lia.
Qed.

Lemma demo_image_ok : disk_ok demo_image.
Proof.
  unfold disk_ok, demo_image.
  repeat (apply map_Forall_insert_2; [by apply block_okb_ok; vm_compute|]).
  apply map_Forall_empty.
Qed.

Lemma demo_fs_ok : fs_ok ∅ demo_fs.
Proof.
  split.
  - by split.
  - done.
  - apply demo_image_ok.
  - by apply NoDup_nil.
  - intros b. by rewrite elem_of_nil.
  - intros b. by rewrite elem_of_nil.
  - set_solver.
  - intros k b. simpl. by rewrite lookup_empty.
Qed.

Lemma demo_in_tx : in_tx demo_fs 10.
Proof. by split. Qed.

(** A decision for a range of integers. *)
Lemma forall_range (P : Z → bool) lo n :
  forallb P (seqZ lo n) = true → ∀ b, lo ≤ b < lo + n → P b = true.
Proof.
  rewrite forallb_forall. intros H b Hb. apply H, list_elem_of_In, elem_of_seqZ. lia.
Qed.
