(* ===== verification/Balloc.v ===== *)
(** * Balloc: the block allocator of fs.c

    What [bzero], [balloc] and [bfree] do to the free bitmap and the blocks,
    stated over the transactional block store of [LogOps]. *)

From S2P Require Import Prelude State Bio Log LogOps Fs Demo.

(** ** Bits of the bitmap *)

Lemma land_pow2_eqb x n : 0 ≤ n → (Z.land x (Z.shiftl 1 n) =? 0) = negb (Z.testbit x n).
Proof.
  intros Hn. rewrite Z.shiftl_1_l.
  destruct (Z.testbit x n) eqn:E; simpl.
  - apply Z.eqb_neq. intros Hz. assert (Z.testbit (Z.land x (2 ^ n)) n = false) as Hf by (rewrite Hz; apply Z.bits_0).
    rewrite Z.land_spec, E, Z.pow2_bits_true in Hf by done. done.
  - apply Z.eqb_eq. apply Z.bits_inj'. intros m Hm. rewrite Z.land_spec, Z.bits_0.
    destruct (decide (m = n)) as [->|Hne]; [by rewrite E|].
    by rewrite Z.pow2_bits_false, andb_false_r by lia.
Qed.

Lemma bit_clear_testbit data bi :
  0 ≤ bi → bit_clear data bi = negb (Z.testbit (bmap_byte data bi) (bi mod 8)).
Proof. intros Hb. apply land_pow2_eqb, Z.mod_pos_bound. lia. Qed.

Lemma byte_bits x : byte_ok x ↔ 0 ≤ x ∧ ∀ n, 8 ≤ n → Z.testbit x n = false.
Proof.
  unfold byte_ok. split.
  - intros Hx. split; [lia|]. intros n Hn. apply Z.bits_above_log2; [lia|].
    destruct (decide (x = 0)) as [->|]; [simpl; lia|]. apply Z.log2_lt_pow2; [lia|].
    apply Z.lt_le_trans with (2 ^ 8); [lia|]. by apply Z.pow_le_mono_r.
  - intros [H0 Hb]. split; [done|]. destruct (Z.lt_ge_cases x 256) as [|Hge]; [done|].
    assert (Z.testbit x (Z.log2 x) = true) as Ht by (apply Z.bit_log2; lia).
    rewrite Hb in Ht; [done|]. change 8 with (Z.log2 256). by apply Z.log2_le_mono.
Qed.

Lemma byte_lor x y : byte_ok x → byte_ok y → byte_ok (Z.lor x y).
Proof.
  rewrite !byte_bits. intros [? Hx] [? Hy]. split; [by apply Z.lor_nonneg|].
  intros n Hn. by rewrite Z.lor_spec, Hx, Hy.
Qed.

Lemma byte_land_l x y : byte_ok x → byte_ok (Z.land x y).
Proof.
  rewrite !byte_bits. intros [? Hx]. split; [apply Z.land_nonneg; by left|].
  intros n Hn. by rewrite Z.land_spec, Hx.
Qed.

Lemma byte_mask bi : byte_ok (bit_mask bi).
Proof.
  unfold bit_mask, byte_ok. rewrite Z.shiftl_1_l.
  pose proof (Z.mod_pos_bound bi 8 ltac:(lia)) as Hm. split; [by apply Z.pow_nonneg|].
  change 256 with (2 ^ 8). apply Z.pow_lt_mono_r; lia.
Qed.

Lemma u8_byte x : byte_ok x → u8 x = x.
Proof. intros Hx. by apply Z.mod_small. Qed.

Lemma bmap_byte_ok data bi : Forall byte_ok data → byte_ok (bmap_byte data bi).
Proof.
  intros Hd. unfold bmap_byte. rewrite list_lookup_total_alt.
  destruct (data !! Z.to_nat (bi / 8)) eqn:E; simpl; [|by split].
  by apply (Forall_lookup_1 _ _ _ _ Hd E).
Qed.

(** A bitmap block is 4096 bits. *)
Lemma bit_index data bi : block_ok data → 0 ≤ bi < BPB → (Z.to_nat (bi / 8) < length data)%nat.
Proof. intros [-> _] Hb. apply Nat2Z.inj_lt. rewrite Z2Nat.id; [|apply Z.div_pos; lia]. apply Z.div_lt_upper_bound; klia. Qed.

Section bits.
Context (data : list Z) (Hd : block_ok data).

Lemma set_bit_ok bi : block_ok (set_bit data bi).
Proof.
  destruct Hd as [Hl Hb]. split; [unfold set_bit, clear_bit; by rewrite length_insert|].
  apply Forall_insert; [done|]. rewrite u8_byte.
  - apply byte_lor; [by apply bmap_byte_ok|apply byte_mask].
  - apply byte_lor; [by apply bmap_byte_ok|apply byte_mask].
Qed.

Lemma clear_bit_ok bi : block_ok (clear_bit data bi).
Proof.
  destruct Hd as [Hl Hb]. split; [unfold set_bit, clear_bit; by rewrite length_insert|].
  apply Forall_insert; [done|]. rewrite u8_byte; by apply byte_land_l, bmap_byte_ok.
Qed.

Lemma div_mod_8 bi bi' : 0 ≤ bi → 0 ≤ bi' → bi' ≠ bi → bi' / 8 = bi / 8 → bi' mod 8 ≠ bi mod 8.
Proof. intros. pose proof (Z.div_mod bi 8). pose proof (Z.div_mod bi' 8). lia. Qed.

Lemma bit_clear_set bi bi' :
  0 ≤ bi < BPB → 0 ≤ bi' → bit_clear (set_bit data bi) bi' = if decide (bi' = bi) then false else bit_clear data bi'.
Proof.
  intros Hb Hb'. rewrite !bit_clear_testbit by lia. pose proof (bit_index data bi Hd Hb) as Hi.
  unfold set_bit. rewrite u8_byte by (apply byte_lor; [apply bmap_byte_ok, Hd|apply byte_mask]).
  assert (0 ≤ bi mod 8) by (apply Z.mod_pos_bound; lia). assert (0 ≤ bi' mod 8) by (apply Z.mod_pos_bound; lia).
  unfold bmap_byte at 1. destruct (decide (bi' / 8 = bi / 8)) as [E|E].
  - rewrite E, list_lookup_total_insert_eq by done. rewrite Z.lor_spec. unfold bit_mask. rewrite Z.shiftl_1_l.
    case_decide as Hc.
    + subst. by rewrite Z.pow2_bits_true, orb_true_r.
    + rewrite Z.pow2_bits_false by (pose proof (div_mod_8 bi bi'); lia). rewrite orb_false_r.
      unfold bmap_byte. by rewrite E.
  - rewrite list_lookup_total_insert_ne.
    + rewrite decide_False by congruence. done.
    + intros Hn. apply E. apply Z2Nat.inj in Hn; [done|apply Z.div_pos; lia|apply Z.div_pos; lia].
Qed.

Lemma bit_clear_clear bi bi' :
  0 ≤ bi < BPB → 0 ≤ bi' → bit_clear (clear_bit data bi) bi' = if decide (bi' = bi) then true else bit_clear data bi'.
Proof.
  intros Hb Hb'. rewrite !bit_clear_testbit by lia. pose proof (bit_index data bi Hd Hb) as Hi.
  unfold clear_bit. rewrite u8_byte by (apply byte_land_l, bmap_byte_ok, Hd).
  assert (0 ≤ bi mod 8) by (apply Z.mod_pos_bound; lia). assert (0 ≤ bi' mod 8) by (apply Z.mod_pos_bound; lia).
  unfold bmap_byte at 1. destruct (decide (bi' / 8 = bi / 8)) as [E|E].
  - rewrite E, list_lookup_total_insert_eq by done. rewrite Z.land_spec, Z.lnot_spec by done.
    unfold bit_mask. rewrite Z.shiftl_1_l. case_decide as Hc.
    + subst. by rewrite Z.pow2_bits_true, andb_false_r.
    + rewrite Z.pow2_bits_false by (pose proof (div_mod_8 bi bi'); lia). rewrite andb_true_r.
      unfold bmap_byte. by rewrite E.
  - rewrite list_lookup_total_insert_ne.
    + rewrite decide_False by congruence. done.
    + intros Hn. apply E. apply Z2Nat.inj in Hn; [done|apply Z.div_pos; lia|apply Z.div_pos; lia].
Qed.
End bits.

(** ** Layout of the disk

    The regions mkfs.c lays out, in order: boot block, super block, log,
    inode blocks, bitmap, data. A disk of FSSIZE blocks has one bitmap block. *)
Record sb_geom (s : kst) : Prop := {
  sg_size : sb_size (k_sb s) ≤ FSSIZE;
  sg_log : log_start (k_log s) + log_size (k_log s) ≤ sb_inodestart (k_sb s);
  sg_inodes : sb_inodestart (k_sb s) + sb_ninodes (k_sb s) / IPB + 1 ≤ sb_bmapstart (k_sb s);
  sg_ninodes : 1 ≤ sb_ninodes (k_sb s);
  sg_bmap : sb_bmapstart (k_sb s) < sb_size (k_sb s)
}.

(** A block past the bitmap. *)
Definition data_block (s : kst) (b : Z) : Prop := sb_bmapstart (k_sb s) < b < sb_size (k_sb s).

(** The bitmap's answer, in the blocks as [v] shows them. *)
Definition free_in (s : kst) (v : bkey → list Z) (b : Z) : bool :=
  bit_clear (v (ROOTDEV, sb_bmapstart (k_sb s))) b.

(** Blocks that are not data blocks are marked as in use. *)
Definition meta_used (s : kst) (v : bkey → list Z) : Prop :=
  ∀ b, 0 ≤ b ≤ sb_bmapstart (k_sb s) → free_in s v b = false.

Section geom.
Context (s : kst) (Hlog : log_geom (k_log s) (k_havedisk1 s)) (Hsb : sb_geom s).

Lemma inode_blocks_pos : 0 ≤ sb_ninodes (k_sb s) / IPB.
Proof. apply Z.div_pos; [|done]. destruct Hsb. lia. Qed.

Lemma bmap_start_range : 0 ≤ sb_bmapstart (k_sb s) < FSSIZE ∧ 3 ≤ sb_inodestart (k_sb s).
Proof.
  pose proof inode_blocks_pos. pose proof (lg_n _ _ Hlog). destruct Hlog, Hsb. lia.
Qed.

Lemma home_above b : sb_inodestart (k_sb s) ≤ b < FSSIZE → home s b.
Proof. intros Hb. destruct Hlog, Hsb. split; lia. Qed.

Lemma bmap_home : home s (sb_bmapstart (k_sb s)).
Proof.
  apply home_above. pose proof bmap_start_range. pose proof inode_blocks_pos. destruct Hsb. lia.
Qed.

Lemma data_home b : data_block s b → home s b.
Proof.
  intros [Hb1 Hb2]. apply home_above. pose proof inode_blocks_pos. destruct Hsb. lia.
Qed.

Lemma BBLOCK_start b : 0 ≤ b < FSSIZE → BBLOCK b (k_sb s) = sb_bmapstart (k_sb s).
Proof.
  intros Hb. unfold BBLOCK. rewrite Z.div_small by klia. pose proof bmap_start_range.
  apply u32_small. klia.
Qed.
End geom.

(** ** The search *)

Lemma balloc_scan_from data size j n :
  0 ≤ j → j + Z.of_nat n ≤ BPB → size ≤ FSSIZE →
  match balloc_scan data 0 size (seqZ j (Z.of_nat n)) with
  | Some bi => j ≤ bi < size ∧ bit_clear data bi = true ∧ ∀ b, j ≤ b < bi → bit_clear data b = false
  | None => ∀ b, j ≤ b < j + Z.of_nat n → b < size → bit_clear data b = false
  end.
Proof.
  revert j. induction n as [|n IH]; intros j Hj Hn Hsz; [simpl; lia|].
  rewrite seqZ_cons by lia. replace (Z.pred (Z.of_nat (S n))) with (Z.of_nat n) by lia. simpl.
  rewrite Z.add_0_l, u32_small by klia.
  destruct (Z.ltb_spec j size) as [Hlt|Hge]; [|intros b Hb Hb'; lia].
  destruct (bit_clear data j) eqn:E.
  - split_and!; [lia|lia|done|lia].
  - specialize (IH (Z.succ j) ltac:(lia) ltac:(lia) Hsz).
    destruct (balloc_scan data 0 size _) as [bi|].
    + destruct IH as (H1 & H2 & H3). split_and!; [lia|lia|done|].
      intros b Hb. destruct (decide (b = j)) as [->|]; [done|]. apply H3. lia.
    + intros b Hb Hb'. destruct (decide (b = j)) as [->|]; [done|]. apply IH; lia.
Qed.

(** The lowest free block, if any. *)
Lemma balloc_scan_spec data size :
  size ≤ FSSIZE →
  match balloc_scan data 0 size (seqZ 0 BPB) with
  | Some bi => 0 ≤ bi < size ∧ bit_clear data bi = true ∧ ∀ b, 0 ≤ b < bi → bit_clear data b = false
  | None => ∀ b, 0 ≤ b < size → bit_clear data b = false
  end.
Proof.
  intros Hsz. pose proof (balloc_scan_from data size 0 (Z.to_nat BPB)) as H.
  rewrite Z2Nat.id in H by klia. specialize (H ltac:(lia) ltac:(lia) Hsz).
  destruct (balloc_scan data 0 size (seqZ 0 BPB)); [done|]. intros b Hb. apply H; klia.
Qed.

(** ** The operations *)

Lemma unhold (k : bkey) (H : gset bkey) : k ∉ H → ({[k]} ∪ H) ∖ {[k]} = H.
Proof. intros Hk. apply set_eq. intros x. destruct (decide (x = k)) as [->|]; set_solver. Qed.

Section ops.
Context (s0 : kst) (c : Z) (Hlog : log_geom (k_log s0) (k_havedisk1 s0)) (Hsb : sb_geom s0).
Implicit Types (ws : list (Z * list Z)) (H : gset bkey) (s : kst).

Abbreviation bm := (sb_bmapstart (k_sb s0)).

Lemma wp_bzero ws H b Q s :
  op s0 c ws H s → (size H ≤ 1)%nat → home s0 b → (ROOTDEV, b) ∉ H → Z.of_nat (size (wset ws)) < c →
  (∀ s', op s0 c (ws ++ [(b, zero_block)]) H s' → k_icache s' = k_icache s → Q tt s') →
  wp (bzero ROOTDEV b) Q s.
Proof.
  clear Hlog Hsb. intros Ho Hsz Hh Hk Hc HQ. unfold bzero. apply wp_bind, (wp_bread_op s0 c ws H); [done|done|apply Hh|done|].
  intros s1 Ho1 Hi1. eapply wp_store_op; [done|set_solver|done|apply zero_block_ok|done|].
  intros s2 Ho2 Hi2. eapply wp_brelse_op; [done|set_solver|].
  intros s3 Ho3 Hi3. rewrite unhold in Ho3 by done. apply HQ; [done|congruence].
Qed.

Lemma wp_balloc ws H Q s :
  let v := wview ws (view s0) in
  op s0 c ws H s → (size H ≤ 1)%nat → (ROOTDEV, bm) ∉ H →
  (∀ b, free_in s0 v b = true → (ROOTDEV, b) ∉ H) → meta_used s0 v →
  (∃ b, 0 ≤ b < sb_size (k_sb s0) ∧ free_in s0 v b = true) →
  Z.of_nat (size ({[bm]} ∪ wset ws)) < c →
  (∀ b s', data_block s0 b → free_in s0 v b = true → (∀ b', 0 ≤ b' < b → free_in s0 v b' = false) →
     op s0 c (ws ++ [(bm, set_bit (v (ROOTDEV, bm)) b); (b, zero_block)]) H s' →
     k_icache s' = k_icache s → Q b s') →
  wp (balloc ROOTDEV) Q s.
Proof.
  intros v Ho Hsz Hbm HH Hmeta [bf [Hbf Hfree]] Hc HQ.
  pose proof (bmap_start_range s0 Hlog Hsb) as [Hr _]. pose proof (sg_size _ Hsb) as Hsize.
  assert (size (wset ws) ≤ size ({[bm]} ∪ wset ws))%nat as Hle by (apply subseteq_size; set_solver).
  unfold balloc. apply wp_bind, wp_gets. rewrite (op_sb _ _ _ _ _ Ho).
  destruct (Z.to_nat (sb_size (k_sb s0) / BPB + 2)) as [|fuel] eqn:Hf.
  { pose proof (Z.div_pos (sb_size (k_sb s0)) BPB ltac:(lia) ltac:(done)). lia. }
  cbn [balloc_loop]. apply wp_bind, wp_gets. rewrite (op_sb _ _ _ _ _ Ho).
  change (u32 0) with 0. rewrite (proj2 (Z.ltb_lt 0 (sb_size (k_sb s0)))) by lia.
  rewrite BBLOCK_start by (done || klia).
  apply wp_bind, (wp_bread_op s0 c ws H); [done|done|done|done|]. intros s1 Ho1 Hi1.
  apply wp_bind. eapply wp_bdata_op; [done|set_solver|]. fold v.
  assert (block_ok (v (ROOTDEV, bm))) as Hblk.
  { unfold v. rewrite <- (op_view _ _ _ _ _ _ Ho). eapply view_ok, Ho. }
  pose proof (balloc_scan_spec (v (ROOTDEV, bm)) (sb_size (k_sb s0)) Hsize) as Hscan.
  destruct (balloc_scan _ _ _ _) as [bi|].
  2: { unfold free_in in Hfree. by rewrite Hscan in Hfree. }
  destruct Hscan as (Hbi & Hclear & Hmin).
  assert (data_block s0 bi) as Hdata.
  { split; [|lia]. destruct (decide (bm < bi)) as [|Hge]; [done|].
    unfold meta_used, free_in in Hmeta. rewrite Hmeta in Hclear by lia. done. }
  eapply wp_store_op; [done|set_solver|by apply bmap_home|by apply set_bit_ok|lia|].
  intros s2 Ho2 Hi2. apply wp_bind. eapply wp_brelse_op; [done|set_solver|].
  intros s3 Ho3 Hi3. rewrite unhold in Ho3 by done. rewrite Z.add_0_l.
  apply wp_bind. eapply wp_bzero; [done|done|by apply data_home|by apply HH| |].
  { by rewrite wset_snoc. }
  intros s4 Ho4 Hi4. rewrite <- app_assoc in Ho4. apply wp_ret. eapply HQ; eauto. congruence.
Qed.

Lemma wp_bfree ws H b Q s :
  let v := wview ws (view s0) in
  op s0 c ws H s → (size H ≤ 1)%nat → (ROOTDEV, bm) ∉ H → 0 ≤ b < sb_size (k_sb s0) →
  free_in s0 v b = false → Z.of_nat (size (wset ws)) < c →
  (∀ s', op s0 c (ws ++ [(bm, clear_bit (v (ROOTDEV, bm)) b)]) H s' → k_icache s' = k_icache s → Q tt s') →
  wp (bfree ROOTDEV b) Q s.
Proof.
  intros v Ho Hsz Hbm Hb Hused Hc HQ.
  pose proof (bmap_start_range s0 Hlog Hsb) as [Hr _]. pose proof (sg_size _ Hsb) as Hsize.
  unfold bfree. apply wp_bind, wp_gets. rewrite (op_sb _ _ _ _ _ Ho), BBLOCK_start by (done || lia).
  apply wp_bind, (wp_bread_op s0 c ws H); [done|done|done|done|]. intros s1 Ho1 Hi1.
  rewrite Z.mod_small by klia. apply wp_bind. eapply wp_bdata_op; [done|set_solver|]. fold v.
  unfold free_in in Hused. rewrite Hused.
  assert (block_ok (v (ROOTDEV, bm))) as Hblk.
  { unfold v. rewrite <- (op_view _ _ _ _ _ _ Ho). eapply view_ok, Ho. }
  eapply wp_store_op; [done|set_solver|by apply bmap_home|by apply clear_bit_ok|done|].
  intros s2 Ho2 Hi2. eapply wp_brelse_op; [done|set_solver|].
  intros s3 Ho3 Hi3. rewrite unhold in Ho3 by done. apply HQ; [done|congruence].
Qed.
End ops.

(** ** Guarantees *)

(** [f] and [f'] are the free maps before and after. *)
Lemma free_in_set_bit s v b b' :
  log_geom (k_log s) (k_havedisk1 s) → sb_geom s → block_ok (v (ROOTDEV, sb_bmapstart (k_sb s))) →
  data_block s b → 0 ≤ b' →
  free_in s (wview [(sb_bmapstart (k_sb s), set_bit (v (ROOTDEV, sb_bmapstart (k_sb s))) b); (b, zero_block)] v) b' =
    if decide (b' = b) then false else free_in s v b'.
Proof.
  intros Hl Hg Hok Hb Hb'. pose proof (bmap_start_range s Hl Hg). pose proof (sg_size _ Hg). destruct Hb.
  unfold free_in, wview. simpl. rewrite decide_False by (intros [=]; lia). rewrite decide_True by done.
  apply bit_clear_set; [done|klia|lia].
Qed.

(** C24 [balloc] inside a transaction with room for two blocks, on a disk with
    a free block: it returns the lowest free block, a data block; the block
    reads as zeros, the bitmap marks it in use and answers as before for
    every other block, and no other block changes. *)
Theorem balloc_allocates s :
  fs_ok ∅ s → in_tx s 2 → sb_geom s → meta_used s (view s) →
  (∃ b, 0 ≤ b < sb_size (k_sb s) ∧ free_in s (view s) b = true) →
  ∃ b s', balloc ROOTDEV s = Ok b s' ∧ fs_ok ∅ s' ∧ data_block s b ∧
    free_in s (view s) b = true ∧ (∀ b', 0 ≤ b' < b → free_in s (view s) b' = false) ∧
    view s' (ROOTDEV, b) = zero_block ∧
    (∀ b', 0 ≤ b' → free_in s (view s') b' = if decide (b' = b) then false else free_in s (view s) b') ∧
    (∀ b', b' ≠ b → b' ≠ sb_bmapstart (k_sb s) → view s' (ROOTDEV, b') = view s (ROOTDEV, b')).
Proof.
  intros Hs Ht Hg Hm Hf. pose proof (ok_geom _ _ Hs) as Hl.
  pose proof (op_start ∅ s 2 Hs Ht ltac:(lia)) as Ho.
  enough (wp (balloc ROOTDEV) (λ b s', op s 2 ([] ++ [(sb_bmapstart (k_sb s), set_bit (view s (ROOTDEV, sb_bmapstart (k_sb s))) b); (b, zero_block)]) ∅ s' ∧
    data_block s b ∧ free_in s (view s) b = true ∧ (∀ b', 0 ≤ b' < b → free_in s (view s) b' = false)) s) as Hw.
  { apply wp_run in Hw as (b & s' & Hr & Ho' & Hd & Hfb & Hmin). exists b, s'.
    assert (∀ k, view s' k = wview [(sb_bmapstart (k_sb s), set_bit (view s (ROOTDEV, sb_bmapstart (k_sb s))) b); (b, zero_block)] (view s) k) as Hv.
    { intros k. apply (op_view _ _ _ _ _ k Ho'). }
    split_and!; try done.
    - apply Ho'.
    - rewrite Hv. unfold wview. simpl. by rewrite decide_True.
    - intros b' Hb'. rewrite <- free_in_set_bit by (done || by eapply view_ok). unfold free_in. by rewrite Hv.
    - intros b' H1 H2. rewrite Hv. unfold wview. simpl. by rewrite !decide_False by congruence. }
  apply (wp_balloc s 2 Hl Hg [] ∅); [done|rewrite size_empty; lia|set_solver|set_solver|done|done| |by eauto].
  by rewrite wset_nil, union_empty_r_L, size_singleton.
Qed.

(** [bread] of a block, as a run. *)
Lemma bread_run s b :
  fs_ok ∅ s → in_tx s 0 → 0 ≤ b < FSSIZE →
  ∃ s', bread ROOTDEV b s = Ok (ROOTDEV, b) s' ∧ op s 0 [] {[(ROOTDEV, b)]} s'.
Proof.
  intros Hs Ht Hb.
  assert (wp (bread ROOTDEV b) (λ k s', k = (ROOTDEV, b) ∧ op s 0 [] {[(ROOTDEV, b)]} s') s) as Hw.
  { apply (wp_bread_op s 0 [] ∅); [by apply op_start|rewrite size_empty; lia|done|set_solver|].
    intros s' Ho _. by rewrite union_empty_r_L in Ho. }
  apply wp_run in Hw as (k & s' & Hr & -> & Ho). eauto.
Qed.

(** The error paths of the allocator: with every bit set, [balloc] panics
    instead of returning a block, and [bfree] of a block that is already free
    panics instead of freeing it twice. *)
Theorem balloc_bfree_panic s :
  fs_ok ∅ s → in_tx s 0 → sb_geom s →
  ((∀ b, 0 ≤ b < sb_size (k_sb s) → free_in s (view s) b = false) →
     balloc ROOTDEV s = Fault (FPanic "balloc: out of blocks")) ∧
  (∀ b, 0 ≤ b < sb_size (k_sb s) → free_in s (view s) b = true →
     bfree ROOTDEV b s = Fault (FPanic "freeing free block")).
Proof.
  intros Hs Ht Hg. pose proof (ok_geom _ _ Hs) as Hl.
  pose proof (bmap_start_range s Hl Hg) as [Hr _]. pose proof (sg_size _ Hg) as Hsz. pose proof (sg_bmap _ Hg) as Hb0.
  destruct (bread_run s (sb_bmapstart (k_sb s)) Hs Ht Hr) as (s1 & Hrun & Ho1).
  set (k := (ROOTDEV, sb_bmapstart (k_sb s))) in *.
  assert (bdata k s1 = Ok (view s k) s1) as Hdata.
  { assert (wp (bdata k) (λ d s', d = view s k ∧ s' = s1) s1) as Hw.
    { eapply wp_bdata_op; [done|set_solver|done]. }
    by apply wp_run in Hw as (d & s' & -> & -> & ->). }
  split.
  - intros Hall. unfold balloc. rewrite mbind_Ok with (a := k_sb s) (s1 := s) by done.
    assert (∃ fuel, Z.to_nat (sb_size (k_sb s) / BPB + 2) = S (S fuel)) as [fuel ->].
    { exists (Z.to_nat (sb_size (k_sb s) / BPB)).
      pose proof (Z.div_pos (sb_size (k_sb s)) BPB ltac:(lia) ltac:(done)). lia. }
    cbn [balloc_loop]. rewrite mbind_Ok with (a := k_sb s) (s1 := s) by done.
    change (u32 0) with 0. rewrite (proj2 (Z.ltb_lt 0 (sb_size (k_sb s)))) by lia.
    rewrite BBLOCK_start by (done || klia).
    rewrite (mbind_Ok _ _ _ _ _ Hrun). rewrite (mbind_Ok _ _ _ _ _ Hdata).
    pose proof (balloc_scan_spec (view s k) (sb_size (k_sb s)) Hsz) as Hscan.
    destruct (balloc_scan _ _ _ _) as [bi|].
    { destruct Hscan as (Hbi & Hc & _). unfold free_in in Hall. fold k in Hall. rewrite Hall in Hc; [done|lia]. }
    assert (wp (brelse k) (λ _ s', k_sb s' = k_sb s) s1) as Hw.
    { eapply wp_brelse_op; [done|set_solver|]. intros s' Ho' _. by eapply op_sb. }
    apply wp_run in Hw as ([] & s2 & Hrel & Hsb2). rewrite (mbind_Ok _ _ _ _ _ Hrel).
    rewrite (mbind_Ok _ _ _ (k_sb s) s2) by (unfold gets; by rewrite Hsb2).
    rewrite (proj2 (Z.ltb_ge (u32 (0 + BPB)) (sb_size (k_sb s)))) by (rewrite u32_small; klia). done.
  - intros b Hb Hfree. unfold bfree. rewrite mbind_Ok with (a := k_sb s) (s1 := s) by done.
    rewrite BBLOCK_start by (done || lia). rewrite (mbind_Ok _ _ _ _ _ Hrun). rewrite Z.mod_small by klia.
    rewrite (mbind_Ok _ _ _ _ _ Hdata). unfold free_in in Hfree. fold k in Hfree. by rewrite Hfree.
Qed.

Lemma demo_geom : sb_geom demo_fs.
Proof. by split. Qed.

Lemma demo_meta_used : meta_used demo_fs (view demo_fs).
Proof.
  intros b Hb. apply negb_true_iff.
  apply (forall_range (λ b, negb (free_in demo_fs (view demo_fs) b)) 0 59); [by vm_compute|].
  change (sb_bmapstart (k_sb demo_fs)) with 58 in Hb. lia.
Qed.

Lemma demo_free : free_in demo_fs (view demo_fs) 60 = true.
Proof. by vm_compute. Qed.

Lemma balloc_allocates_witness :
  ∃ b s', balloc ROOTDEV demo_fs = Ok b s' ∧ fs_ok ∅ s' ∧ free_in demo_fs (view demo_fs) b = true.
Proof.
  destruct (balloc_allocates demo_fs) as (b & s' & Hr & Hok & _ & Hf & _).
  - apply demo_fs_ok.
  - eapply in_tx_mono; [apply demo_in_tx|lia].
  - apply demo_geom.
  - apply demo_meta_used.
  - exists 60. split; [done|apply demo_free].
  - exact (ex_intro _ b (ex_intro _ s' (conj Hr (conj Hok Hf)))).
Defined.

Lemma balloc_bfree_panic_witness :
  bfree ROOTDEV 60 demo_fs = Fault (FPanic "freeing free block").
Proof.
  destruct (balloc_bfree_panic demo_fs) as [_ H].
  - apply demo_fs_ok.
  - eapply in_tx_mono; [apply demo_in_tx|lia].
  - apply demo_geom.
  - apply H; [done|apply demo_free].
Defined.
