(* ===== verification/Content.v ===== *)
(** * Content: the bytes of a file

    What the blocks of an inode mean: the byte at an offset, through the
    direct and the indirect addresses. [bmap] and [readi] of fs.c are shown
    to compute it. *)

From S2P Require Import Prelude State Bio Log LogOps Fs Demo Balloc.

(** ** The abstraction *)

Definition iaddr (i : inode) (n : Z) : Z := i_addrs i !!! Z.to_nat n.

(** The address of block [bn] of the file, 0 if it has none. *)
Definition blk_of (v : bkey → list Z) (i : inode) (bn : Z) : Z :=
  if bn <? NDIRECT then iaddr i bn
  else if iaddr i NDIRECT =? 0 then 0
  else get_u32 (v (ROOTDEV, iaddr i NDIRECT)) (Z.to_nat (4 * (bn - NDIRECT))).

Definition fbyte (v : bkey → list Z) (i : inode) (o : Z) : Z :=
  v (ROOTDEV, blk_of v i (o / BSIZE)) !!! Z.to_nat (o mod BSIZE).

(** The bytes from [off] on. *)
Definition fbytes (v : bkey → list Z) (i : inode) (off n : Z) : list Z := fbyte v i <$> seqZ off n.

Definition content (v : bkey → list Z) (i : inode) : list Z := fbytes v i 0 (i_size i).

(** The blocks of a file are data blocks in use, no block serves twice, and
    the file has no holes. *)
Record file_ok (s : kst) (v : bkey → list Z) (i : inode) : Prop := {
  f_dev : i_dev i = ROOTDEV;
  f_addrs : length (i_addrs i) = 13%nat;
  f_size : 0 ≤ i_size i ≤ MAXFILE * BSIZE;
  f_ind : iaddr i NDIRECT ≠ 0 → data_block s (iaddr i NDIRECT) ∧ free_in s v (iaddr i NDIRECT) = false;
  f_blk : ∀ bn, 0 ≤ bn < MAXFILE → blk_of v i bn ≠ 0 →
    data_block s (blk_of v i bn) ∧ free_in s v (blk_of v i bn) = false ∧ blk_of v i bn ≠ iaddr i NDIRECT;
  f_inj : ∀ bn bn', 0 ≤ bn < MAXFILE → 0 ≤ bn' < MAXFILE → blk_of v i bn ≠ 0 →
    blk_of v i bn = blk_of v i bn' → bn = bn';
  f_full : ∀ bn, 0 ≤ bn → bn * BSIZE < i_size i → blk_of v i bn ≠ 0
}.

(** ** Rules for the inode cache *)

Lemma wp_inode_at ip i Q s : k_icache s !! ip = Some i → Q i s → wp (inode_at ip) Q s.
Proof. intros Hi HQ. apply wp_bind, wp_gets. by rewrite Hi. Qed.

Lemma wp_addr_get ip i n Q s : k_icache s !! ip = Some i → Q (iaddr i n) s → wp (addr_get ip n) Q s.
Proof. intros Hi HQ. apply wp_bind. eapply wp_inode_at; [done|]. by apply wp_ret. Qed.

Lemma fs_eq_icache s s' : fs_eq s s' → k_icache s' = k_icache s.
Proof. by intros [[c ->] _]. Qed.

Lemma fs_eq_trans s1 s2 s3 : fs_eq s1 s2 → fs_eq s2 s3 → fs_eq s1 s3.
Proof.
  intros [[c1 ->] V1] [[c2 ->] V2]. split; [by exists c2|]. intros k. by rewrite V2, V1.
Qed.

Lemma fs_eq_nlog s s' : fs_eq s s' → nlog s' = nlog s.
Proof. by intros [[c ->] _]. Qed.

(** ** [bmap] of a block that is there *)

Lemma bmap_slot_some ip i n Q s :
  k_icache s !! ip = Some i → iaddr i n ≠ 0 → Q (iaddr i n) s → wp (bmap_slot ip n) Q s.
Proof.
  intros Hi Hn HQ. unfold bmap_slot. apply wp_bind. eapply wp_addr_get; [done|].
  rewrite (proj2 (Z.eqb_neq _ _) Hn). by apply wp_ret.
Qed.

Lemma wp_bmap_some H ip i bn Q s :
  fs_ok H s → nlog s + Z.of_nat (size H) < NBUF → k_icache s !! ip = Some i → i_dev i = ROOTDEV →
  0 ≤ bn < MAXFILE → blk_of (view s) i bn ≠ 0 →
  (iaddr i NDIRECT ≠ 0 → 0 ≤ iaddr i NDIRECT < FSSIZE ∧ (ROOTDEV, iaddr i NDIRECT) ∉ H) →
  (∀ s', fs_eq s s' → fs_ok H s' → Q (blk_of (view s) i bn) s') →
  wp (bmap ip bn) Q s.
Proof.
  intros Hs Hn Hi Hdev Hbn Hblk Hind HQ. unfold bmap, blk_of in *.
  destruct (Z.ltb_spec bn NDIRECT) as [Hlt|Hge].
  { eapply bmap_slot_some; [done|done|]. apply HQ; [|done]. split; [|done]. exists (k_bcache s). by destruct s. }
  destruct (Z.eqb_spec (iaddr i NDIRECT) 0) as [Hz|Hz]; [done|]. destruct (Hind Hz) as [Hr HH].
  rewrite (proj2 (Z.ltb_lt (bn - NDIRECT) NINDIRECT)) by klia.
  apply wp_bind. eapply bmap_slot_some; [done|done|]. apply wp_bind. eapply wp_inode_at; [done|].
  rewrite Hdev. apply wp_bind, (wp_bread H); [done|done|done|done|done|]. intros s1 He1 Hok1.
  apply wp_bind. eapply wp_bdata_held; [done|set_solver|]. destruct He1 as [Hc1 Hv1]. rewrite Hv1.
  rewrite (proj2 (Z.eqb_neq _ _) Hblk). apply wp_bind, wp_ret, wp_bind.
  eapply wp_brelse_held; [done|set_solver|]. intros s2 He2 Hok2. apply wp_ret. rewrite unhold in Hok2 by done.
  apply HQ; [|done]. by eapply fs_eq_trans.
Qed.

(** ** [readi] *)

Lemma length_fbytes v i off n : length (fbytes v i off n) = Z.to_nat n.
Proof. unfold fbytes. by rewrite length_fmap, length_seqZ. Qed.

Lemma fbytes_app v i off n m : 0 ≤ n → 0 ≤ m → fbytes v i off (n + m) = fbytes v i off n ++ fbytes v i (off + n) m.
Proof. intros Hn Hm. unfold fbytes. by rewrite seqZ_app, fmap_app. Qed.

Lemma fbytes_ext v v' i i' off n :
  (∀ o, off ≤ o < off + n → fbyte v i o = fbyte v' i' o) → fbytes v i off n = fbytes v' i' off n.
Proof. intros H. apply list_fmap_ext. intros j o [-> Hj]%lookup_seqZ. apply H. lia. Qed.

(** Bytes that lie in one block. *)
Lemma slice_fbytes v i off m :
  0 ≤ off → 0 ≤ m → off mod BSIZE + m ≤ BSIZE → block_ok (v (ROOTDEV, blk_of v i (off / BSIZE))) →
  slice (Z.to_nat (off mod BSIZE)) (Z.to_nat m) (v (ROOTDEV, blk_of v i (off / BSIZE))) = fbytes v i off m.
Proof.
  intros Hoff Hm Hle [Hlen _]. pose proof (Z.mod_pos_bound off BSIZE ltac:(done)) as Hmod.
  pose proof (Z.div_mod off BSIZE ltac:(done)) as Hdm.
  apply list_eq. intros j. rewrite lookup_slice. unfold fbytes. rewrite list_lookup_fmap.
  case_decide as Hj.
  - rewrite lookup_seqZ_lt by lia. simpl. unfold fbyte.
    assert ((off + Z.of_nat j) / BSIZE = off / BSIZE) as ->.
    { symmetry. apply (Z.div_unique _ _ _ (off mod BSIZE + Z.of_nat j)); [left; lia|lia]. }
    assert ((off + Z.of_nat j) mod BSIZE = off mod BSIZE + Z.of_nat j) as ->.
    { symmetry. apply (Z.mod_unique _ _ (off / BSIZE)); [left; lia|lia]. }
    replace (Z.to_nat (off mod BSIZE + Z.of_nat j)) with (Z.to_nat (off mod BSIZE) + j)%nat by lia.
    apply list_lookup_lookup_total_lt. rewrite Hlen. klia.
  - by rewrite lookup_seqZ_ge by lia.
Qed.

Lemma blk_of_ext v v' i bn : (∀ k, v k = v' k) → blk_of v i bn = blk_of v' i bn.
Proof. intros Hv. unfold blk_of. by rewrite Hv. Qed.

Lemma fbyte_ext v v' i o : (∀ k, v k = v' k) → fbyte v i o = fbyte v' i o.
Proof. intros Hv. unfold fbyte. by rewrite (blk_of_ext v v'), Hv. Qed.

Section range.
Context (s0 : kst) (Hlog : log_geom (k_log s0) (k_havedisk1 s0)) (Hsb : sb_geom s0).

Lemma data_range b : data_block s0 b → 0 ≤ b < FSSIZE.
Proof. intros [? ?]. pose proof (bmap_start_range s0 Hlog Hsb). pose proof (sg_size _ Hsb). lia. Qed.

(** One turn of a transfer loop. *)
Lemma chunk_spec off tot n :
  0 ≤ off → 0 ≤ tot < n → n < 2 ^ 32 →
  let m := chunk off tot n in
  0 < m ≤ n - tot ∧ off mod BSIZE + m ≤ BSIZE ∧
  (m = n - tot ∨ (off + m) mod BSIZE = 0 ∧ m = BSIZE - off mod BSIZE).
Proof.
  intros Hoff Htot Hn m. pose proof (Z.mod_pos_bound off BSIZE ltac:(done)) as Hmod.
  assert (m = Z.min (n - tot) (BSIZE - off mod BSIZE)) as Hm by (unfold m, chunk; by rewrite u32_small by lia).
  split_and!; [lia|lia|lia|].
  destruct (Z.min_spec (n - tot) (BSIZE - off mod BSIZE)) as [[? E]|[? E]]; [left; lia|]. right.
  split; [|lia]. rewrite Hm, E, <- Z.add_mod_idemp_l by done.
  replace (off mod BSIZE + (BSIZE - off mod BSIZE)) with BSIZE by lia. done.
Qed.

(** The turns a transfer of [rem] bytes at [off] takes. *)
Definition turns (off rem : Z) : Z := (off mod BSIZE + rem + (BSIZE - 1)) / BSIZE.

Lemma turns_step off tot n :
  0 ≤ off → 0 ≤ tot < n → n < 2 ^ 32 → tot + chunk off tot n < n →
  turns (off + chunk off tot n) (n - (tot + chunk off tot n)) = turns off (n - tot) - 1.
Proof.
  intros Hoff Htot Hn Hlt. pose proof (chunk_spec off tot n Hoff Htot Hn) as (? & ? & [?|[Hm Hc]]); [lia|].
  unfold turns. rewrite Hm, Hc.
  replace (off mod BSIZE + (n - tot) + (BSIZE - 1))
    with (0 + (n - (tot + (BSIZE - off mod BSIZE))) + (BSIZE - 1) + 1 * BSIZE) by lia.
  rewrite Z.div_add by done. lia.
Qed.

Lemma turns_pos off n : 0 < n → 1 ≤ turns off n.
Proof.
  intros Hn. unfold turns. pose proof (Z.mod_pos_bound off BSIZE ltac:(done)).
  apply Z.div_le_lower_bound; klia.
Qed.

Lemma turns_fuel off n : 0 ≤ n → turns off n < n / BSIZE + 3.
Proof.
  intros Hn. unfold turns. pose proof (Z.mod_pos_bound off BSIZE ltac:(done)).
  apply Z.div_lt_upper_bound; [done|]. pose proof (Z.div_mod n BSIZE ltac:(done)).
  pose proof (Z.mod_pos_bound n BSIZE ltac:(done)). klia.
Qed.

(** The loop appends the bytes of the file. *)
Lemma wp_readi_loop v ip i fuel : ∀ off tot n acc s Q,
  fs_ok ∅ s → nlog s < NBUF → k_icache s !! ip = Some i → (∀ k, view s k = v k) → file_ok s0 v i →
  0 ≤ off → 0 ≤ tot ≤ n → n < 2 ^ 32 → off + (n - tot) ≤ i_size i →
  0 < Z.of_nat fuel → (tot < n → turns off (n - tot) < Z.of_nat fuel) →
  (∀ s', fs_eq s s' → fs_ok ∅ s' → Q (acc ++ fbytes v i off (n - tot)) s') →
  wp (readi_loop fuel ip off tot n acc) Q s.
Proof.
  induction fuel as [|fuel IH]; intros off tot n acc s Q Hs Hn Hi Hv Hf Hoff Htot Hn32 Hend Hf0 Hfuel HQ; [lia|].
  pose proof (f_size _ _ _ Hf) as Hsz. cbn [readi_loop]. destruct (Z.ltb_spec tot n) as [Hlt|Hge].
  2: { apply wp_ret. replace (n - tot) with 0 in HQ by lia. unfold fbytes in HQ. simpl in HQ.
       rewrite app_nil_r in HQ. apply HQ; [|done]. split; [|done]. exists (k_bcache s). by destruct s. }
  pose proof (chunk_spec off tot n Hoff ltac:(lia) Hn32) as (Hm & Hblk & _). set (m := chunk off tot n) in *.
  assert (0 ≤ off / BSIZE < MAXFILE) as Hbn.
  { split; [by apply Z.div_pos|]. apply Z.div_lt_upper_bound; [done|]. lia. }
  assert (blk_of v i (off / BSIZE) ≠ 0) as Hnz.
  { apply (f_full _ _ _ Hf); [lia|]. pose proof (Z.mul_div_le off BSIZE ltac:(done)). lia. }
  destruct (f_blk _ _ _ Hf _ Hbn Hnz) as (Hdata & _ & _).
  apply wp_bind. apply (wp_bmap_some ∅ _ i); try done.
  { rewrite size_empty. lia. } { apply Hf. } { by rewrite (blk_of_ext _ v). }
  { intros Hz. split; [|set_solver]. by apply data_range, (f_ind _ _ _ Hf). }
  rewrite (blk_of_ext _ v) by done. intros s1 He1 Hok1.
  apply wp_bind. eapply wp_inode_at; [by rewrite (fs_eq_icache _ _ He1)|]. rewrite (f_dev _ _ _ Hf).
  apply wp_bind. apply (wp_bread ∅); [done|done|by apply data_range|set_solver| |].
  { rewrite size_empty, (fs_eq_nlog _ _ He1). lia. }
  intros s2 He2 Hok2. pose proof (fs_eq_trans _ _ _ He1 He2) as He12.
  apply wp_bind. eapply wp_bdata_held; [done|set_solver|]. destruct (He12) as [_ Hv2]. rewrite Hv2, Hv.
  rewrite slice_fbytes by (done || lia || (rewrite <- Hv; by eapply view_ok)).
  apply wp_bind. eapply wp_brelse_held; [done|set_solver|]. intros s3 He3 Hok3.
  pose proof (fs_eq_trans _ _ _ He12 He3) as He. rewrite unhold in Hok3 by set_solver.
  assert (MAXFILE * BSIZE < 2 ^ 32) by done. rewrite !u32_small by lia.
  apply IH; try done.
  - by rewrite (fs_eq_nlog _ _ He).
  - by rewrite (fs_eq_icache _ _ He).
  - intros k. rewrite <- Hv. apply He.
  - lia.
  - lia.
  - lia.
  - pose proof (turns_pos off (n - tot) ltac:(lia)). lia.
  - intros Hlt'. pose proof (turns_step off tot n Hoff ltac:(lia) Hn32 Hlt') as Hstep. fold m in Hstep. lia.
  - intros s' He' Hok'. rewrite <- app_assoc, <- fbytes_app by lia.
    replace (m + (n - (tot + m))) with (n - tot) by lia. apply HQ; [by eapply fs_eq_trans|done].
Qed.
End range.

Lemma fbytes_content v i off n :
  0 ≤ off → 0 ≤ n → off + n ≤ i_size i →
  fbytes v i off n = slice (Z.to_nat off) (Z.to_nat n) (content v i).
Proof.
  intros Hoff Hn Hle. apply list_eq. intros j. rewrite lookup_slice. unfold content, fbytes.
  rewrite !list_lookup_fmap. case_decide as Hj.
  - rewrite !lookup_seqZ_lt by lia. simpl. do 2 f_equal. lia.
  - by rewrite lookup_seqZ_ge by lia.
Qed.

Lemma fs_eq_refl s : fs_eq s s.
Proof. split; [exists (k_bcache s); by destruct s|done]. Qed.

(** A read that starts inside the file. *)
Lemma wp_readi devread s ip i off n Q :
  fs_ok ∅ s → nlog s < NBUF → sb_geom s → k_icache s !! ip = Some i → file_ok s (view s) i →
  i_type i ≠ T_DEV → 0 ≤ off ≤ i_size i → 0 ≤ n → off + n < 2 ^ 32 →
  (∀ s', fs_eq s s' → fs_ok ∅ s' →
     Q (Z.min n (i_size i - off), slice (Z.to_nat off) (Z.to_nat n) (content (view s) i)) s') →
  wp (readi devread ip off n) Q s.
Proof.
  intros Hs Hn Hg Hi Hf Ht Hoff Hn0 Hno HQ. pose proof (f_size _ _ _ Hf) as Hsz.
  assert (MAXFILE * BSIZE < 2 ^ 31) as Hmax by done.
  unfold readi. apply wp_bind. eapply wp_inode_at; [done|]. rewrite (proj2 (Z.eqb_neq _ _) Ht).
  rewrite u32_small by lia. rewrite !(proj2 (Z.ltb_ge _ _)) by lia. cbn [orb].
  set (m := if i_size i <? off + n then u32 (i_size i - off) else n).
  assert (m = Z.min n (i_size i - off)) as Hm.
  { unfold m. destruct (Z.ltb_spec (i_size i) (off + n)); [rewrite u32_small by lia|]; lia. }
  assert (slice (Z.to_nat off) (Z.to_nat n) (content (view s) i) = fbytes (view s) i off m) as E.
  { rewrite fbytes_content by lia. apply list_eq. intros j. rewrite !lookup_slice.
    destruct (decide (Z.of_nat j < m)).
    - by rewrite !decide_True by lia.
    - rewrite (decide_False (P := (j < Z.to_nat m)%nat)) by lia. case_decide; [|done].
      apply lookup_ge_None_2. unfold content. rewrite length_fbytes. lia. }
  rewrite E, <- Hm in HQ. apply wp_bind.
  apply (wp_readi_loop s (ok_geom _ _ Hs) Hg (view s) _ i); try done; try lia.
  - pose proof (Z.div_pos m BSIZE ltac:(lia) ltac:(done)). lia.
  - intros _. pose proof (turns_fuel off m ltac:(lia)). pose proof (Z.div_pos m BSIZE ltac:(lia) ltac:(done)).
    rewrite Z.sub_0_r. lia.
  - intros s' He Hok. apply wp_ret. rewrite Z.sub_0_r. simpl. rewrite s32_small by lia. by apply HQ.
Qed.

(** C25 [readi] of a file or directory returns the file's bytes: a request
    inside the file gives [min(n, size - off)] and the bytes of the content
    at [off], whatever direct or indirect blocks they are in; one that starts
    past the end or whose range wraps around gives -1. The call always
    returns, and nothing but the buffer cache changes. *)
Theorem readi_content devread s ip i off n :
  fs_ok ∅ s → nlog s < NBUF → sb_geom s → k_icache s !! ip = Some i → file_ok s (view s) i →
  i_type i ≠ T_DEV → 0 ≤ off < 2 ^ 32 → 0 ≤ n < 2 ^ 32 →
  ∃ s', fs_eq s s' ∧ fs_ok ∅ s' ∧
    readi devread ip off n s =
      if decide (off ≤ i_size i ∧ off + n < 2 ^ 32)
      then Ok (Z.min n (i_size i - off), slice (Z.to_nat off) (Z.to_nat n) (content (view s) i)) s'
      else Ok (-1, []) s'.
Proof.
  intros Hs Hn Hg Hi Hf Ht Hoff Hn32. pose proof (f_size _ _ _ Hf) as Hsz. case_decide as Hc.
  - assert (wp (readi devread ip off n) (λ r s', fs_eq s s' ∧ fs_ok ∅ s' ∧
      r = (Z.min n (i_size i - off), slice (Z.to_nat off) (Z.to_nat n) (content (view s) i))) s) as Hw.
    { eapply wp_readi; [done..|lia|lia|lia|done]. }
    apply wp_run in Hw as (r & s' & Hr & He & Hok & ->). by exists s'.
  - exists s. split_and!; [apply fs_eq_refl|done|]. unfold readi, inode_at.
    erewrite mbind_Ok; [|by erewrite mbind_Ok; [rewrite Hi|]]. rewrite (proj2 (Z.eqb_neq _ _) Ht).
    destruct (Z.ltb_spec (i_size i) off) as [Hlt|Hle]; [done|]. cbn [orb].
    rewrite (proj2 (Z.ltb_lt _ _)); [done|].
    unfold u32. rewrite <- (Z.mod_unique (off + n) (2 ^ 32) 1 (off + n - 2 ^ 32)) by lia. lia.
Qed.

(** The root directory of the demo image: one direct block. *)
Definition demo_root_inode : inode :=
  Inode ROOTDEV 1 1 (Some 1) 1 T_DIR 0 0 1 512 (59 :: replicate 12 0).

Lemma demo_root_blk bn :
  0 ≤ bn < MAXFILE → blk_of (view demo_fs) demo_root_inode bn = if bn =? 0 then 59 else 0.
Proof.
  intros Hb. apply Z.eqb_eq.
  apply (forall_range (λ bn, blk_of (view demo_fs) demo_root_inode bn =? (if bn =? 0 then 59 else 0)) 0 140);
    [by vm_compute|change MAXFILE with 140 in Hb; lia].
Qed.

Lemma demo_root_ok : file_ok demo_fs (view demo_fs) demo_root_inode.
Proof.
  split.
  - done.
  - done.
  - done.
  - done.
  - intros bn Hb. rewrite demo_root_blk by done. destruct (Z.eqb_spec bn 0); [intros _|done].
    split_and!; by vm_compute.
  - intros bn bn' Hb Hb'. rewrite !demo_root_blk by done.
    destruct (Z.eqb_spec bn 0), (Z.eqb_spec bn' 0); (done || congruence || lia).
  - intros bn Hb Hs. change (i_size demo_root_inode) with 512 in Hs. assert (bn = 0) as -> by klia. done.
Qed.

Lemma readi_content_witness :
  ∃ s', readi (λ _, None) 0 16 16 demo_fs = Ok (16, dirent_put (Dirent 1 (46 :: 46 :: replicate 12 0))) s'.
Proof.
  destruct (readi_content (λ _, None) demo_fs 0 demo_root_inode 16 16) as (s' & _ & _ & Hr).
  - apply demo_fs_ok.
  - done.
  - apply demo_geom.
  - done.
  - apply demo_root_ok.
  - done.
  - done.
  - done.
  - exists s'. rewrite Hr. rewrite decide_True by done. reflexivity.
Defined.
