(* ===== verification/Grow.v ===== *)
(** * Grow: adding a block to a file

    The allocating side of [bmap]: a new data block, and a new indirect block
    when there is none, keep the file well formed, leave its other blocks and
    every other block in use alone, and read as zeros. *)

From S2P Require Import Prelude State Bio Log LogOps Fs Demo Balloc Content.

(** ** Views after stores *)

Definition vset (b : Z) (d : list Z) (v : bkey → list Z) : bkey → list Z :=
  λ k, if decide (k = (ROOTDEV, b)) then d else v k.

Lemma vset_eq b d v : vset b d v (ROOTDEV, b) = d.
Proof. unfold vset. by rewrite decide_True. Qed.

Lemma vset_ne b d v b' : b' ≠ b → vset b d v (ROOTDEV, b') = v (ROOTDEV, b').
Proof. intros Hb. unfold vset. by rewrite decide_False by congruence. Qed.

Lemma wview_snoc ws b d v : wview (ws ++ [(b, d)]) v = vset b d (wview ws v).
Proof. unfold wview. by rewrite foldl_app. Qed.

Lemma blk_of_vset b d v i bn : b ≠ iaddr i NDIRECT → blk_of (vset b d v) i bn = blk_of v i bn.
Proof. intros Hb. unfold blk_of. by rewrite vset_ne. Qed.

(** Addresses of the inode are what counts. *)
Lemma blk_of_addrs v i i' bn : i_addrs i' = i_addrs i → blk_of v i' bn = blk_of v i bn.
Proof. intros Ha. unfold blk_of, iaddr. by rewrite Ha. Qed.

Section grow.
Context (s0 : kst) (Hlog : log_geom (k_log s0) (k_havedisk1 s0)) (Hsb : sb_geom s0).
Implicit Types (v : bkey → list Z) (i : inode).

Abbreviation bm := (sb_bmapstart (k_sb s0)).
Abbreviation free v b := (free_in s0 v b).

Lemma data_ne_bm b : data_block s0 b → b ≠ bm.
Proof. intros [? ?]. lia. Qed.

Lemma data_nonzero b : data_block s0 b → b ≠ 0.
Proof. intros [? ?]. pose proof (bmap_start_range s0 Hlog Hsb). lia. Qed.

Lemma free_vset b d v b' : b ≠ bm → free (vset b d v) b' = free v b'.
Proof. intros Hb. unfold free_in. by rewrite vset_ne. Qed.

(** A store to a data block that is not the indirect block. *)
Lemma file_ok_vset b d v i :
  b ≠ bm → b ≠ iaddr i NDIRECT → file_ok s0 v i → file_ok s0 (vset b d v) i.
Proof.
  intros Hbm Hind [? ? ? Hi Hb Hj Hf].
  split; try done; intros; rewrite ?blk_of_vset, ?free_vset in * by done; eauto.
Qed.

(** The view after [balloc] returned [b]. *)
Definition valloc (b : Z) v : bkey → list Z :=
  vset b zero_block (vset bm (set_bit (v (ROOTDEV, bm)) b) v).

Section alloc.
Context (b : Z) (v : bkey → list Z) (Hb : data_block s0 b) (Hfree : free v b = true)
        (Hbm : block_ok (v (ROOTDEV, bm))).

Lemma valloc_ne b' : b' ≠ b → b' ≠ bm → valloc b v (ROOTDEV, b') = v (ROOTDEV, b').
Proof. intros H1 H2. unfold valloc. by rewrite !vset_ne. Qed.

Lemma valloc_bm : valloc b v (ROOTDEV, bm) = set_bit (v (ROOTDEV, bm)) b.
Proof. unfold valloc. rewrite vset_ne, vset_eq; [done|]. by apply not_eq_sym, data_ne_bm. Qed.

Lemma free_valloc b' : 0 ≤ b' → free (valloc b v) b' = if decide (b' = b) then false else free v b'.
Proof.
  intros Hb'. unfold free_in. rewrite valloc_bm. apply bit_clear_set; [done| |done].
  pose proof (data_range s0 Hlog Hsb b Hb). klia.
Qed.

Lemma valloc_meta : meta_used s0 v → meta_used s0 (valloc b v).
Proof. intros Hm b' Hb'. rewrite free_valloc by lia. case_decide; [done|]. by apply Hm. Qed.

(** The file's own blocks are in use, so [b] is none of them. *)
Lemma ind_valloc i : file_ok s0 v i → iaddr i NDIRECT ≠ 0 → iaddr i NDIRECT ≠ b ∧ iaddr i NDIRECT ≠ bm.
Proof.
  intros Hf Hz. destruct (f_ind _ _ _ Hf Hz) as [Hd Hu]. split; [congruence|by apply data_ne_bm].
Qed.

Lemma blk_of_valloc i bn : file_ok s0 v i → blk_of (valloc b v) i bn = blk_of v i bn.
Proof.
  intros Hf. unfold blk_of. destruct (bn <? NDIRECT); [done|].
  destruct (Z.eqb_spec (iaddr i NDIRECT) 0) as [|Hz]; [done|].
  destruct (ind_valloc i Hf Hz). by rewrite valloc_ne.
Qed.

(** Adding [b] to the file as block [bn]. *)
Lemma file_ok_add v' i i' bn :
  file_ok s0 v i → i_dev i' = i_dev i → length (i_addrs i') = 13%nat → i_size i' = i_size i →
  iaddr i' NDIRECT = iaddr i NDIRECT → 0 ≤ bn < MAXFILE → blk_of v i bn = 0 →
  (∀ bn', 0 ≤ bn' < MAXFILE → blk_of v' i' bn' = if decide (bn' = bn) then b else blk_of v i bn') →
  (∀ b', 0 ≤ b' → free v' b' = if decide (b' = b) then false else free v b') →
  file_ok s0 v' i'.
Proof.
  intros Hf Hdev Hlen Hsize Hind Hbn Hz Hblk Hfr.
  assert (∀ b', data_block s0 b' → free v b' = false → free v' b' = false) as Hkeep.
  { intros b' Hb' Hu. pose proof (data_range s0 Hlog Hsb b' Hb'). rewrite Hfr by lia. by case_decide. }
  assert (free v' b = false) as Hnew.
  { pose proof (data_range s0 Hlog Hsb b Hb). rewrite Hfr by lia. by rewrite decide_True. }
  destruct Hf as [F1 F2 F3 F4 F5 F6 F7].
  split; [congruence|done|by rewrite Hsize| | | |]; rewrite ?Hind.
  - intros Hne. destruct (F4 Hne). auto.
  - intros bn' Hbn'. rewrite Hblk by done. case_decide as Hd.
    + intros _. split_and!; [done|done|]. intros He. destruct F4 as [_ F4]; [|congruence].
      rewrite <- He. by apply data_nonzero.
    + intros Hne. destruct (F5 bn' Hbn' Hne) as (? & ? & ?). auto.
  - intros bn1 bn2 H1 H2. rewrite !Hblk by done. case_decide as E1; case_decide as E2; [congruence| | |by apply F6].
    + intros _ He. destruct (F5 bn2 H2) as (_ & Hu & _); [rewrite <- He; by apply data_nonzero|congruence].
    + intros Hne He. destruct (F5 bn1 H1 Hne) as (_ & Hu & _). congruence.
  - intros bn' Hbn'. rewrite Hsize. intros Hlt. assert (0 ≤ bn' < MAXFILE) as Hr by klia.
    rewrite Hblk by done. case_decide; [by apply data_nonzero|by apply F7].
Qed.
(** [ip->addrs[n] = b] *)
Definition set_addr (n : Z) i : inode := set_i_addrs (<[Z.to_nat n := b]> (i_addrs i)) i.

Lemma iaddr_set_addr n n' i :
  length (i_addrs i) = 13%nat → 0 ≤ n ≤ NDIRECT → 0 ≤ n' →
  iaddr (set_addr n i) n' = if decide (n' = n) then b else iaddr i n'.
Proof.
  intros Hlen Hn Hn'. unfold iaddr, set_addr. simpl. case_decide as Hd.
  - subst. apply list_lookup_total_insert_eq. rewrite Hlen. klia.
  - apply list_lookup_total_insert_ne. lia.
Qed.

Lemma length_set_addr n i : length (i_addrs (set_addr n i)) = length (i_addrs i).
Proof. apply length_insert. Qed.

(** A new direct block. *)
Lemma grow_direct n i :
  file_ok s0 v i → 0 ≤ n < NDIRECT → iaddr i n = 0 →
  file_ok s0 (valloc b v) (set_addr n i) ∧
  ∀ bn, 0 ≤ bn < MAXFILE → blk_of (valloc b v) (set_addr n i) bn = if decide (bn = n) then b else blk_of v i bn.
Proof.
  intros Hf Hn Hz. pose proof (f_addrs _ _ _ Hf) as Hlen.
  assert (∀ bn, 0 ≤ bn < MAXFILE → blk_of (valloc b v) (set_addr n i) bn = if decide (bn = n) then b else blk_of v i bn) as Hblk.
  { intros bn Hbn. rewrite <- (blk_of_valloc i bn Hf). unfold blk_of.
    rewrite !iaddr_set_addr by (done || klia). rewrite (decide_False (P := NDIRECT = n)) by lia.
    destruct (Z.ltb_spec bn NDIRECT); [done|]. by rewrite decide_False by lia. }
  split; [|done]. apply (file_ok_add _ i _ n); try done.
  - by rewrite length_set_addr.
  - rewrite iaddr_set_addr by (done || klia). by rewrite decide_False by lia.
  - klia.
  - unfold blk_of. by rewrite (proj2 (Z.ltb_lt n NDIRECT)) by lia.
  - apply free_valloc.
Qed.

Lemma get_u32_zero off : (off + 4 ≤ 512)%nat → get_u32 zero_block off = 0.
Proof.
  intros Hoff. unfold get_u32, slice, zero_block. rewrite drop_replicate, take_replicate.
  by rewrite Nat.min_l by lia.
Qed.

(** A new indirect block. *)
Lemma grow_indirect i :
  file_ok s0 v i → iaddr i NDIRECT = 0 →
  file_ok s0 (valloc b v) (set_addr NDIRECT i) ∧ iaddr (set_addr NDIRECT i) NDIRECT = b ∧
  ∀ bn, 0 ≤ bn < MAXFILE → blk_of (valloc b v) (set_addr NDIRECT i) bn = blk_of v i bn.
Proof.
  intros Hf Hz. pose proof (f_addrs _ _ _ Hf) as Hlen.
  assert (iaddr (set_addr NDIRECT i) NDIRECT = b) as Hind.
  { rewrite iaddr_set_addr by (done || klia). by rewrite decide_True. }
  assert (∀ bn, 0 ≤ bn < MAXFILE → blk_of (valloc b v) (set_addr NDIRECT i) bn = blk_of v i bn) as Hblk.
  { intros bn Hbn. unfold blk_of. rewrite Hind, Hz.
    rewrite (proj2 (Z.eqb_neq b 0)) by by apply data_nonzero. simpl.
    destruct (Z.ltb_spec bn NDIRECT).
    - rewrite iaddr_set_addr by (done || klia). by rewrite decide_False by lia.
    - unfold valloc. rewrite vset_eq. apply get_u32_zero. klia. }
  assert (∀ b', data_block s0 b' → free v b' = false → free (valloc b v) b' = false) as Hkeep.
  { intros b' Hb' Hu. pose proof (data_range s0 Hlog Hsb b' Hb'). rewrite free_valloc by lia. by case_decide. }
  split; [|done]. destruct Hf as [F1 F2 F3 F4 F5 F6 F7]. split; try done; rewrite ?Hind.
  - by rewrite length_set_addr.
  - intros _. split; [done|]. rewrite free_valloc by (pose proof (data_range s0 Hlog Hsb b Hb); lia).
    by rewrite decide_True.
  - intros bn Hbn. rewrite Hblk by done. intros Hne. destruct (F5 bn Hbn Hne) as (? & ? & _).
    split_and!; [done|auto|congruence].
  - intros bn bn' H1 H2. rewrite !Hblk by done. by apply F6.
  - intros bn Hbn Hlt. rewrite Hblk; [by apply F7|]. simpl in Hlt. klia.
Qed.

(** A new block entered into the indirect block. *)
Lemma grow_entry j i :
  file_ok s0 v i → iaddr i NDIRECT ≠ 0 → 0 ≤ j < NINDIRECT → blk_of v i (NDIRECT + j) = 0 →
  block_ok (v (ROOTDEV, iaddr i NDIRECT)) →
  let v' := vset (iaddr i NDIRECT)
              (put_u32 (Z.to_nat (4 * j)) b (v (ROOTDEV, iaddr i NDIRECT))) (valloc b v) in
  file_ok s0 v' i ∧
  ∀ bn, 0 ≤ bn < MAXFILE → blk_of v' i bn = if decide (bn = NDIRECT + j) then b else blk_of v i bn.
Proof.
  intros Hf Hz Hj Hnone [Hlen _] v'. destruct (ind_valloc i Hf Hz) as [Hib Hibm].
  assert (∀ bn, 0 ≤ bn < MAXFILE → blk_of v' i bn = if decide (bn = NDIRECT + j) then b else blk_of v i bn) as Hblk.
  { intros bn Hbn. unfold blk_of. destruct (Z.ltb_spec bn NDIRECT); [by rewrite decide_False by lia|].
    rewrite (proj2 (Z.eqb_neq _ _) Hz). unfold v'. rewrite vset_eq. case_decide as Hd.
    - subst. replace (NDIRECT + j - NDIRECT) with j by lia. rewrite get_put_u32_eq by klia.
      apply u32_small. pose proof (data_range s0 Hlog Hsb b Hb). klia.
    - rewrite get_put_u32_ne by klia. done. }
  split; [|done]. apply (file_ok_add _ i _ (NDIRECT + j)); try done.
  - apply Hf.
  - klia.
  - intros b' Hb'. unfold v'. rewrite free_vset by done. by apply free_valloc.
Qed.
End alloc.
End grow.

(** ** Counting free blocks *)

Definition nfree (s0 : kst) (v : bkey → list Z) : Z :=
  Z.of_nat (length (filter (λ b, free_in s0 v b = true) (seqZ 0 (sb_size (k_sb s0))))).

Lemma length_filter_or {A} (P Q R : A → Prop)
    `{∀ x, Decision (P x)} `{∀ x, Decision (Q x)} `{∀ x, Decision (R x)} (l : list A) :
  (∀ x, x ∈ l → P x → Q x ∨ R x) → (length (filter P l) ≤ length (filter Q l) + length (filter R l))%nat.
Proof.
  induction l as [|x l IH]; intros HPQ; [simpl; lia|].
  specialize (IH ltac:(intros y Hy; apply HPQ; set_solver)). specialize (HPQ x ltac:(set_solver)).
  rewrite !filter_cons. repeat case_decide; simpl; (tauto || lia).
Qed.

Lemma length_filter_eq (l : list Z) a : NoDup l → (length (filter (λ x, x = a) l) ≤ 1)%nat.
Proof.
  intros Hnd. apply (NoDup_filter (λ x, x = a)) in Hnd.
  destruct (filter _ l) as [|x [|y l']] eqn:E; simpl; [lia|lia|]. exfalso.
  assert (x = a ∧ y = a) as [-> ->].
  { split; [assert (x ∈ filter (λ x, x = a) l) as Hx by (rewrite E; set_solver)
           |assert (y ∈ filter (λ x, x = a) l) as Hx by (rewrite E; set_solver)];
      by apply list_elem_of_filter in Hx as [-> _]. }
  apply NoDup_cons in Hnd as [Hx _]. set_solver.
Qed.

Lemma nfree_pos s0 v : 0 < nfree s0 v → ∃ b, 0 ≤ b < sb_size (k_sb s0) ∧ free_in s0 v b = true.
Proof.
  unfold nfree. destruct (filter _ _) as [|b l] eqn:E; [simpl; lia|]. intros _. exists b.
  assert (b ∈ filter (λ b, free_in s0 v b = true) (seqZ 0 (sb_size (k_sb s0)))) as Hb by (rewrite E; set_solver).
  apply list_elem_of_filter in Hb as [Hf Hb%elem_of_seqZ]. split; [lia|done].
Qed.

(** One block fewer after an allocation. *)
Lemma nfree_step s0 v v' a :
  (∀ b, 0 ≤ b → free_in s0 v' b = if decide (b = a) then false else free_in s0 v b) →
  nfree s0 v ≤ nfree s0 v' + 1.
Proof.
  intros Hf. unfold nfree.
  pose proof (length_filter_or (λ b, free_in s0 v b = true) (λ b, free_in s0 v' b = true) (λ b, b = a)
    (seqZ 0 (sb_size (k_sb s0)))) as Hor.
  pose proof (length_filter_eq (seqZ 0 (sb_size (k_sb s0))) a (NoDup_seqZ _ _)).
  assert (∀ x, x ∈ seqZ 0 (sb_size (k_sb s0)) → free_in s0 v x = true → free_in s0 v' x = true ∨ x = a) as Hx.
  { intros x Hx%elem_of_seqZ Hv. rewrite Hf by lia. case_decide; [by right|by left]. }
  specialize (Hor Hx). lia.
Qed.

(** ** [bmap], allocating or not *)

Lemma op_icache s0 c ws H s ic : op s0 c ws H s → op s0 c ws H (set_icache ic s).
Proof.
  intros [? [R L V] Hok ? ?]. split; try done.
  destruct Hok. by split.
Qed.

Lemma wp_inode_upd s0 c ws H ip i f Q s :
  op s0 c ws H s → k_icache s !! ip = Some i →
  (∀ s', op s0 c ws H s' → k_icache s' = <[ip := f i]> (k_icache s) → Q tt s') →
  wp (inode_upd ip f) Q s.
Proof.
  intros Ho Hi HQ. apply wp_bind. eapply wp_inode_at; [done|]. apply wp_modify. apply HQ; [by apply op_icache|done].
Qed.

Section bmap.
Context (s0 : kst) (c : Z) (Hlog : log_geom (k_log s0) (k_havedisk1 s0)) (Hsb : sb_geom s0).
Implicit Types (ws : list (Z * list Z)) (i : inode) (s : kst).

Abbreviation bm := (sb_bmapstart (k_sb s0)).
Abbreviation vw ws := (wview ws (view s0)).

(** The indirect block, if there is one. *)
Definition indset i : gset Z := if decide (iaddr i NDIRECT = 0) then ∅ else {[iaddr i NDIRECT]}.

(** The blocks the operation has used, counting the bitmap and an indirect
    block in any case. *)
Definition cost ws i : Z :=
  Z.of_nat (size ({[bm]} ∪ indset i ∪ wset ws)) + (if decide (iaddr i NDIRECT = 0) then 1 else 0).

(** From [v] and [i] the file has grown by block [bn], at address [a], unless
    it was there. *)
Record grown (v : bkey → list Z) i (v' : bkey → list Z) (i' : inode) (bn a : Z) : Prop := {
  g_ok : file_ok s0 v' i';
  g_meta : meta_used s0 v';
  g_inode : i' = set_i_addrs (i_addrs i') i;
  g_a : a ≠ 0;
  g_blk : ∀ bn', 0 ≤ bn' < MAXFILE → blk_of v' i' bn' = if decide (bn' = bn) then a else blk_of v i bn';
  g_old : blk_of v i bn ≠ 0 → a = blk_of v i bn;
  g_new : blk_of v i bn = 0 → v' (ROOTDEV, a) = zero_block ∧ free_in s0 v a = true;
  g_free : ∀ b, 0 ≤ b → free_in s0 v' b = true → free_in s0 v b = true;
  g_other : ∀ b, data_block s0 b → free_in s0 v b = false → b ≠ iaddr i NDIRECT →
    v' (ROOTDEV, b) = v (ROOTDEV, b);
  g_ind : iaddr i' NDIRECT = iaddr i NDIRECT ∨ iaddr i NDIRECT = 0 ∧ free_in s0 v (iaddr i' NDIRECT) = true;
  g_same : blk_of v i bn ≠ 0 → i' = i;
  g_low : ∀ b, b < bm → v' (ROOTDEV, b) = v (ROOTDEV, b);
  g_nfree : nfree s0 v ≤ nfree s0 v' + (if decide (blk_of v i bn = 0) then 1 else 0)
                                     + (if decide (iaddr i NDIRECT = iaddr i' NDIRECT) then 0 else 1)
}.

Lemma wview_alloc ws b :
  wview (ws ++ [(bm, set_bit (vw ws (ROOTDEV, bm)) b); (b, zero_block)]) (view s0) = valloc s0 b (vw ws).
Proof. clear. unfold wview. by rewrite foldl_app. Qed.

Lemma op_block_ok ws H s k : op s0 c ws H s → block_ok (vw ws k).
Proof. clear. intros Ho. rewrite <- (op_view _ _ _ _ _ _ Ho). eapply view_ok, Ho. Qed.

Lemma wp_bmap_slot_alloc ws ip i n Q s :
  op s0 c ws ∅ s → k_icache s !! ip = Some i → i_dev i = ROOTDEV → iaddr i n = 0 →
  meta_used s0 (vw ws) → 0 < nfree s0 (vw ws) → Z.of_nat (size ({[bm]} ∪ wset ws)) < c →
  (∀ b s' ws', data_block s0 b → free_in s0 (vw ws) b = true →
     op s0 c (ws ++ ws') ∅ s' → vw (ws ++ ws') = valloc s0 b (vw ws) → wset ws' = {[bm; b]} →
     k_icache s' = <[ip := set_addr b n i]> (k_icache s) → Q b s') →
  wp (bmap_slot ip n) Q s.
Proof.
  intros Ho Hi Hdev Hz Hm Hnf Hc HQ. unfold bmap_slot. apply wp_bind. eapply wp_addr_get; [done|].
  rewrite Hz. simpl. apply wp_bind. eapply wp_inode_at; [done|]. rewrite Hdev.
  apply wp_bind. apply (wp_balloc s0 c Hlog Hsb ws ∅);
    [done|rewrite size_empty; lia|set_solver|set_solver|done|by apply nfree_pos|done|].
  intros b s1 Hd Hf _ Ho1 Hi1. apply wp_bind. unfold addr_put.
  eapply wp_inode_upd; [done|by rewrite Hi1|]. intros s2 Ho2 Hi2. apply wp_ret.
  eapply HQ; [done|done|done|apply wview_alloc| |].
  - unfold wset. simpl. set_solver.
  - rewrite Hi2, Hi1. done.
Qed.
(** The part of [bmap] that looks into the indirect block at [ind]. *)
Definition bmap_entry (dev ind j : Z) : KM Z :=
  bp ← bread dev ind;
  data ← bdata bp;
  let addr := get_u32 data (Z.to_nat (4 * j)) in
  addr ← (if addr =? 0 then
            addr ← balloc dev;
            data ← bdata bp;
            set_bdata bp (put_u32 (Z.to_nat (4 * j)) addr data) ;;
            log_write bp ;;
            mret addr
          else mret addr);
  brelse bp ;;
  mret addr.

Lemma wp_bmap_entry ws i j Q s :
  let ind := iaddr i NDIRECT in
  op s0 c ws ∅ s → file_ok s0 (vw ws) i → ind ≠ 0 → 0 ≤ j < NINDIRECT → blk_of (vw ws) i (NDIRECT + j) = 0 →
  meta_used s0 (vw ws) → 0 < nfree s0 (vw ws) → Z.of_nat (size ({[bm; ind]} ∪ wset ws)) + 1 < c →
  (∀ b s' ws', data_block s0 b → free_in s0 (vw ws) b = true →
     op s0 c (ws ++ ws') ∅ s' →
     vw (ws ++ ws') = vset ind (put_u32 (Z.to_nat (4 * j)) b (vw ws (ROOTDEV, ind))) (valloc s0 b (vw ws)) →
     wset ws' = {[bm; b; ind]} → k_icache s' = k_icache s → Q b s') →
  wp (bmap_entry ROOTDEV ind j) Q s.
Proof.
  intros ind Ho Hf Hz Hj Hblk Hm Hnf Hc HQ.
  destruct (f_ind _ _ _ Hf Hz) as [Hid Hiu]. fold ind in Hid, Hiu.
  assert (size ({[bm]} ∪ wset ws) ≤ size ({[bm; ind]} ∪ wset ws))%nat as Hle by (apply subseteq_size; set_solver).
  unfold bmap_entry. apply wp_bind. apply (wp_bread_op s0 c ws ∅); [done|rewrite size_empty; lia|by apply (data_range s0)|set_solver|].
  intros s1 Ho1 Hi1. rewrite union_empty_r_L in Ho1. apply wp_bind. eapply wp_bdata_op; [done|set_solver|].
  assert (get_u32 (vw ws (ROOTDEV, ind)) (Z.to_nat (4 * j)) = 0) as ->.
  { unfold blk_of in Hblk. fold ind in Hblk. rewrite (proj2 (Z.ltb_ge _ _)) in Hblk by lia.
    rewrite (proj2 (Z.eqb_neq _ _) Hz) in Hblk. by replace (NDIRECT + j - NDIRECT) with j in Hblk by lia. }
  simpl. apply wp_bind, wp_bind.
  apply (wp_balloc s0 c Hlog Hsb ws {[(ROOTDEV, ind)]}).
  { done. } { by rewrite size_singleton. }
  { apply not_elem_of_singleton. intros [= E]. by apply (data_ne_bm s0 ind Hid). }
  { intros b Hb. apply not_elem_of_singleton. intros [= ->]. congruence. }
  { done. } { by apply nfree_pos. } { lia. }
  intros b s2 Hbd Hbf _ Ho2 Hi2.
  apply wp_bind. eapply wp_bdata_op; [done|set_solver|]. rewrite wview_alloc.
  assert (ind ≠ b ∧ ind ≠ bm) as [Hib Hibm].
  { apply (ind_valloc s0 b (vw ws) Hbf i Hf Hz). }
  rewrite valloc_ne by done.
  eapply wp_store_op; [done|set_solver|by apply data_home| | |].
  { destruct (op_block_ok _ _ _ (ROOTDEV, ind) Ho) as [Hl Hby].
    split; [rewrite length_put_u32; rewrite ?Hl; klia|by apply put_u32_bytes]. }
  { rewrite wset_app. assert (size (wset ws ∪ wset [(bm, set_bit (vw ws (ROOTDEV, bm)) b); (b, zero_block)])
      ≤ size ({[b]} ∪ ({[bm; ind]} ∪ wset ws)))%nat as Hs.
    { apply subseteq_size. unfold wset at 2. simpl. set_solver. }
    pose proof (size_add b ({[bm; ind]} ∪ wset ws)). lia. }
  intros s3 Ho3 Hi3. apply wp_ret, wp_bind. eapply wp_brelse_op; [done|set_solver|].
  intros s4 Ho4 Hi4. apply wp_ret. rewrite <- app_assoc in Ho4.
  rewrite difference_diag_L in Ho4. eapply HQ; [done|done|done| | |congruence].
  - rewrite app_assoc, wview_snoc, wview_alloc. done.
  - unfold wset. simpl. set_solver.
Qed.
(** *** The three ways to grow *)

Lemma grown_refl v i bn :
  file_ok s0 v i → meta_used s0 v → blk_of v i bn ≠ 0 → grown v i v i bn (blk_of v i bn).
Proof.
  clear. intros Hf Hm Hn. split; try done.
  - by destruct i.
  - intros bn' _. case_decide; by subst.
  - by left.
  - repeat case_decide; (done || lia).
Qed.

Lemma grown_direct v i n b :
  file_ok s0 v i → meta_used s0 v → data_block s0 b → free_in s0 v b = true → block_ok (v (ROOTDEV, bm)) →
  0 ≤ n < NDIRECT → iaddr i n = 0 → grown v i (valloc s0 b v) (set_addr b n i) n b.
Proof.
  intros Hf Hm Hd Hfr Hok Hn Hz. destruct (grow_direct s0 Hlog Hsb b v Hd Hfr Hok n i Hf Hn Hz) as [Hf' Hblk].
  assert (iaddr (set_addr b n i) NDIRECT = iaddr i NDIRECT) as Hind.
  { rewrite (iaddr_set_addr b) by (apply Hf || klia). by rewrite decide_False by lia. }
  assert (blk_of v i n = 0) as Hblk0 by (unfold blk_of; by rewrite (proj2 (Z.ltb_lt n NDIRECT)) by lia).
  split; try done.
  - by apply valloc_meta.
  - by eapply data_nonzero.
  - intros _. split; [|done]. unfold valloc. apply vset_eq.
  - intros b' Hb'. rewrite free_valloc by done. by case_decide.
  - intros b' Hb' Hu Hi. apply valloc_ne; [congruence|by eapply data_ne_bm].
  - by left.
  - intros b' Hb'. apply valloc_ne; destruct Hd; lia.
  - rewrite Hind, !decide_True by done. pose proof (nfree_step s0 v (valloc s0 b v) b) as Hst.
    rewrite Z.add_0_r. apply Hst. intros b' Hb'. by apply free_valloc.
Qed.

Lemma grown_entry v i j b :
  let ind := iaddr i NDIRECT in
  file_ok s0 v i → meta_used s0 v → data_block s0 b → free_in s0 v b = true → block_ok (v (ROOTDEV, bm)) →
  ind ≠ 0 → 0 ≤ j < NINDIRECT → blk_of v i (NDIRECT + j) = 0 → block_ok (v (ROOTDEV, ind)) →
  grown v i (vset ind (put_u32 (Z.to_nat (4 * j)) b (v (ROOTDEV, ind))) (valloc s0 b v)) i (NDIRECT + j) b.
Proof.
  intros ind Hf Hm Hd Hfr Hok Hz Hj Hblk0 Hok'.
  destruct (grow_entry s0 Hlog Hsb b v Hd Hfr Hok j i Hf Hz Hj Hblk0 Hok') as [Hf' Hblk].
  destruct (ind_valloc s0 b v Hfr i Hf Hz) as [Hib Hibm]. fold ind in Hib, Hibm, Hf', Hblk.
  assert (∀ b', 0 ≤ b' → free_in s0 (vset ind (put_u32 (Z.to_nat (4 * j)) b (v (ROOTDEV, ind))) (valloc s0 b v)) b'
    = if decide (b' = b) then false else free_in s0 v b') as Hfree.
  { intros b' Hb'. rewrite free_vset by done. by apply free_valloc. }
  split; try done.
  - intros b' Hb'. rewrite Hfree by lia. case_decide; [done|]. by apply Hm.
  - by destruct i.
  - by eapply data_nonzero.
  - intros _. split; [|done]. rewrite vset_ne by done. unfold valloc. apply vset_eq.
  - intros b' Hb'. rewrite Hfree by done. by case_decide.
  - intros b' Hb' Hu Hi. rewrite vset_ne by done. apply valloc_ne; [congruence|by eapply data_ne_bm].
  - by left.
  - intros b' Hb'. destruct (f_ind _ _ _ Hf Hz) as [[Hil _] _]. fold ind in Hil.
    rewrite vset_ne by lia. apply valloc_ne; destruct Hd; lia.
  - rewrite !decide_True by done. rewrite Z.add_0_r. by apply (nfree_step _ _ _ b).
Qed.

(** A new indirect block first, then the entry. *)
Lemma grown_indirect v i b v' i' bn a :
  file_ok s0 v i → data_block s0 b → free_in s0 v b = true → block_ok (v (ROOTDEV, bm)) →
  iaddr i NDIRECT = 0 → 0 ≤ bn < MAXFILE → blk_of v i bn = 0 →
  grown (valloc s0 b v) (set_addr b NDIRECT i) v' i' bn a → grown v i v' i' bn a.
Proof.
  intros Hf Hd Hfr Hok Hz Hbn Hblk0 [G1 G2 G3 G4 G5 G6 G7 G8 G9 G10 _ Glow G11].
  destruct (grow_indirect s0 Hlog Hsb b v Hd Hfr Hok i Hf Hz) as (Hf1 & Hind & Hblk).
  pose proof (data_nonzero s0 Hlog Hsb b Hd) as Hb0.
  assert (∀ b', 0 ≤ b' → free_in s0 (valloc s0 b v) b' = true → free_in s0 v b' = true) as Hmono.
  { intros b' Hb'. rewrite free_valloc by done. by destruct (decide (b' = b)). }
  assert (iaddr i' NDIRECT = b) as Hi'.
  { destruct G10 as [->|[E _]]; [done|congruence]. }
  rewrite Hblk in G6, G7, G11 by done. specialize (G7 Hblk0).
  assert (0 ≤ a) as Ha.
  { pose proof (f_blk _ _ _ G1 bn Hbn) as Hda. rewrite (G5 bn Hbn), decide_True in Hda by done.
    destruct (Hda G4) as [Hda' _]. apply (data_range s0 Hlog Hsb a Hda'). }
  split; try done.
  - intros bn' Hbn'. rewrite G5 by done. destruct (decide (bn' = bn)); [done|]. by apply Hblk.
  - intros _. destruct G7. split; [done|]. by apply Hmono.
  - intros b' Hb' Hf'. by apply Hmono, G8.
  - intros b' Hb' Hu _. rewrite G9; [apply valloc_ne; [congruence|by eapply data_ne_bm]|done| |rewrite Hind; congruence].
    rewrite free_valloc by (done || (pose proof (data_range s0 Hlog Hsb b' Hb'); lia)). by destruct (decide (b' = b)).
  - right. by rewrite Hi'.
  - intros b' Hb'. rewrite Glow by done. apply valloc_ne; destruct Hd; lia.
  - rewrite Hz, Hi', (decide_False (P := 0 = b)) by congruence.
    rewrite Hind, Hi', !decide_True in G11 by done. rewrite decide_True by done.
    pose proof (nfree_step s0 v (valloc s0 b v) b) as Hst.
    specialize (Hst ltac:(intros b' Hb'; by apply free_valloc)). lia.
Qed.
(** *** The rule *)

Lemma size_le_add (b : Z) (X Y : gset Z) : X ⊆ {[b]} ∪ Y → (size X ≤ S (size Y))%nat.
Proof. clear. intros Hsub%subseteq_size. pose proof (size_add b Y). lia. Qed.

Lemma cost_bound ws i :
  Z.of_nat (size (wset ws)) ≤ cost ws i ∧ Z.of_nat (size ({[bm]} ∪ wset ws)) ≤ cost ws i ∧
  (iaddr i NDIRECT ≠ 0 → Z.of_nat (size ({[bm; iaddr i NDIRECT]} ∪ wset ws)) ≤ cost ws i).
Proof.
  clear. unfold cost. assert (size (wset ws) ≤ size ({[bm]} ∪ indset i ∪ wset ws))%nat by (apply subseteq_size; set_solver).
  assert (size ({[bm]} ∪ wset ws) ≤ size ({[bm]} ∪ indset i ∪ wset ws))%nat by (apply subseteq_size; set_solver).
  split_and!; [case_decide; lia|case_decide; lia|]. intros Hz.
  unfold indset. rewrite !decide_False by done. lia.
Qed.

(** [bmap] followed by a store to the block costs one block more. *)
Definition bmap_post ws ip i bn s (Q : Z → kst → Prop) : Prop :=
  ∀ a s' ws' i', op s0 c (ws ++ ws') ∅ s' → k_icache s' = <[ip := i']> (k_icache s) →
    grown (vw ws) i (vw (ws ++ ws')) i' bn a →
    (∀ d, cost (ws ++ ws' ++ [(a, d)]) i' ≤ cost ws i + 1) → Q a s'.

Lemma cost_app ws ws' i : cost ws i ≤ cost (ws ++ ws') i.
Proof.
  clear. unfold cost. rewrite wset_app.
  assert (size ({[bm]} ∪ indset i ∪ wset ws) ≤ size ({[bm]} ∪ indset i ∪ (wset ws ∪ wset ws')))%nat; [|lia].
  apply subseteq_size. set_solver.
Qed.

(** Blocks that are already accounted for, and one more. *)
Lemma cost_add ws ws' i a d :
  wset ws' ⊆ {[bm; a]} ∪ indset i → cost (ws ++ ws' ++ [(a, d)]) i ≤ cost ws i + 1.
Proof.
  clear. intros Hws. unfold cost. rewrite app_assoc, wset_snoc, wset_app.
  assert (size ({[bm]} ∪ indset i ∪ ({[a]} ∪ (wset ws ∪ wset ws'))) ≤ S (size ({[bm]} ∪ indset i ∪ wset ws)))%nat; [|lia].
  apply (size_le_add a). set_solver.
Qed.

Lemma indset_some i : iaddr i NDIRECT ≠ 0 → indset i = {[iaddr i NDIRECT]}.
Proof. clear. intros Hz. unfold indset. by rewrite decide_False. Qed.

Section alloc_rules.
Context (ws : list (Z * list Z)) (ip : nat) (i : inode) (Q : Z → kst → Prop) (s : kst).
Context (Ho : op s0 c ws ∅ s) (Hi : k_icache s !! ip = Some i) (Hf : file_ok s0 (vw ws) i)
        (Hm : meta_used s0 (vw ws)) (Hnf : 2 ≤ nfree s0 (vw ws)) (Hc : cost ws i + 1 < c).

Lemma wp_bmap_direct bn :
  0 ≤ bn < NDIRECT → blk_of (vw ws) i bn = 0 → bmap_post ws ip i bn s Q → wp (bmap ip bn) Q s.
Proof.
  intros Hbn Hblk HQ. destruct (cost_bound ws i) as (Hc1 & Hc2 & _).
  pose proof (op_block_ok _ _ _ (ROOTDEV, bm) Ho) as Hbmok.
  unfold bmap. unfold blk_of in Hblk. rewrite (proj2 (Z.ltb_lt bn NDIRECT)) in Hblk |- * by lia.
  eapply wp_bmap_slot_alloc; [done|done|apply Hf|done|done|lia|lia|].
  intros b s' ws' Hd Hfr Ho' Hv Hws Hi'.
  eapply HQ; [done|done|rewrite Hv; by apply grown_direct|].
  intros d. assert (iaddr (set_addr b bn i) NDIRECT = iaddr i NDIRECT) as Hind.
  { rewrite (iaddr_set_addr b) by (apply Hf || klia). by rewrite decide_False by lia. }
  unfold cost, indset. rewrite Hind. apply cost_add. rewrite Hws. set_solver.
Qed.

Lemma wp_bmap_indirect j :
  0 ≤ j < NINDIRECT → iaddr i NDIRECT ≠ 0 → blk_of (vw ws) i (NDIRECT + j) = 0 →
  bmap_post ws ip i (NDIRECT + j) s Q → wp (bmap ip (NDIRECT + j)) Q s.
Proof.
  intros Hj Hz Hblk HQ. destruct (cost_bound ws i) as (_ & _ & Hc3). specialize (Hc3 Hz).
  unfold bmap. rewrite (proj2 (Z.ltb_ge (NDIRECT + j) NDIRECT)) by lia.
  replace (NDIRECT + j - NDIRECT) with j by lia. rewrite (proj2 (Z.ltb_lt j NINDIRECT)) by lia.
  apply wp_bind. eapply bmap_slot_some; [done|done|].
  apply wp_bind. eapply wp_inode_at; [done|]. rewrite (f_dev _ _ _ Hf).
  change (wp (bmap_entry ROOTDEV (iaddr i NDIRECT) j) Q s).
  eapply wp_bmap_entry; [done|done|done|done|done|done|lia|lia|].
  intros b s' ws' Hd Hfr Ho' Hv Hws Hi'.
  eapply HQ; [done|rewrite Hi'; symmetry; by apply list_insert_id| |].
  - rewrite Hv. apply grown_entry; try done; by eapply op_block_ok.
  - intros d. apply cost_add. rewrite Hws, indset_some by done. set_solver.
Qed.

Lemma wp_bmap_new_indirect j :
  0 ≤ j < NINDIRECT → iaddr i NDIRECT = 0 → blk_of (vw ws) i (NDIRECT + j) = 0 →
  bmap_post ws ip i (NDIRECT + j) s Q → wp (bmap ip (NDIRECT + j)) Q s.
Proof.
  intros Hj Hz Hblk HQ. destruct (cost_bound ws i) as (_ & Hc2 & _).
  pose proof (op_block_ok _ _ _ (ROOTDEV, bm) Ho) as Hbmok.
  unfold bmap. rewrite (proj2 (Z.ltb_ge (NDIRECT + j) NDIRECT)) by lia.
  replace (NDIRECT + j - NDIRECT) with j by lia. rewrite (proj2 (Z.ltb_lt j NINDIRECT)) by lia.
  apply wp_bind. eapply wp_bmap_slot_alloc; [done|done|apply Hf|done|done|lia|lia|].
  intros b1 s1 ws1 Hd1 Hfr1 Ho1 Hv1 Hws1 Hi1.
  destruct (grow_indirect s0 Hlog Hsb b1 (vw ws) Hd1 Hfr1 Hbmok i Hf Hz) as (Hf1 & Hind1 & Hblk1).
  set (i1 := set_addr b1 NDIRECT i) in *. rewrite <- Hv1 in Hf1, Hblk1.
  assert (iaddr i1 NDIRECT ≠ 0) as Hi1z by (rewrite Hind1; by eapply data_nonzero).
  assert (meta_used s0 (vw (ws ++ ws1))) as Hm1 by (rewrite Hv1; by apply valloc_meta).
  assert (blk_of (vw (ws ++ ws1)) i1 (NDIRECT + j) = 0) as Hblk1' by (rewrite Hblk1; [done|klia]).
  apply wp_bind. eapply wp_inode_at; [rewrite Hi1; by eapply list_lookup_insert_eq, lookup_lt_Some|].
  rewrite (f_dev _ _ _ Hf1), <- Hind1. change (wp (bmap_entry ROOTDEV (iaddr i1 NDIRECT) j) Q s1).
  assert (wset ws1 = {[bm; iaddr i1 NDIRECT]}) as Hws1' by (by rewrite Hind1).
  assert (Z.of_nat (size ({[bm; iaddr i1 NDIRECT]} ∪ wset (ws ++ ws1))) ≤ cost ws i) as Hc4.
  { unfold cost. rewrite decide_True by done. rewrite wset_app, Hws1'.
    assert (size ({[bm; iaddr i1 NDIRECT]} ∪ (wset ws ∪ {[bm; iaddr i1 NDIRECT]})) ≤ S (size ({[bm]} ∪ indset i ∪ wset ws)))%nat; [|lia].
    apply (size_le_add (iaddr i1 NDIRECT)). set_solver. }
  eapply wp_bmap_entry; [done|done|done|done|done|done| |lia|].
  { rewrite Hv1. pose proof (nfree_step s0 (vw ws) (valloc s0 b1 (vw ws)) b1) as Hst.
    specialize (Hst ltac:(intros b' Hb'; by apply free_valloc)). lia. }
  intros b s' ws' Hd Hfr Ho' Hv Hws Hi'. rewrite <- app_assoc in Ho', Hv.
  eapply HQ; [done|rewrite Hi', Hi1; done| |].
  - eapply grown_indirect; [done|exact Hd1|done|done|done|klia|done|]. fold i1. rewrite <- Hv1, Hv.
    apply grown_entry; try done; by eapply op_block_ok.
  - intros d. unfold cost at 1. rewrite (decide_False (P := iaddr i1 NDIRECT = 0)), indset_some by done.
    rewrite !app_assoc, wset_snoc, !wset_app, Hws1', Hws.
    assert (size ({[bm]} ∪ {[iaddr i1 NDIRECT]} ∪ ({[b]} ∪ (wset ws ∪ {[bm; iaddr i1 NDIRECT]} ∪ {[bm; b; iaddr i1 NDIRECT]})))
      ≤ S (size ({[bm; iaddr i1 NDIRECT]} ∪ wset (ws ++ ws1))))%nat; [|lia].
    apply (size_le_add b). rewrite wset_app, Hws1'. set_solver.
Qed.
End alloc_rules.

(** [bmap] of any block of the file. *)
Lemma wp_bmap ws ip i bn Q s :
  op s0 c ws ∅ s → k_icache s !! ip = Some i → file_ok s0 (vw ws) i → meta_used s0 (vw ws) →
  0 ≤ bn < MAXFILE → (blk_of (vw ws) i bn = 0 → 2 ≤ nfree s0 (vw ws)) → cost ws i + 1 < c →
  bmap_post ws ip i bn s Q → wp (bmap ip bn) Q s.
Proof.
  intros Ho Hi Hf Hm Hbn Hnf Hc HQ. destruct (decide (blk_of (vw ws) i bn = 0)) as [Hz|Hnz].
  - specialize (Hnf Hz). destruct (decide (bn < NDIRECT)); [apply (wp_bmap_direct ws _ i); (done || lia)|].
    replace bn with (NDIRECT + (bn - NDIRECT)) in * by lia.
    destruct (decide (iaddr i NDIRECT = 0)); [apply (wp_bmap_new_indirect ws _ i)|apply (wp_bmap_indirect ws _ i)];
      (done || klia).
  - assert (∀ k, view s k = vw ws k) as Hv by (intros k; by apply (op_view _ _ _ _ _ _ Ho)).
    destruct (op_in_tx _ _ _ _ _ 0 Ho) as [Hnl _ _]; [pose proof (op_used _ _ _ _ _ Ho); lia|].
    apply (wp_bmap_some ∅ ip i); [apply Ho|rewrite size_empty; klia|done|apply Hf|done|by rewrite (blk_of_ext _ (vw ws))| |].
    { intros Hind. split; [|set_solver]. by apply (data_range s0 Hlog Hsb), (f_ind _ _ _ Hf). }
    rewrite (blk_of_ext _ (vw ws)) by done. intros s' He Hok. apply (HQ _ _ [] i); rewrite ?app_nil_r.
    + by eapply op_fs_eq.
    + rewrite (fs_eq_icache _ _ He). symmetry. by apply list_insert_id.
    + by apply grown_refl.
    + intros d. apply cost_add. rewrite wset_nil. set_solver.
Qed.
End bmap.
