(* ===== verification/Inode.v ===== *)
(** * Inode: inodes on disk and in the cache

    The encoding of [struct dinode] and the write-through of [iupdate]; the
    inode cache with [iget], [idup], [ilock], [iunlock] and [iput]. *)

From S2P Require Import Prelude State Bio Log LogOps Fs Demo Balloc Content Grow.

(** ** The on-disk inode *)

Definition dinode_ok (d : dinode) : Prop :=
  - 2 ^ 15 ≤ di_type d < 2 ^ 15 ∧ - 2 ^ 15 ≤ di_major d < 2 ^ 15 ∧ - 2 ^ 15 ≤ di_minor d < 2 ^ 15 ∧
  - 2 ^ 15 ≤ di_nlink d < 2 ^ 15 ∧ 0 ≤ di_size d < 2 ^ 32 ∧
  length (di_addrs d) = 13%nat ∧ Forall (λ a, 0 ≤ a < 2 ^ 32) (di_addrs d).

(** The 64 bytes of a [struct dinode]. *)
Definition dinode_bytes (d : dinode) : list Z :=
  le_enc 2 (di_type d) ++ le_enc 2 (di_major d) ++ le_enc 2 (di_minor d) ++ le_enc 2 (di_nlink d) ++
  le_enc 4 (di_size d) ++ (di_addrs d ≫= le_enc 4).

Lemma splice_splice_app {A} off (a b l : list A) :
  (off + length a + length b ≤ length l)%nat →
  splice (off + length a) b (splice off a l) = splice off (a ++ b) l.
Proof.
  intros Hl. apply list_eq. intros j.
  rewrite !lookup_splice by (rewrite ?length_splice, ?length_app; lia). rewrite length_app.
  destruct (decide (off + length a ≤ j < off + length a + length b)%nat) as [H1|H1].
  - rewrite decide_True by lia. rewrite lookup_app_r by lia. f_equal. lia.
  - destruct (decide (off ≤ j < off + length a)%nat) as [H2|H2].
    + rewrite (decide_True (P := (off ≤ j < off + (length a + length b))%nat)) by lia.
      by rewrite lookup_app_l by lia.
    + rewrite decide_False by lia. done.
Qed.

Lemma length_enc_addrs (l : list Z) : length (l ≫= le_enc 4) = (4 * length l)%nat.
Proof.
  induction l as [|a l IH]; [done|]. rewrite bind_cons.
  rewrite length_app, length_le_enc, IH. simpl. lia.
Qed.

Lemma length_dinode_bytes d : length (di_addrs d) = 13%nat → length (dinode_bytes d) = 64%nat.
Proof.
  intros Hl. unfold dinode_bytes. rewrite !length_app, !length_le_enc, length_enc_addrs, Hl. done.
Qed.

Lemma dinode_put_bytes off d data :
  length (di_addrs d) = 13%nat → (off + 64 ≤ length data)%nat →
  dinode_put off d data = splice off (dinode_bytes d) data.
Proof.
  intros Hl Hoff. unfold dinode_put, put_addrs, put_u16, put_u32, dinode_bytes.
  pose proof (length_enc_addrs (di_addrs d)) as Ha. rewrite Hl in Ha.
  change (off + 2)%nat with (off + length (le_enc 2 (di_type d)))%nat.
  rewrite splice_splice_app by (rewrite !length_le_enc; lia).
  assert (∀ (a b : list Z) n (l : list Z), n = length a → (off + length a + length b ≤ length l)%nat →
    splice (off + n) b (splice off a l) = splice off (a ++ b) l) as Hs.
  { intros a b n l ->. apply splice_splice_app. }
  rewrite !Hs by (rewrite ?length_app, ?length_le_enc, ?Ha; simpl; lia).
  by rewrite <- !app_assoc.
Qed.

(** Fields are read from the 64 bytes alone. *)
Lemma get_u16_slice data off n k :
  (k + 2 ≤ n)%nat → get_u16 data (off + k) = get_u16 (slice off n data) k.
Proof.
  intros Hk. unfold get_u16. f_equal. apply list_eq. intros j. rewrite !lookup_slice.
  case_decide; [|done]. rewrite decide_True by lia. f_equal. lia.
Qed.

Lemma get_u32_slice data off n k :
  (k + 4 ≤ n)%nat → get_u32 data (off + k) = get_u32 (slice off n data) k.
Proof.
  intros Hk. unfold get_u32. f_equal. apply list_eq. intros j. rewrite !lookup_slice.
  case_decide; [|done]. rewrite decide_True by lia. f_equal. lia.
Qed.

Lemma dinode_get_slice data off : dinode_get data off = dinode_get (slice off 64 data) 0.
Proof.
  unfold dinode_get. rewrite <- (Nat.add_0_r off) at 1.
  rewrite !(get_u16_slice data off 64) by lia. rewrite !(get_u32_slice data off 64) by lia. f_equal.
  apply list_fmap_ext. intros j n [-> Hj]%lookup_seqZ. rewrite <- Nat.add_assoc.
  rewrite (get_u32_slice data off 64) by klia. done.
Qed.

Lemma le_dec_enc2 z : le_dec (le_enc 2 z) = u16 z.
Proof. apply le_dec_enc. Qed.
Lemma le_dec_enc4 z : le_dec (le_enc 4 z) = u32 z.
Proof. apply le_dec_enc. Qed.

Lemma dinode_get_bytes d : dinode_ok d → dinode_get (dinode_bytes d) 0 = d.
Proof.
  intros (Ht & Hma & Hmi & Hnl & Hsz & Hlen & Ha).
  destruct d as [type major minor nlink size addrs]. simpl in *.
  do 13 (destruct addrs as [|? addrs]; [done|]). destruct addrs; [|done].
  repeat match goal with H : Forall _ (_ :: _) |- _ => apply Forall_cons in H as [? H] end.
  unfold dinode_get. unfold get_u16, get_u32, slice, dinode_bytes. f_equal.
  - change (s16 (le_dec (le_enc 2 type)) = type). by rewrite le_dec_enc2, s16_u16, s16_small.
  - change (s16 (le_dec (le_enc 2 major)) = major). by rewrite le_dec_enc2, s16_u16, s16_small.
  - change (s16 (le_dec (le_enc 2 minor)) = minor). by rewrite le_dec_enc2, s16_u16, s16_small.
  - change (s16 (le_dec (le_enc 2 nlink)) = nlink). by rewrite le_dec_enc2, s16_u16, s16_small.
  - change (le_dec (le_enc 4 size) = size). by rewrite le_dec_enc4, u32_small.
  - change (seqZ 0 (NDIRECT + 1)) with [0; 1; 2; 3; 4; 5; 6; 7; 8; 9; 10; 11; 12].
    repeat match goal with
    | |- context [_ <$> (_ :: _)] => rewrite fmap_cons; f_equal
    | |- _ = ?a => match type of a with Z => change (le_dec (le_enc 4 a) = a); by rewrite le_dec_enc4, u32_small end
    end.
Qed.

(** ** Where the inodes are *)

Definition dinode_of (i : inode) : dinode :=
  Dinode (i_type i) (i_major i) (i_minor i) (i_nlink i) (i_size i) (i_addrs i).

(** Inode [inum] as the blocks show it. *)
Definition dino (s : kst) (v : bkey → list Z) (inum : Z) : dinode :=
  dinode_get (v (ROOTDEV, IBLOCK inum (k_sb s))) (dinode_off inum).

(** The in-memory inode and its copy on disk agree. *)
Definition synced (s : kst) (v : bkey → list Z) (i : inode) : Prop := dino s v (i_inum i) = dinode_of i.

Section dino.
Context (s : kst) (Hlog : log_geom (k_log s) (k_havedisk1 s)) (Hsb : sb_geom s).
Implicit Types (v : bkey → list Z) (inum : Z).

Definition inum_ok inum : Prop := 0 ≤ inum < sb_ninodes (k_sb s).

Lemma IBLOCK_range inum :
  inum_ok inum →
  IBLOCK inum (k_sb s) = inum / IPB + sb_inodestart (k_sb s) ∧
  sb_inodestart (k_sb s) ≤ IBLOCK inum (k_sb s) < sb_bmapstart (k_sb s).
Proof.
  intros [H1 H2]. pose proof (bmap_start_range s Hlog Hsb) as [Hr1 Hr2]. destruct Hsb.
  pose proof (Z.div_pos inum IPB H1 ltac:(done)).
  pose proof (Z.div_le_mono inum (sb_ninodes (k_sb s)) IPB ltac:(done) ltac:(lia)).
  unfold IBLOCK. rewrite u32_small by klia. lia.
Qed.

Lemma IBLOCK_home inum : inum_ok inum → home s (IBLOCK inum (k_sb s)).
Proof.
  intros Hi. apply home_above; [done|done|]. pose proof (IBLOCK_range inum Hi).
  pose proof (bmap_start_range s Hlog Hsb). lia.
Qed.

Lemma dinode_off_range inum : (dinode_off inum + 64 ≤ 512)%nat.
Proof. clear. unfold dinode_off. pose proof (Z.mod_pos_bound inum IPB ltac:(done)). klia. Qed.

(** Distinct inodes have distinct places. *)
Lemma dinode_place inum inum' :
  inum_ok inum → inum_ok inum' → inum ≠ inum' →
  IBLOCK inum (k_sb s) ≠ IBLOCK inum' (k_sb s) ∨
  (dinode_off inum' + 64 ≤ dinode_off inum)%nat ∨ (dinode_off inum + 64 ≤ dinode_off inum')%nat.
Proof.
  intros Hi Hi' Hne. destruct (IBLOCK_range inum Hi) as [-> _]. destruct (IBLOCK_range inum' Hi') as [-> _].
  destruct (decide (inum / IPB = inum' / IPB)) as [E|E]; [right|left; lia].
  pose proof (Z.div_mod inum IPB ltac:(done)). pose proof (Z.div_mod inum' IPB ltac:(done)).
  pose proof (Z.mod_pos_bound inum IPB ltac:(done)). pose proof (Z.mod_pos_bound inum' IPB ltac:(done)).
  unfold dinode_off. klia.
Qed.

Lemma dinode_put_ok off d data :
  length (di_addrs d) = 13%nat → (off + 64 ≤ 512)%nat → block_ok data → block_ok (dinode_put off d data).
Proof.
  clear. intros Hl Hoff [Hlen Hb]. rewrite dinode_put_bytes by (done || lia).
  split; [rewrite length_splice; rewrite ?length_dinode_bytes by done; lia|].
  apply Forall_splice; [|done]. unfold dinode_bytes. rewrite !Forall_app.
  split_and!; try apply le_enc_bytes. clear Hl. induction (di_addrs d) as [|a l IH]; [constructor|].
  rewrite bind_cons. apply Forall_app. split; [apply le_enc_bytes|done].
Qed.

(** Storing an inode changes that inode only. *)
Lemma dino_store v inum inum' d :
  block_ok (v (ROOTDEV, IBLOCK inum (k_sb s))) → dinode_ok d → inum_ok inum → inum_ok inum' →
  dino s (vset (IBLOCK inum (k_sb s)) (dinode_put (dinode_off inum) d (v (ROOTDEV, IBLOCK inum (k_sb s)))) v) inum' =
    if decide (inum' = inum) then d else dino s v inum'.
Proof.
  intros [Hlen _] Hd Hi Hi'. pose proof (dinode_off_range inum) as Ho. pose proof (dinode_off_range inum') as Ho'.
  assert (length (di_addrs d) = 13%nat) as Hl by apply Hd. unfold dino.
  case_decide as Hc.
  - subst. rewrite vset_eq, dinode_get_slice, dinode_put_bytes by (done || lia).
    rewrite slice_splice_eq by (rewrite ?length_dinode_bytes by done; lia). by apply dinode_get_bytes.
  - destruct (decide (IBLOCK inum' (k_sb s) = IBLOCK inum (k_sb s))) as [E|E]; [|by rewrite vset_ne].
    destruct (dinode_place inum inum' Hi Hi') as [?|Hd']; [done|congruence|].
    rewrite E, vset_eq, dinode_get_slice, dinode_put_bytes by (done || lia).
    rewrite slice_splice_ne by (rewrite ?length_dinode_bytes by done; lia). by rewrite <- dinode_get_slice.
Qed.

(** [iupdate] in an operation. *)
Lemma wp_iupdate c ws ip i Q s1 :
  op s c ws ∅ s1 → k_icache s1 !! ip = Some i → i_dev i = ROOTDEV → inum_ok (i_inum i) →
  length (i_addrs i) = 13%nat → Z.of_nat (size (wset ws)) < c →
  (∀ s', op s c (ws ++ [(IBLOCK (i_inum i) (k_sb s), dinode_put (dinode_off (i_inum i)) (dinode_of i)
            (wview ws (view s) (ROOTDEV, IBLOCK (i_inum i) (k_sb s))))]) ∅ s' →
     k_icache s' = k_icache s1 → Q tt s') →
  wp (iupdate ip) Q s1.
Proof.
  intros Ho Hi Hdev Hin Hlen Hc HQ. unfold iupdate. apply wp_bind. eapply wp_inode_at; [done|].
  apply wp_bind, wp_gets. rewrite (op_sb _ _ _ _ _ Ho), Hdev.
  pose proof (IBLOCK_home _ Hin) as Hh.
  apply wp_bind. apply (wp_bread_op s c ws ∅); [done|rewrite size_empty; lia|apply Hh|set_solver|].
  intros s2 Ho2 Hi2. apply wp_bind. eapply wp_bdata_op; [done|set_solver|].
  eapply wp_store_op; [done|set_solver|done| |done|].
  { apply dinode_put_ok; [done|apply dinode_off_range|]. by eapply op_block_ok. }
  intros s3 Ho3 Hi3. eapply wp_brelse_op; [done|set_solver|].
  intros s4 Ho4 Hi4. rewrite unhold in Ho4 by set_solver. apply HQ; [done|congruence].
Qed.
End dino.
