(* ===== verification/Mkfs.v ===== *)
(** * Mkfs: the program that makes the file system image (xv6/mkfs.c)

    The image is the list of its sectors. The host is little-endian, as the
    machines xv6 is built on are, so that a struct in memory has the bytes of
    the one on disk. A file given to mkfs is its name and the pieces that
    successive [read]s of it return. [exit(1)] and a failed [assert] are
    faults. The structs, their encodings and the geometry of fs.h are those
    of [State] and [Fs]; the image is then read with the kernel's own
    definitions of a file's blocks and bytes ([Content]). *)

From S2P Require Import Prelude State Bio Log LogOps Fs Demo Balloc Content Grow Inode.

(** ** Constants and globals *)

Definition NINODES : Z := 200.
Definition nbitmap : Z := FSSIZE / (BSIZE * 8) + 1.
Definition ninodeblocks : Z := NINODES / IPB + 1.
Definition mkfs_nlog : Z := LOGSIZE.

(** Number of meta blocks (boot, sb, nlog, inode, bitmap). *)
Definition nmeta : Z := 2 + mkfs_nlog + ninodeblocks + nbitmap.
Definition nblocks : Z := FSSIZE - nmeta.

(** The globals that change: the image behind [fsfd] and the two counters. *)
Record mkst := Mk {
  mk_img : list (list Z);
  mk_freeinode : Z;
  mk_freeblock : Z
}.

Abbreviation MK := (K mkst).

Definition set_img (img : list (list Z)) (s : mkst) : mkst := Mk img (mk_freeinode s) (mk_freeblock s).

(** convert to intel byte order *)
Definition xshort (x : Z) : Z := le_dec [u8 x; u8 (Z.shiftr x 8)].
Definition xint (x : Z) : Z := le_dec [u8 x; u8 (Z.shiftr x 8); u8 (Z.shiftr x 16); u8 (Z.shiftr x 24)].

Definition mk_sb : superblock :=
  Superblock (xint FSSIZE) (xint nblocks) (xint NINODES) (xint mkfs_nlog) (xint 2) (xint (2 + mkfs_nlog))
    (xint (2 + mkfs_nlog + ninodeblocks)).

(** [memmove(buf, &sb, sizeof(sb))] *)
Definition sb_bytes (sb : superblock) : list Z :=
  [sb_size sb; sb_nblocks sb; sb_ninodes sb; sb_nlog sb; sb_logstart sb; sb_inodestart sb; sb_bmapstart sb] ≫= le_enc 4.

(** ** Sectors *)

(** A write past the end leaves a hole of zeroes. *)
Definition wsect (sec : Z) (buf : list Z) : MK unit :=
  modify (λ s, let img := mk_img s in
    let n := Z.to_nat (u32 sec) in
    set_img (if (n <? length img)%nat then <[n := buf]> img
             else img ++ replicate (n - length img) zero_block ++ [buf]) s).

Definition rsect (sec : Z) : MK (list Z) :=
  img ← gets mk_img;
  of_option (FPanic "read") (img !! Z.to_nat (u32 sec)).

(** ** Inodes *)

Definition winode (inum : Z) (d : dinode) : MK unit :=
  let bn := IBLOCK inum mk_sb in
  buf ← rsect bn;
  wsect bn (dinode_put (dinode_off inum) d buf).

Definition rinode (inum : Z) : MK dinode :=
  buf ← rsect (IBLOCK inum mk_sb);
  mret (dinode_get buf (dinode_off inum)).

(** [ialloc] of mkfs *)
Definition mk_ialloc (type : Z) : MK Z :=
  inum ← gets mk_freeinode;
  modify (λ s, Mk (mk_img s) (u32 (inum + 1)) (mk_freeblock s)) ;;
  winode inum (Dinode (xshort type) 0 0 (xshort 1) (xint 0) (replicate 13 0)) ;;
  mret inum.

(** [freeblock++] *)
Definition next_block : MK Z :=
  b ← gets mk_freeblock;
  modify (λ s, Mk (mk_img s) (mk_freeinode s) (u32 (b + 1))) ;;
  mret b.

Definition set_di_addr (n a : Z) (d : dinode) : dinode :=
  Dinode (di_type d) (di_major d) (di_minor d) (di_nlink d) (di_size d) (<[Z.to_nat n := a]> (di_addrs d)).
Definition set_di_size (n : Z) (d : dinode) : dinode :=
  Dinode (di_type d) (di_major d) (di_minor d) (di_nlink d) n (di_addrs d).

(** [din.addrs[n]], with a new block in it if it is 0. *)
Definition addr_or_new (n : Z) (d : dinode) : MK dinode :=
  if xint (di_addrs d !!! Z.to_nat n) =? 0 then b ← next_block; mret (set_di_addr n (xint b) d)
  else mret d.

(** The block of the file that [iappend] writes, and the inode then. *)
Definition iappend_block (fbn : Z) (d : dinode) : MK (Z * dinode) :=
  if fbn <? NDIRECT then
    d ← addr_or_new fbn d;
    mret (xint (di_addrs d !!! Z.to_nat fbn), d)
  else
    d ← addr_or_new NDIRECT d;
    let ind := xint (di_addrs d !!! Z.to_nat NDIRECT) in
    indirect ← rsect ind;
    let i := Z.to_nat (4 * (fbn - NDIRECT)) in
    indirect ← (if get_u32 indirect i =? 0 then
                  b ← next_block;
                  let indirect := put_u32 i (xint b) indirect in
                  wsect ind indirect ;; mret indirect
                else mret indirect);
    mret (xint (get_u32 indirect i), d).

(** The loop of [iappend] on the bytes [p] left to append. *)
Fixpoint iappend_loop (fuel : nat) (d : dinode) (off : Z) (p : list Z) : MK (dinode * Z) :=
  match fuel with
  | O => undef "iappend: out of fuel"
  | S fuel =>
      let n := Z.of_nat (length p) in
      if 0 <? n then
        let fbn := off / BSIZE in
        if negb (fbn <? MAXFILE) then panic "assert: fbn < MAXFILE" else
        r ← iappend_block fbn d;
        let '(x, d) := r in
        let n1 := Z.min n ((fbn + 1) * BSIZE - off) in
        buf ← rsect x;
        wsect x (splice (Z.to_nat (off - fbn * BSIZE)) (take (Z.to_nat n1) p) buf) ;;
        iappend_loop fuel d (u32 (off + n1)) (drop (Z.to_nat n1) p)
      else mret (d, off)
  end.

Definition iappend (inum : Z) (p : list Z) : MK unit :=
  d ← rinode inum;
  let off := xint (di_size d) in
  r ← iappend_loop (Z.to_nat (Z.of_nat (length p) / BSIZE + 3)) d off p;
  let '(d, off) := r in
  winode inum (set_di_size (xint off) d).

(** ** The bitmap *)

(** [balloc] of mkfs: the first [used] blocks are allocated. *)
Definition mk_balloc (used : Z) : MK unit :=
  if negb (used <? BSIZE * 8) then panic "assert: used < BSIZE*8" else
  wsect (sb_bmapstart mk_sb) (foldl set_bit zero_block (seqZ 0 used)).

(** ** main *)

(** A file named on the command line: [None] if it cannot be opened, or what
    its [read]s return one after the other. *)
Record hostfile := HostFile { hf_name : list Z; hf_reads : option (list (list Z)) }.

Definition mk_dirent (inum : Z) (name : list Z) : list Z := dirent_put (Dirent (xshort inum) (strncpy name 14)).

(** The name in the file system: a leading _ is skipped. *)
Definition skip_underscore (name : list Z) : list Z :=
  match name with c :: name' => if c =? 95 then name' else name | [] => [] end.

Definition add_file (rootino : Z) (f : hostfile) : MK unit :=
  if bool_decide (SLASH ∈ hf_name f) then panic "assert: index(argv[i], '/') == 0" else
  match hf_reads f with
  | None => panic "open"
  | Some reads =>
      inum ← mk_ialloc T_FILE;
      iappend rootino (mk_dirent inum (skip_underscore (hf_name f))) ;;
      for_each reads (iappend inum)
  end.

(** The image before the first inode: every sector zero, then the super block. *)
Definition mk_format : MK unit :=
  modify (λ s, Mk (mk_img s) (mk_freeinode s) nmeta) ;;
  for_each (seqZ 0 FSSIZE) (λ i, wsect i zero_block) ;;
  wsect 1 (splice 0 (sb_bytes mk_sb) zero_block).

(** fix size of root inode dir *)
Definition fix_root (rootino : Z) : MK unit :=
  d ← rinode rootino;
  let off := xint (di_size d) in
  let off := u32 ((off / BSIZE + 1) * BSIZE) in
  winode rootino (set_di_size (xint off) d).

(** [argc], whether the image file can be opened, and the files named. *)
Definition mkfs_main (argc : Z) (img_opens : bool) (files : list hostfile) : MK unit :=
  if argc <? 2 then panic "Usage: mkfs fs.img files..." else
  if negb (BSIZE mod DINODE_SIZE =? 0) then panic "assert: BSIZE % sizeof(struct dinode)" else
  if negb (BSIZE mod DIRENT_SIZE =? 0) then panic "assert: BSIZE % sizeof(struct dirent)" else
  if negb img_opens then panic "open" else
  mk_format ;;
  rootino ← mk_ialloc T_DIR;
  if negb (rootino =? ROOTINO) then panic "assert: rootino == ROOTINO" else
  iappend rootino (mk_dirent rootino [46]) ;;
  iappend rootino (mk_dirent rootino [46; 46]) ;;
  for_each files (add_file rootino) ;;
  fix_root rootino ;;
  fb ← gets mk_freeblock;
  mk_balloc fb.

(** What the program starts with: an empty file. *)
Definition mk_start : mkst := Mk [] 1 0.
