(* ===== verification/MkfsImage.v ===== *)
(** * MkfsImage: what is in the image mkfs makes

    The layout of an image in the making: which block each part of each file
    is in, and which are still unused. [iappend] adds to one file and leaves
    the others alone; [mkfs_image] is the image of the whole program, read
    with the definitions of [Content] that the kernel's [readi] is shown to
    compute. *)

From S2P Require Import Prelude State Bio Log LogOps LogCrash Fs Demo Balloc Content Grow Inode Mkfs.

(** ** Sectors as blocks *)

Lemma xint_u32 x : xint x = u32 x.
Proof.
  unfold xint. rewrite !Z.shiftr_div_pow2 by lia. simpl. unfold u8, u32.
  pose proof (Z.div_mod x 256). pose proof (Z.div_mod (x / 256) 256). pose proof (Z.div_mod (x / 256 / 256) 256).
  pose proof (Z.div_mod (x / 256 / 256 / 256) 256).
  change (2 ^ 8) with 256. change (2 ^ 16) with (256 * 256). change (2 ^ 24) with (256 * 256 * 256).
  rewrite <- !Z.div_div by lia.
  apply (Z.mod_unique _ _ (x / 256 / 256 / 256 / 256)); [left|lia].
  pose proof (Z.mod_pos_bound x 256 ltac:(lia)). pose proof (Z.mod_pos_bound (x / 256) 256 ltac:(lia)).
  pose proof (Z.mod_pos_bound (x / 256 / 256) 256 ltac:(lia)). pose proof (Z.mod_pos_bound (x / 256 / 256 / 256) 256 ltac:(lia)).
  lia.
Qed.

Lemma xint_small x : 0 ≤ x < 2 ^ 32 → xint x = x.
Proof. intros. rewrite xint_u32. by apply u32_small. Qed.

Lemma xshort_small x : 0 ≤ x < 2 ^ 16 → xshort x = x.
Proof.
  intros Hx. unfold xshort. rewrite Z.shiftr_div_pow2 by lia. simpl. unfold u8. change (2 ^ 8) with 256.
  pose proof (Z.div_mod x 256). rewrite (Z.mod_small (x / 256)); [lia|].
  split; [apply Z.div_pos; lia|apply Z.div_lt_upper_bound; lia].
Qed.

(** The sectors, as a view of blocks of the root device. *)
Definition iv (img : list (list Z)) (k : bkey) : list Z :=
  if (k.1 =? ROOTDEV) && (0 <=? k.2) then default zero_block (img !! Z.to_nat k.2) else zero_block.

(** The state of mkfs holds the blocks [v] and the counters. *)
Record rep (s : mkst) (v : bkey → list Z) (fi fb : Z) : Prop := Rep {
  rep_len : length (mk_img s) = 1000%nat;
  rep_v : ∀ k, iv (mk_img s) k = v k;
  rep_fi : mk_freeinode s = fi;
  rep_fb : mk_freeblock s = fb
}.

Lemma wp_rsect s v fi fb b Q : rep s v fi fb → 0 ≤ b < FSSIZE → Q (v (ROOTDEV, b)) s → wp (rsect b) Q s.
Proof.
  intros [Hl Hv _ _] Hb HQ. unfold rsect. apply wp_bind, wp_gets. rewrite u32_small by klia.
  rewrite <- Hv in HQ. unfold iv in HQ. simpl in HQ. rewrite (proj2 (Z.leb_le 0 b)) in HQ by lia.
  destruct (mk_img s !! Z.to_nat b) as [d|] eqn:E; [done|].
  apply lookup_ge_None in E. klia.
Qed.

Lemma wp_wsect s v fi fb b d Q :
  rep s v fi fb → 0 ≤ b < FSSIZE → (∀ s', rep s' (vset b d v) fi fb → Q tt s') → wp (wsect b d) Q s.
Proof.
  intros [Hl Hv Hi Hf] Hb HQ. unfold wsect. apply wp_modify. apply HQ. rewrite u32_small by klia.
  rewrite (proj2 (Nat.ltb_lt _ _)) by klia. constructor; simpl; [by rewrite length_insert| |done..].
  intros [dev b']. unfold vset, iv. simpl. case_decide as Hk.
  - simplify_eq. rewrite Z.eqb_refl, (proj2 (Z.leb_le 0 b)) by lia. simpl.
    by rewrite list_lookup_insert_eq by klia.
  - rewrite <- Hv. unfold iv. simpl. destruct (Z.eqb_spec dev ROOTDEV), (Z.leb_spec 0 b'); try done. simpl.
    rewrite list_lookup_insert_ne; [done|]. intros ?. apply Hk. f_equal; [done|lia].
Qed.

Lemma wp_next_block s v fi fb Q :
  rep s v fi fb → 0 ≤ fb < FSSIZE → (∀ s', rep s' v fi (fb + 1) → Q fb s') → wp next_block Q s.
Proof.
  intros [Hl Hv Hi Hf] Hb HQ. unfold next_block. apply wp_bind, wp_gets, wp_bind, wp_modify, wp_ret. rewrite Hf.
  apply HQ. rewrite u32_small by klia. by constructor.
Qed.

(** ** The parts of a file *)

Definition ino (d : dinode) : inode :=
  Inode ROOTDEV 0 0 None 0 (di_type d) (di_major d) (di_minor d) (di_nlink d) (di_size d) (di_addrs d).

(** The address of part [k]: block [k] of the file, or its indirect block
    for [k = MAXFILE]. *)
Definition cell (v : bkey → list Z) (d : dinode) (k : Z) : Z :=
  if k =? MAXFILE then iaddr (ino d) NDIRECT else blk_of v (ino d) k.

Definition upd (j : Z) (d : dinode) (D : Z → dinode) (j' : Z) : dinode := if decide (j' = j) then d else D j'.

(** The files [1 .. fi-1] with inodes [D] in the blocks [v], of which those
    from [fb] on are unused; [L j k]: file [j] has part [k]. *)
Record layout (v : bkey → list Z) (D : Z → dinode) (fi fb : Z) (L : Z → Z → Prop) : Prop := Layout {
  la_fb : nmeta ≤ fb ≤ FSSIZE;
  la_blk : ∀ b, block_ok (v (ROOTDEV, b));
  la_zero : ∀ b, fb ≤ b → v (ROOTDEV, b) = zero_block;
  la_D : ∀ j, 1 ≤ j < fi → dinode_ok (D j);
  la_dec : ∀ j k, L j k ∨ ¬ L j k;
  la_dom : ∀ j k, L j k → 0 ≤ k ≤ MAXFILE;
  la_ind : ∀ j k, L j k → NDIRECT ≤ k → L j MAXFILE;
  la_used : ∀ j k, 1 ≤ j < fi → L j k → nmeta ≤ cell v (D j) k < fb;
  la_unused : ∀ j k, 1 ≤ j < fi → 0 ≤ k ≤ MAXFILE → ¬ L j k → cell v (D j) k = 0;
  la_inj : ∀ j k j' k', 1 ≤ j < fi → 1 ≤ j' < fi → L j k → L j' k' → cell v (D j) k = cell v (D j') k' → j = j' ∧ k = k';
  la_tail : ∀ j o, 1 ≤ j < fi → di_size (D j) ≤ o → 0 ≤ o < MAXFILE * BSIZE → L j (o / BSIZE) → fbyte v (ino (D j)) o = 0
}.

(** The bytes there are stay the same. *)
Definition same_bytes (fi : Z) (L : Z → Z → Prop) (v v' : bkey → list Z) (D D' : Z → dinode) : Prop :=
  ∀ j o, 1 ≤ j < fi → 0 ≤ o < MAXFILE * BSIZE → L j (o / BSIZE) → fbyte v' (ino (D' j)) o = fbyte v (ino (D j)) o.

Lemma blk_range o : 0 ≤ o < MAXFILE * BSIZE → 0 ≤ o / BSIZE < MAXFILE.
Proof. intros Ho. split; [apply Z.div_pos; klia|apply Z.div_lt_upper_bound; klia]. Qed.

Lemma cell_blk v d k : 0 ≤ k < MAXFILE → cell v d k = blk_of v (ino d) k.
Proof. intros Hk. unfold cell. destruct (Z.eqb_spec k MAXFILE); [lia|done]. Qed.

Lemma fbyte_cell v d o : 0 ≤ o < MAXFILE * BSIZE → fbyte v (ino d) o = v (ROOTDEV, cell v d (o / BSIZE)) !!! Z.to_nat (o mod BSIZE).
Proof. intros Ho. by rewrite cell_blk by by apply blk_range. Qed.

(** One more part of file [j], in the first unused block. *)
Definition with_cell (j k : Z) (L : Z → Z → Prop) (j' k' : Z) : Prop := L j' k' ∨ j' = j ∧ k' = k.

Section alloc.
Context (v : bkey → list Z) (D : Z → dinode) (fi fb : Z) (L : Z → Z → Prop) (Hla : layout v D fi fb L).
Context (j k : Z) (Hj : 1 ≤ j < fi) (Hk : 0 ≤ k ≤ MAXFILE) (Hnew : ¬ L j k) (Hfb : fb < FSSIZE).
Context (Hind : NDIRECT ≤ k < MAXFILE → L j MAXFILE).
Context (v' : bkey → list Z) (D' : Z → dinode).
Context (Hcell : ∀ j' k', 1 ≤ j' < fi → 0 ≤ k' ≤ MAXFILE →
  cell v' (D' j') k' = if decide (j' = j ∧ k' = k) then fb else cell v (D j') k').
Context (Hv' : ∀ b, v' (ROOTDEV, b) = v (ROOTDEV, b) ∨ L j MAXFILE ∧ b = cell v (D j) MAXFILE).
Context (Hblk : ∀ b, block_ok (v' (ROOTDEV, b))).
Context (HD : ∀ j', 1 ≤ j' < fi → dinode_ok (D' j') ∧ di_size (D' j') = di_size (D j')).

Lemma alloc_bytes : same_bytes fi L v v' D D'.
Proof.
  intros j' o Hj' Ho HL. rewrite !fbyte_cell by done. pose proof (blk_range o Ho) as Hr.
  rewrite Hcell by (done || lia). rewrite decide_False by (intros [-> <-]; done).
  destruct (Hv' (cell v (D j') (o / BSIZE))) as [->|[HLm Hc]]; [done|].
  apply (la_inj _ _ _ _ _ Hla) in Hc as [_ ?]; [lia|done..].
Qed.

Lemma alloc_layout : layout v' D' fi (fb + 1) (with_cell j k L).
Proof.
  pose proof Hla as [Hf _ Hz _ Hdec Hdom Hi Hu Hun Hinj Ht].
  assert (Hcl : ∀ j' k', 1 ≤ j' < fi → L j' k' → cell v' (D' j') k' = cell v (D j') k').
  { intros j' k' Hj' HL. rewrite Hcell by (try done; by eapply Hdom). by rewrite decide_False by (intros [-> ->]; done). }
  assert (Hcn : cell v' (D' j) k = fb) by (rewrite Hcell by done; by rewrite decide_True).
  assert (Hlt : ∀ j' k', 1 ≤ j' < fi → L j' k' → cell v (D j') k' < fb) by (intros; by apply Hu).
  constructor.
  - lia.
  - done.
  - intros b Hb. destruct (Hv' b) as [->|[HL ->]]; [apply Hz; lia|]. specialize (Hlt j MAXFILE Hj HL). lia.
  - intros j' Hj'. by apply HD.
  - intros j' k'. unfold with_cell. destruct (Hdec j' k'), (decide (j' = j)), (decide (k' = k)); tauto.
  - intros j' k' [HL|[-> ->]]; [by eapply Hdom|done].
  - intros j' k' [HL|[-> ->]] Hge; [left; by eapply Hi|].
    destruct (decide (k = MAXFILE)) as [->|]; [by right|left; apply Hind; lia].
  - intros j' k' Hj' [HL|[-> ->]]; [rewrite Hcl by done; specialize (Hu j' k' Hj' HL); lia|rewrite Hcn; lia].
  - intros j' k' Hj' Hk' HnL. rewrite Hcell by done. rewrite decide_False by (intros [-> ->]; apply HnL; by right).
    apply Hun; [done..|]. intros HL. apply HnL. by left.
  - intros j1 k1 j2 k2 Hj1 Hj2 [H1|[-> ->]] [H2|[-> ->]]; [| | |done].
    + rewrite !Hcl by done. by apply Hinj.
    + rewrite Hcl, Hcn by done. intros E. specialize (Hlt _ _ Hj1 H1). lia.
    + rewrite Hcn, Hcl by done. intros E. specialize (Hlt _ _ Hj2 H2). lia.
  - intros j' o Hj' Hs Ho HL. destruct (HD j' Hj') as [_ Es]. rewrite Es in Hs.
    destruct HL as [HL|[-> HL]]; [rewrite alloc_bytes by done; by apply Ht|].
    rewrite fbyte_cell by done. rewrite HL, Hcn.
    destruct (Hv' fb) as [->|[HLm E]]; [|specialize (Hlt j MAXFILE Hj HLm); lia].
    rewrite Hz by lia. unfold zero_block. rewrite lookup_total_replicate_2; [done|].
    pose proof (Z.mod_pos_bound o BSIZE ltac:(done)). klia.
Qed.
End alloc.

Lemma iaddr_set d n a m :
  length (di_addrs d) = 13%nat → 0 ≤ n ≤ NDIRECT → 0 ≤ m →
  iaddr (ino (set_di_addr n a d)) m = if decide (m = n) then a else iaddr (ino d) m.
Proof.
  intros Hl Hn Hm. unfold iaddr, set_di_addr. simpl. case_decide as Hc.
  - subst. by rewrite list_lookup_total_insert_eq by klia.
  - rewrite list_lookup_total_insert_ne; [done|]. lia.
Qed.

Lemma dinode_ok_set d n a :
  dinode_ok d → 0 ≤ a < 2 ^ 32 → dinode_ok (set_di_addr n a d).
Proof.
  intros (? & ? & ? & ? & ? & Hl & Ha) Hr. unfold dinode_ok, set_di_addr. simpl.
  split_and!; try done; try lia; [by rewrite length_insert|]. by apply Forall_insert.
Qed.

Lemma cell_ind v d : cell v d MAXFILE = iaddr (ino d) NDIRECT.
Proof. done. Qed.

Lemma cell_direct v d k : 0 ≤ k < NDIRECT → cell v d k = iaddr (ino d) k.
Proof. intros Hk. rewrite cell_blk by klia. unfold blk_of. by rewrite (proj2 (Z.ltb_lt _ _)) by lia. Qed.

Lemma cell_indirect v d k :
  NDIRECT ≤ k < MAXFILE →
  cell v d k = if iaddr (ino d) NDIRECT =? 0 then 0
               else get_u32 (v (ROOTDEV, iaddr (ino d) NDIRECT)) (Z.to_nat (4 * (k - NDIRECT))).
Proof. intros Hk. rewrite cell_blk by klia. unfold blk_of. by rewrite (proj2 (Z.ltb_ge _ _)) by lia. Qed.

(** The kinds of part. *)
Lemma cell_cases k : 0 ≤ k ≤ MAXFILE → 0 ≤ k < NDIRECT ∨ NDIRECT ≤ k < MAXFILE ∨ k = MAXFILE.
Proof. klia. Qed.

Lemma le_dec_zero n : le_dec (replicate n 0) = 0.
Proof. induction n as [|n IH]; [done|]. simpl. by rewrite IH. Qed.

Section new.
Context (v : bkey → list Z) (D : Z → dinode) (fi fb : Z) (L : Z → Z → Prop) (Hla : layout v D fi fb L).
Context (j : Z) (Hj : 1 ≤ j < fi) (Hfb : fb < FSSIZE).

Lemma fb_word : 0 ≤ fb < 2 ^ 32 ∧ fb ≠ 0.
Proof. pose proof (la_fb _ _ _ _ _ Hla) as H. change nmeta with 59 in H. klia. Qed.

Lemma upd_ok n : ∀ j', 1 ≤ j' < fi →
  dinode_ok (upd j (set_di_addr n fb (D j)) D j') ∧ di_size (upd j (set_di_addr n fb (D j)) D j') = di_size (D j').
Proof.
  intros j' Hj'. pose proof (la_D _ _ _ _ _ Hla) as HD. unfold upd. case_decide as Hc; [subst j'|by split; [apply HD|]].
  split; [|done]. apply dinode_ok_set; [by apply HD|apply fb_word].
Qed.

Lemma new_direct k (D' := upd j (set_di_addr k fb (D j)) D) :
  0 ≤ k < NDIRECT → ¬ L j k → layout v D' fi (fb + 1) (with_cell j k L) ∧ same_bytes fi L v v D D'.
Proof.
  intros Hk Hnew. assert (Hlen : length (di_addrs (D j)) = 13%nat) by by apply (la_D _ _ _ _ _ Hla).
  assert (Hcell : ∀ j' k', 1 ≤ j' < fi → 0 ≤ k' ≤ MAXFILE →
    cell v (D' j') k' = if decide (j' = j ∧ k' = k) then fb else cell v (D j') k').
  { intros j' k' Hj' Hk'. unfold D', upd. destruct (decide (j' = j)) as [->|Hne].
    2: { by rewrite decide_False by (intros [? _]; done). }
    assert (Hi : ∀ m, 0 ≤ m → m ≠ k → iaddr (ino (set_di_addr k fb (D j))) m = iaddr (ino (D j)) m).
    { intros m Hm Hmk. rewrite iaddr_set by klia. by rewrite decide_False. }
    destruct (cell_cases k' Hk') as [Hd|[Hd| ->]].
    - rewrite !cell_direct by done. rewrite iaddr_set by klia.
      destruct (decide (k' = k)); [by rewrite decide_True|by rewrite decide_False by tauto].
    - rewrite !cell_indirect by done. rewrite Hi by klia. by rewrite decide_False by klia.
    - rewrite !cell_ind, Hi by klia. by rewrite decide_False by klia. }
  assert (Hv' : ∀ b, v (ROOTDEV, b) = v (ROOTDEV, b) ∨ L j MAXFILE ∧ b = cell v (D j) MAXFILE) by by left.
  pose proof (la_blk _ _ _ _ _ Hla) as Hb. split.
  - eapply (alloc_layout v D fi fb L Hla j k); try done; try klia. apply upd_ok.
  - eapply (alloc_bytes v D fi fb L Hla j k); try done; klia.
Qed.

Lemma new_indirect (D' := upd j (set_di_addr NDIRECT fb (D j)) D) :
  ¬ L j MAXFILE → layout v D' fi (fb + 1) (with_cell j MAXFILE L) ∧ same_bytes fi L v v D D'.
Proof.
  intros Hnew. assert (Hlen : length (di_addrs (D j)) = 13%nat) by by apply (la_D _ _ _ _ _ Hla).
  assert (Hcell : ∀ j' k', 1 ≤ j' < fi → 0 ≤ k' ≤ MAXFILE →
    cell v (D' j') k' = if decide (j' = j ∧ k' = MAXFILE) then fb else cell v (D j') k').
  { intros j' k' Hj' Hk'. unfold D', upd. destruct (decide (j' = j)) as [->|Hne].
    2: { by rewrite decide_False by (intros [? _]; done). }
    destruct (cell_cases k' Hk') as [Hd|[Hd| ->]].
    - rewrite decide_False by klia. rewrite !cell_direct by done. rewrite iaddr_set by klia. by rewrite decide_False by klia.
    - rewrite decide_False by klia. rewrite cell_indirect, iaddr_set by (done || klia). rewrite decide_True by done.
      rewrite (la_unused _ _ _ _ _ Hla j k'); [|done|done|intros HL; apply Hnew; apply (la_ind _ _ _ _ _ Hla j k'); [done|klia]].
      rewrite (proj2 (Z.eqb_neq _ _)) by apply fb_word. rewrite (la_zero _ _ _ _ _ Hla) by lia.
      unfold get_u32, slice, zero_block. rewrite drop_replicate, take_replicate. apply le_dec_zero.
    - rewrite cell_ind, iaddr_set by klia. by rewrite !decide_True. }
  assert (Hv' : ∀ b, v (ROOTDEV, b) = v (ROOTDEV, b) ∨ L j MAXFILE ∧ b = cell v (D j) MAXFILE) by by left.
  pose proof (la_blk _ _ _ _ _ Hla) as Hb. split.
  - eapply (alloc_layout v D fi fb L Hla j MAXFILE); try done; try klia. apply upd_ok.
  - eapply (alloc_bytes v D fi fb L Hla j MAXFILE); try done; klia.
Qed.

Lemma new_entry k (ind := cell v (D j) MAXFILE)
    (v' := vset ind (put_u32 (Z.to_nat (4 * (k - NDIRECT))) fb (v (ROOTDEV, ind))) v) :
  NDIRECT ≤ k < MAXFILE → L j MAXFILE → ¬ L j k →
  layout v' D fi (fb + 1) (with_cell j k L) ∧ same_bytes fi L v v' D D.
Proof.
  intros Hk HLm Hnew. pose proof (la_blk _ _ _ _ _ Hla) as Hb. destruct fb_word as [Hw Hw0].
  pose proof (la_used _ _ _ _ _ Hla j MAXFILE Hj HLm) as Hu. change nmeta with 59 in Hu.
  assert (Hlen : (Z.to_nat (4 * (k - NDIRECT)) + 4 ≤ length (v (ROOTDEV, ind)))%nat) by (destruct (Hb ind) as [-> _]; klia).
  assert (Hcell : ∀ j' k', 1 ≤ j' < fi → 0 ≤ k' ≤ MAXFILE →
    cell v' (D j') k' = if decide (j' = j ∧ k' = k) then fb else cell v (D j') k').
  { intros j' k' Hj' Hk'. destruct (cell_cases k' Hk') as [Hd|[Hd| ->]].
    - rewrite !cell_direct by done. by rewrite decide_False by klia.
    - rewrite !cell_indirect by done. destruct (decide (j' = j)) as [->|Hne].
      + change (iaddr (ino (D j)) NDIRECT) with ind. rewrite (proj2 (Z.eqb_neq ind 0)) by (unfold ind; lia).
        unfold v'. rewrite vset_eq. destruct (decide (k' = k)) as [->|Hne'].
        * rewrite decide_True by done. rewrite get_put_u32_eq by done. by apply u32_small.
        * rewrite decide_False by tauto. apply get_put_u32_ne; [done|klia].
      + rewrite decide_False by tauto. destruct (Z.eqb_spec (iaddr (ino (D j')) NDIRECT) 0) as [|Hnz]; [done|].
        unfold v'. rewrite vset_ne; [done|]. intros E. destruct (la_dec _ _ _ _ _ Hla j' MAXFILE) as [HL'|HL'].
        * by apply (la_inj _ _ _ _ _ Hla j' MAXFILE j MAXFILE) in E as [? _].
        * apply Hnz, (la_unused _ _ _ _ _ Hla j' MAXFILE); [done|done|done].
    - by rewrite decide_False by klia. }
  assert (Hv' : ∀ b, v' (ROOTDEV, b) = v (ROOTDEV, b) ∨ L j MAXFILE ∧ b = ind).
  { intros b. unfold v'. destruct (decide (b = ind)) as [->|]; [by right|left; by rewrite vset_ne]. }
  split.
  - eapply (alloc_layout v D fi fb L Hla j k); try done; try klia.
    + intros b. unfold v', vset. case_decide; [|done]. apply put_u32_ok; [klia|done].
    + intros j' Hj'. split; [by apply (la_D _ _ _ _ _ Hla)|done].
  - eapply (alloc_bytes v D fi fb L Hla j k); try done; klia.
Qed.
End new.

(** ** Writing a block of a file *)

Section write.
Context (v : bkey → list Z) (D : Z → dinode) (fi fb : Z) (L : Z → Z → Prop) (Hla : layout v D fi fb L).
Context (j k sz : Z) (Hj : 1 ≤ j < fi) (Hk : 0 ≤ k < MAXFILE) (HL : L j k).
Context (data : list Z) (Hdata : block_ok data) (Hsz : di_size (D j) ≤ sz < 2 ^ 32).
Context (Htail : ∀ o, sz ≤ o → o / BSIZE = k → data !!! Z.to_nat (o mod BSIZE) = 0).
Let v' := vset (cell v (D j) k) data v.
Let D' := upd j (set_di_size sz (D j)) D.

Lemma write_cell j' k' : 1 ≤ j' < fi → 0 ≤ k' ≤ MAXFILE → cell v' (D' j') k' = cell v (D j') k'.
Proof.
  intros Hj' Hk'. transitivity (cell v' (D j') k').
  { unfold D', upd. by case_decide; [subst|]. }
  destruct (cell_cases k' Hk') as [Hd|[Hd| ->]].
  - by rewrite !cell_direct.
  - rewrite !cell_indirect by done. destruct (Z.eqb_spec (iaddr (ino (D j')) NDIRECT) 0) as [|Hnz]; [done|].
    unfold v'. rewrite vset_ne; [done|]. intros E. destruct (la_dec _ _ _ _ _ Hla j' MAXFILE) as [HL'|HL'].
    + apply (la_inj _ _ _ _ _ Hla j' MAXFILE j k) in E as [_ ?]; [klia|done..].
    + by apply Hnz, (la_unused _ _ _ _ _ Hla j' MAXFILE).
  - done.
Qed.

Lemma write_other j' o :
  1 ≤ j' < fi → 0 ≤ o < MAXFILE * BSIZE → L j' (o / BSIZE) → ¬ (j' = j ∧ o / BSIZE = k) →
  fbyte v' (ino (D' j')) o = fbyte v (ino (D j')) o.
Proof.
  intros Hj' Ho HL' Hne. pose proof (blk_range o Ho). rewrite !fbyte_cell, write_cell by (done || lia).
  unfold v'. rewrite vset_ne; [done|]. intros E. by apply (la_inj _ _ _ _ _ Hla) in E.
Qed.

Lemma write_here o : 0 ≤ o < MAXFILE * BSIZE → o / BSIZE = k → fbyte v' (ino (D' j)) o = data !!! Z.to_nat (o mod BSIZE).
Proof.
  intros Ho E. rewrite fbyte_cell, write_cell by (done || klia). rewrite E. unfold v'. by rewrite vset_eq.
Qed.

Lemma write_layout : layout v' D' fi fb L.
Proof.
  pose proof Hla as [Hf Hb Hz HD Hdec Hdom Hi Hu Hun Hinj Ht]. constructor; try done.
  - intros b. unfold v', vset. by case_decide.
  - intros b Hfb. unfold v'. rewrite vset_ne; [by apply Hz|]. specialize (Hu j k Hj HL). lia.
  - intros j' Hj'. unfold D', upd. case_decide; [subst|by apply HD]. pose proof (HD j Hj) as (? & ? & ? & ? & ? & ? & ?).
    unfold dinode_ok. simpl. split_and!; try done; lia.
  - intros j' k' Hj' HL'. rewrite write_cell by (try done; by eapply Hdom). by apply Hu.
  - intros j' k' Hj' Hk' HL'. rewrite write_cell by done. by apply Hun.
  - intros j1 k1 j2 k2 Hj1 Hj2 H1 H2. rewrite !write_cell by (try done; by eapply Hdom). by apply Hinj.
  - intros j' o Hj' Hs Ho HL'. destruct (decide (j' = j ∧ o / BSIZE = k)) as [[-> E]|Hne].
    + rewrite write_here by done. apply Htail; [|done]. unfold D', upd in Hs. by rewrite decide_True in Hs.
    + rewrite write_other by done. apply Ht; try done. unfold D', upd in Hs. case_decide; [subst; simpl in Hs; lia|done].
Qed.
End write.

(** ** One turn of [iappend] *)

(** The parts a file of [size] bytes has. *)
Definition live_cell (k size : Z) : Prop :=
  0 ≤ k < MAXFILE ∧ k * BSIZE < size ∨ k = MAXFILE ∧ NDIRECT * BSIZE < size.
Definition live (D : Z → dinode) (j k : Z) : Prop := live_cell k (di_size (D j)).

(** The blocks it takes. *)
Definition nb (size : Z) : Z := (size + (BSIZE - 1)) / BSIZE + (if NDIRECT * BSIZE <? size then 1 else 0).

Lemma layout_ext v D fi fb L L' : (∀ j k, L j k ↔ L' j k) → layout v D fi fb L → layout v D fi fb L'.
Proof.
  intros HL [Hf Hb Hz HD Hdec Hdom Hi Hu Hun Hinj Ht].
  constructor; try done; intros; try (rewrite <- HL in *); eauto.
Qed.

Section turn.
Context (off n1 : Z) (Hoff : 0 ≤ off < MAXFILE * BSIZE) (Hn1 : 1 ≤ n1 ≤ BSIZE - off mod BSIZE).
Let fbn := off / BSIZE.

Lemma turn_div : off = BSIZE * fbn + off mod BSIZE ∧ 0 ≤ off mod BSIZE < BSIZE ∧ 0 ≤ fbn < MAXFILE.
Proof.
  split_and!; try apply (Z.mod_pos_bound off BSIZE ltac:(done)); try by apply blk_range. apply Z.div_mod. done.
Qed.

Lemma live_turn k : live_cell k (off + n1) ↔ live_cell k off ∨ k = fbn ∨ k = MAXFILE ∧ NDIRECT ≤ fbn.
Proof. pose proof turn_div. unfold live_cell. kunfold. lia. Qed.

Lemma live_fbn : live_cell fbn off ↔ off mod BSIZE ≠ 0.
Proof. pose proof turn_div. unfold live_cell. kunfold. lia. Qed.

Lemma live_ind : live_cell MAXFILE off ↔ NDIRECT * BSIZE < off.
Proof. unfold live_cell. kunfold. lia. Qed.

Lemma nb_turn : nb (off + n1) = nb off + (if decide (off mod BSIZE = 0) then 1 else 0) +
  (if decide (off = NDIRECT * BSIZE) then 1 else 0).
Proof.
  pose proof turn_div as (E & Hm & Hf). unfold nb.
  assert (E1 : (off + n1 + (BSIZE - 1)) / BSIZE = fbn + 1).
  { symmetry. apply (Z.div_unique _ _ _ (off + n1 + (BSIZE - 1) - BSIZE * (fbn + 1))); [left|]; klia. }
  rewrite E1. case_decide as Hz.
  - assert (E2 : (off + (BSIZE - 1)) / BSIZE = fbn).
    { symmetry. apply (Z.div_unique _ _ _ (BSIZE - 1)); [left|]; klia. }
    rewrite E2. destruct (Z.ltb_spec (NDIRECT * BSIZE) (off + n1)), (Z.ltb_spec (NDIRECT * BSIZE) off); case_decide; klia.
  - assert (E2 : (off + (BSIZE - 1)) / BSIZE = fbn + 1).
    { symmetry. apply (Z.div_unique _ _ _ (off mod BSIZE - 1)); [left|]; klia. }
    rewrite E2. rewrite decide_False by (intros ->; apply Hz; done).
    destruct (Z.ltb_spec (NDIRECT * BSIZE) (off + n1)), (Z.ltb_spec (NDIRECT * BSIZE) off); klia.
Qed.
End turn.

Lemma layout_extD v D D' fi fb L : (∀ j, D' j = D j) → layout v D fi fb L → layout v D' fi fb L.
Proof.
  intros HD' [Hf Hb Hz HD Hdec Hdom Hi Hu Hun Hinj Ht]. constructor; try done; intros *; rewrite ?HD'; eauto.
Qed.

Lemma same_bytes_extD fi L v v' D D' D'' : (∀ j, D'' j = D' j) → same_bytes fi L v v' D D' → same_bytes fi L v v' D D''.
Proof. intros HD Hs j o. rewrite HD. apply Hs. Qed.

Lemma same_bytes_trans fi (L L' : Z → Z → Prop) v1 v2 v3 D1 D2 D3 :
  (∀ j k, L j k → L' j k) → same_bytes fi L v1 v2 D1 D2 → same_bytes fi L' v2 v3 D2 D3 → same_bytes fi L v1 v3 D1 D3.
Proof. intros HL H1 H2 j o Hj Ho HLj. rewrite H2 by auto. by apply H1. Qed.

Lemma upd_same j d D : D j = d → ∀ j', upd j d D j' = D j'.
Proof. intros <- j'. unfold upd. by case_decide; [subst|]. Qed.

(** What [iappend] leaves of an inode. *)
Definition attrs (d : dinode) : Z * Z * Z * Z := (di_type d, di_major d, di_minor d, di_nlink d).

(** The blocks before the data are the same. *)
Definition meta_same (v v' : bkey → list Z) : Prop := ∀ b, b < nmeta → v' (ROOTDEV, b) = v (ROOTDEV, b).

Lemma meta_same_vset v b d : nmeta ≤ b → meta_same v (vset b d v).
Proof. intros Hb b' Hb'. by rewrite vset_ne by lia. Qed.

Lemma meta_same_trans v1 v2 v3 : meta_same v1 v2 → meta_same v2 v3 → meta_same v1 v3.
Proof. intros H1 H2 b Hb. by rewrite H2, H1. Qed.

Section block.
Context (v : bkey → list Z) (D : Z → dinode) (fi fb : Z) (L : Z → Z → Prop) (Hla : layout v D fi fb L).
Context (j off : Z) (d : dinode) (Hj : 1 ≤ j < fi) (HDj : D j = set_di_size off d).

(** What is left of the layout after file [j] got parts. *)
Definition opened_block (L' : Z → Z → Prop) (v1 : bkey → list Z) (d1 : dinode) (fb1 : Z) (s1 : mkst) : Prop :=
  rep s1 v1 fi fb1 ∧ layout v1 (upd j (set_di_size off d1) D) fi fb1 L' ∧
  same_bytes fi L v v1 D (upd j (set_di_size off d1) D) ∧ attrs d1 = attrs (D j) ∧ meta_same v v1.

Lemma addr_cell n : 0 ≤ n ≤ NDIRECT →
  xint (di_addrs d !!! Z.to_nat n) = iaddr (ino (D j)) n ∧ 0 ≤ iaddr (ino (D j)) n < 2 ^ 32.
Proof.
  intros Hn. assert (Hok : dinode_ok (D j)) by by apply (la_D _ _ _ _ _ Hla).
  assert (Hr : 0 ≤ iaddr (ino (D j)) n < 2 ^ 32).
  { destruct Hok as (_ & _ & _ & _ & _ & Hl & Ha). unfold iaddr, ino. cbn [i_addrs].
    apply (Forall_lookup_total_1 (λ a, 0 ≤ a < 2 ^ 32)); [done|]. rewrite Hl. klia. }
  split; [|done]. rewrite xint_small; [by rewrite HDj|]. by rewrite HDj in Hr.
Qed.

(** [din.addrs[n]] with [n] the direct block [k], or the indirect one. *)
Lemma wp_addr_or_new s n k Q :
  rep s v fi fb → 0 ≤ n < NDIRECT ∧ k = n ∨ n = NDIRECT ∧ k = MAXFILE → (¬ L j k → fb < FSSIZE) →
  (∀ d1 s1, opened_block (with_cell j k L) v d1 (if decide (iaddr (ino (D j)) n = 0) then fb + 1 else fb) s1 →
     cell v (set_di_size off d1) k = (if decide (iaddr (ino (D j)) n = 0) then fb else iaddr (ino (D j)) n) →
     Q d1 s1) →
  wp (addr_or_new n d) Q s.
Proof.
  intros Hrep Hn Hfb HQ. destruct (addr_cell n) as [Ex Hr]; [klia|]. unfold addr_or_new. rewrite Ex.
  assert (Hc : cell v (D j) k = iaddr (ino (D j)) n) by (destruct Hn as [[? ->]|[-> ->]]; [by apply cell_direct|done]).
  destruct (Z.eqb_spec (iaddr (ino (D j)) n) 0) as [Hz|Hz].
  - rewrite !decide_True in HQ by done.
    assert (HnL : ¬ L j k) by (intros HL; pose proof (la_used _ _ _ _ _ Hla j k Hj HL) as Hu; change nmeta with 59 in Hu; lia).
    specialize (Hfb HnL). pose proof (la_fb _ _ _ _ _ Hla) as Hf. change nmeta with 59 in Hf.
    apply wp_bind. eapply wp_next_block; [done|klia|]. intros s1 Hrep1. apply wp_ret. rewrite xint_small by klia.
    assert (Heq : ∀ j', upd j (set_di_size off (set_di_addr n fb d)) D j' = upd j (set_di_addr n fb (D j)) D j')
      by (intros j'; unfold upd; case_decide; [by rewrite HDj|done]).
    assert (Hnew : layout v (upd j (set_di_addr n fb (D j)) D) fi (fb + 1) (with_cell j k L) ∧
      same_bytes fi L v v D (upd j (set_di_addr n fb (D j)) D)).
    { destruct Hn as [[? ->]|[-> ->]]; [by apply new_direct|by apply new_indirect]. }
    destruct Hnew as [Hl Hb]. apply HQ.
    + split_and!; [done|by eapply layout_extD|by eapply same_bytes_extD|by rewrite HDj|done].
    + assert (Hlen : length (di_addrs (D j)) = 13%nat) by by apply (la_D _ _ _ _ _ Hla).
      assert (E : iaddr (ino (set_di_addr n fb (D j))) n = fb) by (rewrite iaddr_set by klia; by rewrite decide_True).
      rewrite HDj in E. destruct Hn as [[? ->]|[-> ->]]; [rewrite cell_direct by done; exact E|exact E].
  - rewrite !decide_False in HQ by done. apply wp_ret, HQ; [|by rewrite <- HDj].
    assert (HL : L j k).
    { destruct (la_dec _ _ _ _ _ Hla j k) as [|HnL]; [done|]. destruct Hz.
      rewrite <- Hc. apply (la_unused _ _ _ _ _ Hla); [done|klia|done]. }
    split_and!; [done| | |by rewrite HDj|done].
    + eapply layout_extD; [by apply upd_same|]. eapply layout_ext; [|exact Hla].
      intros j' k'. unfold with_cell. split; [by left|]. by intros [?|[-> ->]].
    + eapply same_bytes_extD; [by apply upd_same|]. by intros ????.
Qed.

Lemma cell_zero k : 0 ≤ k ≤ MAXFILE → cell v (D j) k = 0 ↔ ¬ L j k.
Proof.
  intros Hk. split; [|by apply (la_unused _ _ _ _ _ Hla)].
  intros Hz HL. pose proof (la_used _ _ _ _ _ Hla j k Hj HL) as Hu. change nmeta with 59 in Hu. lia.
Qed.
End block.

(** The blocks that are new when block [fbn] is opened. *)
Definition new_ind (v : bkey → list Z) (d : dinode) (fbn : Z) : Z :=
  if decide (NDIRECT ≤ fbn ∧ cell v d MAXFILE = 0) then 1 else 0.
Definition new_blk (v : bkey → list Z) (d : dinode) (fbn : Z) : Z := if decide (cell v d fbn = 0) then 1 else 0.

Definition with_block (j fbn : Z) (L : Z → Z → Prop) (j' k : Z) : Prop :=
  L j' k ∨ j' = j ∧ (k = fbn ∨ k = MAXFILE ∧ NDIRECT ≤ fbn).

Lemma wp_block_direct v D fi fb L j off d fbn Q s :
  layout v D fi fb L → 1 ≤ j < fi → D j = set_di_size off d → rep s v fi fb → 0 ≤ fbn < NDIRECT →
  fb + new_blk v (D j) fbn ≤ FSSIZE →
  (∀ v1 d1 s1, opened_block v D fi L j off (with_block j fbn L) v1 d1 (fb + new_blk v (D j) fbn) s1 →
     Q (cell v1 (set_di_size off d1) fbn, d1) s1) →
  wp (iappend_block fbn d) Q s.
Proof.
  intros Hla Hj HDj Hrep Hfbn Hroom HQ. unfold iappend_block. rewrite (proj2 (Z.ltb_lt _ _)) by lia.
  unfold new_blk in *. rewrite (cell_direct v (D j)) in * by done. apply wp_bind.
  apply (wp_addr_or_new v D fi fb L Hla j off d Hj HDj s fbn fbn); [done|by left| |].
  { intros HnL. rewrite decide_True in Hroom; [lia|]. rewrite <- (cell_direct v) by done.
    by apply (la_unused _ _ _ _ _ Hla); [|klia|]. }
  intros d1 s1 Ho Hc. apply wp_ret. pose proof Ho as (Hrep1 & Hla1 & Hb1 & Ha1 & Hm1).
  destruct (addr_cell v _ fi _ _ Hla1 j off d1 Hj) with (n := fbn) as [Ex _]; [unfold upd; by rewrite decide_True|klia|].
  rewrite Ex. unfold upd. rewrite decide_True by done. rewrite <- (cell_direct v) by done. apply HQ.
  replace (fb + _) with (if decide (iaddr (ino (D j)) fbn = 0) then fb + 1 else fb) by (case_decide; lia).
  split_and!; [done| |done|done|done]. eapply layout_ext; [|exact Hla1].
  intros j' k. unfold with_cell, with_block. split; [tauto|]. intros [?|[-> [->|[_ ?]]]]; [by left|by right|lia].
Qed.

Lemma wp_block_indirect v D fi fb L j off d fbn Q s :
  layout v D fi fb L → 1 ≤ j < fi → D j = set_di_size off d → rep s v fi fb → NDIRECT ≤ fbn < MAXFILE →
  fb + new_ind v (D j) fbn + new_blk v (D j) fbn ≤ FSSIZE →
  (∀ v1 d1 s1, opened_block v D fi L j off (with_block j fbn L) v1 d1 (fb + new_ind v (D j) fbn + new_blk v (D j) fbn) s1 →
     Q (cell v1 (set_di_size off d1) fbn, d1) s1) →
  wp (iappend_block fbn d) Q s.
Proof.
  intros Hla Hj HDj Hrep Hfbn Hroom HQ. assert (Hfr : 0 ≤ fbn ≤ MAXFILE) by klia. unfold iappend_block. rewrite (proj2 (Z.ltb_ge _ _)) by lia. apply wp_bind.
  pose proof (cell_zero v D fi fb L Hla j Hj) as Hzero.
  apply (wp_addr_or_new v D fi fb L Hla j off d Hj HDj s NDIRECT MAXFILE); [done|by right| |].
  { intros HnL. unfold new_ind, new_blk in Hroom. rewrite decide_True in Hroom; [case_decide; lia|].
    split; [lia|]. by apply Hzero; [klia|]. }
  intros d1 s1 (Hrep1 & Hla1 & Hb1 & Ha1 & Hm1) Hc. rewrite <- (cell_ind v) in Hc, Hrep1, Hla1.
  set (D1 := upd j (set_di_size off d1) D) in *. set (L1 := with_cell j MAXFILE L) in *.
  assert (Efb : (if decide (cell v (D j) MAXFILE = 0) then fb + 1 else fb) = fb + new_ind v (D j) fbn).
  { unfold new_ind. case_decide; [rewrite decide_True by (split; [lia|done])|rewrite decide_False by tauto]; lia. }
  rewrite Efb in Hrep1, Hla1. set (fb1 := fb + new_ind v (D j) fbn) in *.
  assert (HD1 : D1 j = set_di_size off d1) by (unfold D1, upd; by rewrite decide_True).
  assert (HL1 : L1 j MAXFILE) by by right.
  pose proof (la_used _ _ _ _ _ Hla1 j MAXFILE Hj HL1) as Hind. change nmeta with 59 in Hind. pose proof (la_fb _ _ _ _ _ Hla1) as Hfb1.
  destruct (addr_cell v D1 fi fb1 L1 Hla1 j off d1 Hj HD1 NDIRECT) as [Ex _]; [klia|]. rewrite Ex.
  rewrite <- (cell_ind v). set (ind := cell v (D1 j) MAXFILE) in *.
  apply wp_bind. eapply wp_rsect; [done|klia|].
  assert (Hcell : get_u32 (v (ROOTDEV, ind)) (Z.to_nat (4 * (fbn - NDIRECT))) = cell v (D1 j) fbn).
  { rewrite cell_indirect by done. rewrite <- (cell_ind v). fold ind. by rewrite (proj2 (Z.eqb_neq ind 0)) by lia. }
  assert (Hnb : new_blk v (D j) fbn = if decide (cell v (D1 j) fbn = 0) then 1 else 0).
  { unfold new_blk. pose proof (cell_zero v D1 fi fb1 L1 Hla1 j Hj fbn Hfr) as Hz1. specialize (Hzero fbn Hfr).
    assert (L1 j fbn ↔ L j fbn) by (unfold L1, with_cell; split; [intros [?|[_ ?]]; [done|lia]|by left]).
    destruct (decide (cell v (D j) fbn = 0)), (decide (cell v (D1 j) fbn = 0)); tauto. }
  rewrite Hcell. destruct (Z.eqb_spec (cell v (D1 j) fbn) 0) as [Hz|Hz].
  - rewrite decide_True in Hnb by done. rewrite Hnb in *. apply wp_bind, wp_bind. eapply wp_next_block; [done|klia|].
    intros s2 Hrep2. apply wp_bind. eapply wp_wsect; [done|klia|]. intros s3 Hrep3. apply wp_ret, wp_ret.
    rewrite (xint_small fb1) in Hrep3 |- * by klia.
    destruct (new_entry v D1 fi fb1 L1 Hla1 j Hj ltac:(lia) fbn) as [Hla3 Hb3]; [done|done|by apply (cell_zero v D1 fi fb1 L1 Hla1 j Hj fbn Hfr)|].
    fold ind in Hla3, Hb3. set (v3 := vset ind _ v) in *.
    assert (Ec : cell v3 (D1 j) fbn = fb1).
    { rewrite cell_indirect by done. rewrite <- (cell_ind v3). change (cell v3 (D1 j) MAXFILE) with ind.
      rewrite (proj2 (Z.eqb_neq ind 0)) by lia. unfold v3. rewrite vset_eq, get_put_u32_eq; [by apply u32_small; klia|].
      destruct (la_blk _ _ _ _ _ Hla1 ind) as [-> _]. klia. }
    rewrite get_put_u32_eq by (destruct (la_blk _ _ _ _ _ Hla1 ind) as [-> _]; klia).
    rewrite (u32_small fb1), (xint_small fb1) by klia. rewrite HD1 in Ec. rewrite <- Ec. apply HQ. split_and!; [done| | |done|apply meta_same_vset; change nmeta with 59; lia].
    + eapply layout_ext; [|exact Hla3]. intros j' k. unfold L1, with_cell, with_block. kunfold.
      split; [intros [[?|?]|?]; [tauto|right; split; [tauto|right; lia]|tauto]|tauto].
    + eapply same_bytes_trans; [|exact Hb1|exact Hb3]. intros j' k HL. by left.
  - rewrite decide_False in Hnb by done. rewrite Hnb, Z.add_0_r in *. apply wp_bind, wp_ret, wp_ret.
    rewrite Hcell. rewrite xint_small.
    2: { pose proof (la_used _ _ _ _ _ Hla1 j fbn Hj) as Hu. change nmeta with 59 in Hu.
      destruct (la_dec _ _ _ _ _ Hla1 j fbn) as [HL|HL]; [specialize (Hu HL); klia|].
      by destruct Hz; apply (la_unused _ _ _ _ _ Hla1); [|klia|]. }
    rewrite HD1. apply HQ. split_and!; [done| |done|done|done]. eapply layout_ext; [|exact Hla1].
    assert (HL : L j fbn) by (destruct (la_dec _ _ _ _ _ Hla j fbn) as [|HL]; [done|]; apply Hzero in HL; [unfold new_blk in Hnb; rewrite decide_True in Hnb by done; lia|lia]).
    intros j' k. unfold L1, with_cell, with_block. split; [intros [?|[-> ->]]; [tauto|right; split; [done|right; lia]]|].
    intros [?|[-> [->|[-> _]]]]; [by left|by left|by right].
Qed.

(** The files whose inodes are [D], in the blocks [v]. *)
Record files_ok (v : bkey → list Z) (D : Z → dinode) (fi fb : Z) : Prop := FilesOk {
  fo_lay : layout v D fi fb (live D);
  fo_size : ∀ j, 1 ≤ j < fi → di_size (D j) ≤ MAXFILE * BSIZE
}.

Lemma live_byte D j o : 0 ≤ o < di_size (D j) → o < MAXFILE * BSIZE → live D j (o / BSIZE).
Proof.
  intros Ho Hm. left. pose proof (blk_range o ltac:(lia)). split; [done|].
  pose proof (Z.mul_div_le o BSIZE ltac:(done)). lia.
Qed.

Lemma same_content fi v v' D D' j :
  same_bytes fi (live D) v v' D D' → 1 ≤ j < fi → di_size (D' j) = di_size (D j) → di_size (D j) ≤ MAXFILE * BSIZE →
  content v' (ino (D' j)) = content v (ino (D j)).
Proof.
  intros Hs Hj Hsz Hm. unfold content. simpl. rewrite Hsz. apply fbytes_ext. intros o Ho.
  apply Hs; [done|lia|]. apply live_byte; lia.
Qed.

Lemma wp_iappend_block v D fi fb j off d n1 Q s :
  files_ok v D fi fb → 1 ≤ j < fi → D j = set_di_size off d → rep s v fi fb →
  0 ≤ off < MAXFILE * BSIZE → 1 ≤ n1 ≤ BSIZE - off mod BSIZE → fb + (nb (off + n1) - nb off) ≤ FSSIZE →
  (∀ v1 d1 s1, opened_block v D fi (live D) j off (λ j' k, live D j' k ∨ j' = j ∧ live_cell k (off + n1)) v1 d1
                 (fb + (nb (off + n1) - nb off)) s1 →
     Q (cell v1 (set_di_size off d1) (off / BSIZE), d1) s1) →
  wp (iappend_block (off / BSIZE) d) Q s.
Proof.
  intros [Hla _] Hj HDj Hrep Hoff Hn1 Hroom HQ. pose proof (turn_div off Hoff) as (Eo & Hm & Hf).
  pose proof (nb_turn off n1 Hoff Hn1) as Hnb. pose proof (cell_zero _ _ _ _ _ Hla j Hj) as Hz.
  assert (Hsz : di_size (D j) = off) by by rewrite HDj.
  assert (E1 : new_blk v (D j) (off / BSIZE) = if decide (off mod BSIZE = 0) then 1 else 0).
  { unfold new_blk. specialize (Hz (off / BSIZE) ltac:(lia)). unfold live in Hz. rewrite Hsz, live_fbn in Hz by done.
    destruct (decide (cell _ _ _ = 0)) as [Hc|Hc], (decide (off mod BSIZE = 0)) as [Ho|Ho]; try done; exfalso.
    - by apply (proj1 Hz Hc).
    - apply Hc, Hz. intros ?. done. }
  assert (E2 : NDIRECT ≤ off / BSIZE → new_ind v (D j) (off / BSIZE) = if decide (off = NDIRECT * BSIZE) then 1 else 0).
  { intros Hge. unfold new_ind. specialize (Hz MAXFILE ltac:(klia)). unfold live in Hz. rewrite Hsz, live_ind in Hz.
    assert (NDIRECT * BSIZE ≤ off) by klia. clear - Hz Hge H.
    destruct (decide (NDIRECT ≤ off / BSIZE ∧ _)) as [[_ Hc]|Hc], (decide (off = NDIRECT * BSIZE)) as [Ho|Ho]; try done; exfalso.
    - apply Hz in Hc. lia.
    - apply Hc. split; [done|]. apply Hz. lia. }
  assert (HL : ∀ j' k, with_block j (off / BSIZE) (live D) j' k ↔ live D j' k ∨ j' = j ∧ live_cell k (off + n1)).
  { intros j' k. unfold with_block, live. rewrite (live_turn off n1) by done. split; [tauto|].
    intros [?|[-> [?|?]]]; [tauto|left; by rewrite Hsz|tauto]. }
  assert (HO : ∀ v1 d1 fb1 s1, opened_block v D fi (live D) j off (with_block j (off / BSIZE) (live D)) v1 d1 fb1 s1 →
    opened_block v D fi (live D) j off (λ j' k, live D j' k ∨ j' = j ∧ live_cell k (off + n1)) v1 d1 fb1 s1).
  { intros v1 d1 fb1 s1 (? & ? & ? & ? & ?). split_and!; [done| |done|done|done]. by eapply layout_ext. }
  destruct (decide (NDIRECT ≤ off / BSIZE)) as [Hge|Hlt].
  - specialize (E2 Hge). eapply wp_block_indirect; [done..|lia|lia|]. intros v1 d1 s1 Ho. apply HQ, HO.
    by replace (fb + (nb (off + n1) - nb off)) with (fb + new_ind v (D j) (off / BSIZE) + new_blk v (D j) (off / BSIZE)) by lia.
  - rewrite (decide_False (P := off = NDIRECT * BSIZE)) in Hnb by klia.
    eapply wp_block_direct; [done..|lia|lia|]. intros v1 d1 s1 Ho. apply HQ, HO.
    by replace (fb + (nb (off + n1) - nb off)) with (fb + new_blk v (D j) (off / BSIZE)) by lia.
Qed.

(** File [j] grew by [p], the others are as they were. *)
Definition appended (fi j : Z) (p : list Z) (v v' : bkey → list Z) (D D' : Z → dinode) : Prop :=
  content v' (ino (D' j)) = content v (ino (D j)) ++ p ∧
  ∀ j', 1 ≤ j' < fi → j' ≠ j → content v' (ino (D' j')) = content v (ino (D j')).

Lemma splice_tail (data p : list Z) (o : nat) (i : nat) :
  block_ok data → (o + length p ≤ 512)%nat →
  splice o p data !!! i = if decide (o ≤ i < o + length p)%nat then p !!! (i - o)%nat else data !!! i.
Proof.
  intros [Hl _] Ho. rewrite !list_lookup_total_alt, lookup_splice by lia. by case_decide.
Qed.

Lemma block_ok_splice o p data : block_ok data → Forall byte_ok p → (o + length p ≤ 512)%nat → block_ok (splice o p data).
Proof. intros [Hl Hb] Hp Ho. split; [by rewrite length_splice by lia|by apply Forall_splice]. Qed.

(** The data of one turn goes to its block. *)
Lemma append_bytes v D fi fb L j off p (k := off / BSIZE) (m := Z.of_nat (length p))
    (v' := vset (cell v (D j) k) (splice (Z.to_nat (off mod BSIZE)) p (v (ROOTDEV, cell v (D j) k))) v)
    (D' := upd j (set_di_size (off + m) (D j)) D) :
  layout v D fi fb L → 1 ≤ j < fi → di_size (D j) = off → 0 ≤ off < MAXFILE * BSIZE →
  1 ≤ m ≤ BSIZE - off mod BSIZE → Forall byte_ok p →
  (∀ j' k, L j' k ↔ live D j' k ∨ j' = j ∧ live_cell k (off + m)) →
  (∀ j', 1 ≤ j' < fi → di_size (D j') ≤ MAXFILE * BSIZE) →
  files_ok v' D' fi fb ∧ appended fi j p v v' D D'.
Proof.
  intros Hla Hj Hsz Hoff Hm Hp HL Hmax. pose proof (turn_div off Hoff) as (Eo & Hmod & Hk). fold k in Eo, Hk.
  assert (HLk : L j k) by (apply HL; right; split; [done|]; apply live_turn; [done|done|tauto]).
  assert (Hb : block_ok (v (ROOTDEV, cell v (D j) k))) by by apply (la_blk _ _ _ _ _ Hla).
  assert (Hm512 : (Z.to_nat (off mod BSIZE) + length p ≤ 512)%nat) by klia.
  assert (Hdata : block_ok (splice (Z.to_nat (off mod BSIZE)) p (v (ROOTDEV, cell v (D j) k)))) by by apply block_ok_splice.
  assert (Hinblk : ∀ o, o / BSIZE = k → BSIZE * k ≤ o < BSIZE * k + BSIZE ∧ o mod BSIZE = o - BSIZE * k).
  { intros o <-. pose proof (Z.div_mod o BSIZE ltac:(done)). pose proof (Z.mod_pos_bound o BSIZE ltac:(done)). lia. }
  assert (Htail : ∀ o, off + m ≤ o → o / BSIZE = k →
    splice (Z.to_nat (off mod BSIZE)) p (v (ROOTDEV, cell v (D j) k)) !!! Z.to_nat (o mod BSIZE) = 0).
  { intros o Ho Hok. destruct (Hinblk o Hok) as [Hr Er]. rewrite splice_tail, decide_False by (done || lia).
    rewrite <- Hok, <- fbyte_cell by klia. apply (la_tail _ _ _ _ _ Hla); [done|lia|klia|by rewrite Hok]. }
  assert (Hszr : di_size (D j) ≤ off + m < 2 ^ 32) by klia.
  pose proof (write_layout v D fi fb L Hla j k (off + m) Hj Hk HLk _ Hdata Hszr Htail) as Hla'.
  pose proof (λ data, write_other v D fi fb L Hla j k (off + m) Hj Hk HLk data) as Hother.
  pose proof (λ data, write_here v D fi fb L Hla j k (off + m) Hj Hk HLk data) as Hhere.
  assert (HD' : ∀ j', j' ≠ j → D' j' = D j') by (intros; unfold D', upd; by rewrite decide_False).
  assert (HD'j : D' j = set_di_size (off + m) (D j)) by (unfold D', upd; by rewrite decide_True).
  split; [constructor|split].
  - eapply layout_ext; [|exact Hla']. intros j' k'. rewrite HL. unfold live. destruct (decide (j' = j)) as [->|Hne].
    + fold D'. rewrite HD'j, Hsz. simpl. rewrite (live_turn off m) by done. tauto.
    + fold D'. rewrite HD' by done. tauto.
  - intros j' Hj'. fold D'. destruct (decide (j' = j)) as [->|Hne]; [rewrite HD'j; simpl; klia|rewrite HD' by done; by apply Hmax].
  - unfold content. rewrite HD'j at 2. cbn [i_size ino di_size set_di_size]. rewrite Hsz, fbytes_app, Z.add_0_l by lia. f_equal.
    + apply fbytes_ext. intros o Ho. destruct (decide (o / BSIZE = k)) as [E|E].
      * unfold v', D'. rewrite Hhere by (done || lia). destruct (Hinblk o E) as [Hr Er].
        rewrite splice_tail, decide_False by (done || lia). rewrite fbyte_cell by lia. by rewrite E.
      * apply Hother; [done..|lia| |tauto]. apply HL. left. apply live_byte; [lia|lia].
    + apply list_eq. intros i. unfold fbytes. rewrite list_lookup_fmap. simpl. destruct (decide (i < length p)%nat) as [Hi|Hi].
      * rewrite lookup_seqZ_lt by lia. simpl.
        assert (E : (off + Z.of_nat i) / BSIZE = k).
        { symmetry. apply (Z.div_unique _ _ _ (off mod BSIZE + Z.of_nat i)); [left; lia|lia]. }
        destruct (Hinblk _ E) as [Hr Er]. unfold v', D'. rewrite Hhere by (done || klia).
        rewrite Er. replace (off + Z.of_nat i - BSIZE * k) with (off mod BSIZE + Z.of_nat i) by lia.
        rewrite splice_tail, decide_True by (done || lia).
        replace (Z.to_nat _ - Z.to_nat (off mod BSIZE))%nat with i by lia. symmetry. by apply list_lookup_lookup_total_lt.
      * rewrite lookup_seqZ_ge, lookup_ge_None_2 by lia. done.
  - intros j' Hj' Hne. unfold content. rewrite (HD' j') at 2 by done. simpl. apply fbytes_ext. intros o Ho.
    specialize (Hmax j' Hj'). apply Hother; [done|lia| |tauto]. apply HL. left. apply live_byte; lia.
Qed.

Lemma files_ok_extD v D D' fi fb : (∀ j, D' j = D j) → files_ok v D fi fb → files_ok v D' fi fb.
Proof.
  intros HD [Hl Hs]. constructor; [|intros j; rewrite HD; by apply Hs].
  eapply layout_ext; [|eapply layout_extD; [exact HD|exact Hl]]. intros j k. unfold live. by rewrite HD.
Qed.

Lemma appended_trans fi j p1 p2 v1 v2 v3 D1 D2 D3 D3' :
  (∀ j, D3' j = D3 j) → appended fi j p1 v1 v2 D1 D2 → appended fi j p2 v2 v3 D2 D3 → appended fi j (p1 ++ p2) v1 v3 D1 D3'.
Proof.
  intros HD [H1 Ho1] [H2 Ho2]. split; [by rewrite HD, H2, H1, app_assoc|].
  intros j' Hj' Hne. rewrite HD, Ho2, Ho1 by done. done.
Qed.

Lemma nb_mono a b : a ≤ b → nb a ≤ nb b.
Proof.
  intros Hab. unfold nb. pose proof (Z.div_le_mono (a + (BSIZE - 1)) (b + (BSIZE - 1)) BSIZE ltac:(done) ltac:(lia)).
  destruct (Z.ltb_spec (NDIRECT * BSIZE) a), (Z.ltb_spec (NDIRECT * BSIZE) b); lia.
Qed.

Lemma wp_iappend_loop fi j : 1 ≤ j < fi → ∀ fuel p off d v D fb s Q,
  files_ok v D fi fb → D j = set_di_size off d → rep s v fi fb → Forall byte_ok p →
  0 ≤ off → off + Z.of_nat (length p) ≤ MAXFILE * BSIZE →
  fb + (nb (off + Z.of_nat (length p)) - nb off) ≤ FSSIZE →
  (0 < fuel)%nat → (p ≠ [] → turns off (Z.of_nat (length p)) < Z.of_nat fuel) →
  (∀ v' d' s' (D' := upd j (set_di_size (off + Z.of_nat (length p)) d') D)
       (fb' := fb + (nb (off + Z.of_nat (length p)) - nb off)),
     files_ok v' D' fi fb' → rep s' v' fi fb' → appended fi j p v v' D D' → attrs d' = attrs d → meta_same v v' →
     Q (d', off + Z.of_nat (length p)) s') →
  wp (iappend_loop fuel d off p) Q s.
Proof.
  intros Hj. induction fuel as [|fuel IH]; intros p off d v D fb s Q Hfo HDj Hrep Hp Hoff Hmax Hroom Hf0 Hfuel HQ; [lia|].
  cbn [iappend_loop]. destruct (Z.ltb_spec 0 (Z.of_nat (length p))) as [Hpos|Hneg].
  2: { destruct p; [|simpl in *; lia]. apply wp_ret. simpl in *. rewrite Z.add_0_r in *.
    specialize (HQ v d s). simpl in HQ. rewrite ?Z.add_0_r, ?Z.sub_diag, ?Z.add_0_r in HQ. apply HQ; [|done| |done|done].
    - eapply files_ok_extD; [|done]. by apply upd_same.
    - split; [|intros j' _ _]; rewrite upd_same by done; by rewrite ?app_nil_r. }
  assert (Hoff' : 0 ≤ off < MAXFILE * BSIZE) by lia. pose proof (turn_div off Hoff') as (Eo & Hmod & Hk).
  rewrite (proj2 (Z.ltb_lt _ _)) by lia. cbn [negb].
  replace ((off / BSIZE + 1) * BSIZE - off) with (BSIZE - off mod BSIZE) by lia.
  replace (off - off / BSIZE * BSIZE) with (off mod BSIZE) by lia.
  set (n1 := Z.min (Z.of_nat (length p)) (BSIZE - off mod BSIZE)).
  assert (Hn1 : 1 ≤ n1 ≤ BSIZE - off mod BSIZE) by lia.
  pose proof (nb_mono (off + n1) (off + Z.of_nat (length p)) ltac:(lia)) as Hnbm.
  apply wp_bind. apply (wp_iappend_block v D fi fb j off d n1); try done; [lia|].
  intros v1 d1 s1 (Hrep1 & Hla1 & Hb1 & Ha1 & Hm1). set (D1 := upd j (set_di_size off d1) D) in *.
  set (fb1 := fb + (nb (off + n1) - nb off)) in *.
  assert (HD1 : D1 j = set_di_size off d1) by (unfold D1, upd; by rewrite decide_True).
  assert (Hsz1 : ∀ j', di_size (D1 j') = di_size (D j')) by (intros j'; unfold D1, upd; case_decide; [subst; by rewrite HDj|done]).
  assert (Hlive : live_cell (off / BSIZE) (off + n1)) by (apply live_turn; [done|done|tauto]).
  assert (Hx : nmeta ≤ cell v1 (D1 j) (off / BSIZE) < fb1) by (apply (la_used _ _ _ _ _ Hla1); [done|by right]).
  rewrite HD1 in Hx. change nmeta with 59 in Hx. pose proof (la_fb _ _ _ _ _ Hla1) as Hfb1.
  apply wp_bind. eapply wp_rsect; [exact Hrep1|lia|]. apply wp_bind. eapply wp_wsect; [exact Hrep1|lia|].
  intros s2 Hrep2. rewrite <- HD1 in Hrep2.
  assert (Hlen1 : Z.of_nat (length (take (Z.to_nat n1) p)) = n1) by (rewrite length_take; lia).
  destruct (append_bytes v1 D1 fi fb1 _ j off (take (Z.to_nat n1) p) Hla1 Hj) as [Hfo2 Happ2].
  { by rewrite HD1. } { done. } { lia. } { by apply Forall_take. }
  { intros j' k. rewrite Hlen1. unfold live. by rewrite Hsz1. }
  { intros j' Hj'. rewrite Hsz1. by apply (fo_size _ _ _ _ Hfo). }
  rewrite Hlen1 in Hfo2, Happ2. set (D2 := upd j (set_di_size (off + n1) (D1 j)) D1) in *.
  assert (Happ1 : appended fi j [] v v1 D D1).
  { split; [rewrite app_nil_r|intros j' Hj' _]; eapply same_content; try done; by apply (fo_size _ _ _ _ Hfo). }
  rewrite u32_small by klia.
  assert (Hdrop : Z.of_nat (length (drop (Z.to_nat n1) p)) = Z.of_nat (length p) - n1) by (rewrite length_drop; lia).
  eapply (IH (drop (Z.to_nat n1) p) (off + n1) d1 _ D2 fb1 s2); [exact Hfo2| |exact Hrep2|by apply Forall_drop|lia|lia| | | |].
  - unfold D2, upd. rewrite decide_True by done. by rewrite HD1.
  - rewrite Hdrop. replace (off + n1 + (Z.of_nat (length p) - n1)) with (off + Z.of_nat (length p)) by lia. unfold fb1. lia.
  - pose proof (turns_pos off (Z.of_nat (length p)) ltac:(lia)). assert (p ≠ []) by (by intros ->). specialize (Hfuel H0). lia.
  - intros Hne. assert (p ≠ []) as Hne' by (by intros ->). specialize (Hfuel Hne'). rewrite Hdrop.
    assert (0 < Z.of_nat (length p) - n1) by (rewrite <- Hdrop; destruct (drop _ p); [done|simpl; lia]).
    pose proof (turns_step off 0 (Z.of_nat (length p)) Hoff ltac:(lia) ltac:(klia)) as Ht. unfold chunk in Ht.
    rewrite Z.sub_0_r, u32_small in Ht by klia. fold n1 in Ht. rewrite Z.add_0_l in Ht. specialize (Ht ltac:(lia)). lia.
  - intros v' d' s' D' fb' Hfo' Hrep' Happ' Ha' Hm'. subst D' fb'. unfold fb1 in *.
    replace (off + n1 + Z.of_nat (length (drop (Z.to_nat n1) p))) with (off + Z.of_nat (length p)) in Hfo', Hrep', Happ' |- * by lia.
    replace (fb + (nb (off + n1) - nb off) + (nb (off + Z.of_nat (length p)) - nb (off + n1))) with (fb + (nb (off + Z.of_nat (length p)) - nb off)) in Hfo', Hrep' by lia.
    assert (Heq : ∀ j', upd j (set_di_size (off + Z.of_nat (length p)) d') D j' = upd j (set_di_size (off + Z.of_nat (length p)) d') D2 j').
    { intros j'. unfold D2, D1, upd. by case_decide. }
    apply (HQ v' d' s'); [eapply files_ok_extD; [exact Heq|exact Hfo']|exact Hrep'| |by rewrite Ha', Ha1, HDj|].
    2: { eapply meta_same_trans; [exact Hm1|]. eapply meta_same_trans; [|exact Hm']. apply meta_same_vset. rewrite HD1. change nmeta with 59. lia. }
    rewrite <- (take_drop (Z.to_nat n1) p) at 1. eapply appended_trans; [exact Heq| |exact Happ'].
    rewrite <- (app_nil_l (take _ p)). eapply appended_trans; [|exact Happ1|exact Happ2]. done.
Qed.

(** ** Inodes in the image *)

Abbreviation dinode_at := (dino demo_fs).

Lemma mk_sb_demo : k_sb demo_fs = mk_sb.
Proof. vm_compute. reflexivity. Qed.

Lemma mk_ninodes j : 0 ≤ j < NINODES → inum_ok demo_fs j.
Proof. done. Qed.

Lemma demo_log_geom : log_geom (k_log demo_fs) (k_havedisk1 demo_fs).
Proof. apply (ok_geom _ _ demo_fs_ok). Qed.

Lemma mk_iblock j : 0 ≤ j < NINODES → 32 ≤ IBLOCK j mk_sb < 58.
Proof.
  intros Hj. rewrite <- mk_sb_demo. pose proof (IBLOCK_range demo_fs demo_log_geom demo_geom j (mk_ninodes j Hj)) as [_ H].
  by rewrite mk_sb_demo in *.
Qed.

(** A block of the meta data does not matter to the files. *)
Lemma layout_meta v D fi fb L b data :
  layout v D fi fb L → b < nmeta → block_ok data → layout (vset b data v) D fi fb L ∧ same_bytes fi L v (vset b data v) D D.
Proof.
  intros Hla Hb Hdata. pose proof Hla as [Hf Hbk Hz HD Hdec Hdom Hi Hu Hun Hinj Ht].
  assert (Hcell : ∀ j k, 1 ≤ j < fi → 0 ≤ k ≤ MAXFILE → cell (vset b data v) (D j) k = cell v (D j) k).
  { intros j k Hj Hk. destruct (cell_cases k Hk) as [Hd|[Hd| ->]]; [by rewrite !cell_direct| |done].
    rewrite !cell_indirect by done. destruct (Z.eqb_spec (iaddr (ino (D j)) NDIRECT) 0) as [|Hnz]; [done|].
    destruct (Hdec j MAXFILE) as [HL|HL]; [|by destruct Hnz; apply (Hun j MAXFILE)].
    specialize (Hu j MAXFILE Hj HL). rewrite cell_ind in Hu. by rewrite vset_ne by lia. }
  assert (Hsb : same_bytes fi L v (vset b data v) D D).
  { intros j o Hj Ho HL. pose proof (blk_range o Ho). rewrite !fbyte_cell, Hcell by (done || lia).
    specialize (Hu _ _ Hj HL). by rewrite vset_ne by lia. }
  split; [|done]. constructor; try done.
  - intros b'. unfold vset. by case_decide.
  - intros b' Hb'. rewrite vset_ne by lia. by apply Hz.
  - intros j k Hj HL. rewrite Hcell by (try done; by eapply Hdom). by apply Hu.
  - intros j k Hj Hk HL. rewrite Hcell by done. by apply Hun.
  - intros j1 k1 j2 k2 Hj1 Hj2 H1 H2. rewrite !Hcell by (try done; by eapply Hdom). by apply Hinj.
  - intros j o Hj Hs Ho HL. rewrite Hsb by done. by apply Ht.
Qed.

(** Only the inodes in use matter. *)
Lemma files_ok_ext v D D' fi fb : (∀ j, 1 ≤ j < fi → D' j = D j) → files_ok v D fi fb → files_ok v D' fi fb.
Proof.
  intros HD [[Hf Hbk Hz Hok Hdec Hdom Hi Hu Hun Hinj Ht] Hs]. unfold live in *.
  constructor; [constructor|]; unfold live.
  - done.
  - done.
  - done.
  - intros j Hj. rewrite HD by done. by apply Hok.
  - intros j k. unfold live_cell. kunfold. lia.
  - intros j k [?|[-> ?]]; klia.
  - intros j k [?|[-> ?]] Hk; right; klia.
  - intros j k Hj. rewrite HD by done. by apply Hu.
  - intros j k Hj. rewrite HD by done. by apply Hun.
  - intros j k j' k' Hj Hj'. rewrite !HD by done. by apply Hinj.
  - intros j o Hj. rewrite HD by done. by apply Ht.
  - intros j Hj. rewrite HD by done. by apply Hs.
Qed.

Definition zero_dinode : dinode := Dinode 0 0 0 0 0 (replicate 13 0).

(** The image in the making. *)
Record image (s : mkst) (v : bkey → list Z) (fi fb : Z) : Prop := Image {
  im_rep : rep s v fi fb;
  im_files : files_ok v (dinode_at v) fi fb;
  im_fi : 1 ≤ fi ≤ NINODES;
  im_free : ∀ j, fi ≤ j < NINODES → dinode_at v j = zero_dinode;
  im_sb : v (ROOTDEV, 1) = splice 0 (sb_bytes mk_sb) zero_block
}.

Lemma wp_rinode s v fi fb j Q : rep s v fi fb → 0 ≤ j < NINODES → Q (dinode_at v j) s → wp (rinode j) Q s.
Proof.
  intros Hrep Hj HQ. unfold rinode. apply wp_bind. pose proof (mk_iblock j Hj). eapply wp_rsect; [done|klia|].
  apply wp_ret. unfold dino in HQ. by rewrite mk_sb_demo in HQ.
Qed.

Definition store_inode (j : Z) (d : dinode) (v : bkey → list Z) : bkey → list Z :=
  vset (IBLOCK j mk_sb) (dinode_put (dinode_off j) d (v (ROOTDEV, IBLOCK j mk_sb))) v.

Lemma wp_winode s v fi fb j d Q :
  rep s v fi fb → 0 ≤ j < NINODES → (∀ s', rep s' (store_inode j d v) fi fb → Q tt s') → wp (winode j d) Q s.
Proof.
  intros Hrep Hj HQ. unfold winode. pose proof (mk_iblock j Hj). apply wp_bind. eapply wp_rsect; [done|klia|].
  eapply wp_wsect; [done|klia|done].
Qed.

Lemma dino_store_inode v j d j' :
  block_ok (v (ROOTDEV, IBLOCK j mk_sb)) → dinode_ok d → 0 ≤ j < NINODES → 0 ≤ j' < NINODES →
  dinode_at (store_inode j d v) j' = if decide (j' = j) then d else dinode_at v j'.
Proof.
  intros Hb Hd Hj Hj'. unfold store_inode. rewrite <- mk_sb_demo in *.
  apply (dino_store demo_fs demo_log_geom demo_geom); try done.
Qed.

Lemma dino_meta v v' j : meta_same v v' → 0 ≤ j < NINODES → dinode_at v' j = dinode_at v j.
Proof.
  intros Hm Hj. unfold dino. rewrite Hm; [done|]. rewrite mk_sb_demo. pose proof (mk_iblock j Hj).
  change nmeta with 59. lia.
Qed.

(** Storing inode [j] makes it part of the image. *)
Lemma store_inode_ok v D fi fb fi' j d :
  files_ok v D fi' fb → 1 ≤ j < NINODES → fi' ≤ NINODES → dinode_ok d → D j = d →
  (∀ j', 0 ≤ j' < NINODES → j' ≠ j → D j' = dinode_at v j') → v (ROOTDEV, 1) = splice 0 (sb_bytes mk_sb) zero_block →
  (∀ j', fi ≤ j' < NINODES → j' ≠ j → dinode_at v j' = zero_dinode) →
  let v' := store_inode j d v in
  files_ok v' (dinode_at v') fi' fb ∧ v' (ROOTDEV, 1) = splice 0 (sb_bytes mk_sb) zero_block ∧
  (∀ j', fi ≤ j' < NINODES → 0 ≤ fi → j' ≠ j → dinode_at v' j' = zero_dinode) ∧
  (∀ j', 0 ≤ j' < NINODES → dinode_at v' j' = D j') ∧
  (∀ j', 1 ≤ j' < fi' → content v' (ino (dinode_at v' j')) = content v (ino (D j'))).
Proof.
  intros Hfo Hj Hfi Hd HDj HD Hsb Hfree v'.
  assert (Hb : block_ok (v (ROOTDEV, IBLOCK j mk_sb))) by apply (la_blk _ _ _ _ _ (fo_lay _ _ _ _ Hfo)).
  assert (Hdin : ∀ j', 0 ≤ j' < NINODES → dinode_at v' j' = D j').
  { intros j' Hj'. unfold v'. rewrite dino_store_inode by (done || lia). case_decide; [by subst|]. symmetry. by apply HD. }
  pose proof (mk_iblock j ltac:(lia)) as Hib.
  destruct (layout_meta v D fi' fb (live D) (IBLOCK j mk_sb) (dinode_put (dinode_off j) d (v (ROOTDEV, IBLOCK j mk_sb))))
    as [Hla' Hsame]; [apply Hfo|change nmeta with 59; lia|apply dinode_put_ok; [apply Hd|apply dinode_off_range|done]|].
  split_and!.
  - eapply files_ok_ext; [|constructor; [exact Hla'|apply Hfo]]. intros j' Hj'. apply Hdin. lia.
  - unfold v', store_inode. rewrite vset_ne by lia. done.
  - intros j' Hj' Hfi0 Hne. rewrite Hdin by lia. rewrite HD by lia. apply Hfree; [lia|done].
  - done.
  - intros j' Hj'. rewrite Hdin by lia. eapply (same_content fi'); [exact Hsame|done|done|by apply (fo_size _ _ _ _ Hfo)].
Qed.

(** ** iappend *)

Lemma dino_ok v D fi fb j : files_ok v D fi fb → 1 ≤ j < fi → dinode_ok (D j) ∧ 0 ≤ di_size (D j) ≤ MAXFILE * BSIZE.
Proof.
  intros Hfo Hj. pose proof (la_D _ _ _ _ _ (fo_lay _ _ _ _ Hfo) j Hj) as Hd. split; [done|].
  split; [apply Hd|by apply (fo_size _ _ _ _ Hfo)].
Qed.

Lemma wp_iappend s v fi fb j p Q (sz := di_size (dinode_at v j)) (n := Z.of_nat (length p)) :
  image s v fi fb → 1 ≤ j < fi → Forall byte_ok p → sz + n ≤ MAXFILE * BSIZE →
  fb + (nb (sz + n) - nb sz) ≤ FSSIZE →
  (∀ s' v', image s' v' fi (fb + (nb (sz + n) - nb sz)) → appended fi j p v v' (dinode_at v) (dinode_at v') →
     (∀ j', 1 ≤ j' < fi → attrs (dinode_at v' j') = attrs (dinode_at v j')) →
     (∀ j', 1 ≤ j' < fi → di_size (dinode_at v' j') = di_size (dinode_at v j') + if decide (j' = j) then n else 0) →
     Q tt s') →
  wp (iappend j p) Q s.
Proof.
  intros Him Hj Hp Hmax Hroom HQ. pose proof Him as [Hrep Hfo Hfi Hfree Hsb].
  destruct (dino_ok _ _ _ _ j Hfo Hj) as [Hd Hsz]. fold sz in Hsz.
  unfold iappend. apply wp_bind. eapply wp_rinode; [exact Hrep|lia|]. fold sz. rewrite xint_small by klia.
  assert (Hself : dinode_at v j = set_di_size sz (dinode_at v j)) by by destruct (dinode_at v j).
  apply wp_bind. pose proof (Z.div_pos n BSIZE ltac:(lia) ltac:(done)). pose proof (turns_fuel sz n ltac:(lia)).
  eapply (wp_iappend_loop fi j Hj _ p sz (dinode_at v j) v (dinode_at v) fb s); try done; fold n; try lia.
  intros v1 d1 s1 D1 fb1 Hfo1 Hrep1 Happ1 Ha1 Hm1. fold n in D1, fb1 |- *. rewrite xint_small by klia.
  assert (HD1j : D1 j = set_di_size (sz + n) d1) by (unfold D1, upd; by rewrite decide_True).
  eapply wp_winode; [exact Hrep1|lia|]. intros s2 Hrep2.
  destruct (store_inode_ok v1 D1 fi fb1 fi j (set_di_size (sz + n) d1)) as (Hfo2 & Hsb2 & Hfree2 & Hdin2 & Hc2); try done; try lia.
  - rewrite <- HD1j. by apply (dino_ok _ _ _ _ j Hfo1).
  - intros j' Hj' Hne. rewrite (dino_meta v v1) by done. unfold D1, upd. by rewrite decide_False.
  - rewrite Hm1 by (change nmeta with 59; lia). done.
  - intros j' Hj' Hne. rewrite (dino_meta v v1) by (done || lia). by apply Hfree.
  - apply (HQ s2 (store_inode j (set_di_size (sz + n) d1) v1)).
    + constructor; try done. intros j' Hj'. apply Hfree2; lia.
    + destruct Happ1 as [Hc Ho]. split; [rewrite Hc2 by done; exact Hc|]. intros j' Hj' Hne. rewrite Hc2 by done. by apply Ho.
    + intros j' Hj'. rewrite Hdin2 by lia. unfold D1, upd. case_decide; [subst|done]. exact Ha1.
    + intros j' Hj'. rewrite Hdin2 by lia. unfold D1, upd. case_decide; [by subst|lia].
Qed.

(** ** A new file *)

Lemma files_ok_new v D fi fb d :
  files_ok v D fi fb → dinode_ok d → di_size d = 0 → di_addrs d = replicate 13 0 →
  files_ok v (upd fi d D) (fi + 1) fb.
Proof.
  intros Hfo Hd Hsz Hz. pose proof (files_ok_ext v D (upd fi d D) fi fb) as Hext.
  destruct Hext as [[Hf Hb Hze HD Hdec Hdom Hi Hu Hun Hinj Ht] Hs]; [|done|].
  { intros j Hj. unfold upd. by rewrite decide_False by lia. }
  assert (Hnew : upd fi d D fi = d) by (unfold upd; by rewrite decide_True).
  assert (Hnl : ∀ k, ¬ live (upd fi d D) fi k) by (intros k; unfold live, live_cell; rewrite Hnew, Hsz; klia).
  assert (Hia : ∀ n, 0 ≤ n ≤ NDIRECT → iaddr (ino d) n = 0).
  { intros n Hn. unfold iaddr. simpl. rewrite Hz. apply lookup_total_replicate_2. klia. }
  assert (Hcase : ∀ j, 1 ≤ j < fi + 1 → 1 ≤ j < fi ∨ j = fi) by lia.
  constructor; [constructor|]; try done.
  - intros j [Hj| ->]%Hcase; [by apply HD|by rewrite Hnew].
  - intros j k [Hj| ->]%Hcase HL; [by apply Hu|by apply Hnl in HL].
  - intros j k [Hj| ->]%Hcase Hk HL; [by apply Hun|]. rewrite Hnew. destruct (cell_cases k Hk) as [Hc|[Hc| ->]].
    + rewrite cell_direct by done. apply Hia. klia.
    + rewrite cell_indirect by done. by rewrite Hia by klia.
    + rewrite cell_ind. apply Hia. klia.
  - intros j1 k1 j2 k2 [H1| ->]%Hcase [H2| ->]%Hcase L1 L2; [by apply Hinj|by apply Hnl in L2|by apply Hnl in L1|by apply Hnl in L1].
  - intros j o [Hj| ->]%Hcase Ho Hr HL; [by apply Ht|by apply Hnl in HL].
  - intros j [Hj| ->]%Hcase; [by apply Hs|]. rewrite Hnew, Hsz. klia.
Qed.

Definition new_dinode (type : Z) : dinode := Dinode type 0 0 1 0 (replicate 13 0).

Lemma new_dinode_ok type : 0 ≤ type < 2 ^ 15 → dinode_ok (new_dinode type).
Proof. intros Ht. unfold dinode_ok, new_dinode. cbn [di_type di_major di_minor di_nlink di_size di_addrs].
  split_and!; try lia; try done. by apply Forall_replicate. Qed.

Lemma wp_mk_ialloc s v fi fb type Q :
  image s v fi fb → fi < NINODES → 0 ≤ type < 2 ^ 15 →
  (∀ s' v', image s' v' (fi + 1) fb → dinode_at v' fi = new_dinode type →
     (∀ j, 1 ≤ j < fi → dinode_at v' j = dinode_at v j ∧ content v' (ino (dinode_at v' j)) = content v (ino (dinode_at v j))) →
     Q fi s') →
  wp (mk_ialloc type) Q s.
Proof.
  intros [Hrep Hfo Hfi Hfree Hsb] Hlt Ht HQ. unfold mk_ialloc. apply wp_bind, wp_gets, wp_bind, wp_modify.
  pose proof Hrep as [Hl Hv Ei Eb]. rewrite Ei. rewrite (u32_small (fi + 1)) by (change NINODES with 200 in *; lia).
  rewrite !xshort_small, xint_small by lia. fold (new_dinode type).
  set (s1 := Mk (mk_img s) (fi + 1) (mk_freeblock s)).
  assert (Hrep1 : rep s1 v (fi + 1) fb) by by constructor.
  apply wp_bind. eapply wp_winode; [exact Hrep1|lia|]. intros s2 Hrep2. apply wp_ret.
  pose proof (new_dinode_ok type Ht) as Hnd.
  pose proof (files_ok_new v (dinode_at v) fi fb (new_dinode type) Hfo Hnd eq_refl eq_refl) as Hfo1.
  destruct (store_inode_ok v _ fi fb (fi + 1) fi (new_dinode type) Hfo1) as (Hfo2 & Hsb2 & Hfree2 & Hdin2 & Hc2); try done; try lia.
  - unfold upd. by rewrite decide_True.
  - intros j' Hj' Hne. unfold upd. by rewrite decide_False.
  - intros j' Hj' Hne. by apply Hfree.
  - apply (HQ s2 (store_inode fi (new_dinode type) v)).
    + constructor; try done; [lia|]. intros j Hj. apply Hfree2; lia.
    + rewrite Hdin2 by lia. unfold upd. by rewrite decide_True.
    + intros j Hj. rewrite Hc2, Hdin2 by lia. unfold upd. by rewrite decide_False by lia.
Qed.

Lemma length_content v d : 0 ≤ di_size d → Z.of_nat (length (content v (ino d))) = di_size d.
Proof. intros Hs. unfold content. rewrite length_fbytes. simpl. lia. Qed.

(** The [read]s of a file are appended one after the other. *)
Lemma wp_append_reads fi j : 1 ≤ j < fi → ∀ reads s v fb Q,
  image s v fi fb → Forall (Forall byte_ok) reads →
  let sz := di_size (dinode_at v j) in let n := Z.of_nat (length (concat reads)) in
  sz + n ≤ MAXFILE * BSIZE → fb + (nb (sz + n) - nb sz) ≤ FSSIZE →
  (∀ s' v', image s' v' fi (fb + (nb (sz + n) - nb sz)) → appended fi j (concat reads) v v' (dinode_at v) (dinode_at v') →
     (∀ j', 1 ≤ j' < fi → attrs (dinode_at v' j') = attrs (dinode_at v j')) → Q tt s') →
  wp (for_each reads (iappend j)) Q s.
Proof.
  intros Hj. induction reads as [|p reads IH]; intros s v fb Q Him Hb sz n Hmax Hroom HQ.
  - unfold n in *. simpl in *. apply wp_ret. rewrite Z.add_0_r, Z.sub_diag, Z.add_0_r in HQ. apply (HQ s v); [done| |done].
    split; [by rewrite app_nil_r|done].
  - apply Forall_cons in Hb as [Hp Hb]. unfold n in *. cbn [concat for_each] in *. rewrite length_app, Nat2Z.inj_add in *.
    replace (sz + (Z.of_nat (length p) + Z.of_nat (length (concat reads))))
      with (sz + Z.of_nat (length p) + Z.of_nat (length (concat reads))) in * by lia. apply wp_bind.
    pose proof (nb_mono (sz + Z.of_nat (length p)) (sz + Z.of_nat (length p) + Z.of_nat (length (concat reads))) ltac:(lia)).
    eapply wp_iappend; [exact Him|done|done|fold sz; lia|fold sz; lia|]. fold sz. intros s1 v1 Him1 Happ1 Hat1 Hsz1.
    specialize (Hsz1 j Hj) as Esz. rewrite decide_True in Esz by done. fold sz in Esz.
    eapply IH; [exact Him1|done| | |]; cbn zeta; rewrite Esz.
    + lia.
    + lia.
    + intros s2 v2 Him2 Happ2 Hat2.
      match type of Him2 with image _ _ _ ?x => match type of Hroom with ?y ≤ _ => replace x with y in Him2 by lia end end.
      apply (HQ s2 v2 Him2); [by eapply appended_trans|]. intros j' Hj'. by rewrite Hat2, Hat1.
Qed.

(** ** The files of the command line *)

Definition hf_bytes (f : hostfile) : list Z := concat (default [] (hf_reads f)).

Definition root_entry (i : nat) (f : hostfile) : list Z := mk_dirent (Z.of_nat i + 2) (skip_underscore (hf_name f)).

(** The root directory: ".", ".." and the files in order. *)
Definition root_bytes (fs : list hostfile) : list Z :=
  mk_dirent ROOTINO [46] ++ mk_dirent ROOTINO [46; 46] ++ concat (imap root_entry fs).

(** The first block left unused. *)
Definition blocks_of (fs : list hostfile) : Z :=
  nmeta + nb (Z.of_nat (length (root_bytes fs))) + foldr (λ f z, nb (Z.of_nat (length (hf_bytes f))) + z) 0 fs.

(** A file that mkfs accepts. *)
Definition good_file (f : hostfile) : Prop :=
  ¬ (SLASH ∈ hf_name f) ∧ Forall byte_ok (hf_name f) ∧
  (∃ reads, hf_reads f = Some reads ∧ Forall (Forall byte_ok) reads) ∧
  Z.of_nat (length (hf_bytes f)) ≤ MAXFILE * BSIZE.

(** The image once the files [fs] are in it. *)
Record built (s : mkst) (v : bkey → list Z) (fs : list hostfile) : Prop := Built {
  bu_image : image s v (Z.of_nat (length fs) + 2) (blocks_of fs);
  bu_root : content v (ino (dinode_at v ROOTINO)) = root_bytes fs;
  bu_dir : attrs (dinode_at v ROOTINO) = (T_DIR, 0, 0, 1);
  bu_files : ∀ i f, fs !! i = Some f → content v (ino (dinode_at v (Z.of_nat i + 2))) = hf_bytes f ∧
    attrs (dinode_at v (Z.of_nat i + 2)) = (T_FILE, 0, 0, 1)
}.

Lemma length_name_bytes name n : length (strncpy name n) = n.
Proof. unfold strncpy. by rewrite length_fmap, length_seq. Qed.

Lemma length_mk_dirent inum name : length (mk_dirent inum name) = 16%nat.
Proof. unfold mk_dirent, dirent_put. cbn [de_inum de_name]. by rewrite length_app, length_le_enc, length_name_bytes. Qed.

Lemma mk_dirent_bytes inum name : Forall byte_ok name → Forall byte_ok (mk_dirent inum name).
Proof.
  intros Hn. unfold mk_dirent, dirent_put. cbn [de_inum de_name]. apply Forall_app. split; [apply le_enc_bytes|].
  unfold strncpy. apply Forall_fmap, Forall_forall. intros i _. simpl. case_match; [|by split].
  unfold sbyte. destruct (name !! i) as [c|] eqn:E; simpl; [|by split]. by apply (Forall_lookup_1 _ _ _ _ Hn E).
Qed.

Lemma length_root_bytes fs : Z.of_nat (length (root_bytes fs)) = 16 * (Z.of_nat (length fs) + 2).
Proof.
  unfold root_bytes. rewrite !length_app, !length_mk_dirent.
  assert (H : ∀ k, length (concat (imap (λ i, root_entry (k + i)) fs)) = (16 * length fs)%nat).
  { induction fs as [|f fs IH]; intros k; [done|]. cbn [imap concat]. rewrite length_app. unfold root_entry at 1.
    rewrite length_mk_dirent. rewrite (imap_ext _ (λ i, root_entry (S k + i))); [|intros i x _; simpl; f_equal; lia].
    rewrite (IH (S k)). simpl. lia. }
  change (imap root_entry fs) with (imap (λ i, root_entry (0 + i)) fs). rewrite (H 0%nat). lia.
Qed.

Lemma root_bytes_snoc fs f : root_bytes (fs ++ [f]) = root_bytes fs ++ root_entry (length fs) f.
Proof.
  unfold root_bytes. rewrite imap_app, concat_app. cbn [imap concat]. rewrite Nat.add_0_r, app_nil_r. by rewrite <- !app_assoc.
Qed.

Lemma blocks_of_snoc fs f :
  blocks_of (fs ++ [f]) = blocks_of fs + (nb (16 * (Z.of_nat (length fs) + 2) + 16) - nb (16 * (Z.of_nat (length fs) + 2))) +
    nb (Z.of_nat (length (hf_bytes f))).
Proof.
  unfold blocks_of. rewrite !length_root_bytes, length_app, Nat2Z.inj_add. cbn [length].
  replace (16 * (Z.of_nat (length fs) + Z.of_nat 1 + 2)) with (16 * (Z.of_nat (length fs) + 2) + 16) by lia.
  rewrite foldr_app. cbn [foldr].
  assert (H : ∀ z, foldr (λ f z, nb (Z.of_nat (length (hf_bytes f))) + z) z fs =
    foldr (λ f z, nb (Z.of_nat (length (hf_bytes f))) + z) 0 fs + z) by (intros z; induction fs; simpl; lia).
  rewrite H. lia.
Qed.

Lemma nb_nonneg n : 0 ≤ n → 0 ≤ nb n.
Proof. intros Hn. transitivity (nb 0); [done|]. by apply nb_mono. Qed.

Lemma wp_add_file s v fs f Q :
  built s v fs → good_file f → Z.of_nat (length fs) + 2 < NINODES → blocks_of (fs ++ [f]) ≤ FSSIZE →
  (∀ s' v', built s' v' (fs ++ [f]) → Q tt s') → wp (add_file ROOTINO f) Q s.
Proof.
  intros [Him Hroot Hdir Hfiles] (Hslash & Hname & (reads & Hreads & Hrb) & Hlen) Hn Hroom HQ.
  unfold add_file. rewrite bool_decide_eq_false_2 by done. rewrite Hreads.
  assert (Ebytes : hf_bytes f = concat reads) by (unfold hf_bytes; by rewrite Hreads). rewrite Ebytes in Hlen.
  rewrite blocks_of_snoc, Ebytes in Hroom. set (fi := Z.of_nat (length fs) + 2) in *.
  pose proof (nb_nonneg (Z.of_nat (length (concat reads))) ltac:(lia)) as Hnb0.
  assert (Hfi : 2 ≤ fi) by lia. change NINODES with 200 in Hn.
  apply wp_bind. eapply wp_mk_ialloc; [exact Him|exact Hn|done|]. intros s1 v1 Him1 Hnew1 Hold1.
  destruct (Hold1 ROOTINO) as [Eroot1 Croot1]; [klia|].
  assert (Hrsz : di_size (dinode_at v1 ROOTINO) = 16 * fi).
  { rewrite Eroot1. rewrite <- (length_content v) by (eapply (dino_ok _ _ _ _ ROOTINO (im_files _ _ _ _ Him)); klia).
    rewrite Hroot. apply length_root_bytes. }
  assert (Hskip : Forall byte_ok (skip_underscore (hf_name f))).
  { destruct (hf_name f) as [|c name]; [done|]. simpl. case_match; [by apply Forall_cons in Hname as [_ ?]|done]. }
  apply wp_bind. eapply wp_iappend; [exact Him1|klia|by apply mk_dirent_bytes|rewrite Hrsz, length_mk_dirent; klia| |].
  { rewrite Hrsz, length_mk_dirent. change (Z.of_nat 16) with 16. lia. }
  rewrite Hrsz, length_mk_dirent. change (Z.of_nat 16) with 16. intros s2 v2 Him2 [Hc2 Ho2] Hat2 Hsz2.
  assert (Hsz0 : di_size (dinode_at v2 fi) = 0).
  { rewrite Hsz2 by lia. rewrite decide_False by klia. by rewrite Hnew1. }
  eapply wp_append_reads; [|exact Him2|exact Hrb| | |]; cbn zeta; rewrite ?Hsz0, ?Z.add_0_l, ?Z.sub_0_r; try lia.
  intros s3 v3 Him3 [Hc3 Ho3] Hat3. apply (HQ s3 v3).
  assert (Efb : blocks_of (fs ++ [f]) = blocks_of fs + (nb (16 * fi + 16) - nb (16 * fi)) + nb (Z.of_nat (length (concat reads))))
    by (rewrite blocks_of_snoc, Ebytes; done).
  assert (Hold : ∀ j, 1 ≤ j < fi → j ≠ ROOTINO → content v3 (ino (dinode_at v3 j)) = content v (ino (dinode_at v j)) ∧
    attrs (dinode_at v3 j) = attrs (dinode_at v j)).
  { intros j Hj Hne. destruct (Hold1 j Hj) as [E C]. rewrite Ho3, Ho2, Hat3, Hat2 by (done || lia). by rewrite C, E. }
  constructor.
  - rewrite Efb, length_app, Nat2Z.inj_add. replace (_ + Z.of_nat (length [f]) + 2) with (fi + 1) by (simpl; lia). done.
  - rewrite Ho3, Hc2, Croot1, Hroot, root_bytes_snoc by klia. done.
  - rewrite Hat3, Hat2, Eroot1 by klia. done.
  - intros i g [Hi|[Hge Hi]]%lookup_app_Some.
    + pose proof (lookup_lt_Some _ _ _ Hi). destruct (Hold (Z.of_nat i + 2)) as [-> ->]; [lia|klia|]. by apply Hfiles.
    + apply list_lookup_singleton_Some in Hi as [Hi <-]. replace (Z.of_nat i + 2) with fi by lia.
      rewrite Hc3, Ho2, Hat3, Hat2, Hnew1 by klia. by rewrite Ebytes.
Qed.

Lemma wp_add_files Q : ∀ fs2 fs s v,
  built s v fs → Forall good_file fs2 → Z.of_nat (length (fs ++ fs2)) + 2 ≤ NINODES → blocks_of (fs ++ fs2) ≤ FSSIZE →
  (∀ s' v', built s' v' (fs ++ fs2) → Q tt s') → wp (for_each fs2 (add_file ROOTINO)) Q s.
Proof.
  induction fs2 as [|f fs2 IH]; intros fs s v Hb Hg Hn Hroom HQ.
  { apply wp_ret. rewrite app_nil_r in HQ. by eapply HQ. }
  apply Forall_cons in Hg as [Hf Hg]. cbn [for_each]. apply wp_bind.
  assert (Hmono : ∀ l, blocks_of (fs ++ [f]) ≤ blocks_of ((fs ++ [f]) ++ l)).
  { intros l. induction l as [|g l IHl] using rev_ind; [by rewrite app_nil_r|]. rewrite app_assoc, (blocks_of_snoc (_ ++ l)).
    pose proof (nb_mono (16 * (Z.of_nat (length ((fs ++ [f]) ++ l)) + 2)) (16 * (Z.of_nat (length ((fs ++ [f]) ++ l)) + 2) + 16) ltac:(lia)).
    pose proof (nb_nonneg (Z.of_nat (length (hf_bytes g))) ltac:(lia)). lia. }
  rewrite (app_assoc fs [f] fs2 : fs ++ f :: fs2 = _) in *. specialize (Hmono fs2).
  eapply wp_add_file; [exact Hb|done| |lia|].
  - rewrite !length_app in Hn. simpl in Hn. lia.
  - intros s' v' Hb'. eapply IH; [exact Hb'|done..].
Qed.

(** ** The empty file system *)

Definition fmt : mkst := match mk_format mk_start with Ok _ s => s | Fault _ => mk_start end.
Definition sb_sector : list Z := splice 0 (sb_bytes mk_sb) zero_block.

Lemma fmt_ok : mk_format mk_start = Ok tt fmt.
Proof. vm_compute. reflexivity. Qed.

Lemma fmt_img : fmt = Mk (zero_block :: sb_sector :: replicate 998 zero_block) 1 nmeta.
Proof. vm_compute. reflexivity. Qed.

Definition fmt_view (k : bkey) : list Z := if decide (k = (ROOTDEV, 1)) then sb_sector else zero_block.

Lemma fmt_rep : rep fmt fmt_view 1 nmeta.
Proof.
  rewrite fmt_img. constructor; [reflexivity| |done|done].
  intros [dev b]. unfold iv, fmt_view. cbn [mk_img fst snd]. destruct (Z.eqb_spec dev ROOTDEV) as [->|Hd], (Z.leb_spec 0 b) as [Hb|Hb]; cbn [andb].
  - destruct (decide ((ROOTDEV, b) = (ROOTDEV, 1))) as [E|E]; [by simplify_eq|].
    destruct (Z.to_nat b) as [|[|m]] eqn:Em; [done|destruct E; f_equal; lia|]. cbn [lookup list_lookup].
    destruct (replicate 998 zero_block !! m) as [d|] eqn:El; [by apply lookup_replicate in El as [-> _]|done].
  - rewrite decide_False; [done|]. intros [= ->]. lia.
  - rewrite decide_False; [done|]. intros [= -> _]. done.
  - rewrite decide_False; [done|]. intros [= -> _]. done.
Qed.

Lemma sb_sector_ok : block_ok sb_sector.
Proof. apply block_okb_ok. vm_compute. reflexivity. Qed.

Lemma fmt_image : image fmt fmt_view 1 nmeta.
Proof.
  constructor.
  - apply fmt_rep.
  - constructor; [constructor|]; try (intros; lia); try done.
    + intros b. unfold fmt_view. case_decide; [apply sb_sector_ok|apply zero_block_ok].
    + intros b Hb. change nmeta with 59 in Hb. unfold fmt_view. rewrite decide_False; [done|]. intros [= ->]. lia.
    + intros j k. unfold live, live_cell. kunfold. lia.
    + intros j k [?|[-> ?]]; klia.
    + intros j k [?|[-> ?]] Hk; right; klia.
  - done.
  - intros j Hj. unfold dino, fmt_view. pose proof (mk_iblock j ltac:(lia)) as Hib. rewrite mk_sb_demo.
    rewrite decide_False by (intros [= E]; lia). rewrite dinode_get_slice. unfold slice, zero_block.
    rewrite drop_replicate, take_replicate. pose proof (dinode_off_range j). rewrite Nat.min_l by lia. vm_compute. reflexivity.
  - unfold fmt_view. by rewrite decide_True.
Qed.

(** The root directory before the files. *)
Lemma wp_root s v (k : Z → MK unit) Q :
  image s v 1 nmeta → (∀ s' v', built s' v' [] → wp (k ROOTINO) Q s') →
  wp (rootino ← mk_ialloc T_DIR;
      if negb (rootino =? ROOTINO) then panic "assert: rootino == ROOTINO" else
      iappend rootino (mk_dirent rootino [46]) ;; iappend rootino (mk_dirent rootino [46; 46]) ;; k rootino) Q s.
Proof.
  intros Him HQ. apply wp_bind. eapply wp_mk_ialloc; [exact Him|done|done|]. intros s1 v1 Him1 Hnew1 _.
  change (negb (1 =? ROOTINO)) with false. cbn match. change (dinode_at v1 1) with (dinode_at v1 ROOTINO) in Hnew1.
  change (iappend 1) with (iappend ROOTINO). change (mk_dirent 1) with (mk_dirent ROOTINO).
  change (k 1) with (k ROOTINO).
  assert (Hb : ∀ l, Forall byte_ok (map (λ _, 46) (l : list unit))) by (intros l; induction l; constructor; [by split|done]).
  assert (Hsz1 : di_size (dinode_at v1 ROOTINO) = 0) by by rewrite Hnew1.
  apply wp_bind. eapply wp_iappend; [exact Him1|klia|apply mk_dirent_bytes, (Hb [tt])| | |]; rewrite ?Hsz1, ?length_mk_dirent; [done|done|].
  intros s2 v2 Him2 [Hc2 _] Hat2 Hsz2. specialize (Hsz2 ROOTINO ltac:(klia)). rewrite Hsz1, decide_True in Hsz2 by done.
  apply wp_bind. eapply wp_iappend; [exact Him2|klia|apply mk_dirent_bytes, (Hb [tt; tt])| | |]; rewrite ?Hsz2, ?length_mk_dirent; [done|done|].
  intros s3 v3 Him3 [Hc3 _] Hat3 _. apply (HQ s3 v3). constructor.
  - exact Him3.
  - rewrite Hc3, Hc2, Hnew1. done.
  - rewrite Hat3, Hat2, Hnew1 by klia. done.
  - intros i f Hi. by rewrite lookup_nil in Hi.
Qed.

(** ** The end of main *)

Lemma files_ok_resize v D fi fb j sz :
  files_ok v D fi fb → 1 ≤ j < fi → di_size (D j) ≤ sz ≤ MAXFILE * BSIZE →
  (∀ k, live_cell k sz ↔ live_cell k (di_size (D j))) →
  files_ok v (upd j (set_di_size sz (D j)) D) fi fb.
Proof.
  intros [[Hf Hb Hz HD Hdec Hdom Hi Hu Hun Hinj Ht] Hs] Hj Hsz Hlive. set (D' := upd j (set_di_size sz (D j)) D).
  assert (HL : ∀ j' k, live D' j' k ↔ live D j' k).
  { intros j' k. unfold live, D', upd. case_decide; [subst; apply Hlive|done]. }
  assert (Hc : ∀ j' k, cell v (D' j') k = cell v (D j') k) by (intros j' k; unfold D', upd; by case_decide; [subst|]).
  constructor; [constructor|].
  - done.
  - done.
  - done.
  - intros j' Hj'. unfold D', upd. case_decide; [subst|by apply HD]. pose proof (HD j Hj) as (? & ? & ? & ? & ? & ? & ?).
    unfold dinode_ok. cbn [di_type di_major di_minor di_nlink di_size di_addrs set_di_size]. split_and!; try done; klia.
  - intros j' k. rewrite HL. apply Hdec.
  - intros j' k. rewrite HL. apply Hdom.
  - intros j' k. rewrite !HL. apply Hi.
  - intros j' k. rewrite HL, Hc. apply Hu.
  - intros j' k. rewrite HL, Hc. apply Hun.
  - intros j1 k1 j2 k2. rewrite !HL, !Hc. apply Hinj.
  - intros j' o Hj' Hso Ho. rewrite HL. intros HLo. unfold D', upd in *. destruct (decide (j' = j)) as [->|Hne].
    + transitivity (fbyte v (ino (D j)) o); [done|]. apply Ht; try done. simpl in Hso. lia.
    + by apply Ht.
  - intros j' Hj'. unfold D', upd. case_decide; [subst; simpl; lia|by apply Hs].
Qed.

(** The size the root directory gets. *)
Definition root_size (fs : list hostfile) : Z := (Z.of_nat (length (root_bytes fs)) / BSIZE + 1) * BSIZE.

Definition padded_root (fs : list hostfile) : list Z :=
  root_bytes fs ++ replicate (Z.to_nat (root_size fs - Z.of_nat (length (root_bytes fs)))) 0.

Lemma root_size_bounds fs (n := Z.of_nat (length fs) + 2) :
  n ≤ NINODES → n mod 32 ≠ 0 →
  16 * n < root_size fs ≤ NDIRECT * BSIZE ∧ ∀ k, live_cell k (root_size fs) ↔ live_cell k (16 * n).
Proof.
  intros Hn Hmod. unfold root_size. rewrite length_root_bytes. fold n. change NINODES with 200 in Hn.
  pose proof (Z.div_mod (16 * n) BSIZE ltac:(done)). pose proof (Z.mod_pos_bound (16 * n) BSIZE ltac:(done)).
  assert (16 * n mod BSIZE ≠ 0).
  { kunfold. replace 512 with (16 * 32) by done. rewrite Z.mul_mod_distr_l by done. lia. }
  split; [kunfold; lia|]. intros k. unfold live_cell. kunfold. lia.
Qed.

Lemma fbytes_split v i n m : 0 ≤ n ≤ m → fbytes v i 0 m = fbytes v i 0 n ++ fbytes v i n (m - n).
Proof. intros H. replace m with (n + (m - n)) at 1 by lia. by rewrite fbytes_app by lia. Qed.

Lemma wp_fix_root s v fs Q :
  built s v fs → Z.of_nat (length fs) + 2 ≤ NINODES → (Z.of_nat (length fs) + 2) mod 32 ≠ 0 →
  (∀ s' v', image s' v' (Z.of_nat (length fs) + 2) (blocks_of fs) →
     content v' (ino (dinode_at v' ROOTINO)) = padded_root fs → attrs (dinode_at v' ROOTINO) = (T_DIR, 0, 0, 1) →
     (∀ i f, fs !! i = Some f → content v' (ino (dinode_at v' (Z.of_nat i + 2))) = hf_bytes f ∧
        attrs (dinode_at v' (Z.of_nat i + 2)) = (T_FILE, 0, 0, 1)) → Q tt s') →
  wp (fix_root ROOTINO) Q s.
Proof.
  intros [Him Hroot Hdir Hfiles] Hn Hmod HQ. destruct (root_size_bounds fs Hn Hmod) as [Hrs Hlive].
  pose proof Him as [Hrep Hfo Hfi Hfree Hsb]. set (fi := Z.of_nat (length fs) + 2) in *.
  destruct (dino_ok _ _ _ _ ROOTINO Hfo ltac:(unfold fi; klia)) as [Hd Hsz0].
  assert (Hsz : di_size (dinode_at v ROOTINO) = 16 * fi).
  { rewrite <- (length_content v) by lia. rewrite Hroot. apply length_root_bytes. }
  unfold fix_root. apply wp_bind. eapply wp_rinode; [exact Hrep|done|]. rewrite Hsz.
  assert (Ers : u32 ((xint (16 * fi) / BSIZE + 1) * BSIZE) = root_size fs).
  { unfold root_size in *. rewrite length_root_bytes in *. fold fi in Hrs |- *.
    change NINODES with 200 in Hn. rewrite xint_small by klia. apply u32_small. klia. }
  rewrite Ers, xint_small by klia. set (d := set_di_size (root_size fs) (dinode_at v ROOTINO)).
  assert (Hfo1 : files_ok v (upd ROOTINO d (dinode_at v)) fi (blocks_of fs)).
  { apply files_ok_resize; [done|unfold fi; klia|rewrite Hsz; klia|]. intros k. rewrite Hsz. apply Hlive. }
  eapply wp_winode; [exact Hrep|done|]. intros s1 Hrep1.
  assert (HDr : upd ROOTINO d (dinode_at v) ROOTINO = d) by (unfold upd; by rewrite decide_True).
  destruct (store_inode_ok v _ fi (blocks_of fs) fi ROOTINO d Hfo1) as (Hfo2 & Hsb2 & Hfree2 & Hdin2 & Hc2); try done.
  { rewrite <- HDr. apply (dino_ok _ _ _ _ ROOTINO Hfo1). unfold fi. klia. }
  { intros j' Hj' Hne. unfold upd. by rewrite decide_False. } { intros j' Hj' Hne. by apply Hfree. }
  apply (HQ s1 (store_inode ROOTINO d v)).
  - constructor; try done. intros j Hj. apply Hfree2; unfold fi in *; klia.
  - rewrite Hc2 by (unfold fi; klia). rewrite HDr. unfold padded_root. rewrite <- Hroot at 1.
    unfold content, d. cbn [i_size ino di_size set_di_size]. rewrite length_root_bytes, Hsz. fold fi.
    transitivity (fbytes v (ino (dinode_at v ROOTINO)) 0 (root_size fs)); [done|].
    rewrite (fbytes_split v _ (16 * fi) (root_size fs)) by lia. f_equal. apply list_eq. intros i. unfold fbytes. rewrite list_lookup_fmap.
    destruct (decide (Z.of_nat i < root_size fs - 16 * fi)).
    + rewrite lookup_seqZ_lt, lookup_replicate_2 by lia. simpl. f_equal.
      apply (la_tail _ _ _ _ _ (fo_lay _ _ _ _ Hfo) ROOTINO); [unfold fi; klia|lia|klia|].
      unfold live. rewrite Hsz. apply Hlive. left. pose proof (blk_range (16 * fi + Z.of_nat i) ltac:(klia)).
      split; [done|]. pose proof (Z.mul_div_le (16 * fi + Z.of_nat i) BSIZE ltac:(done)). lia.
    + rewrite lookup_seqZ_ge by lia. symmetry. apply lookup_replicate_None. lia.
  - rewrite Hdin2 by done. by rewrite HDr.
  - intros i f Hi. pose proof (lookup_lt_Some _ _ _ Hi). rewrite Hc2, Hdin2 by (unfold fi in *; lia). unfold upd.
    rewrite decide_False by klia. by apply Hfiles.
Qed.

(** ** The bitmap *)

Lemma bits_prefix used : 0 ≤ used ≤ BPB →
  block_ok (foldl set_bit zero_block (seqZ 0 used)) ∧
  ∀ b, 0 ≤ b < BPB → bit_clear (foldl set_bit zero_block (seqZ 0 used)) b = bool_decide (used ≤ b).
Proof.
  intros [H0 Hu]. revert Hu. pattern used. apply natlike_ind; [| |done]; clear used H0.
  - intros _. change (foldl set_bit zero_block (seqZ 0 0)) with zero_block.
    split; [apply zero_block_ok|]. intros b Hb. rewrite bool_decide_eq_true_2 by lia.
    unfold bit_clear, bmap_byte, zero_block. rewrite lookup_total_replicate_2; [done|].
    apply Nat2Z.inj_lt. rewrite Z2Nat.id by (apply Z.div_pos; lia). apply Z.div_lt_upper_bound; klia.
  - intros used H0 IH Hu. destruct IH as [Hok Hbits]; [lia|].
    rewrite <- Z.add_1_r, seqZ_app, foldl_app by lia.
    replace (seqZ (0 + used) 1) with [used] by (unfold seqZ; simpl; f_equal; lia). cbn [foldl].
    split; [by apply set_bit_ok|].
    intros b Hb. rewrite bit_clear_set by (done || lia). rewrite Hbits by done.
    case_decide; [rewrite bool_decide_eq_false_2 by lia; done|]. apply bool_decide_ext. lia.
Qed.

(** The files that the kernel finds. *)
Lemma files_ok_file v fi fb ks j :
  files_ok v (dinode_at v) fi fb → fb ≤ FSSIZE → k_sb ks = mk_sb → 1 ≤ j < fi →
  (∀ b, 0 ≤ b < BPB → bit_clear (v (ROOTDEV, 58)) b = bool_decide (fb ≤ b)) →
  file_ok ks v (ino (dinode_at v j)).
Proof.
  intros Hfo Hfb Hks Hj Hbits. pose proof Hfo as [[Hf Hb Hz HD Hdec Hdom Hi Hu Hun Hinj Ht] Hs].
  destruct (dino_ok _ _ _ _ j Hfo Hj) as [Hd Hsz]. pose proof (Hun j) as Hunj. pose proof (Hu j) as Huj.
  assert (Hnz : ∀ k, 0 ≤ k ≤ MAXFILE → cell v (dinode_at v j) k ≠ 0 → live (dinode_at v) j k).
  { intros k Hk Hne. destruct (Hdec j k) as [|HL]; [done|]. by destruct Hne; apply Hunj. }
  assert (Hdata : ∀ k, live (dinode_at v) j k →
    data_block ks (cell v (dinode_at v j) k) ∧ free_in ks v (cell v (dinode_at v j) k) = false).
  { intros k HL. specialize (Huj k Hj HL). unfold data_block, free_in. rewrite Hks.
    change (sb_bmapstart mk_sb) with 58. change (sb_size mk_sb) with 1000. change nmeta with 59 in Huj.
    split; [klia|]. rewrite Hbits by klia. apply bool_decide_eq_false_2. lia. }
  constructor.
  - done.
  - apply Hd.
  - simpl. done.
  - intros Hne. apply (Hdata MAXFILE). apply Hnz; [klia|done].
  - intros bn Hbn. rewrite <- cell_blk by done. intros Hne. assert (HL := Hnz bn ltac:(klia) Hne).
    destruct (Hdata bn HL). split_and!; [done|done|]. intros E. rewrite <- (cell_ind v) in E.
    apply (Hinj j bn j MAXFILE) in E as [_ ?]; [klia|done|done|done|]. apply Hnz; [klia|]. by rewrite <- E.
  - intros bn bn' Hbn Hbn'. rewrite <- !cell_blk by done. intros Hne E.
    apply (Hinj j bn j bn') in E as [_ ?]; [done|done|done| |]; apply Hnz; [klia|done|klia|by rewrite <- E].
  - intros bn Hbn Hlt. cbn [i_size ino] in Hlt.
    assert (HL : live (dinode_at v) j bn) by (unfold live; left; klia).
    rewrite <- cell_blk by klia. specialize (Huj bn Hj HL). change nmeta with 59 in Huj. lia.
Qed.

(** The image that holds the files [fs]. *)
Record made (s : mkst) (v : bkey → list Z) (fs : list hostfile) : Prop := Made {
  ma_rep : rep s v (Z.of_nat (length fs) + 2) (blocks_of fs);
  ma_blocks : ∀ b, block_ok (v (ROOTDEV, b));
  ma_sb : sb_decode (v (ROOTDEV, 1)) = mk_sb;
  ma_ok : ∀ ks j, k_sb ks = mk_sb → 1 ≤ j < Z.of_nat (length fs) + 2 → file_ok ks v (ino (dinode_at v j));
  ma_root : content v (ino (dinode_at v ROOTINO)) = padded_root fs ∧ attrs (dinode_at v ROOTINO) = (T_DIR, 0, 0, 1);
  ma_files : ∀ i f, fs !! i = Some f → content v (ino (dinode_at v (Z.of_nat i + 2))) = hf_bytes f ∧
    attrs (dinode_at v (Z.of_nat i + 2)) = (T_FILE, 0, 0, 1);
  ma_free : ∀ j, Z.of_nat (length fs) + 2 ≤ j < NINODES → dinode_at v j = zero_dinode;
  ma_bits : ∀ b, 0 ≤ b < BPB → bit_clear (v (ROOTDEV, sb_bmapstart mk_sb)) b = bool_decide (blocks_of fs ≤ b)
}.

Lemma wp_mk_balloc s v fs Q :
  image s v (Z.of_nat (length fs) + 2) (blocks_of fs) → content v (ino (dinode_at v ROOTINO)) = padded_root fs →
  attrs (dinode_at v ROOTINO) = (T_DIR, 0, 0, 1) → Z.of_nat (length fs) + 2 ≤ NINODES →
  (∀ i f, fs !! i = Some f → content v (ino (dinode_at v (Z.of_nat i + 2))) = hf_bytes f ∧
     attrs (dinode_at v (Z.of_nat i + 2)) = (T_FILE, 0, 0, 1)) →
  (∀ s' v', made s' v' fs → Q tt s') → wp (mk_balloc (blocks_of fs)) Q s.
Proof.
  intros [Hrep Hfo Hfi Hfree Hsb] Hroot Hdir Hn Hfiles HQ. pose proof (la_fb _ _ _ _ _ (fo_lay _ _ _ _ Hfo)) as Hfb.
  change nmeta with 59 in Hfb. unfold mk_balloc. rewrite (proj2 (Z.ltb_lt _ _)) by klia. cbn [negb].
  change (sb_bmapstart mk_sb) with 58. eapply wp_wsect; [exact Hrep|done|]. intros s1 Hrep1.
  destruct (bits_prefix (blocks_of fs) ltac:(klia)) as [Hbok Hbits]. set (bm := foldl set_bit _ _) in *.
  destruct (layout_meta v (dinode_at v) _ _ (live (dinode_at v)) 58 bm (fo_lay _ _ _ _ Hfo)) as [Hla1 Hsame]; [done|done|].
  assert (Hdin : ∀ j, 0 ≤ j < NINODES → dinode_at (vset 58 bm v) j = dinode_at v j).
  { intros j Hj. unfold dino. rewrite mk_sb_demo. pose proof (mk_iblock j Hj). by rewrite vset_ne by lia. }
  assert (Hfo1 : files_ok (vset 58 bm v) (dinode_at (vset 58 bm v)) (Z.of_nat (length fs) + 2) (blocks_of fs)).
  { eapply files_ok_ext; [|constructor; [exact Hla1|apply Hfo]]. intros j Hj. apply Hdin. lia. }
  assert (Hc : ∀ j, 1 ≤ j < Z.of_nat (length fs) + 2 →
    content (vset 58 bm v) (ino (dinode_at (vset 58 bm v) j)) = content v (ino (dinode_at v j))).
  { intros j Hj. rewrite Hdin by lia. eapply same_content; [exact Hsame|done|done|]. by apply (fo_size _ _ _ _ Hfo). }
  assert (Hb58 : vset 58 bm v (ROOTDEV, 58) = bm) by apply vset_eq.
  apply (HQ s1 (vset 58 bm v)). constructor.
  - done.
  - apply Hla1.
  - rewrite vset_ne by done. rewrite Hsb. vm_compute. reflexivity.
  - intros ks j Hks Hj. apply (files_ok_file _ (Z.of_nat (length fs) + 2) (blocks_of fs)); [done|lia|done|done|]. by rewrite Hb58.
  - rewrite Hc, Hdin by klia. done.
  - intros i f Hi. pose proof (lookup_lt_Some _ _ _ Hi). rewrite Hc, Hdin by lia. by apply Hfiles.
  - intros j Hj. rewrite Hdin by lia. by apply Hfree.
  - change (sb_bmapstart mk_sb) with 58. by rewrite Hb58.
Qed.

Lemma mkfs_makes argc files :
  2 ≤ argc → Forall good_file files → Z.of_nat (length files) + 2 ≤ NINODES →
  (Z.of_nat (length files) + 2) mod 32 ≠ 0 → blocks_of files ≤ FSSIZE →
  ∃ s v, mkfs_main argc true files mk_start = Ok tt s ∧ made s v files.
Proof.
  intros Hargc Hgood Hn Hmod Hroom.
  assert (Hw : wp (mkfs_main argc true files) (λ _ s, ∃ v, made s v files) mk_start).
  { unfold mkfs_main. rewrite (proj2 (Z.ltb_ge _ _)) by done.
    change (negb (BSIZE mod DINODE_SIZE =? 0)) with false. change (negb (BSIZE mod DIRENT_SIZE =? 0)) with false. cbn match.
    eapply wp_step; [exact fmt_ok|]. eapply wp_root; [exact fmt_image|]. intros s1 v1 Hb1.
    apply wp_bind. eapply (wp_add_files _ files []); [exact Hb1|done..|]. intros s2 v2 Hb2.
    apply wp_bind. eapply wp_fix_root; [exact Hb2|done..|]. intros s3 v3 Him3 Hr3 Hd3 Hf3.
    apply wp_bind, wp_gets. rewrite (rep_fb _ _ _ _ (im_rep _ _ _ _ Him3)).
    eapply wp_mk_balloc; [exact Him3|done..|]. intros s4 v4 Hm4. by exists v4. }
  apply wp_run in Hw as ([] & s & Hs & v & Hm). by exists s, v.
Qed.

(** ** Reading the image with the kernel *)

(** A kernel that runs on the image, with inode [j] in slot [ip] of the
    inode cache. *)
Record runs_on (ks : kst) (v : bkey → list Z) (ip : nat) (i : inode) (j : Z) : Prop := RunsOn {
  ro_ok : fs_ok ∅ ks;
  ro_log : nlog ks < NBUF;
  ro_view : ∀ b, view ks (ROOTDEV, b) = v (ROOTDEV, b);
  ro_sb : k_sb ks = sb_decode (v (ROOTDEV, 1));
  ro_geom : sb_geom ks;
  ro_slot : k_icache ks !! ip = Some i;
  ro_dev : i_dev i = ROOTDEV;
  ro_inode : dinode_of i = dinode_at v j
}.

Lemma file_ok_image ks v v' i i' :
  (∀ b, v' (ROOTDEV, b) = v (ROOTDEV, b)) → i_dev i' = i_dev i → i_size i' = i_size i → i_addrs i' = i_addrs i →
  file_ok ks v i → file_ok ks v' i'.
Proof.
  intros Hv Hd Hs Ha [H1 H2 H3 H4 H5 H6 H7].
  assert (Hi : ∀ n, iaddr i' n = iaddr i n) by (intros n; unfold iaddr; by rewrite Ha).
  assert (Hb : ∀ bn, blk_of v' i' bn = blk_of v i bn) by (intros bn; unfold blk_of; by rewrite !Hi, Hv).
  assert (Hf : ∀ b, free_in ks v' b = free_in ks v b) by (intros b; unfold free_in; by rewrite Hv).
  constructor; rewrite ?Hd, ?Hs, ?Ha; try done.
  - intros Hne. rewrite Hi in *. rewrite Hf. by apply H4.
  - intros bn Hbn. rewrite Hb, Hi, Hf. by apply H5.
  - intros bn bn' Hbn Hbn'. rewrite !Hb. by apply H6.
  - intros bn. rewrite Hb. by apply H7.
Qed.

Lemma made_readi devread s v fs i f ks ip ii :
  made s v fs → fs !! i = Some f → runs_on ks v ip ii (Z.of_nat i + 2) →
  ∃ ks', fs_eq ks ks' ∧ readi devread ip 0 (Z.of_nat (length (hf_bytes f))) ks = Ok (Z.of_nat (length (hf_bytes f)), hf_bytes f) ks'.
Proof.
  intros Hm Hi [Hok Hlog Hview Hsb Hg Hslot Hdev Hdin]. pose proof (lookup_lt_Some _ _ _ Hi) as Hlt.
  destruct (ma_files _ _ _ Hm i f Hi) as [Hc Hat]. rewrite (ma_sb _ _ _ Hm) in Hsb.
  assert (Hfile : file_ok ks v (ino (dinode_at v (Z.of_nat i + 2)))) by (apply (ma_ok _ _ _ Hm); [done|lia]).
  rewrite <- Hdin in Hc, Hat, Hfile. unfold dinode_of in *. simpl in Hat. injection Hat as Ht _ _ _.
  assert (Hfile' : file_ok ks (view ks) ii).
  { eapply file_ok_image; [| | | |exact Hfile]; [done|by rewrite Hdev|done|done]. }
  assert (Hcont : content (view ks) ii = hf_bytes f).
  { rewrite <- Hc. unfold content. cbn [ino i_size di_size]. apply fbytes_ext. intros o _. unfold fbyte, blk_of.
    by rewrite !Hview. }
  pose proof (f_size _ _ _ Hfile') as Hsz.
  assert (Hlen : Z.of_nat (length (hf_bytes f)) = i_size ii).
  { rewrite <- Hcont. unfold content. rewrite length_fbytes. lia. }
  rewrite Hlen. assert (Hw : wp (readi devread ip 0 (i_size ii)) (λ r ks', fs_eq ks ks' ∧ r = (i_size ii, hf_bytes f)) ks).
  { eapply wp_readi; [done..|by rewrite Ht|klia|lia|klia|]. intros ks' Heq _. split; [done|].
    rewrite Hcont, Z.sub_0_r, Z.min_id. f_equal. unfold slice. simpl. apply take_ge. lia. }
  apply wp_run in Hw as (r & ks' & Hr & Heq & ->). by exists ks'.
Qed.


(** ** A file system with one file *)

Definition demo_file : hostfile := HostFile [95; 97] (Some [[104; 105; 10]; [33]]).

(** The kernel on the image, with the inode in slot 0. *)
Definition boot_disk (v : bkey → list Z) : gmap bkey (list Z) :=
  list_to_map ((λ b, ((ROOTDEV, b), v (ROOTDEV, b))) <$> seqZ 0 FSSIZE).
Definition boot_inode (d : dinode) (j : Z) : inode :=
  Inode ROOTDEV j 1 None 1 (di_type d) (di_major d) (di_minor d) (di_nlink d) (di_size d) (di_addrs d).
Definition boot_state (v : bkey → list Z) (j : Z) : kst :=
  KS (boot_disk v) [] true ∅ (Log 2 30 0 0 ROOTDEV (Logheader 0 (replicate 30 0))) mk_sb
    (boot_inode (dinode_at v j) j :: replicate 49 empty_inode) [] 1.

Lemma boot_disk_lookup v b : boot_disk v !! (ROOTDEV, b) = if decide (0 ≤ b < FSSIZE) then Some (v (ROOTDEV, b)) else None.
Proof.
  unfold boot_disk. case_decide as Hb.
  - apply elem_of_list_to_map_1.
    + rewrite <- list_fmap_compose. apply NoDup_fmap_2; [by intros x y [= ->]|apply NoDup_seqZ].
    + apply list_elem_of_fmap. exists b. split; [done|]. apply elem_of_seqZ. lia.
  - apply not_elem_of_list_to_map_1. rewrite <- list_fmap_compose. intros (b' & [= ->] & Hin)%list_elem_of_fmap.
    apply elem_of_seqZ in Hin. lia.
Qed.

Lemma boot_disk_ok v : (∀ b, block_ok (v (ROOTDEV, b))) → disk_ok (boot_disk v).
Proof.
  intros Hb k d Hk. apply elem_of_list_to_map_2 in Hk. apply list_elem_of_fmap in Hk as (b & [= -> ->] & _). apply Hb.
Qed.

#[local] Opaque boot_disk.

Lemma boot_runs v s fi fb j : rep s v fi fb → (∀ b, block_ok (v (ROOTDEV, b))) → sb_decode (v (ROOTDEV, 1)) = mk_sb →
  runs_on (boot_state v j) v 0 (boot_inode (dinode_at v j) j) j.
Proof.
  intros Hrep Hb Hsb. constructor.
  - split.
    + by split.
    + done.
    + by apply boot_disk_ok.
    + by apply NoDup_nil.
    + intros b. by rewrite elem_of_nil.
    + intros b. by rewrite elem_of_nil.
    + set_solver.
    + intros k b. simpl. by rewrite lookup_empty.
  - done.
  - intros b. unfold view. cbn [k_bcache boot_state k_disk]. rewrite lookup_empty. unfold disk_get.
    change (disk_key (ROOTDEV, b)) with (ROOTDEV, b). rewrite boot_disk_lookup. case_decide as Hr; [done|].
    rewrite <- (rep_v _ _ _ _ Hrep). unfold iv. simpl. destruct (Z.leb_spec 0 b); [|done].
    rewrite lookup_ge_None_2; [done|]. rewrite (rep_len _ _ _ _ Hrep). klia.
  - done.
  - by split.
  - done.
  - done.
  - by destruct (dinode_at v j).
Qed.

Lemma demo_file_good : good_file demo_file.
Proof.
  split_and!.
  - cbv [demo_file hf_name SLASH]. set_solver.
  - repeat (constructor; [by split|]). constructor.
  - eexists. split; [done|]. repeat (constructor; [repeat (constructor; [by split|]); constructor|]). constructor.
  - vm_compute. discriminate.
Qed.


(** With 30 files the 32 entries fill the block of the root directory, and
    its size is still rounded up to the next block: the directory has a
    second block of size that was never allocated. *)
Lemma mkfs_full_root_hole :
  let files := replicate 30 (HostFile [97] (Some [])) in
  match mkfs_main 32 true files mk_start with
  | Ok _ s => di_size (dinode_at (iv (mk_img s)) ROOTINO) = 1024 ∧
      blk_of (iv (mk_img s)) (ino (dinode_at (iv (mk_img s)) ROOTINO)) 1 = 0
  | Fault _ => False
  end.
Proof. vm_compute. split; reflexivity. Qed.
