(* ===== verification/Writei.v ===== *)
(** * Writei: writing to a file

    [writei] of fs.c replaces a range of the file's bytes, extends the file
    when the range ends past its end, and touches no block of another file. *)

From S2P Require Import Prelude State Bio Log LogOps Fs Demo Balloc Content Grow Inode.

Section written.
Context (s0 : kst) (Hlog : log_geom (k_log s0) (k_havedisk1 s0)) (Hsb : sb_geom s0).
Implicit Types (v : bkey → list Z) (i : inode).

Abbreviation bm := (sb_bmapstart (k_sb s0)).

(** From [v] and [i] the bytes [bs] have been written at [off]. *)
Record written v i v' (i' : inode) (off : Z) (bs : list Z) : Prop := {
  w_ok : file_ok s0 v' i';
  w_meta : meta_used s0 v';
  w_inode : i' = set_i_addrs (i_addrs i') i;
  w_blk : ∀ bn, 0 ≤ bn < MAXFILE → blk_of v i bn ≠ 0 → blk_of v' i' bn = blk_of v i bn;
  w_map : ∀ o, off ≤ o < off + Z.of_nat (length bs) → blk_of v' i' (o / BSIZE) ≠ 0;
  w_byte : ∀ o, 0 ≤ o < MAXFILE * BSIZE →
    blk_of v i (o / BSIZE) ≠ 0 ∨ off ≤ o < off + Z.of_nat (length bs) →
    fbyte v' i' o = if decide (off ≤ o < off + Z.of_nat (length bs)) then bs !!! Z.to_nat (o - off) else fbyte v i o;
  w_own : ∀ bn, 0 ≤ bn < MAXFILE → blk_of v i bn = 0 → blk_of v' i' bn ≠ 0 →
    free_in s0 v (blk_of v' i' bn) = true;
  w_free : ∀ b, 0 ≤ b → free_in s0 v' b = true → free_in s0 v b = true;
  w_ind : iaddr i' NDIRECT = iaddr i NDIRECT ∨ iaddr i NDIRECT = 0 ∧ free_in s0 v (iaddr i' NDIRECT) = true;
  w_same : (∀ o, off ≤ o < off + Z.of_nat (length bs) → blk_of v i (o / BSIZE) ≠ 0) → i' = i;
  w_low : ∀ b, b < bm → v' (ROOTDEV, b) = v (ROOTDEV, b);
  w_other : ∀ b, data_block s0 b → free_in s0 v b = false → b ≠ iaddr i NDIRECT →
    (∀ bn, 0 ≤ bn < MAXFILE → blk_of v i bn ≠ b) → v' (ROOTDEV, b) = v (ROOTDEV, b)
}.

Lemma written_refl v i off : file_ok s0 v i → meta_used s0 v → written v i v i off [].
Proof.
  clear. intros Hf Hm. split; simpl; try done; try lia.
  - by destruct i.
  - intros o Ho _. by rewrite decide_False by lia.
Qed.

(** Two offsets of one block. *)
Lemma div_range o bn : 0 ≤ o < MAXFILE * BSIZE → bn = o / BSIZE → 0 ≤ bn < MAXFILE.
Proof.
  clear. intros Ho ->. split; [apply Z.div_pos; klia|apply Z.div_lt_upper_bound; klia].
Qed.

Lemma splice_total (l bs : list Z) (k j : nat) :
  (k + length bs ≤ length l)%nat →
  splice k bs l !!! j = if decide (k ≤ j < k + length bs)%nat then bs !!! (j - k)%nat else l !!! j.
Proof.
  clear. intros Hl. rewrite !list_lookup_total_alt, lookup_splice by done. by case_decide.
Qed.

(** One more piece, in the block that [bmap] returned. *)
Section step.
Context (v v1 v2 : bkey → list Z) (i i1 i2 : inode) (off : Z) (bs bs2 : list Z) (a : Z).
Abbreviation o1 := (off + Z.of_nat (length bs)).
Context (Hw : written v i v1 i1 off bs) (Hg : grown s0 v1 i1 v2 i2 (o1 / BSIZE) a).
Context (Hoff : 0 ≤ off) (Hend : o1 + Z.of_nat (length bs2) ≤ MAXFILE * BSIZE) (Hne : 0 < Z.of_nat (length bs2)).
Context (Hblk : o1 mod BSIZE + Z.of_nat (length bs2) ≤ BSIZE) (Hok : block_ok (v2 (ROOTDEV, a))).

Definition v3 : bkey → list Z := vset a (splice (Z.to_nat (o1 mod BSIZE)) bs2 (v2 (ROOTDEV, a))) v2.

Lemma step_bn : 0 ≤ o1 / BSIZE < MAXFILE.
Proof. clear -Hoff Hend Hne. apply (div_range o1); [lia|done]. Qed.

Lemma step_a : blk_of v2 i2 (o1 / BSIZE) = a.
Proof. rewrite (g_blk _ _ _ _ _ _ _ Hg) by apply step_bn. by rewrite decide_True. Qed.

Lemma step_a_data : data_block s0 a ∧ a ≠ iaddr i2 NDIRECT.
Proof.
  destruct (f_blk _ _ _ (g_ok _ _ _ _ _ _ _ Hg) _ step_bn) as (Hd & _ & Hi);
    rewrite step_a in *; [apply Hg|done].
Qed.

Lemma step_blk bn : 0 ≤ bn < MAXFILE → blk_of v3 i2 bn = if decide (bn = o1 / BSIZE) then a else blk_of v1 i1 bn.
Proof.
  intros Hbn. unfold v3. rewrite blk_of_vset by apply step_a_data. by apply (g_blk _ _ _ _ _ _ _ Hg).
Qed.

(** Offsets of the new piece. *)
Lemma step_in o :
  o1 ≤ o < o1 + Z.of_nat (length bs2) → o / BSIZE = o1 / BSIZE ∧ o mod BSIZE = o1 mod BSIZE + (o - o1).
Proof.
  clear -Hoff Hblk. intros Ho. pose proof (Z.div_mod o1 BSIZE ltac:(done)).
  pose proof (Z.mod_pos_bound o1 BSIZE ltac:(done)). split.
  - symmetry. apply (Z.div_unique _ _ _ (o1 mod BSIZE + (o - o1))); [left; lia|lia].
  - symmetry. apply (Z.mod_unique _ _ (o1 / BSIZE)); [left; lia|lia].
Qed.

(** A block that was mapped before this piece keeps its bytes elsewhere. *)
Lemma step_old o :
  0 ≤ o < MAXFILE * BSIZE → blk_of v1 i1 (o / BSIZE) ≠ 0 → ¬ (o1 ≤ o < o1 + Z.of_nat (length bs2)) →
  fbyte v3 i2 o = fbyte v1 i1 o.
Proof.
  intros Ho Hm Hn. pose proof (div_range o _ Ho eq_refl) as Hbn. pose proof step_a_data as [Had Hai].
  pose proof (w_ok _ _ _ _ _ _ Hw) as Hf1.
  destruct (f_blk _ _ _ Hf1 _ Hbn Hm) as (Hd & Hu & Hi).
  assert (v2 (ROOTDEV, blk_of v1 i1 (o / BSIZE)) = v1 (ROOTDEV, blk_of v1 i1 (o / BSIZE))) as Hsame.
  { by apply (g_other _ _ _ _ _ _ _ Hg). }
  unfold fbyte. rewrite step_blk by done. case_decide as Hc.
  - assert (a = blk_of v1 i1 (o / BSIZE)) as Ha by (rewrite Hc in *; by apply (g_old _ _ _ _ _ _ _ Hg)).
    unfold v3. rewrite vset_eq. destruct Hok as [Hlen _]. pose proof (Z.mod_pos_bound o1 BSIZE ltac:(done)).
    rewrite splice_total by (rewrite Hlen; klia). rewrite decide_False; [by rewrite Ha, Hsame|].
    intros Hin. apply Hn. pose proof (Z.div_mod o BSIZE ltac:(done)). pose proof (Z.div_mod o1 BSIZE ltac:(done)).
    pose proof (Z.mod_pos_bound o BSIZE ltac:(done)). lia.
  - unfold v3. rewrite vset_ne; [by rewrite Hsame|]. rewrite <- step_a. intros E.
    assert (blk_of v2 i2 (o / BSIZE) = blk_of v1 i1 (o / BSIZE)) as E2.
    { rewrite (g_blk _ _ _ _ _ _ _ Hg) by done. by rewrite decide_False. }
    apply Hc, (f_inj _ _ _ (g_ok _ _ _ _ _ _ _ Hg)); [done|apply step_bn|congruence|congruence].
Qed.
Lemma step_new o :
  o1 ≤ o < o1 + Z.of_nat (length bs2) → fbyte v3 i2 o = bs2 !!! Z.to_nat (o - o1).
Proof.
  intros Ho. destruct (step_in o Ho) as [Hd Hm]. pose proof step_bn as Hbn.
  unfold fbyte. rewrite step_blk by (by rewrite Hd). rewrite decide_True by done.
  unfold v3. rewrite vset_eq. destruct Hok as [Hlen _]. pose proof (Z.mod_pos_bound o1 BSIZE ltac:(done)).
  rewrite splice_total by (rewrite Hlen; klia). rewrite Hm, decide_True by lia. f_equal. lia.
Qed.

(** The new block, if it is new, came from the free blocks. *)
Lemma step_from b :
  data_block s0 b → free_in s0 v b = false → b ≠ iaddr i NDIRECT →
  (∀ bn, 0 ≤ bn < MAXFILE → blk_of v i bn ≠ b) → a ≠ b.
Proof.
  intros Hb Hu Hi Hnb ->. pose proof step_bn as Hbn.
  destruct (decide (blk_of v1 i1 (o1 / BSIZE) = 0)) as [Hz|Hz].
  - destruct (g_new _ _ _ _ _ _ _ Hg Hz) as [_ Hf].
    apply (w_free _ _ _ _ _ _ Hw) in Hf; [congruence|]. apply (data_range s0 Hlog Hsb b Hb).
  - pose proof (g_old _ _ _ _ _ _ _ Hg Hz) as Ha. destruct (decide (blk_of v i (o1 / BSIZE) = 0)) as [Hz'|Hz'].
    + pose proof (w_own _ _ _ _ _ _ Hw _ Hbn Hz' Hz). congruence.
    + apply (Hnb _ Hbn). rewrite <- (w_blk _ _ _ _ _ _ Hw) by done. done.
Qed.

Lemma written_step : written v i v3 i2 off (bs ++ bs2).
Proof.
  destruct step_a_data as [Had Hai]. pose proof step_bn as Hbn1.
  assert (a ≠ bm) as Habm by (destruct Had; lia).
  assert (∀ b, free_in s0 v3 b = free_in s0 v2 b) as Hfree3 by (intros b; by apply free_vset).
  assert (∀ bn, 0 ≤ bn < MAXFILE → blk_of v1 i1 bn ≠ 0 → blk_of v3 i2 bn = blk_of v1 i1 bn) as Hkeep.
  { intros bn Hbn Hz. rewrite step_blk by done. case_decide; [|done]. subst. by apply (g_old _ _ _ _ _ _ _ Hg). }
  split.
  - apply file_ok_vset; [done|done|apply Hg].
  - intros b Hb. rewrite Hfree3. by apply (g_meta _ _ _ _ _ _ _ Hg).
  - rewrite (g_inode _ _ _ _ _ _ _ Hg) at 1. by rewrite (w_inode _ _ _ _ _ _ Hw).
  - intros bn Hbn Hz. rewrite <- (w_blk _ _ _ _ _ _ Hw) by done. apply Hkeep; [done|].
    by rewrite (w_blk _ _ _ _ _ _ Hw).
  - intros o Ho. rewrite length_app in Ho.
    destruct (decide (o < o1)) as [Hlt|Hge].
    + assert (0 ≤ o / BSIZE < MAXFILE) as Hbn by (apply (div_range o); [lia|done]).
      rewrite Hkeep; [|done|]; apply (w_map _ _ _ _ _ _ Hw); lia.
    + destruct (step_in o) as [Hd _]; [lia|]. rewrite Hd, step_blk, decide_True by done. apply Hg.
  - intros o Ho Hm. rewrite length_app in *. pose proof (div_range o _ Ho eq_refl) as Hbn.
    destruct (decide (o1 ≤ o < o1 + Z.of_nat (length bs2))) as [Hin|Hout].
    + rewrite step_new by done. rewrite decide_True by lia. rewrite lookup_total_app_r by lia. f_equal. lia.
    + rewrite step_old; [|done| |done].
      * rewrite (w_byte _ _ _ _ _ _ Hw) by (done || destruct Hm; auto; right; lia).
        destruct (decide (off ≤ o < o1)).
        -- rewrite !decide_True by lia. rewrite lookup_total_app_l by lia. done.
        -- by rewrite !decide_False by lia.
      * destruct Hm as [Hm|Hm]; [by rewrite (w_blk _ _ _ _ _ _ Hw)|apply (w_map _ _ _ _ _ _ Hw); lia].
  - intros bn Hbn Hz. rewrite step_blk by done. destruct (decide (blk_of v1 i1 bn = 0)) as [Hz1|Hz1].
    + case_decide as Hc; [|done]. intros _. subst bn. destruct (g_new _ _ _ _ _ _ _ Hg Hz1) as [_ Hf].
      apply (w_free _ _ _ _ _ _ Hw); [|done]. apply (data_range s0 Hlog Hsb a Had).
    + case_decide as Hc; [|by apply (w_own _ _ _ _ _ _ Hw)]. subst bn.
      rewrite (g_old _ _ _ _ _ _ _ Hg Hz1). by apply (w_own _ _ _ _ _ _ Hw).
  - intros b Hb. rewrite Hfree3. intros Hf. apply (w_free _ _ _ _ _ _ Hw); [done|]. by apply (g_free _ _ _ _ _ _ _ Hg).
  - destruct (g_ind _ _ _ _ _ _ _ Hg) as [->|[Hz Hf]]; [apply Hw|].
    destruct (w_ind _ _ _ _ _ _ Hw) as [E|[? ?]].
    + right. split; [congruence|]. apply (w_free _ _ _ _ _ _ Hw); [|done].
      destruct (decide (iaddr i2 NDIRECT = 0)) as [->|Hnz]; [done|].
      apply (data_range s0 Hlog Hsb), (f_ind _ _ _ (g_ok _ _ _ _ _ _ _ Hg)). done.
    + right. split; [done|]. apply (w_free _ _ _ _ _ _ Hw); [|done].
      destruct (decide (iaddr i2 NDIRECT = 0)) as [->|Hnz]; [done|].
      apply (data_range s0 Hlog Hsb), (f_ind _ _ _ (g_ok _ _ _ _ _ _ _ Hg)). done.
  - intros Hall. rewrite length_app in Hall. rewrite (g_same _ _ _ _ _ _ _ Hg).
    + apply (w_same _ _ _ _ _ _ Hw). intros o Ho. apply Hall. lia.
    + specialize (Hall o1 ltac:(lia)). by rewrite (w_blk _ _ _ _ _ _ Hw).
  - intros b Hb. unfold v3. rewrite vset_ne by (destruct Had; lia).
    rewrite (g_low _ _ _ _ _ _ _ Hg) by done. by apply (w_low _ _ _ _ _ _ Hw).
  - intros b Hb Hu Hi Hnb. pose proof (step_from b Hb Hu Hi Hnb) as Hab.
    unfold v3. rewrite vset_ne by done. pose proof (data_range s0 Hlog Hsb b Hb) as Hbr.
    rewrite (g_other _ _ _ _ _ _ _ Hg); [by apply (w_other _ _ _ _ _ _ Hw)|done| |].
    + destruct (free_in s0 v1 b) eqn:E; [|done]. apply (w_free _ _ _ _ _ _ Hw) in E; [congruence|lia].
    + destruct (w_ind _ _ _ _ _ _ Hw) as [->|[_ Hf]]; [done|congruence].
Qed.
End step.
End written.

(** ** The loop of [writei] *)

Lemma take_slice {A} (k m : nat) (l : list A) : take k l ++ slice k m l = take (k + m) l.
Proof. unfold slice. by rewrite take_take_drop. Qed.

Lemma nfree_vset s0 b d v : b ≠ sb_bmapstart (k_sb s0) → nfree s0 (vset b d v) = nfree s0 v.
Proof.
  intros Hb. unfold nfree. do 2 f_equal. apply list_filter_iff. intros x. by rewrite free_vset.
Qed.

(** What is left to do after [tot] of [n] bytes. *)
Definition left_turns (off tot n : Z) : Z := if decide (tot < n) then turns (off + tot) (n - tot) else 0.

Definition new_ind (i : inode) : Z := if decide (iaddr i NDIRECT = 0) then 1 else 0.

Section loop.
Context (s0 : kst) (c : Z) (Hlog : log_geom (k_log s0) (k_havedisk1 s0)) (Hsb : sb_geom s0).
Context (ip : nat) (v : bkey → list Z) (i0 : inode) (off0 n : Z) (src : list Z).
Context (Hoff : 0 ≤ off0) (Hn : n = Z.of_nat (length src)) (Hend : off0 + n ≤ MAXFILE * BSIZE)
        (Hbytes : Forall byte_ok src).

Abbreviation vw ws := (wview ws (view s0)).
Abbreviation wrote ws i tot := (written s0 v i0 (vw ws) i off0 (take (Z.to_nat tot) src)).

Lemma left_turns_step tot :
  0 ≤ tot < n → left_turns off0 (tot + chunk (off0 + tot) tot n) n + 1 ≤ left_turns off0 tot n.
Proof.
  intros Ht. assert (n < 2 ^ 32) by klia. unfold left_turns. rewrite (decide_True (P := tot < n)) by lia.
  pose proof (turns_pos (off0 + tot) (n - tot) ltac:(lia)). case_decide as Hd; [|lia].
  pose proof (turns_step (off0 + tot) tot n ltac:(lia) Ht ltac:(lia) Hd) as Hs. rewrite <- Z.add_assoc in Hs. lia.
Qed.

(** One turn: [bmap], then a store to the block it returned. *)
Lemma wp_writei_turn {A} ws i tot (k : KM A) s Q :
  let m := chunk (off0 + tot) tot n in
  op s0 c ws ∅ s → k_icache s !! ip = Some i → wrote ws i tot → 0 ≤ tot < n → cost s0 ws i + 1 < c →
  2 ≤ nfree s0 (vw ws) →
  (∀ s' ws' i', op s0 c ws' ∅ s' → k_icache s' = <[ip := i']> (k_icache s) → wrote ws' i' (tot + m) →
     cost s0 ws' i' ≤ cost s0 ws i + 1 →
     nfree s0 (vw ws) - new_ind i ≤ nfree s0 (vw ws') - new_ind i' + 1 → wp k Q s') →
  wp (addr ← bmap ip ((off0 + tot) / BSIZE);
      i ← inode_at ip;
      bp ← bread (i_dev i) addr;
      data ← bdata bp;
      set_bdata bp (splice (Z.to_nat ((off0 + tot) mod BSIZE)) (slice (Z.to_nat tot) (Z.to_nat m) src) data) ;;
      log_write bp ;; brelse bp ;; k) Q s.
Proof.
  intros m Ho Hi Hw Ht Hcost Hnf HQ. assert (n < 2 ^ 32) as Hn32 by klia.
  pose proof (chunk_spec (off0 + tot) tot n ltac:(lia) ltac:(lia) Hn32) as (Hm & Hblk & _). fold m in Hm, Hblk.
  set (bs2 := slice (Z.to_nat tot) (Z.to_nat m) src). set (bs := take (Z.to_nat tot) src) in *.
  assert (Z.of_nat (length bs) = tot) as Hlt_tot by (unfold bs; rewrite length_take; lia).
  assert (Z.of_nat (length bs2) = m) as Hlbs2 by (unfold bs2; rewrite length_slice; lia).
  assert (take (Z.to_nat (tot + m)) src = bs ++ bs2) as Htake.
  { unfold bs, bs2. rewrite take_slice. f_equal. lia. }
  assert (0 ≤ (off0 + tot) / BSIZE < MAXFILE) as Hbn by (apply (div_range (off0 + tot)); [lia|done]).
  apply wp_bind, (wp_bmap s0 c Hlog Hsb ws ip i); [done|done|apply Hw|apply Hw|done|done|lia|].
  intros a s1 ws1 i1 Ho1 Hi1 Hg Hc1.
  assert (Hg' := Hg). rewrite <- Hlt_tot in Hg' at 1.
  assert (block_ok (vw (ws ++ ws1) (ROOTDEV, a))) as Hok by by eapply op_block_ok.
  assert (written s0 v i0 (v3 (vw (ws ++ ws1)) off0 bs bs2 a) i1 off0 (bs ++ bs2)) as Hw'.
  { apply (written_step s0 Hlog Hsb v (vw ws) _ i0 i); (done || rewrite ?Hlt_tot; lia). }
  destruct (step_a_data s0 (vw ws) (vw (ws ++ ws1)) i i1 off0 bs bs2 a Hg') as [Had Hai]; [lia..|].
  apply wp_bind. eapply wp_inode_at; [rewrite Hi1; by eapply list_lookup_insert_eq, lookup_lt_Some|].
  rewrite (f_dev _ _ _ (g_ok _ _ _ _ _ _ _ Hg)).
  apply wp_bind, (wp_bread_op s0 c (ws ++ ws1) ∅); [done|rewrite size_empty; lia|by apply (data_range s0)|set_solver|].
  intros s2 Ho2 Hi2. apply wp_bind. eapply wp_bdata_op; [done|set_solver|]. fold bs2.
  set (d := splice _ bs2 _). pose proof (Hc1 d) as Hc2. rewrite app_assoc in Hc2.
  pose proof (cost_app s0 (ws ++ ws1) [(a, d)] i1) as Hc3. destruct (cost_bound s0 (ws ++ ws1) i1) as (Hc4 & _ & _).
  eapply wp_store_op; [done|set_solver|by apply data_home| |lia|].
  { destruct Hok as [Hl Hb]. pose proof (Z.mod_pos_bound (off0 + tot) BSIZE ltac:(done)). split.
    - unfold d. rewrite length_splice; [done|]. klia.
    - by apply Forall_splice; [apply Forall_slice|]. }
  intros s3 Ho3 Hi3. apply wp_bind. eapply wp_brelse_op; [done|set_solver|].
  intros s4 Ho4 Hi4. rewrite unhold in Ho4 by set_solver.
  assert (vw ((ws ++ ws1) ++ [(a, d)]) = v3 (vw (ws ++ ws1)) off0 bs bs2 a) as Hv3.
  { rewrite wview_snoc. unfold v3, d. by rewrite Hlt_tot. }
  apply (HQ _ _ i1 Ho4); [congruence| |done|].
  - by rewrite Htake, Hv3.
  - pose proof (g_nfree _ _ _ _ _ _ _ Hg) as Hgn. rewrite wview_snoc, nfree_vset by (destruct Had; lia).
    unfold new_ind. destruct (g_ind _ _ _ _ _ _ _ Hg) as [E|[E _]]; rewrite E in *; repeat case_decide; (lia || congruence).
Qed.

Lemma wp_writei_loop fuel : ∀ ws i tot s Q,
  op s0 c ws ∅ s → k_icache s !! ip = Some i → wrote ws i tot → 0 ≤ tot ≤ n →
  left_turns off0 tot n < Z.of_nat fuel → cost s0 ws i + left_turns off0 tot n < c →
  (tot < n → left_turns off0 tot n + 1 + new_ind i ≤ nfree s0 (vw ws)) →
  (∀ s' ws' i', op s0 c ws' ∅ s' → k_icache s' = <[ip := i']> (k_icache s) → wrote ws' i' n →
     cost s0 ws' i' ≤ cost s0 ws i + left_turns off0 tot n →
     nfree s0 (vw ws) - new_ind i ≤ nfree s0 (vw ws') - new_ind i' + left_turns off0 tot n → Q (off0 + n) s') →
  wp (writei_loop fuel ip src (off0 + tot) tot n) Q s.
Proof.
  induction fuel as [|fuel IH]; intros ws i tot s Q Ho Hi Hw Ht Hfuel Hcost Hnf HQ.
  { unfold left_turns in Hfuel. case_decide; [|lia]. pose proof (turns_pos (off0 + tot) (n - tot) ltac:(lia)). lia. }
  cbn [writei_loop]. destruct (Z.ltb_spec tot n) as [Hlt|Hge].
  2: { apply wp_ret. replace (off0 + tot) with (off0 + n) by lia. unfold left_turns in HQ. rewrite decide_False in HQ by lia.
       apply (HQ s ws i); [done| | |lia|lia].
       - symmetry. by apply list_insert_id.
       - by replace tot with n in Hw by lia. }
  assert (n < 2 ^ 32) as Hn32 by klia. pose proof (left_turns_step tot ltac:(lia)) as Hstep.
  pose proof (chunk_spec (off0 + tot) tot n ltac:(lia) ltac:(lia) Hn32) as (Hm & _ & _).
  specialize (Hnf Hlt). assert (0 ≤ new_ind i) by (unfold new_ind; case_decide; lia).
  assert (0 ≤ left_turns off0 (tot + chunk (off0 + tot) tot n) n) as Hpos.
  { unfold left_turns. case_decide; [|done]. pose proof (turns_pos (off0 + (tot + chunk (off0 + tot) tot n))
      (n - (tot + chunk (off0 + tot) tot n)) ltac:(lia)). lia. }
  apply (wp_writei_turn ws i); [done|done|done|lia|lia|lia|].
  set (m := chunk (off0 + tot) tot n) in *. intros s1 ws1 i1 Ho1 Hi1 Hw1 Hc1 Hnf1.
  assert (MAXFILE * BSIZE < 2 ^ 32) by done. rewrite !u32_small by lia. rewrite <- Z.add_assoc.
  assert (k_icache s1 !! ip = Some i1) as Hi1' by (rewrite Hi1; by eapply list_lookup_insert_eq, lookup_lt_Some).
  apply (IH ws1 i1); [done|done|done|lia|lia|lia|intros; lia|].
  intros s' ws' i' Ho' Hi' Hw' Hc' Hnf'. apply (HQ s' ws' i'); [done| |done|lia|lia].
  rewrite Hi', Hi1. apply list_insert_insert_eq.
Qed.
End loop.

(** ** [writei] *)

Lemma take_fbytes v i n m : 0 ≤ n ≤ m → take (Z.to_nat n) (fbytes v i 0 m) = fbytes v i 0 n.
Proof.
  intros H. replace m with (n + (m - n)) by lia. rewrite fbytes_app by lia.
  by rewrite take_app_length' by (rewrite length_fbytes; lia).
Qed.

Lemma drop_fbytes v i n m : 0 ≤ n → drop (Z.to_nat n) (fbytes v i 0 m) = fbytes v i n (m - n).
Proof.
  intros H. destruct (decide (n ≤ m)).
  - replace m with (n + (m - n)) at 1 by lia. rewrite fbytes_app by lia.
    by rewrite drop_app_length' by (rewrite length_fbytes; lia).
  - rewrite drop_ge by (rewrite length_fbytes; lia). unfold fbytes. by rewrite seqZ_nil by lia.
Qed.

(** The file's bytes once the range has been replaced. *)
Lemma written_bytes s v i v' i' off bs :
  let n := Z.of_nat (length bs) in
  written s v i v' i' off bs → file_ok s v i → 0 ≤ off ≤ i_size i → off + n ≤ MAXFILE * BSIZE →
  fbytes v' i' 0 (Z.max (i_size i) (off + n)) =
    take (Z.to_nat off) (content v i) ++ bs ++ drop (Z.to_nat (off + n)) (content v i).
Proof.
  intros n Hw Hf Hoff Hend. pose proof (f_size _ _ _ Hf) as Hsz.
  replace (Z.max (i_size i) (off + n)) with (off + (n + (Z.max (i_size i) (off + n) - off - n))) by lia.
  rewrite !fbytes_app by lia. unfold content. rewrite take_fbytes, drop_fbytes by lia.
  assert (∀ o, 0 ≤ o < i_size i → blk_of v i (o / BSIZE) ≠ 0) as Hm.
  { intros o Ho. apply (f_full _ _ _ Hf); [apply Z.div_pos; klia|]. pose proof (Z.mul_div_le o BSIZE ltac:(done)). lia. }
  f_equal; [|f_equal].
  - apply fbytes_ext. intros o Ho. rewrite (w_byte _ _ _ _ _ _ _ Hw); [|lia|left; apply Hm; lia].
    fold n. by rewrite decide_False by lia.
  - apply list_eq. intros j. unfold fbytes. rewrite list_lookup_fmap.
    destruct (decide (j < length bs)%nat) as [Hj|Hj].
    + rewrite lookup_seqZ_lt by lia. simpl. rewrite (w_byte _ _ _ _ _ _ _ Hw) by lia. rewrite decide_True by lia.
      replace (Z.to_nat (0 + off + Z.of_nat j - off)) with j by lia. symmetry. by apply list_lookup_lookup_total_lt.
    + rewrite lookup_seqZ_ge by lia. symmetry. by apply lookup_ge_None_2; lia.
  - destruct (decide (off + n < i_size i)) as [Hlt|Hge].
    + rewrite Z.max_l by lia. replace (i_size i - off - n) with (i_size i - (off + n)) by lia.
      rewrite Z.add_0_l. apply fbytes_ext. intros o Ho.
      rewrite (w_byte _ _ _ _ _ _ _ Hw); [|lia|left; apply Hm; lia]. fold n. by rewrite decide_False by lia.
    + unfold fbytes. by rewrite !seqZ_nil by lia.
Qed.

(** Growing the size over blocks that are there. *)
Lemma file_ok_size s v i sz :
  file_ok s v i → 0 ≤ sz ≤ MAXFILE * BSIZE → (∀ bn, 0 ≤ bn → bn * BSIZE < sz → blk_of v i bn ≠ 0) →
  file_ok s v (set_i_size sz i).
Proof. intros [? ? ? ? ? ? ?] ? ?. by split. Qed.

Section update.
Context (s : kst) (Hlog : log_geom (k_log s) (k_havedisk1 s)) (Hsb : sb_geom s).
Implicit Types (v : bkey → list Z) (i : inode).

Lemma inode_block_ne b inum : inum_ok s inum → b = 0 ∨ data_block s b → IBLOCK inum (k_sb s) ≠ b.
Proof.
  intros Hi Hb. pose proof (IBLOCK_range s Hlog Hsb _ Hi). pose proof (bmap_start_range s Hlog Hsb).
  destruct Hb as [->|[? ?]]; lia.
Qed.

Lemma ind_zero_data v i : file_ok s v i → iaddr i NDIRECT = 0 ∨ data_block s (iaddr i NDIRECT).
Proof. intros Hf. destruct (decide (iaddr i NDIRECT = 0)); [by left|right]. by apply (f_ind _ _ _ Hf). Qed.

Lemma blk_zero_data v i bn : file_ok s v i → 0 ≤ bn < MAXFILE → blk_of v i bn = 0 ∨ data_block s (blk_of v i bn).
Proof. intros Hf Hbn. destruct (decide (blk_of v i bn = 0)); [by left|right]. by apply (f_blk _ _ _ Hf). Qed.

(** A store to a block of inodes leaves the file's bytes alone. *)
Lemma fbytes_inode_store v i inum d off n :
  file_ok s v i → inum_ok s inum → 0 ≤ off → off + n ≤ MAXFILE * BSIZE →
  fbytes (vset (IBLOCK inum (k_sb s)) d v) i off n = fbytes v i off n.
Proof.
  intros Hf Hi Hoff Hend. apply fbytes_ext. intros o Ho.
  assert (0 ≤ o / BSIZE < MAXFILE) as Hbn by (apply (div_range o); [lia|done]).
  unfold fbyte. rewrite blk_of_vset by (apply inode_block_ne; [done|by eapply ind_zero_data]).
  rewrite vset_ne; [done|]. by apply not_eq_sym, inode_block_ne, blk_zero_data.
Qed.

(** An address of a well-formed file fits the disk format. *)
Lemma file_dinode_ok v i i0 :
  file_ok s v i → i = set_i_size (i_size i) (set_i_addrs (i_addrs i) i0) → dinode_ok (dinode_of i0) →
  dinode_ok (dinode_of i).
Proof.
  intros Hf Hi (?&?&?&?&_). pose proof (f_size _ _ _ Hf) as Hsz.
  assert (MAXFILE * BSIZE < 2 ^ 32) by done. rewrite Hi. unfold dinode_ok, dinode_of in *. simpl in *.
  split_and!; try lia; [by apply (f_addrs _ _ _ Hf)|].
  apply Forall_lookup. intros j a Ha. pose proof (f_addrs _ _ _ Hf) as Hlen. pose proof (lookup_lt_Some _ _ _ Ha) as Hj.
  assert (a = iaddr i (Z.of_nat j)) as -> by (unfold iaddr; rewrite Nat2Z.id; symmetry; by apply list_lookup_total_correct).
  assert (iaddr i (Z.of_nat j) = 0 ∨ data_block s (iaddr i (Z.of_nat j))) as [->|Hd]; [|done|].
  - destruct (decide (Z.of_nat j = NDIRECT)) as [->|Hne]; [by eapply ind_zero_data|].
    pose proof (blk_zero_data v i (Z.of_nat j) Hf ltac:(klia)) as Hb. unfold blk_of in Hb.
    by rewrite (proj2 (Z.ltb_lt _ _)) in Hb by klia.
  - pose proof (data_range s Hlog Hsb _ Hd). klia.
Qed.
End update.

(** What a successful [writei] leaves: the inode in memory is [i'], the
    blocks are shown by [v']. *)
Record writei_done (s : kst) (v : bkey → list Z) (i : inode) (off : Z) (src : list Z) (v' : bkey → list Z) (i' : inode) : Prop := {
  wd_content : content v' i' = take (Z.to_nat off) (content v i) ++ src ++
                 drop (Z.to_nat (off + Z.of_nat (length src))) (content v i);
  wd_size : i_size i' = Z.max (i_size i) (off + Z.of_nat (length src));
  wd_inode : i' = set_i_size (i_size i') (set_i_addrs (i_addrs i') i);
  wd_ok : file_ok s v' i';
  wd_meta : meta_used s v';
  wd_synced : synced s v' i';
  wd_inodes : ∀ inum, inum_ok s inum → inum ≠ i_inum i → dino s v' inum = dino s v inum;
  wd_other : ∀ b, data_block s b → free_in s v b = false → b ≠ iaddr i NDIRECT →
    (∀ bn, 0 ≤ bn < MAXFILE → blk_of v i bn ≠ b) → v' (ROOTDEV, b) = v (ROOTDEV, b);
  (* one block a turn at most, and an indirect block if there was none *)
  wd_free : nfree s v - new_ind i ≤ nfree s v' - new_ind i' + turns off (Z.of_nat (length src))
}.

Section finish.
Context (s : kst) (Hlog : log_geom (k_log s) (k_havedisk1 s)) (Hsb : sb_geom s).
Context (v v' : bkey → list Z) (i i' : inode) (off : Z) (src : list Z).
Abbreviation n := (Z.of_nat (length src)).
Context (Hw : written s v i v' i' off src) (Hf : file_ok s v i) (Hoff : 0 ≤ off ≤ i_size i)
        (Hend : off + n ≤ MAXFILE * BSIZE) (Hin : inum_ok s (i_inum i)) (Hsync : synced s v i)
        (Hfree : nfree s v - new_ind i ≤ nfree s v' - new_ind i' + turns off n).

Lemma written_dino inum : inum_ok s inum → dino s v' inum = dino s v inum.
Proof.
  intros Hi. unfold dino. rewrite (w_low _ _ _ _ _ _ _ Hw); [done|]. by apply (IBLOCK_range s Hlog Hsb).
Qed.

Lemma written_full bn : 0 ≤ bn → bn * BSIZE < Z.max (i_size i) (off + n) → blk_of v' i' bn ≠ 0.
Proof.
  intros Hbn Hlt. pose proof (f_size _ _ _ Hf). assert (bn < MAXFILE) by klia.
  destruct (decide (bn * BSIZE < i_size i)) as [H1|H1].
  - pose proof (f_full _ _ _ Hf bn Hbn H1). by rewrite (w_blk _ _ _ _ _ _ _ Hw).
  - rewrite <- (Z.div_mul bn BSIZE) by done. apply (w_map _ _ _ _ _ _ _ Hw). lia.
Qed.

(** The file has not grown: its inode is as it was. *)
Lemma finish_inside : off + n ≤ i_size i → i' = i ∧ writei_done s v i off src v' i'.
Proof.
  intros Hle. assert (i' = i) as Hi.
  { apply (w_same _ _ _ _ _ _ _ Hw). intros o Ho. apply (f_full _ _ _ Hf); [apply Z.div_pos; klia|].
    pose proof (Z.mul_div_le o BSIZE ltac:(done)). klia. }
  split; [done|]. split.
  - rewrite <- (written_bytes s v i v' i' off src) by done. unfold content. f_equal. rewrite Hi. lia.
  - rewrite Hi. lia.
  - rewrite Hi. by destruct i.
  - apply Hw.
  - apply Hw.
  - unfold synced. rewrite Hi. by rewrite written_dino.
  - intros inum Hn _. by apply written_dino.
  - apply Hw.
  - done.
Qed.

(** The file has grown and [iupdate] has stored its inode. *)
Lemma finish_grown :
  i_size i < off + n → block_ok (v' (ROOTDEV, IBLOCK (i_inum i) (k_sb s))) → dinode_ok (dinode_of i) →
  let i2 := set_i_size (off + n) i' in
  writei_done s v i off src
    (vset (IBLOCK (i_inum i) (k_sb s)) (dinode_put (dinode_off (i_inum i)) (dinode_of i2)
       (v' (ROOTDEV, IBLOCK (i_inum i) (k_sb s)))) v') i2.
Proof.
  intros Hlt Hblk Hd i2. pose proof (w_inode _ _ _ _ _ _ _ Hw) as Hi'.
  assert (i_inum i2 = i_inum i) as Hnum by (unfold i2; rewrite Hi'; done).
  assert (file_ok s v' i2) as Hf2.
  { apply file_ok_size; [apply Hw|lia|]. intros bn Hbn Hb. apply written_full; [done|lia]. }
  assert (i2 = set_i_size (i_size i2) (set_i_addrs (i_addrs i2) i)) as Hi2 by (unfold i2; rewrite Hi'; done).
  assert (dinode_ok (dinode_of i2)) as Hd2 by (by eapply (file_dinode_ok s Hlog Hsb)).
  pose proof (IBLOCK_range s Hlog Hsb _ Hin) as [_ HIB].
  split.
  - unfold content at 1. rewrite (fbytes_inode_store s Hlog Hsb v') by (done || simpl; lia).
    rewrite <- (written_bytes s v i v' i' off src) by done. unfold i2. simpl. rewrite Z.max_r by lia.
    apply fbytes_ext. intros o _. unfold fbyte. by erewrite blk_of_addrs.
  - simpl. lia.
  - done.
  - apply file_ok_vset; [lia| |done].
    apply (inode_block_ne s Hlog Hsb); [done|by eapply ind_zero_data].
  - intros b Hb. rewrite free_vset by lia. by apply Hw.
  - unfold synced. rewrite Hnum, (dino_store s Hlog Hsb) by done. by rewrite decide_True.
  - intros inum Hi Hne. rewrite (dino_store s Hlog Hsb) by done. rewrite decide_False by done. by apply written_dino.
  - intros b Hb Hu H1 H2. rewrite vset_ne; [by apply (w_other _ _ _ _ _ _ _ Hw)|].
    destruct Hb. lia.
  - rewrite nfree_vset by lia. done.
Qed.
End finish.

(** The errors of [writei]: nothing is done. *)
Lemma writei_errors devwrite s ip i src off n :
  k_icache s !! ip = Some i → i_type i ≠ T_DEV → 0 ≤ off < 2 ^ 32 → 0 ≤ n < 2 ^ 32 → i_size i < off ∨ MAXFILE * BSIZE < off + n →
  writei devwrite ip src off n s = Ok (-1) s.
Proof.
  intros Hi Ht Hoff Hn Herr. unfold writei, inode_at. erewrite mbind_Ok; [|by erewrite mbind_Ok; [rewrite Hi|]].
  rewrite (proj2 (Z.eqb_neq _ _) Ht). destruct (Z.ltb_spec (i_size i) off) as [|Hle]; [done|]. simpl.
  destruct (decide (off + n < 2 ^ 32)) as [Hno|Hov].
  - rewrite u32_small by lia. rewrite (proj2 (Z.ltb_ge _ _)) by lia.
    by rewrite (proj2 (Z.ltb_lt _ _)) by lia.
  - rewrite (proj2 (Z.ltb_lt _ _)); [done|].
    unfold u32. rewrite <- (Z.mod_unique (off + n) (2 ^ 32) 1 (off + n - 2 ^ 32)) by lia. lia.
Qed.

Lemma cost_nil s i : cost s [] i ≤ 2.
Proof.
  unfold cost. rewrite wset_nil. unfold indset.
  case_decide; [rewrite union_empty_r_L, union_empty_r_L, size_singleton; lia|].
  rewrite union_empty_r_L, (union_comm_L {[_]}).
  pose proof (size_add (sb_bmapstart (k_sb s)) {[iaddr i NDIRECT]}) as Hs. rewrite size_singleton in Hs.
  rewrite union_comm_L. lia.
Qed.

(** [writei] in an operation that has stored [ws0]. *)
Lemma wp_writei devwrite s0 c ws0 ip i src off Q s :
  let n := Z.of_nat (length src) in
  let v := wview ws0 (view s0) in
  op s0 c ws0 ∅ s → log_geom (k_log s0) (k_havedisk1 s0) → sb_geom s0 → meta_used s0 v →
  k_icache s !! ip = Some i → i_type i ≠ T_DEV → inum_ok s0 (i_inum i) →
  file_ok s0 v i → synced s0 v i → dinode_ok (dinode_of i) →
  0 ≤ off ≤ i_size i → off + n ≤ MAXFILE * BSIZE → Forall byte_ok src →
  cost s0 ws0 i + turns off n < c → turns off n + 2 ≤ nfree s0 v →
  (∀ s' ws' i', op s0 c ws' ∅ s' → k_icache s' = <[ip := i']> (k_icache s) →
     writei_done s0 v i off src (wview ws' (view s0)) i' →
     Z.of_nat (size (wset ws')) ≤ cost s0 ws0 i + turns off n + 1 → Q n s') →
  wp (writei devwrite ip src off n) Q s.
Proof.
  intros n v Ho Hlog Hsb Hmeta Hi Ht Hin Hf Hsync Hd Hoff Hend Hsrc Hcost Hnf HQ.
  pose proof (f_size _ _ _ Hf) as Hsz.
  assert (MAXFILE * BSIZE < 2 ^ 31) as Hmax by done.
  unfold writei. apply wp_bind. eapply wp_inode_at; [done|]. rewrite (proj2 (Z.eqb_neq _ _) Ht).
  rewrite (u32_small (off + n)) by lia. rewrite !(proj2 (Z.ltb_ge _ _)) by lia. simpl.
  assert (0 ≤ left_turns off 0 n ≤ turns off n) as Hlt.
  { pose proof (turns_pos off n). unfold left_turns. rewrite Z.add_0_r, Z.sub_0_r.
    case_decide; [lia|]. split; [done|]. apply Z.div_pos; [|done]. pose proof (Z.mod_pos_bound off BSIZE ltac:(done)). klia. }
  pose proof (turns_fuel off n ltac:(lia)) as Hfuel.
  pose proof (Z.div_pos n BSIZE ltac:(lia) ltac:(done)). apply wp_bind.
  replace (writei_loop _ ip src off 0 n) with (writei_loop (Z.to_nat (n / BSIZE + 3)) ip src (off + 0) 0 n)
    by by rewrite Z.add_0_r.
  apply (wp_writei_loop s0 c Hlog Hsb ip v i off n src ltac:(lia) eq_refl Hend Hsrc _ ws0 i);
    [done|done|by apply written_refl|lia|lia|lia|intros _; fold v; unfold new_ind; case_decide; lia|].
  intros s1 ws1 i1 Ho1 Hi1 Hw Hc1 Hnf1. assert (nfree s0 v - new_ind i ≤ nfree s0 (wview ws1 (view s0)) - new_ind i1 + turns off n) as Hnf2 by (fold v in Hnf1; lia).
  replace (Z.to_nat n) with (length src) in Hw by lia. rewrite firstn_all in Hw.
  assert (k_icache s1 !! ip = Some i1) as Hi1' by (rewrite Hi1; by eapply list_lookup_insert_eq, lookup_lt_Some).
  pose proof (w_inode _ _ _ _ _ _ _ Hw) as Hie. assert (i_size i1 = i_size i) as Hsz1 by by rewrite Hie.
  assert (i_inum i1 = i_inum i) as Hnum by by rewrite Hie. assert (i_dev i1 = i_dev i) as Hdev by by rewrite Hie.
  destruct (cost_bound s0 ws1 i1) as (Hcb & _ & _).
  apply wp_bind. eapply wp_inode_at; [done|]. rewrite Hsz1. rewrite s32_small by lia.
  destruct ((0 <? n) && (i_size i <? off + n)) eqn:Hgrow; cbn [when].
  2: { apply wp_bind, wp_ret, wp_ret. apply (HQ s1 ws1 i1); [done|done| |lia].
       apply (finish_inside s0 Hlog Hsb); [done..|]. apply andb_false_iff in Hgrow. lia. }
  apply andb_true_iff in Hgrow as [Hn0 Hlt1].
  apply wp_bind, wp_bind. eapply wp_inode_upd; [done|done|]. intros s2 Ho2 Hi2.
  apply (wp_iupdate s0 Hlog Hsb c ws1 ip (set_i_size (off + n) i1)); [done| | | | |lia|].
  - rewrite Hi2. by eapply list_lookup_insert_eq, lookup_lt_Some.
  - simpl. rewrite Hdev. apply (f_dev _ _ _ Hf).
  - simpl. by rewrite Hnum.
  - apply (f_addrs _ _ _ (w_ok _ _ _ _ _ _ _ Hw)).
  - intros s3 Ho3 Hi3. apply wp_ret. apply (HQ s3 _ (set_i_size (off + n) i1) Ho3).
    + rewrite Hi3, Hi2, Hi1. apply list_insert_insert_eq.
    + rewrite wview_snoc. simpl i_inum. rewrite Hnum. apply (finish_grown s0 Hlog Hsb); try done; [lia|].
      by eapply op_block_ok.
    + rewrite wset_snoc. pose proof (size_add (IBLOCK (i_inum (set_i_size (off + n) i1)) (k_sb s0)) (wset ws1)). lia.
Qed.

(** C3 [writei] of a file or directory inside a transaction: a range that
    starts inside the file and ends within the largest file size, and that
    one operation's log reservation covers, is written in full when the disk
    has the free blocks. The content of the file becomes the old content with
    the range replaced and, past the end, extended; the inode in memory and on
    disk agree on the new size and addresses; the file is well formed, other
    inodes and the blocks of other files are untouched, and the log grows by no
    more than the reservation. A range that starts past the end of the file,
    wraps around or ends past the largest file size is refused with -1 and no
    effect. *)
Theorem writei_content devwrite s ip i src off :
  let n := Z.of_nat (length src) in
  fs_ok ∅ s → in_tx s MAXOPBLOCKS → sb_geom s → meta_used s (view s) →
  k_icache s !! ip = Some i → i_type i ≠ T_DEV → inum_ok s (i_inum i) →
  file_ok s (view s) i → synced s (view s) i → dinode_ok (dinode_of i) →
  0 ≤ off < 2 ^ 32 → n < 2 ^ 32 → Forall byte_ok src →
  turns off n + 3 ≤ MAXOPBLOCKS → turns off n + 2 ≤ nfree s (view s) →
  if decide (off ≤ i_size i ∧ off + n ≤ MAXFILE * BSIZE) then
    ∃ s' v' i', writei devwrite ip src off n s = Ok n s' ∧
      (∀ k, view s' k = v' k) ∧ k_icache s' = <[ip := i']> (k_icache s) ∧
      writei_done s (view s) i off src v' i' ∧ fs_ok ∅ s' ∧ nlog s' ≤ nlog s + MAXOPBLOCKS
  else writei devwrite ip src off n s = Ok (-1) s.
Proof.
  intros n Hs Htx Hsb Hmeta Hi Ht Hin Hf Hsync Hd Hoff Hn Hsrc Hturns Hnf. case_decide as Hc.
  2: { apply (writei_errors _ _ _ i); [done|done|done|lia|lia]. }
  enough (wp (writei devwrite ip src off n) (λ r s', r = n ∧ ∃ v' i',
    (∀ k, view s' k = v' k) ∧ k_icache s' = <[ip := i']> (k_icache s) ∧
    writei_done s (view s) i off src v' i' ∧ fs_ok ∅ s' ∧ nlog s' ≤ nlog s + MAXOPBLOCKS) s) as Hw.
  { apply wp_run in Hw as (r & s' & Hr & -> & v' & i' & Hrest). by exists s', v', i'. }
  pose proof (cost_nil s i) as Hcost.
  apply (wp_writei devwrite s MAXOPBLOCKS [] ip i src off); try done; [by apply op_start|apply Hs|lia|lia|fold n; lia|].
  intros s' ws i' Ho Hic Hdone _. split; [done|]. exists (wview ws (view s)), i'. split_and!; [|done|done|apply Ho|].
  - intros k. by eapply op_view.
  - pose proof (op_nlog _ _ _ _ _ Ho). pose proof (op_used _ _ _ _ _ Ho). lia.
Qed.

(** A write of 600 bytes at the end of the root directory's file. *)
Lemma writei_content_witness :
  ∃ s' v' i', writei (λ _, None) 0 (replicate 600 7) 512 600 demo_fs = Ok 600 s' ∧
    (∀ k, view s' k = v' k) ∧ k_icache s' = <[0%nat := i']> (k_icache demo_fs) ∧
    writei_done demo_fs (view demo_fs) demo_root_inode 512 (replicate 600 7) v' i' ∧
    fs_ok ∅ s' ∧ nlog s' ≤ nlog demo_fs + MAXOPBLOCKS.
Proof.
  apply (writei_content (λ _, None) demo_fs 0 demo_root_inode (replicate 600 7) 512).
  - apply demo_fs_ok.
  - apply demo_in_tx.
  - apply demo_geom.
  - apply demo_meta_used.
  - reflexivity.
  - discriminate.
  - split; [discriminate|reflexivity].
  - apply demo_root_ok.
  - vm_compute. reflexivity.
  - unfold dinode_ok. split_and!; first [reflexivity|discriminate|repeat constructor; discriminate].
  - lia.
  - rewrite length_replicate. lia.
  - apply Forall_replicate. unfold byte_ok. lia.
  - vm_compute. discriminate.
  - vm_compute. discriminate.
Defined.
