(* ===== verification/Trunc.v ===== *)
(** * Trunc: dropping the last reference

    [itrunc] frees the blocks of a file, and nothing else; [iput] of the last
    reference to an inode without links does that and frees the inode, and any
    other [iput] only decrements the reference count. *)

From S2P Require Import Prelude State Bio Log LogOps Fs Demo Balloc Content Grow Inode Writei.

(** The blocks of a file, the indirect block included. *)
Definition owns (v : bkey → list Z) (i : inode) (b : Z) : Prop :=
  b ≠ 0 ∧ (b = iaddr i NDIRECT ∨ ∃ bn, 0 ≤ bn < MAXFILE ∧ blk_of v i bn = b).

(** Its first [n] blocks. *)
Definition owns_below (v : bkey → list Z) (i : inode) (n b : Z) : Prop :=
  b ≠ 0 ∧ ∃ bn, 0 ≤ bn < n ∧ blk_of v i bn = b.

Section trunc.
Context (s0 : kst) (c : Z) (Hlog : log_geom (k_log s0) (k_havedisk1 s0)) (Hsb : sb_geom s0).
Implicit Types (ws : list (Z * list Z)) (s : kst).

Abbreviation bm := (sb_bmapstart (k_sb s0)).
Abbreviation vw ws := (wview ws (view s0)).
Abbreviation free v b := (free_in s0 v b).

(** From [v] to [v'] the blocks [F] were freed, and only the bitmap changed. *)
Record freed (v v' : bkey → list Z) (F : Z → Prop) : Prop := {
  fr_in : ∀ b, F b → free v' b = true;
  fr_out : ∀ b, 0 ≤ b < sb_size (k_sb s0) → ¬ F b → free v' b = free v b;
  fr_blk : ∀ b, b ≠ bm → v' (ROOTDEV, b) = v (ROOTDEV, b)
}.

Lemma freed_iff v v' (F F' : Z → Prop) : (∀ b, F b ↔ F' b) → freed v v' F → freed v v' F'.
Proof.
  clear. intros HF [? ? ?]. split; [|intros b Hb Hn|done].
  - intros b Hb. by apply fr_in0, HF.
  - apply fr_out0; [done|]. by rewrite HF.
Qed.

Lemma freed_step v v' F b :
  block_ok (v' (ROOTDEV, bm)) → freed v v' F → 0 ≤ b < sb_size (k_sb s0) → (∀ b', F b' → 0 ≤ b') →
  freed v (vset bm (clear_bit (v' (ROOTDEV, bm)) b) v') (λ b', F b' ∨ b' = b).
Proof.
  intros Hok [H1 H2 H3] Hb HF. pose proof (sg_size _ Hsb) as Hs.
  assert (∀ b', 0 ≤ b' → free (vset bm (clear_bit (v' (ROOTDEV, bm)) b) v') b' =
    if decide (b' = b) then true else free v' b') as Hfr.
  { intros b' Hb'. unfold free_in. rewrite vset_eq. apply bit_clear_clear; [done|klia|done]. }
  split.
  - intros b' [Hb'| ->]; rewrite Hfr by (auto || lia); case_decide; auto.
  - intros b' Hb' Hn. rewrite Hfr by lia. rewrite decide_False by tauto. apply H2; tauto.
  - intros b' Hb'. rewrite vset_ne by done. by apply H3.
Qed.

Section file.
Context (ws0 : list (Z * list Z)) (ip : nat) (i : inode) (ic : list inode).
Abbreviation v := (vw ws0).
Context (Hf : file_ok s0 v i) (Hi : ic !! ip = Some i).
Context (Hc : Z.of_nat (size ({[bm; IBLOCK (i_inum i) (k_sb s0)]} ∪ wset ws0)) < c).

(** The blocks below [n] are free, those that are left are not. *)
Lemma owned_block bn n v' :
  freed v v' (owns_below v i n) → n ≤ bn < MAXFILE → 0 ≤ n → blk_of v i bn ≠ 0 →
  0 ≤ blk_of v i bn < sb_size (k_sb s0) ∧ free v' (blk_of v i bn) = false.
Proof.
  intros Hfr Hbn Hn Hz. destruct (f_blk _ _ _ Hf bn ltac:(lia) Hz) as (Hd & Hu & _).
  assert (0 ≤ blk_of v i bn < sb_size (k_sb s0)) as Hr.
  { split; [by apply (data_range s0 Hlog Hsb)|apply Hd]. }
  split; [done|]. rewrite (fr_out _ _ _ Hfr); [done|done|].
  intros [_ (bn' & Hb' & E)]. assert (bn' = bn); [|lia]. apply (f_inj _ _ _ Hf); [lia|lia|congruence|done].
Qed.

Lemma owns_below_succ n b :
  0 ≤ n → owns_below v i (n + 1) b ↔ owns_below v i n b ∨ (b = blk_of v i n ∧ b ≠ 0).
Proof.
  clear. intros Hn. unfold owns_below. split.
  - intros [Hz (bn & Hb & E)]. destruct (decide (bn = n)) as [->|]; [by right|]. left. split; [done|]. exists bn. split; [lia|done].
  - intros [[Hz (bn & Hb & E)]|[-> Hz]]; (split; [done|]); [exists bn|exists n]; (split; [lia|done]).
Qed.

(** Only the bitmap and the inode's block are written. *)
Lemma room ws : wset ws ⊆ {[bm]} → Z.of_nat (size (wset (ws0 ++ ws))) < c.
Proof.
  clear -Hc. intros Hws. rewrite wset_app.
  assert (size (wset ws0 ∪ wset ws) ≤ size ({[bm; IBLOCK (i_inum i) (k_sb s0)]} ∪ wset ws0))%nat; [|lia].
  apply subseteq_size. set_solver.
Qed.

(** One turn of either loop. *)
Lemma wp_free_one n H ws Q s :
  op s0 c (ws0 ++ ws) H s → (size H ≤ 1)%nat → (ROOTDEV, bm) ∉ H → wset ws ⊆ {[bm]} →
  freed v (vw (ws0 ++ ws)) (owns_below v i n) → 0 ≤ n < MAXFILE →
  (blk_of v i n = 0 → freed v (vw (ws0 ++ ws)) (owns_below v i (n + 1))) ∧
  (blk_of v i n ≠ 0 →
   (∀ s' ws', op s0 c (ws0 ++ ws') H s' → wset ws' ⊆ {[bm]} → k_icache s' = k_icache s →
      freed v (vw (ws0 ++ ws')) (owns_below v i (n + 1)) → Q tt s') →
   wp (bfree ROOTDEV (blk_of v i n)) Q s).
Proof.
  intros Ho HH Hbm Hws Hfr Hn. split.
  - intros Hz. eapply freed_iff; [|done]. intros b. rewrite owns_below_succ by lia. rewrite Hz. tauto.
  - intros Hz HQ. destruct (owned_block n n (vw (ws0 ++ ws)) Hfr ltac:(lia) ltac:(lia) Hz) as [Hr Hu].
    apply (wp_bfree s0 c Hlog Hsb (ws0 ++ ws) H); [done|done|done|done|done| |].
    + by apply room.
    + intros s' Ho' Hi'. rewrite <- app_assoc in Ho'. apply (HQ s' _ Ho'); [|done|].
      * rewrite wset_snoc. set_solver.
      * rewrite app_assoc, wview_snoc. eapply freed_iff; [|apply freed_step; [by eapply op_block_ok|done|done|]].
        -- intros b. rewrite owns_below_succ by lia. naive_solver.
        -- intros b [_ (bn & Hb & <-)]. destruct (decide (blk_of v i bn = 0)) as [->|Hz']; [done|].
           apply (data_range s0 Hlog Hsb), (f_blk _ _ _ Hf); [lia|done].
Qed.

(** The first [n] addresses set to 0. *)
Definition zero_addrs (n : Z) : inode := set_i_addrs (replicate (Z.to_nat n) 0 ++ drop (Z.to_nat n) (i_addrs i)) i.

Lemma zero_addrs_0 : zero_addrs 0 = i.
Proof. clear. unfold zero_addrs. by destruct i. Qed.

Lemma zero_addrs_succ n :
  0 ≤ n < 13 → set_i_addrs (<[Z.to_nat n := 0]> (i_addrs (zero_addrs n))) (zero_addrs n) = zero_addrs (n + 1).
Proof.
  intros Hn. pose proof (f_addrs _ _ _ Hf) as Hl. unfold zero_addrs, set_i_addrs. simpl. f_equal.
  replace (Z.to_nat (n + 1)) with (S (Z.to_nat n)) by lia.
  destruct (drop (Z.to_nat n) (i_addrs i)) as [|a l] eqn:E.
  { apply (f_equal length) in E. rewrite length_drop in E. simpl in E. lia. }
  rewrite insert_app_r_alt by (rewrite length_replicate; lia). rewrite length_replicate, Nat.sub_diag. simpl.
  rewrite app_comm_cons, replicate_cons_app, <- app_assoc. simpl. do 2 f_equal.
  rewrite <- Nat.add_1_r, <- drop_drop, E. done.
Qed.

Lemma zero_addrs_skip n :
  0 ≤ n < 13 → iaddr i n = 0 → zero_addrs n = zero_addrs (n + 1).
Proof.
  intros Hn Hz. rewrite <- zero_addrs_succ by done. pose proof (f_addrs _ _ _ Hf) as Hl.
  rewrite list_insert_id; [by destruct i|]. unfold zero_addrs. simpl.
  rewrite lookup_app_r by (rewrite length_replicate; lia). rewrite length_replicate, Nat.sub_diag, lookup_drop, Nat.add_0_r.
  unfold iaddr in Hz. rewrite <- Hz. apply list_lookup_lookup_total_lt. lia.
Qed.

Lemma zero_addrs_get n : 0 ≤ n < 13 → iaddr (zero_addrs n) n = iaddr i n.
Proof.
  intros Hn. pose proof (f_addrs _ _ _ Hf) as Hl. unfold iaddr, zero_addrs. simpl.
  rewrite lookup_total_app_r by (rewrite length_replicate; lia). rewrite length_replicate, Nat.sub_diag.
  rewrite lookup_total_drop. f_equal. lia.
Qed.

(** After [n] turns. *)
Definition trunc_at (H : gset bkey) (n : Z) (i' : inode) s : Prop :=
  ∃ ws, op s0 c (ws0 ++ ws) H s ∧ wset ws ⊆ {[bm]} ∧ freed v (vw (ws0 ++ ws)) (owns_below v i n) ∧
    k_icache s = <[ip := i']> ic.

Lemma ip_lt : (ip < length ic)%nat.
Proof. by eapply lookup_lt_Some. Qed.

(** The loop over the direct blocks. *)
Lemma wp_trunc_direct Q s :
  op s0 c ws0 ∅ s → k_icache s = ic →
  (∀ s', trunc_at ∅ NDIRECT (zero_addrs NDIRECT) s' → Q tt s') →
  wp (for_each (seqZ 0 NDIRECT) (λ n,
    addr ← addr_get ip n;
    when (negb (addr =? 0))
      (i ← inode_at ip;
       bfree (i_dev i) addr ;;
       addr_put ip n 0))) Q s.
Proof.
  intros Ho Hic HQ. pose proof ip_lt as Hlt.
  apply (wp_for_each _ _ (λ n s, trunc_at ∅ (Z.of_nat n) (zero_addrs (Z.of_nat n)) s)).
  - exists []. rewrite app_nil_r. split_and!; [done|set_solver| |].
    + split; [|done|done]. intros b [_ (bn & ? & _)]. lia.
    + rewrite Hic. symmetry. apply list_insert_id. rewrite Hi. exact (f_equal Some (eq_sym zero_addrs_0)).
  - intros n x s1 [-> Hn]%lookup_seqZ (ws & Ho1 & Hws & Hfr & Hic1). rewrite Z.add_0_l.
    replace (Z.of_nat (1 + n)) with (Z.of_nat n + 1) by lia. set (m := Z.of_nat n) in *.
    assert (0 ≤ m < 12) as Hm by (change NDIRECT with 12 in Hn; lia).
    assert (k_icache s1 !! ip = Some (zero_addrs m)) as Hi1 by (rewrite Hic1; by apply list_lookup_insert_eq).
    assert (blk_of v i m = iaddr i m) as Hblk by (unfold blk_of; by rewrite (proj2 (Z.ltb_lt _ _)) by klia).
    destruct (wp_free_one m ∅ ws (λ _ s', wp (addr_put ip m 0) (λ _ s', trunc_at ∅ (m + 1) (zero_addrs (m + 1)) s') s') s1 Ho1)
      as [Hz Hnz]; [rewrite size_empty; lia|set_solver|done|done|klia|].
    apply wp_bind. eapply wp_addr_get; [done|]. rewrite zero_addrs_get by lia. rewrite <- Hblk.
    destruct (Z.eqb_spec (blk_of v i m) 0) as [E|E]; cbn [negb when].
    + apply wp_ret. exists ws. split_and!; [done|done|by apply Hz|]. rewrite Hic1. f_equal.
      apply zero_addrs_skip; [lia|congruence].
    + apply wp_bind. eapply wp_inode_at; [done|]. simpl i_dev. rewrite (f_dev _ _ _ Hf).
      apply wp_bind, Hnz; [done|]. intros s2 ws2 Ho2 Hws2 Hic2 Hfr2.
      eapply wp_inode_upd; [done|by rewrite Hic2|]. intros s3 Ho3 Hic3. exists ws2. split_and!; [done|done|done|].
      rewrite Hic3, Hic2, Hic1, list_insert_insert_eq. f_equal. apply zero_addrs_succ. lia.
  - intros s1 HI. rewrite length_seqZ in HI. apply HQ. done.
Qed.

(** The loop over the entries of the indirect block. *)
Lemma wp_trunc_indirect Q s :
  let H := {[(ROOTDEV, iaddr i NDIRECT)]} in
  iaddr i NDIRECT ≠ 0 → trunc_at H NDIRECT (zero_addrs NDIRECT) s →
  (∀ s', trunc_at H MAXFILE (zero_addrs NDIRECT) s' → Q tt s') →
  wp (for_each (seqZ 0 NINDIRECT) (λ j,
       data ← bdata (ROOTDEV, iaddr i NDIRECT);
       let a := get_u32 data (Z.to_nat (4 * j)) in
       when (negb (a =? 0)) (bfree ROOTDEV a))) Q s.
Proof.
  intros H Hind HI HQ. destruct (f_ind _ _ _ Hf Hind) as [Hd Hu].
  assert (iaddr i NDIRECT ≠ bm) as Hne by (destruct Hd; lia).
  apply (wp_for_each _ _ (λ n s, trunc_at H (NDIRECT + Z.of_nat n) (zero_addrs NDIRECT) s)).
  - done.
  - intros n x s1 [-> Hn]%lookup_seqZ (ws & Ho1 & Hws & Hfr & Hic1). rewrite Z.add_0_l.
    replace (NDIRECT + Z.of_nat (1 + n)) with (NDIRECT + Z.of_nat n + 1) by lia. set (m := NDIRECT + Z.of_nat n) in *.
    assert (0 ≤ m < MAXFILE) as Hm by (change NINDIRECT with 128 in Hn; klia).
    apply wp_bind. eapply wp_bdata_op; [done|set_solver|]. rewrite (fr_blk _ _ _ Hfr) by done.
    assert (get_u32 (v (ROOTDEV, iaddr i NDIRECT)) (Z.to_nat (4 * Z.of_nat n)) = blk_of v i m) as ->.
    { unfold blk_of. rewrite (proj2 (Z.ltb_ge _ _)) by lia. rewrite (proj2 (Z.eqb_neq _ _) Hind).
      do 3 f_equal. lia. }
    destruct (wp_free_one m H ws (λ _ s', trunc_at H (m + 1) (zero_addrs NDIRECT) s') s1 Ho1)
      as [Hz Hnz]; [unfold H; rewrite size_singleton; lia|set_solver|done|done|done|]. cbv zeta.
    destruct (Z.eqb_spec (blk_of v i m) 0) as [E|E]; cbn [negb when].
    + apply wp_ret. exists ws. split_and!; [done|done|by apply Hz|done].
    + apply Hnz; [done|]. intros s2 ws2 Ho2 Hws2 Hic2 Hfr2. exists ws2. split_and!; [done|done|done|congruence].
  - intros s1 HI1. rewrite length_seqZ in HI1. apply HQ. done.
Qed.

Lemma owns_split b :
  owns v i b ↔ owns_below v i MAXFILE b ∨ (b = iaddr i NDIRECT ∧ b ≠ 0).
Proof. unfold owns, owns_below. naive_solver. Qed.

Lemma owns_direct b : iaddr i NDIRECT = 0 → owns v i b ↔ owns_below v i NDIRECT b.
Proof.
  intros Hz. rewrite owns_split. split.
  - intros [[Hb (bn & Hr & E)]|[-> ?]]; [|done]. split; [done|]. exists bn. split; [|done].
    destruct (decide (bn < NDIRECT)); [lia|]. unfold blk_of in E. rewrite (proj2 (Z.ltb_ge _ _)) in E by lia.
    rewrite Hz in E. simpl in E. congruence.
  - intros [Hb (bn & Hr & E)]. left. split; [done|]. exists bn. split; [klia|done].
Qed.

Lemma zero_addrs_13 : zero_addrs 13 = set_i_addrs (replicate 13 0) i.
Proof.
  unfold zero_addrs. rewrite drop_ge; [by rewrite app_nil_r|]. by rewrite (f_addrs _ _ _ Hf).
Qed.

Abbreviation ib := (IBLOCK (i_inum i) (k_sb s0)).

(** From [v] to [v'] the file's blocks were freed and its inode on disk became
    [d]; nothing else changed. *)
Record released (v' : bkey → list Z) (d : dinode) : Prop := {
  rl_in : ∀ b, owns v i b → free v' b = true;
  rl_out : ∀ b, 0 ≤ b < sb_size (k_sb s0) → ¬ owns v i b → free v' b = free v b;
  rl_dino : dino s0 v' (i_inum i) = d;
  rl_inodes : ∀ inum, inum_ok s0 inum → inum ≠ i_inum i → dino s0 v' inum = dino s0 v inum;
  rl_blk : ∀ b, b ≠ bm → b ≠ ib → v' (ROOTDEV, b) = v (ROOTDEV, b)
}.

Context (Hin : inum_ok s0 (i_inum i)).

Lemma ib_ne_bm : ib ≠ bm.
Proof. pose proof (IBLOCK_range s0 Hlog Hsb _ Hin). lia. Qed.

Lemma released_store v' d :
  block_ok (v' (ROOTDEV, ib)) → dinode_ok d →
  (∀ b, owns v i b → free v' b = true) →
  (∀ b, 0 ≤ b < sb_size (k_sb s0) → ¬ owns v i b → free v' b = free v b) →
  (∀ inum, inum_ok s0 inum → inum ≠ i_inum i → dino s0 v' inum = dino s0 v inum) →
  (∀ b, b ≠ bm → b ≠ ib → v' (ROOTDEV, b) = v (ROOTDEV, b)) →
  released (vset ib (dinode_put (dinode_off (i_inum i)) d (v' (ROOTDEV, ib))) v') d.
Proof.
  intros Hok Hd H1 H2 H3 H4. pose proof ib_ne_bm as Hne. split.
  - intros b Hb. rewrite free_vset by done. auto.
  - intros b Hb Hn. rewrite free_vset by done. auto.
  - rewrite (dino_store s0 Hlog Hsb) by done. by rewrite decide_True.
  - intros inum Hi' Hn. rewrite (dino_store s0 Hlog Hsb) by done. rewrite decide_False by done. auto.
  - intros b Hb Hb'. rewrite vset_ne by done. auto.
Qed.

(** What [itrunc] leaves in memory. *)
Definition emptied : inode := set_i_size 0 (set_i_addrs (replicate 13 0) i).

Lemma emptied_type : set_i_type (i_type i) emptied = emptied.
Proof. clear. unfold emptied. by destruct i. Qed.

Context (Hdok : dinode_ok (dinode_of i)).

Lemma dinode_ok_emptied t : - 2 ^ 15 ≤ t < 2 ^ 15 → dinode_ok (dinode_of (set_i_type t emptied)).
Proof.
  clear -Hdok. intros Ht. destruct Hdok as (?&?&?&?&?&_). unfold emptied, dinode_of, dinode_ok in *. simpl in *.
  split_and!; try lia. repeat (constructor; [lia|]). constructor.
Qed.

(** Room for the inode's block after the bitmap. *)
Lemma room_ib ws : wset ws ⊆ {[bm; ib]} → Z.of_nat (size (wset (ws0 ++ ws))) < c.
Proof.
  clear -Hc. intros Hws. rewrite wset_app.
  assert (size (wset ws0 ∪ wset ws) ≤ size ({[bm; ib]} ∪ wset ws0))%nat; [|lia].
  apply subseteq_size. set_solver.
Qed.

Lemma trunc_finish ws i1 s Q :
  op s0 c (ws0 ++ ws) ∅ s → wset ws ⊆ {[bm]} → k_icache s = <[ip := i1]> ic →
  set_i_size 0 i1 = emptied → freed v (vw (ws0 ++ ws)) (owns v i) →
  (∀ s' ws', op s0 c (ws0 ++ ws') ∅ s' → wset ws' ⊆ {[bm; ib]} → k_icache s' = <[ip := emptied]> ic →
     released (vw (ws0 ++ ws')) (dinode_of emptied) → Q tt s') →
  wp (inode_upd ip (set_i_size 0) ;; iupdate ip) Q s.
Proof.
  intros Ho Hws Hic Hi1 Hfr HQ. pose proof ip_lt as Hlt.
  assert (k_icache s !! ip = Some i1) as Hs by (rewrite Hic; by apply list_lookup_insert_eq).
  apply wp_bind. eapply wp_inode_upd; [done|done|]. intros s1 Ho1 Hic1. rewrite Hic, list_insert_insert_eq, Hi1 in Hic1.
  apply (wp_iupdate s0 Hlog Hsb c (ws0 ++ ws) ip emptied); [done| | |done|done|by apply room|].
  - rewrite Hic1. by apply list_lookup_insert_eq.
  - apply (f_dev _ _ _ Hf).
  - intros s2 Ho2 Hic2. rewrite <- app_assoc in Ho2. apply (HQ s2 _ Ho2).
    + rewrite wset_snoc. set_solver.
    + congruence.
    + rewrite app_assoc, wview_snoc. apply released_store.
      * by eapply op_block_ok.
      * pose proof (dinode_ok_emptied (i_type i)) as Hd. destruct Hdok as (Ht&_). specialize (Hd Ht).
        by rewrite emptied_type in Hd.
      * apply Hfr.
      * apply Hfr.
      * intros inum Hi' Hn. unfold dino. rewrite (fr_blk _ _ _ Hfr); [done|].
        pose proof (IBLOCK_range s0 Hlog Hsb _ Hi'). lia.
      * intros b Hb _. by apply Hfr.
Qed.

Lemma wp_itrunc Q s :
  op s0 c ws0 ∅ s → k_icache s = ic →
  (∀ s' ws', op s0 c (ws0 ++ ws') ∅ s' → wset ws' ⊆ {[bm; ib]} → k_icache s' = <[ip := emptied]> ic →
     released (vw (ws0 ++ ws')) (dinode_of emptied) → Q tt s') →
  wp (itrunc ip) Q s.
Proof.
  intros Ho Hic HQ. pose proof ip_lt as Hlt. unfold itrunc. apply wp_bind, wp_trunc_direct; [done|done|].
  intros s1 (ws1 & Ho1 & Hws1 & Hfr1 & Hic1).
  assert (k_icache s1 !! ip = Some (zero_addrs NDIRECT)) as Hi1 by (rewrite Hic1; by apply list_lookup_insert_eq).
  apply wp_bind. eapply wp_addr_get; [done|]. rewrite zero_addrs_get by done.
  destruct (Z.eqb_spec (iaddr i NDIRECT) 0) as [Hz|Hz]; cbn [negb when].
  - apply wp_bind, wp_ret. eapply trunc_finish; [done|done|done| | |done].
    + rewrite (zero_addrs_skip NDIRECT) by done. change (NDIRECT + 1) with 13. by rewrite zero_addrs_13.
    + eapply freed_iff; [|done]. intros b. by rewrite owns_direct.
  - destruct (f_ind _ _ _ Hf Hz) as [Hd Hu]. assert (iaddr i NDIRECT ≠ bm) as Hne by (destruct Hd; lia).
    apply wp_bind, wp_bind. eapply wp_inode_at; [done|]. simpl i_dev. rewrite (f_dev _ _ _ Hf).
    apply wp_bind, (wp_bread_op s0 c (ws0 ++ ws1) ∅); [done|rewrite size_empty; lia|by apply (data_range s0)|set_solver|].
    intros s2 Ho2 Hic2. rewrite union_empty_r_L in Ho2. apply wp_bind, wp_trunc_indirect; [done|exists ws1; split_and!; congruence || done|].
    intros s3 (ws3 & Ho3 & Hws3 & Hfr3 & Hic3). apply wp_bind. eapply wp_brelse_op; [done|set_solver|].
    intros s4 Ho4 Hic4. rewrite difference_diag_L in Ho4.
    apply wp_bind. apply (wp_bfree s0 c Hlog Hsb (ws0 ++ ws3) ∅); [done|rewrite size_empty; lia|set_solver| | |by apply room|].
    + split; [by apply (data_range s0 Hlog Hsb)|apply Hd].
    + rewrite (fr_out _ _ _ Hfr3); [done| |].
      * split; [by apply (data_range s0 Hlog Hsb)|apply Hd].
      * intros [_ (bn & Hr & E)]. destruct (f_blk _ _ _ Hf bn Hr) as (_ & _ & Hn); congruence.
    + intros s5 Ho5 Hic5. rewrite <- app_assoc in Ho5.
      eapply wp_inode_upd; [done|rewrite Hic5, Hic4, Hic3; by apply list_lookup_insert_eq|]. intros s6 Ho6 Hic6.
      eapply trunc_finish; [done| | | | |done].
      * rewrite wset_snoc. set_solver.
      * rewrite Hic6, Hic5, Hic4, Hic3. apply list_insert_insert_eq.
      * rewrite zero_addrs_succ by done. change (NDIRECT + 1) with 13. by rewrite zero_addrs_13.
      * rewrite app_assoc, wview_snoc. eapply freed_iff; [|apply freed_step; [by eapply op_block_ok|done| |]].
        -- intros b. rewrite owns_split. naive_solver.
        -- split; [by apply (data_range s0 Hlog Hsb)|apply Hd].
        -- intros b [_ (bn & Hb & <-)]. destruct (decide (blk_of v i bn = 0)) as [->|Hz']; [done|].
           apply (data_range s0 Hlog Hsb), (f_blk _ _ _ Hf); [lia|done].
Qed.
End file.
End trunc.

(** ** Reference counts *)

(** A critical section on [icache.lock]. *)
Lemma wp_icache_locked s0 c ws ip i f Q s :
  op s0 c ws ∅ s → k_icache s !! ip = Some i →
  (∀ s', op s0 c ws ∅ s' → k_icache s' = <[ip := f i]> (k_icache s) → Q tt s') →
  wp (acquire L_icache ;; inode_upd ip f ;; release L_icache) Q s.
Proof.
  intros Ho Hi HQ. pose proof (ok_spin _ _ (op_ok _ _ _ _ _ Ho)) as Hsp.
  apply wp_bind, wp_acquire; [rewrite Hsp; set_solver|]. apply wp_bind, wp_bind. eapply wp_inode_at; [done|].
  apply wp_modify. rewrite Hsp. eapply wp_release; [done|set_solver|].
  pose proof (op_icache _ _ _ _ _ (<[ip := f i]> (k_icache s)) Ho) as Ho'.
  destruct s; simpl in *; subst. apply HQ; done.
Qed.

Lemma wp_icache_read s0 c ws ip i {A} (k : inode → KM A) Q s :
  op s0 c ws ∅ s → k_icache s !! ip = Some i → wp (k i) Q s →
  wp (acquire L_icache ;; i ← inode_at ip; release L_icache ;; k i) Q s.
Proof.
  intros Ho Hi HQ. pose proof (ok_spin _ _ (op_ok _ _ _ _ _ Ho)) as Hsp.
  apply wp_bind, wp_acquire; [rewrite Hsp; set_solver|]. apply wp_bind. eapply wp_inode_at; [done|].
  rewrite Hsp. apply wp_bind. eapply wp_release; [done|set_solver|]. destruct s; simpl in *; by subst.
Qed.

Lemma wp_acquiresleep s0 c ws ip i Q s :
  op s0 c ws ∅ s → k_icache s !! ip = Some i → i_lock i = None →
  (∀ s', op s0 c ws ∅ s' → k_icache s' = <[ip := set_i_lock (Some (k_pid s)) i]> (k_icache s) →
     k_pid s' = k_pid s → Q tt s') →
  wp (acquiresleep ip) Q s.
Proof.
  intros Ho Hi Hl HQ. apply wp_bind. eapply wp_inode_at; [done|]. rewrite Hl. apply wp_bind, wp_gets, wp_modify.
  apply HQ; [by apply op_icache|done|done].
Qed.

(** The end of [iput]: unlock, and one reference less. *)
Lemma wp_iput_end s0 c ws ip i Q s :
  op s0 c ws ∅ s → k_icache s !! ip = Some i →
  (∀ s', op s0 c ws ∅ s' → k_icache s' = <[ip := set_i_ref (i_ref i - 1) (set_i_lock None i)]> (k_icache s) → Q tt s') →
  wp (releasesleep ip ;; acquire L_icache ;; inode_upd ip (λ i, set_i_ref (i_ref i - 1) i) ;; release L_icache) Q s.
Proof.
  intros Ho Hi HQ. apply wp_bind. eapply wp_inode_upd; [done|done|]. intros s1 Ho1 Hi1.
  eapply wp_icache_locked; [done|rewrite Hi1; by eapply list_lookup_insert_eq, lookup_lt_Some|].
  intros s2 Ho2 Hi2. apply HQ; [done|]. rewrite Hi2, Hi1. by rewrite list_insert_insert_eq.
Qed.

Lemma set_i_lock_None i l : i_lock i = None → set_i_lock None (set_i_lock l i) = i.
Proof. destruct i. simpl. by intros ->. Qed.

(** [iput] that does not free the inode. *)
Lemma wp_iput_keep s0 c ws ip i Q s :
  op s0 c ws ∅ s → k_icache s !! ip = Some i → i_lock i = None →
  i_valid i = 0 ∨ i_nlink i ≠ 0 ∨ i_ref i ≠ 1 →
  (∀ s', op s0 c ws ∅ s' → k_icache s' = <[ip := set_i_ref (i_ref i - 1) i]> (k_icache s) → Q tt s') →
  wp (iput ip) Q s.
Proof.
  intros Ho Hi Hl Hkeep HQ. unfold iput. apply wp_bind. eapply wp_acquiresleep; [done|done|done|].
  intros s1 Ho1 Hi1 _. pose proof (lookup_lt_Some _ _ _ Hi) as Hlt.
  assert (k_icache s1 !! ip = Some (set_i_lock (Some (k_pid s)) i)) as Hi1' by (rewrite Hi1; by apply list_lookup_insert_eq).
  apply wp_bind. eapply wp_inode_at; [done|].
  assert (wp (releasesleep ip ;; acquire L_icache ;; inode_upd ip (λ i, set_i_ref (i_ref i - 1) i) ;; release L_icache) Q s1) as Hend.
  { eapply wp_iput_end; [done|done|]. intros s2 Ho2 Hi2. apply HQ; [done|]. rewrite Hi2, Hi1, list_insert_insert_eq.
    by rewrite set_i_lock_None. }
  simpl i_valid. simpl i_nlink. apply wp_bind.
  destruct (Z.eqb_spec (i_valid i) 0) as [|Hv]; [by apply wp_ret|].
  destruct (Z.eqb_spec (i_nlink i) 0) as [Hn|]; [|by apply wp_ret]. cbn [negb andb when].
  eapply wp_icache_read; [done|done|]. simpl i_ref.
  rewrite (proj2 (Z.eqb_neq _ _)) by naive_solver. by apply wp_ret.
Qed.

(** What [iput] leaves of an inode that it frees. *)
Definition disposed (i : inode) : inode := set_i_ref 0 (set_i_valid 0 (set_i_type 0 (emptied i))).

Section last.
Context (s0 : kst) (c : Z) (Hlog : log_geom (k_log s0) (k_havedisk1 s0)) (Hsb : sb_geom s0).

Lemma wp_iput_last ws ip i Q s :
  let v := wview ws (view s0) in
  let bm := sb_bmapstart (k_sb s0) in
  let ib := IBLOCK (i_inum i) (k_sb s0) in
  op s0 c ws ∅ s → k_icache s !! ip = Some i → i_lock i = None →
  i_valid i ≠ 0 → i_nlink i = 0 → i_ref i = 1 →
  file_ok s0 v i → inum_ok s0 (i_inum i) → dinode_ok (dinode_of i) →
  Z.of_nat (size ({[bm; ib]} ∪ wset ws)) < c →
  (∀ s' ws', op s0 c (ws ++ ws') ∅ s' → wset ws' ⊆ {[bm; ib]} → k_icache s' = <[ip := disposed i]> (k_icache s) →
     released s0 ws i (wview (ws ++ ws') (view s0)) (dinode_of (disposed i)) → Q tt s') →
  wp (iput ip) Q s.
Proof.
  intros v bm ib Ho Hi Hl Hv Hn Hr Hf Hin Hd Hc HQ. unfold iput. apply wp_bind. eapply wp_acquiresleep; [done|done|done|].
  intros s1 Ho1 Hi1 _. pose proof (lookup_lt_Some _ _ _ Hi) as Hlt. set (i1 := set_i_lock (Some (k_pid s)) i) in *.
  assert (k_icache s1 !! ip = Some i1) as Hi1' by (rewrite Hi1; by apply list_lookup_insert_eq).
  assert (file_ok s0 v i1) as Hf1 by (destruct Hf; by split).
  apply wp_bind. eapply wp_inode_at; [done|]. simpl i_valid. simpl i_nlink.
  rewrite (proj2 (Z.eqb_neq _ _) Hv), Hn. cbn [negb andb when Z.eqb].
  apply wp_bind. eapply wp_icache_read; [done|done|]. simpl i_ref. rewrite Hr. cbn [when Z.eqb Pos.eqb].
  apply wp_bind, (wp_itrunc s0 c Hlog Hsb ws ip i1 (k_icache s1) Hf1 Hi1' Hc Hin Hd); [done|done|].
  intros s2 ws2 Ho2 Hws2 Hi2 Hrl. apply wp_bind. eapply wp_inode_upd; [done|rewrite Hi2; by apply list_lookup_insert_eq, (lookup_lt_Some _ _ _ Hi1')|].
  intros s3 Ho3 Hi3. rewrite Hi2, list_insert_insert_eq in Hi3. set (i3 := set_i_type 0 (emptied i1)) in *.
  assert (k_icache s3 !! ip = Some i3) as Hi3' by (rewrite Hi3; by apply list_lookup_insert_eq, (lookup_lt_Some _ _ _ Hi1')).
  apply wp_bind, (wp_iupdate s0 Hlog Hsb c (ws ++ ws2) ip i3); [done|done|apply (f_dev _ _ _ Hf)|done|done|by apply (room_ib s0 c ws i)|].
  intros s4 Ho4 Hi4. eapply wp_inode_upd; [done|by rewrite Hi4|]. intros s5 Ho5 Hi5.
  eapply wp_iput_end; [done|rewrite Hi5, Hi4; by eapply list_lookup_insert_eq, lookup_lt_Some|].
  intros s6 Ho6 Hi6. rewrite <- app_assoc in Ho6. apply (HQ s6 _ Ho6).
  - rewrite wset_snoc. change (IBLOCK (i_inum i3) (k_sb s0)) with ib. set_solver.
  - rewrite Hi6, Hi5, Hi4, Hi3, Hi1, !list_insert_insert_eq. f_equal. unfold disposed, i3, i1. simpl.
    rewrite Hr. destruct i. simpl in *. by subst.
  - rewrite app_assoc, wview_snoc. destruct Hrl as [R1 R2 R3 R4 R5].
    apply (released_store s0 Hlog Hsb ws i Hin); [by eapply op_block_ok| |done|done|done|done].
    apply (dinode_ok_emptied i1 Hd 0). done.
Qed.
End last.

(** C11 [iput] always returns. When the reference is the last one to an inode
    that is in use and has no links, the blocks of the file and no others
    become free, the inode on disk becomes that of a free inode (type 0, no
    links, size and addresses 0) and every other inode and block keeps its
    contents. In every other case the reference count drops by one and
    nothing on disk changes. Three blocks of log space are needed for the two
    that are written, since [log_write] asks for a free slot also for a block
    that is in the log already. *)
Theorem iput_disposes s ip i :
  fs_ok ∅ s → in_tx s 3 → sb_geom s → k_icache s !! ip = Some i → i_lock i = None →
  file_ok s (view s) i → inum_ok s (i_inum i) → dinode_ok (dinode_of i) →
  ∃ s', iput ip s = Ok tt s' ∧ fs_ok ∅ s' ∧
    if decide (i_valid i ≠ 0 ∧ i_nlink i = 0 ∧ i_ref i = 1)
    then k_icache s' = <[ip := disposed i]> (k_icache s) ∧
         ∃ v', (∀ k, view s' k = v' k) ∧ released s [] i v' (Dinode 0 (i_major i) (i_minor i) 0 0 (replicate 13 0))
    else k_icache s' = <[ip := set_i_ref (i_ref i - 1) i]> (k_icache s) ∧ ∀ k, view s' k = view s k.
Proof.
  intros Hs Ht Hg Hi Hl Hf Hin Hd. pose proof (ok_geom _ _ Hs) as Hlog.
  pose proof (op_start ∅ s 3 Hs Ht ltac:(lia)) as Ho. case_decide as Hc.
  - destruct Hc as (Hv & Hn & Hr).
    enough (wp (iput ip) (λ _ s', fs_ok ∅ s' ∧ k_icache s' = <[ip := disposed i]> (k_icache s) ∧
      ∃ v', (∀ k, view s' k = v' k) ∧ released s [] i v' (dinode_of (disposed i))) s) as Hw.
    { apply wp_run in Hw as ([] & s' & Hrun & Hok & Hic & v' & Hv' & Hrl). exists s'. split_and!; [done|done|done|].
      exists v'. split; [done|]. unfold disposed, dinode_of in Hrl. simpl in Hrl. by rewrite Hn in Hrl. }
    apply (wp_iput_last s 3 Hlog Hg [] ip i); try done.
    + rewrite wset_nil, union_empty_r_L. pose proof (size_add (sb_bmapstart (k_sb s)) {[IBLOCK (i_inum i) (k_sb s)]}) as Hsz.
      rewrite size_singleton in Hsz. lia.
    + intros s' ws' Ho' _ Hic Hrl. split_and!; [apply Ho'|done|]. eexists. split; [|done].
      intros k. by eapply op_view.
  - enough (wp (iput ip) (λ _ s', fs_ok ∅ s' ∧ k_icache s' = <[ip := set_i_ref (i_ref i - 1) i]> (k_icache s) ∧
      ∀ k, view s' k = view s k) s) as Hw.
    { apply wp_run in Hw as ([] & s' & Hrun & Hok & Hic & Hv'). by exists s'. }
    eapply wp_iput_keep; [done|done|done| |].
    + destruct (decide (i_valid i = 0)); [by left|]. destruct (decide (i_nlink i = 0)); [|by right; left]. right. right. naive_solver.
    + intros s' Ho' Hic. split_and!; [apply Ho'|done|]. intros k. by rewrite (op_view _ _ _ _ _ _ Ho').
Qed.

(** An inode whose last link is gone, with its last reference. *)
Definition orphan : inode := set_i_lock None (set_i_nlink 0 demo_root_inode).
Definition demo_orphan : kst := set_icache (<[0%nat := orphan]> demo_icache) demo_fs.

Lemma iput_disposes_witness :
  ∃ s', iput 0 demo_orphan = Ok tt s' ∧ fs_ok ∅ s' ∧
    k_icache s' = <[0%nat := disposed orphan]> (k_icache demo_orphan) ∧
    ∃ v', (∀ k, view s' k = v' k) ∧ released demo_orphan [] orphan v' (Dinode 0 0 0 0 0 (replicate 13 0)).
Proof.
  apply (iput_disposes demo_orphan 0 orphan).
  - destruct demo_fs_ok. split; assumption.
  - split; vm_compute; discriminate.
  - split; vm_compute; (discriminate || reflexivity).
  - reflexivity.
  - reflexivity.
  - destruct demo_root_ok. split; assumption.
  - split; [discriminate|reflexivity].
  - unfold dinode_ok. split_and!; first [reflexivity|discriminate|repeat constructor; discriminate].
Defined.
