(* ===== verification/ICache.v ===== *)
(** * ICache: the inode cache

    The reference counts of fs.c. A client holds the pointers that [iget] and
    [idup] returned to it and gives one back with each [iput]; in between it
    locks inodes, reads and writes them. Whatever the order, the count of an
    entry is the number of pointers held to it, a held pointer stays with the
    inode it was obtained for, and one inode has one entry. *)

From S2P Require Import Prelude State Bio Log LogOps Fs Demo Balloc Content Grow Inode Writei Trunc.

(** The fields that [icache.lock] protects. *)
Definition ident (i : inode) : Z * Z * Z := (i_dev i, i_inum i, i_ref i).
Definition idents (s : kst) : list (Z * Z * Z) := ident <$> k_icache s.

(** ** Frames *)

Lemma inode_at_keeps {X} (f : kst → X) ip : keeps f (inode_at ip).
Proof. unfold inode_at. solve_keeps. Qed.

Lemma inode_upd_keeps ip g : (∀ i, ident (g i) = ident i) → keeps idents (inode_upd ip g).
Proof.
  intros Hg s [] s'. unfold inode_upd, inode_at, inode_put, mbind, K_bind, gets, modify.
  destruct (k_icache s !! ip) as [i|] eqn:E; [|done]. intros [= <-]. unfold idents. simpl.
  rewrite list_fmap_insert, Hg. apply list_insert_id. by rewrite list_lookup_fmap, E.
Qed.

Lemma acquiresleep_keeps ip : keeps idents (acquiresleep ip).
Proof.
  intros s [] s'. unfold acquiresleep, inode_at, inode_put, mbind, K_bind, gets, modify.
  destruct (k_icache s !! ip) as [i|] eqn:E; [|done]. simpl. destruct (i_lock i); [done|]. intros [= <-].
  unfold idents. simpl. rewrite list_fmap_insert. apply list_insert_id. by rewrite list_lookup_fmap, E.
Qed.

#[local] Hint Resolve inode_at_keeps acquiresleep_keeps : keeps.
#[local] Hint Extern 2 (keeps idents (inode_upd _ _)) => apply inode_upd_keeps; intros; reflexivity : keeps.

Ltac keep_by f := intros; unfold f; solve_keeps.

Lemma buf_at_idents k : keeps idents (buf_at k). Proof. keep_by buf_at. Qed.
Lemma buf_put_idents k b : keeps idents (buf_put k b). Proof. keep_by buf_put. Qed.
Lemma acquire_idents l : keeps idents (acquire l). Proof. keep_by acquire. Qed.
Lemma release_idents l : keeps idents (release l). Proof. keep_by release. Qed.
#[local] Hint Resolve buf_at_idents buf_put_idents acquire_idents release_idents : keeps.
Lemma iderw_idents k : keeps idents (iderw k). Proof. keep_by iderw. Qed.
#[local] Hint Resolve iderw_idents : keeps.
Lemma bget_idents k : keeps idents (bget k). Proof. keep_by bget. Qed.
#[local] Hint Resolve bget_idents : keeps.
Lemma bread_idents d b : keeps idents (bread d b). Proof. keep_by bread. Qed.
Lemma brelse_idents k : keeps idents (brelse k). Proof. keep_by brelse. Qed.
Lemma bdata_idents k : keeps idents (bdata k). Proof. keep_by bdata. Qed.
Lemma set_bdata_idents k d : keeps idents (set_bdata k d). Proof. keep_by set_bdata. Qed.
Lemma log_write_idents k : keeps idents (log_write k). Proof. unfold log_write, lh_put, set_lh_n, put_lh, get_lh. solve_keeps. Qed.
#[local] Hint Resolve bread_idents brelse_idents bdata_idents set_bdata_idents log_write_idents : keeps.
Lemma iupdate_idents ip : keeps idents (iupdate ip). Proof. keep_by iupdate. Qed.
Lemma bfree_idents d b : keeps idents (bfree d b). Proof. keep_by bfree. Qed.
Lemma bzero_idents d b : keeps idents (bzero d b). Proof. keep_by bzero. Qed.
Lemma releasesleep_idents ip : keeps idents (releasesleep ip). Proof. keep_by releasesleep. Qed.
Lemma addr_get_idents ip n : keeps idents (addr_get ip n). Proof. keep_by addr_get. Qed.
Lemma addr_put_idents ip n a : keeps idents (addr_put ip n a). Proof. keep_by addr_put. Qed.
#[local] Hint Resolve iupdate_idents bfree_idents bzero_idents releasesleep_idents addr_get_idents addr_put_idents : keeps.
Lemma itrunc_idents ip : keeps idents (itrunc ip). Proof. keep_by itrunc. Qed.
Lemma ilock_idents ip : keeps idents (ilock ip). Proof. keep_by ilock. Qed.
Lemma iunlock_idents ip : keeps idents (iunlock ip). Proof. keep_by iunlock. Qed.
Lemma balloc_loop_idents fuel d b : keeps idents (balloc_loop fuel d b).
Proof. revert b. induction fuel; intros b; cbn [balloc_loop]; solve_keeps. Qed.
#[local] Hint Resolve itrunc_idents balloc_loop_idents : keeps.
Lemma balloc_idents d : keeps idents (balloc d). Proof. keep_by balloc. Qed.
#[local] Hint Resolve balloc_idents : keeps.
Lemma bmap_slot_idents ip n : keeps idents (bmap_slot ip n). Proof. keep_by bmap_slot. Qed.
#[local] Hint Resolve bmap_slot_idents : keeps.
Lemma bmap_idents ip n : keeps idents (bmap ip n). Proof. keep_by bmap. Qed.
#[local] Hint Resolve bmap_idents : keeps.

Section devices.
Context (devread : Z → option (nat → Z → KM (Z * list Z)))
        (devwrite : Z → option (nat → list Z → Z → KM Z)).
Context (Hread : ∀ m f ip n, devread m = Some f → keeps idents (f ip n))
        (Hwrite : ∀ m f ip src n, devwrite m = Some f → keeps idents (f ip src n)).

Lemma readi_loop_idents fuel ip off tot n acc : keeps idents (readi_loop fuel ip off tot n acc).
Proof. revert off tot acc. induction fuel; intros; cbn [readi_loop]; solve_keeps. Qed.

Lemma writei_loop_idents fuel ip src off tot n : keeps idents (writei_loop fuel ip src off tot n).
Proof. revert off tot. induction fuel; intros; cbn [writei_loop]; solve_keeps. Qed.
#[local] Hint Resolve readi_loop_idents writei_loop_idents : keeps.

Lemma readi_idents ip off n : keeps idents (readi devread ip off n).
Proof.
  unfold readi. apply keeps_bind; [solve_keeps|intros i]. destruct (i_type i =? T_DEV); [|solve_keeps].
  destruct (_ || _); [solve_keeps|]. destruct (devread (i_major i)) eqn:E; [by eapply Hread|solve_keeps].
Qed.

Lemma writei_idents ip src off n : keeps idents (writei devwrite ip src off n).
Proof.
  unfold writei. apply keeps_bind; [solve_keeps|intros i]. destruct (i_type i =? T_DEV); [|solve_keeps].
  destruct (_ || _); [solve_keeps|]. destruct (devwrite (i_major i)) eqn:E; [by eapply Hwrite|solve_keeps].
Qed.

(** ** What [iget], [idup] and [iput] do *)

(** The search finds a live entry for the inode; if there is none, the empty
    entry is one with no references. *)
Definition live (dev inum : Z) (x : inode) : Prop := 0 < i_ref x ∧ i_dev x = dev ∧ i_inum x = inum.

Lemma iget_scan_spec dev inum l j e :
  match iget_scan l j dev inum e with
  | (Some k, _) => ∃ x, (j ≤ k)%nat ∧ l !! (k - j)%nat = Some x ∧ live dev inum x
  | (None, r) => (∀ k x, l !! k = Some x → ¬ live dev inum x) ∧
      match r with
      | Some k => e = Some k ∨ e = None ∧ ∃ x, (j ≤ k)%nat ∧ l !! (k - j)%nat = Some x ∧ i_ref x = 0
      | None => e = None ∧ ∀ k x, l !! k = Some x → i_ref x ≠ 0
      end
  end.
Proof.
  revert j e. induction l as [|x l IH]; intros j e; simpl.
  { split; [done|]. destruct e; [by left|done]. }
  destruct ((0 <? i_ref x) && (i_dev x =? dev) && (i_inum x =? inum)) eqn:El.
  { exists x. rewrite Nat.sub_diag. split_and!; [done|done|]. unfold live. lia. }
  assert (¬ live dev inum x) as Hn by (unfold live; lia).
  specialize (IH (S j) (match e with None => if i_ref x =? 0 then Some j else None | Some _ => e end)).
  destruct (iget_scan l _ _ _ _) as [[k|] r].
  - destruct IH as (y & Hk & Hy & Hl). exists y. split_and!; [lia| |done].
    replace (k - j)%nat with (S (k - S j)) by lia. done.
  - destruct IH as [H1 H2]. split; [intros [|k] y; simpl; [naive_solver|apply H1]|].
    destruct r as [k|].
    + destruct H2 as [H2|[H2 (y & Hk & Hy & Hr)]].
      * destruct e; [by left|]. right. split; [done|]. destruct (Z.eqb_spec (i_ref x) 0); [|done].
        injection H2 as ->. exists x. by rewrite Nat.sub_diag.
      * right. destruct e; [done|]. split; [done|]. exists y. split_and!; [lia| |done].
        replace (k - j)%nat with (S (k - S j)) by lia. done.
    + destruct H2 as [H2 H3]. destruct e; [done|]. split; [done|]. destruct (Z.eqb_spec (i_ref x) 0); [done|].
      intros [|k] y; simpl; [naive_solver|apply H3].
Qed.

(** From a run to a [wlp]. *)
Ltac wlp_run :=
  match goal with
  | |- ?m ?s = Ok ?a ?s' → _ => let H := fresh in intros H; pattern a, s'; refine (wlp_Ok m _ s a s' _ H); clear H
  end.

Lemma acquire_icache l : keeps k_icache (acquire l). Proof. keep_by acquire. Qed.
Lemma release_icache l : keeps k_icache (release l). Proof. keep_by release. Qed.

Lemma wlp_inode_upd ip g Q s :
  (∀ i, k_icache s !! ip = Some i → Q tt (set_icache (<[ip := g i]> (k_icache s)) s)) → wlp (inode_upd ip g) Q s.
Proof.
  intros HQ. unfold inode_upd, inode_at. apply wlp_bind, wlp_bind, wlp_gets.
  destruct (k_icache s !! ip) as [i|] eqn:E; [|apply wlp_fail]. apply wlp_modify. by apply HQ.
Qed.

Lemma idents_insert s ic ip (i : inode) :
  ic = <[ip := i]> (k_icache s) → ident <$> ic = <[ip := ident i]> (idents s).
Proof. intros ->. apply list_fmap_insert. Qed.

(** A critical section that updates one entry. *)
Lemma wlp_locked_upd {A} ip g (a : A) (Q : A → kst → Prop) s :
  (∀ i s', k_icache s !! ip = Some i → idents s' = <[ip := ident (g i)]> (idents s) → Q a s') →
  wlp (inode_upd ip g ;; release L_icache ;; mret a) Q s.
Proof.
  intros HQ. apply wlp_bind, wlp_inode_upd. intros i Hi. apply wlp_bind, (wlp_keeps k_icache); [apply release_icache|].
  intros _ s' Hs'. apply wlp_ret. eapply HQ; [done|]. unfold idents at 1. rewrite Hs'. by apply idents_insert.
Qed.

Lemma iget_idents dev inum s ip s' :
  iget dev inum s = Ok ip s' →
  ∃ d n r, idents s !! ip = Some (d, n, r) ∧
    (0 < r ∧ (d, n) = (dev, inum) ∧ idents s' = <[ip := (dev, inum, r + 1)]> (idents s) ∨
     r = 0 ∧ (∀ k r', idents s !! k = Some (dev, inum, r') → r' ≤ 0) ∧
       idents s' = <[ip := (dev, inum, 1)]> (idents s)).
Proof.
  wlp_run. unfold iget. apply wlp_bind, (wlp_keeps k_icache); [apply acquire_icache|]. intros _ s1 H1.
  apply wlp_bind, wlp_gets. pose proof (iget_scan_spec dev inum (k_icache s1) 0 None) as Hscan.
  assert (idents s1 = idents s) as Hid by (unfold idents; by rewrite H1).
  destruct (iget_scan _ _ _ _ _) as [[k|] r].
  - destruct Hscan as (x & _ & Hx & Hr & Hd & Hn). rewrite Nat.sub_0_r in Hx.
    apply wlp_locked_upd. intros i s2 Hi Hs2. exists (i_dev i), (i_inum i), (i_ref i).
    assert (x = i) as -> by congruence.
    split; [rewrite <- Hid; unfold idents; by rewrite list_lookup_fmap, Hi|]. left. rewrite Hs2, Hid. unfold ident. simpl.
    split_and!; [done|congruence|congruence].
  - destruct Hscan as [Hno Hr]. destruct r as [k|]; [|apply wlp_fail]. destruct Hr as [|[_ (x & _ & Hx & Hr)]]; [done|].
    rewrite Nat.sub_0_r in Hx. apply wlp_locked_upd. intros i s2 Hi Hs2.
    exists (i_dev i), (i_inum i), (i_ref i).
    assert (x = i) as -> by congruence.
    split; [rewrite <- Hid; unfold idents; by rewrite list_lookup_fmap, Hi|]. right. rewrite Hs2, Hid.
    split_and!; [done| |done]. intros k' r'. rewrite <- Hid. unfold idents. rewrite list_lookup_fmap.
    intros (y & Hy & E)%fmap_Some_1. unfold ident in E. injection E as ? ? ?. destruct (decide (r' ≤ 0)); [done|]. destruct (Hno k' y Hy). unfold live. lia.
Qed.

Lemma idup_idents ip s ip' s' :
  idup ip s = Ok ip' s' → ip' = ip ∧ ∃ d n r, idents s !! ip = Some (d, n, r) ∧ idents s' = <[ip := (d, n, r + 1)]> (idents s).
Proof.
  wlp_run. unfold idup. apply wlp_bind, (wlp_keeps k_icache); [apply acquire_icache|]. intros _ s1 H1.
  assert (idents s1 = idents s) as Hid by (unfold idents; by rewrite H1).
  apply wlp_locked_upd. intros i s2 Hi Hs2. split; [done|]. exists (i_dev i), (i_inum i), (i_ref i).
  split; [rewrite <- Hid; unfold idents; by rewrite list_lookup_fmap, Hi|]. by rewrite Hs2, Hid.
Qed.

Lemma iput_idents ip s s' :
  iput ip s = Ok tt s' → ∃ d n r, idents s !! ip = Some (d, n, r) ∧ idents s' = <[ip := (d, n, r - 1)]> (idents s).
Proof.
  wlp_run. unfold iput. apply wlp_bind, (wlp_keeps idents); [solve_keeps|intros _ s1 E1].
  apply wlp_bind, (wlp_keeps idents); [solve_keeps|intros i0 s2 E2].
  apply wlp_bind, (wlp_keeps idents); [solve_keeps|intros _ s3 E3].
  apply wlp_bind, (wlp_keeps idents); [solve_keeps|intros _ s4 E4].
  apply wlp_bind, (wlp_keeps idents); [solve_keeps|intros _ s5 E5].
  apply wlp_bind, wlp_inode_upd. intros i Hi. apply (wlp_keeps k_icache); [apply release_icache|].
  intros _ s6 Hs6. assert (idents s6 = <[ip := (i_dev i, i_inum i, i_ref i - 1)]> (idents s)) as E.
  { unfold idents at 1. rewrite Hs6. simpl. rewrite list_fmap_insert. fold (idents s5).
    by rewrite E5, E4, E3, E2, E1. }
  exists (i_dev i), (i_inum i), (i_ref i). split; [|done].
  replace (idents s) with (idents s5) by congruence. unfold idents. by rewrite list_lookup_fmap, Hi.
Qed.

(** ** Clients *)

(** The pointers held: an entry of the cache, and the inode it was asked for. *)
Abbreviation held := (list (nat * (Z * Z))).

Inductive istep : kst * held → kst * held → Prop :=
  | istep_iget dev inum ip s s' R :
      iget dev inum s = Ok ip s' → istep (s, R) (s', (ip, (dev, inum)) :: R)
  | istep_idup ip id ip' s s' R :
      (ip, id) ∈ R → idup ip s = Ok ip' s' → istep (s, R) (s', (ip', id) :: R)
  | istep_iput ip id s s' R1 R2 :
      iput ip s = Ok tt s' → istep (s, R1 ++ (ip, id) :: R2) (s', R1 ++ R2)
  | istep_ilock ip s s' R : ilock ip s = Ok tt s' → istep (s, R) (s', R)
  | istep_iunlock ip s s' R : iunlock ip s = Ok tt s' → istep (s, R) (s', R)
  | istep_iupdate ip s s' R : iupdate ip s = Ok tt s' → istep (s, R) (s', R)
  | istep_readi ip off n r s s' R : readi devread ip off n s = Ok r s' → istep (s, R) (s', R)
  | istep_writei ip src off n r s s' R : writei devwrite ip src off n s = Ok r s' → istep (s, R) (s', R).

(** How many of them point to entry [ip]. *)
Definition refs (R : held) (ip : nat) : Z := Z.of_nat (length (filter (λ p, p.1 = ip) R)).

Lemma refs_cons p R ip : refs (p :: R) ip = (if decide (p.1 = ip) then 1 else 0) + refs R ip.
Proof. unfold refs. rewrite filter_cons. case_decide; simpl; lia. Qed.

Lemma refs_app R1 R2 ip : refs (R1 ++ R2) ip = refs R1 ip + refs R2 ip.
Proof. unfold refs. rewrite filter_app, length_app. lia. Qed.

Lemma refs_pos R ip : 0 ≤ refs R ip ∧ (0 < refs R ip ↔ ∃ id, (ip, id) ∈ R).
Proof.
  split; [unfold refs; lia|]. induction R as [|[ip' id'] R IH].
  - split; [done|]. intros [id H]. by apply not_elem_of_nil in H.
  - rewrite refs_cons. setoid_rewrite elem_of_cons. simpl. assert (0 ≤ refs R ip) by (unfold refs; lia).
    case_decide; subst; [split; [eauto|lia]|]. rewrite Z.add_0_l, IH. naive_solver.
Qed.

Lemma refs_elem R ip id : (ip, id) ∈ R → 0 < refs R ip.
Proof. intros H. apply refs_pos. eauto. Qed.

Record icache_inv (l : list (Z * Z * Z)) (R : held) : Prop := {
  ii_count : ∀ ip d n r, l !! ip = Some (d, n, r) → r = refs R ip;
  ii_held : ∀ ip id, (ip, id) ∈ R → ∃ r, l !! ip = Some (id.1, id.2, r);
  ii_unique : ∀ ip ip' id, (ip, id) ∈ R → (ip', id) ∈ R → ip = ip'
}.

Lemma inv_add l R ip d n r dev inum :
  icache_inv l R → l !! ip = Some (d, n, r) →
  (0 < r ∧ (d, n) = (dev, inum) ∨ r = 0 ∧ ∀ k r', l !! k = Some (dev, inum, r') → r' ≤ 0) →
  icache_inv (<[ip := (dev, inum, r + 1)]> l) ((ip, (dev, inum)) :: R).
Proof.
  intros [H1 H2 H3] Hip Hc. pose proof (lookup_lt_Some _ _ _ Hip) as Hlt. pose proof (H1 _ _ _ _ Hip) as Hr.
  assert (∀ id, (ip, id) ∈ R → id = (dev, inum)) as Hsame.
  { intros [d' n'] Hin. destruct Hc as [[_ E]|[Hz _]].
    - destruct (H2 _ _ Hin) as [r' Hr']. simplify_eq. done.
    - apply refs_elem in Hin. lia. }
  assert (∀ ip', (ip', (dev, inum)) ∈ R → ip' = ip) as Huniq.
  { intros ip' Hin. destruct Hc as [[Hp E]|[_ Hno]].
    - rewrite Hr in Hp. apply refs_pos in Hp as [id Hid]. rewrite (Hsame _ Hid) in Hid. by eapply H3.
    - destruct (H2 _ _ Hin) as [r' Hr']. pose proof (Hno _ _ Hr'). pose proof (H1 _ _ _ _ Hr').
      apply refs_elem in Hin. lia. }
  split.
  - intros ip' d' n' r'. rewrite refs_cons. simpl. destruct (decide (ip = ip')) as [<-|Hne].
    + rewrite list_lookup_insert_eq by done. intros [= <- <- <-]. lia.
    + rewrite list_lookup_insert_ne by done. intros Hl. rewrite (H1 _ _ _ _ Hl). lia.
  - intros ip' id [[= -> ->]|Hin]%elem_of_cons.
    + rewrite list_lookup_insert_eq by done. eauto.
    + destruct (decide (ip = ip')) as [<-|Hne]; [|rewrite list_lookup_insert_ne by done; eauto].
      rewrite (Hsame _ Hin), list_lookup_insert_eq by done. eauto.
  - intros ip1 ip2 id [E1|Hin1]%elem_of_cons [E2|Hin2]%elem_of_cons; [congruence| | |by eapply H3].
    + injection E1 as -> ->. symmetry. by apply Huniq.
    + injection E2 as -> ->. by apply Huniq.
Qed.

Lemma inv_drop l R1 R2 ip id d n r :
  icache_inv l (R1 ++ (ip, id) :: R2) → l !! ip = Some (d, n, r) →
  icache_inv (<[ip := (d, n, r - 1)]> l) (R1 ++ R2).
Proof.
  intros [H1 H2 H3] Hip. pose proof (lookup_lt_Some _ _ _ Hip) as Hlt.
  assert (∀ p, p ∈ R1 ++ R2 → p ∈ R1 ++ (ip, id) :: R2) as Hsub by (intros p; set_solver).
  split.
  - intros ip' d' n' r'. specialize (H1 ip'). rewrite refs_app, refs_cons in H1. rewrite refs_app. simpl in H1.
    destruct (decide (ip = ip')) as [<-|Hne].
    + rewrite list_lookup_insert_eq by done. intros [= <- <- <-]. rewrite (H1 _ _ _ Hip). lia.
    + rewrite list_lookup_insert_ne by done. intros Hl. rewrite (H1 _ _ _ Hl). lia.
  - intros ip' id' Hin. destruct (H2 _ _ (Hsub _ Hin)) as [r' Hr'].
    destruct (decide (ip = ip')) as [<-|Hne]; [|rewrite list_lookup_insert_ne by done; eauto].
    rewrite list_lookup_insert_eq by done. simplify_eq. eauto.
  - intros ip1 ip2 id' Hin1 Hin2. apply (H3 ip1 ip2 id'); by apply Hsub.
Qed.

Lemma istep_inv c c' : istep c c' → icache_inv (idents c.1) c.2 → icache_inv (idents c'.1) c'.2.
Proof.
  intros [dev inum ip s s' R H|ip id ip' s s' R Hin H|ip id s s' R1 R2 H|ip s s' R H|ip s s' R H|ip s s' R H
    |ip off n r s s' R H|ip src off n r s s' R H] Hinv; simpl in *.
  - apply iget_idents in H as (d & n & r & Hl & [(Hp & Hid & ->)|(-> & Hno & ->)]).
    + eapply inv_add; eauto.
    + change 1 with (0 + 1). eapply inv_add; eauto.
  - apply idup_idents in H as (-> & d & n & r & Hl & ->). destruct (ii_held _ _ Hinv _ _ Hin) as [r' Hr'].
    destruct id as [dev inum]. simplify_eq. simpl in *. eapply inv_add; [done|done|]. left. split; [|done].
    rewrite (ii_count _ _ Hinv _ _ _ _ Hl). by eapply refs_elem.
  - apply iput_idents in H as (d & n & r & Hl & ->). by eapply inv_drop.
  - by rewrite (ilock_idents _ _ _ _ H).
  - by rewrite (iunlock_idents _ _ _ _ H).
  - by rewrite (iupdate_idents _ _ _ _ H).
  - by rewrite (readi_idents _ _ _ _ _ _ H).
  - by rewrite (writei_idents _ _ _ _ _ _ _ H).
Qed.

Lemma isteps_inv c c' : rtc istep c c' → icache_inv (idents c.1) c.2 → icache_inv (idents c'.1) c'.2.
Proof. induction 1; eauto using istep_inv. Qed.
End devices.

(** C27 The inode cache, from a state with no references and through any
    sequence of [iget], [idup], [iput], [ilock], [iunlock], [iupdate], [readi]
    and [writei] calls: the reference count of every entry is the number of
    pointers handed out and not yet put back; every pointer still points to
    the inode it was obtained for, so an entry is never recycled while it is
    in use; and all pointers to one inode point to the same entry. *)
Theorem icache_references devread devwrite s s' R :
  (∀ m f ip n, devread m = Some f → keeps idents (f ip n)) →
  (∀ m f ip src n, devwrite m = Some f → keeps idents (f ip src n)) →
  (∀ ip i, k_icache s !! ip = Some i → i_ref i = 0) →
  rtc (istep devread devwrite) (s, []) (s', R) →
  (∀ ip i, k_icache s' !! ip = Some i → i_ref i = refs R ip) ∧
  (∀ ip dev inum, (ip, (dev, inum)) ∈ R →
     ∃ i, k_icache s' !! ip = Some i ∧ i_dev i = dev ∧ i_inum i = inum ∧ 0 < i_ref i) ∧
  (∀ ip ip' id, (ip, id) ∈ R → (ip', id) ∈ R → ip = ip').
Proof.
  intros Hr Hw H0 Hsteps. apply (isteps_inv _ _ Hr Hw) in Hsteps as [H1 H2 H3]; simpl in *.
  - assert (∀ ip i, k_icache s' !! ip = Some i → i_ref i = refs R ip) as Hc.
    { intros ip i Hi. apply (H1 ip (i_dev i) (i_inum i)). unfold idents. by rewrite list_lookup_fmap, Hi. }
    split_and!; [done| |done]. intros ip dev inum Hin. destruct (H2 _ _ Hin) as [r Hl]. unfold idents in Hl.
    rewrite list_lookup_fmap in Hl. apply fmap_Some_1 in Hl as (i & Hi & E). injection E as -> -> ->.
    exists i. split_and!; [done|done|done|]. rewrite (Hc _ _ Hi). by eapply refs_elem.
  - split.
    + intros ip d n r. unfold idents. rewrite list_lookup_fmap. intros (i & Hi & [= -> -> ->])%fmap_Some_1.
      rewrite (H0 _ _ Hi). done.
    + intros ip id Hin. by apply not_elem_of_nil in Hin.
    + intros ip ip' id Hin. by apply not_elem_of_nil in Hin.
Qed.

(** The state after a call. *)
Definition after {A} (m : KM A) (s : kst) : kst := match m s with Ok _ s' => s' | Fault _ => s end.

(** Two pointers to inode 5 and one to inode 7, the first put back. *)
Definition idle : kst := KS ∅ [] true ∅ (Log 2 30 1 0 ROOTDEV (Logheader 0 (replicate 30 0)))
  (sb_decode demo_superblock) (replicate 50 empty_inode) [] 1.
Definition idle1 : kst := after (iget 1 5) idle.
Definition idle2 : kst := after (iget 1 7) idle1.
Definition idle3 : kst := after (idup 0) idle2.
Definition idle4 : kst := after (iput 0) idle3.

Lemma icache_references_witness :
  ∃ i, k_icache idle4 !! 0%nat = Some i ∧ i_dev i = 1 ∧ i_inum i = 5 ∧ 0 < i_ref i.
Proof.
  destruct (icache_references (λ _, None) (λ _, None) idle idle4 [(1%nat, (1, 7)); (0%nat, (1, 5))]) as (_ & H & _).
  - intros m f ip n [=].
  - intros m f ip src n [=].
  - intros ip i Hi. unfold idle in Hi. cbn [k_icache] in Hi. apply lookup_replicate in Hi as [-> _]. reflexivity.
  - eapply rtc_l; [apply (istep_iget _ _ 1 5 0 idle idle1); vm_compute; reflexivity|].
    eapply rtc_l; [apply (istep_iget _ _ 1 7 1 idle1 idle2); vm_compute; reflexivity|].
    eapply rtc_l; [apply (istep_idup _ _ 0 (1, 5) 0 idle2 idle3); [right; left|vm_compute; reflexivity]|].
    eapply rtc_l; [apply (istep_iput _ _ 0 (1, 5) idle3 idle4 []); vm_compute; reflexivity|].
    apply rtc_refl.
  - apply (H 0%nat 1 5). right. left.
Defined.

(** [iget] returns unless the cache is full: it panics exactly when the
    inode has no entry and every entry is referenced. *)
Theorem iget_total dev inum s :
  L_icache ∉ k_spin s →
  (∃ ip s', iget dev inum s = Ok ip s') ∨
  iget dev inum s = Fault (FPanic "iget: no inodes") ∧
    ∀ ip i, k_icache s !! ip = Some i → i_ref i ≠ 0 ∧ ¬ live dev inum i.
Proof.
  intros Hl. assert (acquire L_icache s = Ok tt (set_spin (L_icache :: k_spin s) s)) as Ha.
  { unfold acquire, mbind, K_bind, gets. by rewrite bool_decide_eq_false_2. }
  unfold iget. rewrite (mbind_Ok _ _ _ _ _ Ha). rewrite mbind_Ok with (a := k_icache s) (s1 := set_spin (L_icache :: k_spin s) s) by done.
  pose proof (iget_scan_spec dev inum (k_icache s) 0 None) as Hscan.
  assert (∀ ip g x, k_icache s !! ip = Some x → ∃ r s', (inode_upd ip g ;; release L_icache ;; mret ip)
    (set_spin (L_icache :: k_spin s) s) = Ok r s') as Hend.
  { intros ip g x Hx. unfold inode_upd, inode_at, inode_put, release, mbind, K_bind, gets, modify.
    cbn [k_icache set_spin]. rewrite Hx. cbn [of_option mret K_ret k_spin set_icache set_spin]. rewrite bool_decide_eq_true_2 by set_solver. eexists _, _. reflexivity. }
  destruct (iget_scan _ _ _ _ _) as [[k|] [k'|]].
  - left. destruct Hscan as (x & _ & Hx & _). rewrite Nat.sub_0_r in Hx. eauto.
  - left. destruct Hscan as (x & _ & Hx & _). rewrite Nat.sub_0_r in Hx. eauto.
  - left. destruct Hscan as [_ [?|[_ (x & _ & Hx & _)]]]; [done|]. rewrite Nat.sub_0_r in Hx. eauto.
  - right. split; [done|]. destruct Hscan as [H1 [_ H2]]. intros ip i Hi. split; [by eapply H2|by eapply H1].
Qed.

Lemma iget_total_witness :
  (∃ ip s', iget 1 5 idle = Ok ip s') ∨
  iget 1 5 idle = Fault (FPanic "iget: no inodes") ∧
    ∀ ip i, k_icache idle !! ip = Some i → i_ref i ≠ 0 ∧ ¬ live 1 5 i.
Proof. apply (iget_total 1 5 idle). apply not_elem_of_nil. Defined.
