(* ===== verification/Dir.v ===== *)
(** * Dir: directories and path names

    A directory is a file whose content is a list of entries. [dirlookup] of
    fs.c is the search of that list for a name, [dirlink] adds an entry that
    later lookups find, and [skipelem] cuts path names into elements. *)

From S2P Require Import Prelude State Bio Log LogOps Fs Demo Balloc Content Grow Inode Writei Trunc ICache.

(** ** Names *)

(** The bytes up to the first NUL, at most [n]. *)
Fixpoint cname_n (n : nat) (l : list Z) : list Z :=
  match n, l with
  | S n, c :: l => if c =? 0 then [] else c :: cname_n n l
  | _, _ => []
  end.
Definition cname (l : list Z) : list Z := cname_n 14 l.

Lemma cname_step n s i :
  cname_n (S n) (drop i s) = if sbyte s i =? 0 then [] else sbyte s i :: cname_n n (drop (S i) s).
Proof.
  unfold sbyte. destruct (s !! i) as [c|] eqn:E; simpl.
  - by rewrite (drop_S s c i).
  - apply lookup_ge_None in E. by rewrite drop_ge.
Qed.

Lemma strncmp_from_eq s t n i :
  strncmp_from s t i n = 0 ↔ cname_n n (drop i s) = cname_n n (drop i t).
Proof.
  revert i. induction n as [|n IH]; intros i; [done|]. cbn [strncmp_from]. rewrite !cname_step.
  destruct (Z.eqb_spec (sbyte s i) 0) as [Hs|Hs]; cbn [orb].
  - destruct (Z.eqb_spec (sbyte t i) 0) as [Ht|Ht]; split; intros H; (done || lia).
  - destruct (Z.eqb_spec (sbyte s i) (sbyte t i)) as [E|E]; cbn [negb].
    + rewrite IH, <- E. rewrite (proj2 (Z.eqb_neq _ _) Hs). split; [by intros ->|by intros [=]].
    + destruct (Z.eqb_spec (sbyte t i) 0); split; intros H; (done || lia || by injection H).
Qed.

Lemma namecmp_eq s t : namecmp s t = 0 ↔ cname s = cname t.
Proof. apply (strncmp_from_eq s t 14 0). Qed.

Lemma strlen_before l j : (j < strlen l)%nat → sbyte l j ≠ 0.
Proof.
  revert j. induction l as [|c l IH]; intros j; cbn [strlen]; [lia|].
  destruct (Z.eqb_spec c 0); [lia|]. destruct j; [done|]. intros Hj. apply IH. lia.
Qed.

Lemma strlen_at l : sbyte l (strlen l) = 0.
Proof. induction l as [|c l IH]; [done|]. cbn [strlen]. by destruct (Z.eqb_spec c 0). Qed.

(** The name that [strncpy] stores is the name it is given. *)
Lemma cname_strncpy_from s n i :
  (i ≤ strlen s)%nat →
  cname_n n ((λ j, if (j <? strlen s)%nat then sbyte s j else 0) <$> seq i n) = cname_n n (drop i s).
Proof.
  revert i. induction n as [|n IH]; intros i Hi; [done|].
  rewrite cname_step. cbn [seq fmap list_fmap cname_n].
  destruct (Nat.ltb_spec i (strlen s)) as [Hlt|Hge].
  - rewrite (proj2 (Z.eqb_neq _ _) (strlen_before s i Hlt)). f_equal. by apply IH.
  - replace i with (strlen s) by lia. by rewrite strlen_at.
Qed.

Lemma cname_strncpy s : cname (strncpy s 14) = cname s.
Proof. apply (cname_strncpy_from s 14 0). lia. Qed.

Lemma length_strncpy s n : length (strncpy s n) = n.
Proof. unfold strncpy. by rewrite length_fmap, length_seq. Qed.

Lemma strncpy_bytes s n : Forall byte_ok s → Forall byte_ok (strncpy s n).
Proof.
  intros Hs. apply Forall_fmap, Forall_forall. intros j _. unfold compose, sbyte.
  destruct (j <? strlen s)%nat; [|done]. destruct (s !! j) eqn:E; [|done]. simpl. by eapply Forall_lookup_1.
Qed.

(** ** Entries *)

Definition dent (c : list Z) (k : nat) : dirent := dirent_get (slice (16 * k) 16 c).
Definition dents (c : list Z) : list dirent := dent c <$> seq 0 (length c / 16).

(** The entry is in use and has this name. *)
Definition matches (name : list Z) (de : dirent) : Prop := de_inum de ≠ 0 ∧ cname name = cname (de_name de).

#[global] Instance matches_dec name de : Decision (matches name de).
Proof. unfold matches. apply _. Defined.

(** The first entry with the name. *)
Definition dfind (c name : list Z) : option (nat * dirent) := list_find (matches name) (dents c).

Lemma lookup_dents c k : (k < length c / 16)%nat → dents c !! k = Some (dent c k).
Proof. intros Hk. unfold dents. rewrite list_lookup_fmap, lookup_seq_lt by done. done. Qed.

Lemma length_dents c : length (dents c) = (length c / 16)%nat.
Proof. unfold dents. by rewrite length_fmap, length_seq. Qed.

Lemma drop_dents c k : (k < length c / 16)%nat → drop k (dents c) = dent c k :: drop (S k) (dents c).
Proof. intros Hk. apply drop_S. by apply lookup_dents. Qed.

(** ** States that show the same blocks *)

Lemma file_ok_ext s s' v v' i :
  (∀ k, v' k = v k) → k_sb s' = k_sb s → file_ok s v i → file_ok s' v' i.
Proof.
  intros Hv Hsb [? ? ? F4 F5 F6 F7].
  assert (∀ b, free_in s' v' b = free_in s v b) as Hfr by (intros b; unfold free_in; by rewrite Hv, Hsb).
  assert (∀ b, data_block s b → data_block s' b) as Hd by (intros b; unfold data_block; by rewrite Hsb).
  assert (∀ bn, blk_of v' i bn = blk_of v i bn) as Hb by (intros bn; by apply blk_of_ext).
  split; try done; intros; rewrite ?Hb, ?Hfr in *.
  - destruct F4; auto.
  - destruct (F5 bn) as (? & ? & ?); auto.
  - by apply F6.
  - by apply F7.
Qed.

Lemma content_ext v v' i : (∀ k, v' k = v k) → content v' i = content v i.
Proof. intros Hv. apply fbytes_ext. intros o _. by apply fbyte_ext. Qed.

Lemma fs_eq_sb s s' : fs_eq s s' → k_sb s' = k_sb s.
Proof. by intros [[c ->] _]. Qed.

Lemma sb_geom_ext s s' : k_sb s' = k_sb s → log_start (k_log s') = log_start (k_log s) →
  log_size (k_log s') = log_size (k_log s) → sb_geom s → sb_geom s'.
Proof. intros H1 H2 H3 [? ? ? ? ?]. split; rewrite ?H1, ?H2, ?H3; done. Qed.

(** A directory in memory, and what the calls need to read it. *)
Record dir_ok (s : kst) (dp : nat) (i : inode) : Prop := {
  do_fs : fs_ok ∅ s;
  do_log : nlog s < NBUF;
  do_sb : sb_geom s;
  do_at : k_icache s !! dp = Some i;
  do_type : i_type i = T_DIR;
  do_file : file_ok s (view s) i;
  do_size : i_size i mod DIRENT_SIZE = 0
}.

Lemma dir_ok_eq s s' dp i : fs_eq s s' → fs_ok ∅ s' → dir_ok s dp i → dir_ok s' dp i.
Proof.
  intros He Hok [? ? ? ? ? ? ?]. pose proof (fs_eq_sb _ _ He) as Hsb. split; try done.
  - by rewrite (fs_eq_nlog _ _ He).
  - destruct He as [[c ->] _]. by apply (sb_geom_ext s).
  - by rewrite (fs_eq_icache _ _ He).
  - eapply file_ok_ext; [apply He|done|done].
Qed.

Section lookup.
Context (devread : Z → option (nat → Z → KM (Z * list Z))) (dp : nat) (i : inode) (c : list Z) (name : list Z).

Lemma dir_size s : dir_ok s dp i → content (view s) i = c →
  i_size i = 16 * Z.of_nat (length c / 16) ∧ length c = (16 * (length c / 16))%nat ∧ 0 ≤ i_size i < 2 ^ 30.
Proof.
  intros Hd <-. pose proof (f_size _ _ _ (do_file _ _ _ Hd)) as Hsz. pose proof (do_size _ _ _ Hd) as Hm.
  change DIRENT_SIZE with 16 in Hm. assert (MAXFILE * BSIZE < 2 ^ 30) by done.
  unfold content. rewrite length_fbytes. pose proof (Z.div_mod (i_size i) 16 ltac:(lia)).
  rewrite <- (Z2Nat.id 16) in Hm by lia.
  assert (Z.of_nat (Z.to_nat (i_size i) / 16) = i_size i / 16) as E.
  { rewrite Nat2Z.inj_div, Z2Nat.id by lia. done. }
  change (Z.of_nat (Z.to_nat 16)) with 16 in Hm. lia.
Qed.

(** Reading entry [k]. *)
Lemma wp_read_dirent s k Q :
  dir_ok s dp i → content (view s) i = c → (k < length c / 16)%nat →
  (∀ s', fs_eq s s' → dir_ok s' dp i → Q (16, slice (16 * k) 16 c) s') →
  wp (readi devread dp (16 * Z.of_nat k) DIRENT_SIZE) Q s.
Proof.
  intros Hd Hc Hk HQ. destruct (dir_size s Hd Hc) as (Hs1 & Hs2 & Hs3). pose proof (do_type _ _ _ Hd) as Ht.
  eapply wp_readi; [apply Hd|apply Hd|apply Hd|apply Hd|apply Hd|by rewrite Ht|lia|done|change DIRENT_SIZE with 16; lia|].
  intros s' He Hok. rewrite Hc. change DIRENT_SIZE with 16. replace (16 `min` (i_size i - 16 * Z.of_nat k)) with 16 by lia.
  replace (Z.to_nat (16 * Z.of_nat k)) with (16 * k)%nat by lia. apply HQ; [done|by eapply dir_ok_eq].
Qed.

Lemma dirlookup_loop_run fuel : ∀ k s,
  dir_ok s dp i → content (view s) i = c → (k ≤ length c / 16)%nat → (length c / 16 - k < fuel)%nat →
  ∃ s', fs_eq s s' ∧ dir_ok s' dp i ∧
    dirlookup_loop devread fuel dp name (16 * Z.of_nat k) s =
      match list_find (matches name) (drop k (dents c)) with
      | Some (j, de) => (ip ← iget ROOTDEV (de_inum de); mret (Some (ip, 16 * Z.of_nat (k + j)))) s'
      | None => Ok None s'
      end.
Proof.
  induction fuel as [|fuel IH]; intros k s Hd Hc Hk Hf; [lia|].
  destruct (dir_size s Hd Hc) as (Hs1 & Hs2 & Hs3).
  cbn [dirlookup_loop]. unfold inode_at at 1. erewrite mbind_Ok; [|by erewrite mbind_Ok; [rewrite (do_at _ _ _ Hd)|]].
  destruct (Z.ltb_spec (16 * Z.of_nat k) (i_size i)) as [Hlt|Hge].
  2: { exists s. split_and!; [apply fs_eq_refl|done|]. rewrite drop_ge by (rewrite length_dents; lia). done. }
  assert (wp (readi devread dp (16 * Z.of_nat k) DIRENT_SIZE)
    (λ r s', r = (16, slice (16 * k) 16 c) ∧ fs_eq s s' ∧ dir_ok s' dp i) s) as Hw.
  { apply wp_read_dirent; [done|done|lia|]. auto. }
  apply wp_run in Hw as (r & s1 & Hr & -> & He1 & Hd1). rewrite (mbind_Ok _ _ _ _ _ Hr). cbn [fst snd].
  change (negb (16 =? DIRENT_SIZE)) with false. cbv iota. fold (dent c k).
  rewrite drop_dents by lia. cbn [list_find].
  assert (content (view s1) i = c) as Hc1 by (rewrite <- Hc; apply content_ext; apply He1).
  assert (∃ s', fs_eq s s' ∧ dir_ok s' dp i ∧
    dirlookup_loop devread fuel dp name (u32 (16 * Z.of_nat k + DIRENT_SIZE)) s1 =
      match prod_map S id <$> list_find (matches name) (drop (S k) (dents c)) with
      | Some (j, de) => (ip ← iget ROOTDEV (de_inum de); mret (Some (ip, 16 * Z.of_nat (k + j)))) s'
      | None => Ok None s'
      end) as Hnext.
  { destruct (IH (S k) s1 Hd1 Hc1) as (s2 & He2 & Hd2 & Hrun); [lia|lia|]. exists s2.
    split_and!; [by eapply fs_eq_trans|done|]. change DIRENT_SIZE with 16. rewrite u32_small by lia.
    replace (16 * Z.of_nat k + 16) with (16 * Z.of_nat (S k)) by lia. rewrite Hrun.
    destruct (list_find _ _) as [[j de]|]; [|done]. cbn [fmap option_fmap option_map prod_map fst snd id].
    by replace (k + S j)%nat with (S k + j)%nat by lia. }
  rewrite (f_dev _ _ _ (do_file _ _ _ Hd)). destruct (Z.eqb_spec (de_inum (dent c k)) 0) as [Hz|Hz].
  { rewrite (decide_False (P := matches name (dent c k))); [exact Hnext|]. by intros [? _]. }
  destruct (Z.eqb_spec (namecmp name (de_name (dent c k))) 0) as [Hn|Hn].
  - apply namecmp_eq in Hn. rewrite (decide_True (P := matches name (dent c k))) by done.
    exists s1. split_and!; [done|done|]. by rewrite Nat.add_0_r.
  - rewrite (decide_False (P := matches name (dent c k))); [exact Hnext|]. intros [_ E]. apply Hn. by apply namecmp_eq.
Qed.

(** [dirlookup] is [iget] of the inode of the first entry with the name. *)
Lemma dirlookup_run s :
  dir_ok s dp i → content (view s) i = c →
  ∃ s', fs_eq s s' ∧ dir_ok s' dp i ∧
    dirlookup devread dp name s =
      match dfind c name with
      | Some (k, de) => (ip ← iget ROOTDEV (de_inum de); mret (Some (ip, 16 * Z.of_nat k))) s'
      | None => Ok None s'
      end.
Proof.
  intros Hd Hc. destruct (dir_size s Hd Hc) as (Hs1 & Hs2 & Hs3).
  unfold dirlookup, inode_at at 1. erewrite mbind_Ok; [|by erewrite mbind_Ok; [rewrite (do_at _ _ _ Hd)|]].
  rewrite (do_type _ _ _ Hd). change (negb (T_DIR =? T_DIR)) with false. cbv iota.
  apply (dirlookup_loop_run _ 0%nat); [done|done|lia|]. change DIRENT_SIZE with 16.
  rewrite Hs1. rewrite Z.mul_comm, Z.div_mul by done. lia.
Qed.
End lookup.

(** ** Adding an entry *)

(** The first entry that is not in use, or the end. *)
Definition dfree (c : list Z) : nat :=
  match list_find (λ de, de_inum de = 0) (dents c) with Some (k, _) => k | None => length c / 16 end.

Lemma dirlink_loop_run devread dp i c fuel : ∀ k s,
  dir_ok s dp i → content (view s) i = c → (k ≤ length c / 16)%nat → (length c / 16 - k < fuel)%nat →
  ∃ s', fs_eq s s' ∧ dir_ok s' dp i ∧
    dirlink_loop devread fuel dp (16 * Z.of_nat k) s =
      Ok (16 * Z.of_nat match list_find (λ de, de_inum de = 0) (drop k (dents c)) with
                        | Some (j, _) => k + j | None => length c / 16 end) s'.
Proof.
  induction fuel as [|fuel IH]; intros k s Hd Hc Hk Hf; [lia|].
  destruct (dir_size dp i c s Hd Hc) as (Hs1 & Hs2 & Hs3).
  cbn [dirlink_loop]. unfold inode_at at 1. erewrite mbind_Ok; [|by erewrite mbind_Ok; [rewrite (do_at _ _ _ Hd)|]].
  rewrite u32_small by lia. destruct (Z.ltb_spec (16 * Z.of_nat k) (i_size i)) as [Hlt|Hge].
  2: { exists s. split_and!; [apply fs_eq_refl|done|]. rewrite drop_ge by (rewrite length_dents; lia).
       cbn [list_find]. do 3 f_equal. lia. }
  assert (wp (readi devread dp (16 * Z.of_nat k) DIRENT_SIZE)
    (λ r s', r = (16, slice (16 * k) 16 c) ∧ fs_eq s s' ∧ dir_ok s' dp i) s) as Hw.
  { eapply wp_read_dirent; [done|done|lia|]. auto. }
  apply wp_run in Hw as (r & s1 & Hr & -> & He1 & Hd1). rewrite (mbind_Ok _ _ _ _ _ Hr). cbn [fst snd].
  change (negb (16 =? DIRENT_SIZE)) with false. cbv iota. fold (dent c k).
  rewrite drop_dents by lia. cbn [list_find].
  assert (content (view s1) i = c) as Hc1 by (rewrite <- Hc; apply content_ext; apply He1).
  destruct (Z.eqb_spec (de_inum (dent c k)) 0) as [Hz|Hz].
  - rewrite (decide_True (P := de_inum (dent c k) = 0)) by done. exists s1. by rewrite Nat.add_0_r.
  - rewrite (decide_False (P := de_inum (dent c k) = 0)) by done.
    destruct (IH (S k) s1 Hd1 Hc1) as (s2 & He2 & Hd2 & Hrun); [lia|lia|]. exists s2.
    split_and!; [by eapply fs_eq_trans|done|]. change DIRENT_SIZE with 16.
    replace (16 * Z.of_nat k + 16) with (16 * Z.of_nat (S k)) by lia. rewrite Hrun.
    destruct (list_find _ _) as [[j de]|]; [|done]. cbn [fmap option_fmap option_map prod_map fst snd id].
    do 3 f_equal. lia.
Qed.

(** *** The encoding of an entry *)

Lemma dirent_get_put inum name :
  0 ≤ inum < 2 ^ 16 → length name = 14%nat → dirent_get (dirent_put (Dirent inum name)) = Dirent inum name.
Proof.
  intros Hi Hn. unfold dirent_get, dirent_put, get_u16. cbn [de_inum de_name]. f_equal.
  - unfold slice. rewrite drop_0, take_app_length' by (by rewrite length_le_enc).
    rewrite le_dec_enc. change (256 ^ Z.of_nat 2) with (2 ^ 16). by apply Z.mod_small.
  - unfold slice. rewrite drop_app_length' by (by rewrite length_le_enc). rewrite take_ge by lia. done.
Qed.

Lemma length_dirent_put inum name : length name = 14%nat → length (dirent_put (Dirent inum name)) = 16%nat.
Proof. intros Hn. unfold dirent_put. rewrite length_app, length_le_enc. simpl. lia. Qed.

Lemma dirent_put_bytes inum name : Forall byte_ok name → Forall byte_ok (dirent_put (Dirent inum name)).
Proof. intros Hn. unfold dirent_put. apply Forall_app. split; [apply le_enc_bytes|done]. Qed.

(** *** The list of entries after a store *)

Section store.
Context (c bs : list Z) (k : nat) (Hc : length c = (16 * (length c / 16))%nat) (Hk : (k ≤ length c / 16)%nat)
        (Hbs : length bs = 16%nat).

Definition stored_dir : list Z := take (16 * k) c ++ bs ++ drop (16 * k + 16) c.

Lemma length_stored_dir : length stored_dir = (16 * Nat.max (length c / 16) (S k))%nat.
Proof. unfold stored_dir. rewrite !length_app, length_take, length_drop, Hbs. lia. Qed.

Lemma length_dents_stored : length (dents stored_dir) = Nat.max (length c / 16) (S k).
Proof. rewrite length_dents, length_stored_dir. rewrite Nat.mul_comm. by apply Nat.div_mul. Qed.

Lemma dent_stored_eq : dent stored_dir k = dirent_get bs.
Proof.
  unfold dent, stored_dir, slice. rewrite drop_app_length' by (rewrite length_take; lia).
  by rewrite take_app_length' by lia.
Qed.

Lemma dent_stored_ne j : j ≠ k → (j < length c / 16)%nat → dent stored_dir j = dent c j.
Proof.
  intros Hj Hlt. unfold dent. f_equal. apply list_eq. intros x. rewrite !lookup_slice. case_decide; [|done].
  unfold stored_dir. destruct (decide (j < k)%nat).
  - rewrite lookup_app_l by (rewrite length_take; lia). by rewrite lookup_take_lt by lia.
  - rewrite lookup_app_r by (rewrite length_take; lia). rewrite length_take.
    rewrite lookup_app_r by lia. rewrite lookup_drop. f_equal. lia.
Qed.

Lemma dents_stored_lookup j y :
  dents stored_dir !! j = Some y ↔ (j = k ∧ y = dirent_get bs) ∨ (j ≠ k ∧ dents c !! j = Some y).
Proof.
  split.
  - intros Hl. pose proof (lookup_lt_Some _ _ _ Hl) as Hlt. rewrite length_dents_stored in Hlt.
    rewrite lookup_dents in Hl by (rewrite <- length_dents, length_dents_stored; lia). injection Hl as <-.
    destruct (decide (j = k)) as [->|Hj]; [left; split; [done|apply dent_stored_eq]|right].
    split; [done|]. rewrite dent_stored_ne by lia. apply lookup_dents. lia.
  - intros [[-> ->]|[Hj Hl]].
    + rewrite lookup_dents by (rewrite <- length_dents, length_dents_stored; lia). by rewrite dent_stored_eq.
    + pose proof (lookup_lt_Some _ _ _ Hl) as Hlt. rewrite length_dents in Hlt.
      rewrite lookup_dents in Hl by done. injection Hl as <-.
      rewrite lookup_dents by (rewrite <- length_dents, length_dents_stored; lia). by rewrite dent_stored_ne.
Qed.

Lemma dfind_stored name :
  dfind c name = None → matches name (dirent_get bs) → dfind stored_dir name = Some (k, dirent_get bs).
Proof.
  intros Hn Hm. apply list_find_None in Hn. rewrite Forall_lookup in Hn. apply list_find_Some. split_and!.
  - apply dents_stored_lookup. by left.
  - done.
  - intros j y [[-> _]|[_ Hl]]%dents_stored_lookup; [lia|]. intros _. by eapply Hn.
Qed.

Lemma dfind_stored_other name :
  ¬ matches name (dirent_get bs) → (∀ y, dents c !! k = Some y → de_inum y = 0) →
  dfind stored_dir name = dfind c name.
Proof.
  intros Hm Hfree. unfold dfind at 2. destruct (list_find (matches name) (dents c)) as [[j y]|] eqn:E.
  - apply list_find_Some in E as (Hl & Hy & Hmin). apply list_find_Some. split_and!; [|done|].
    + apply dents_stored_lookup. right. split; [|done]. intros ->. destruct Hy as [Hy _]. by rewrite (Hfree _ Hl) in Hy.
    + intros j' y' [[-> ->]|[_ Hl']]%dents_stored_lookup; [done|]. by eapply Hmin.
  - apply list_find_None in E. rewrite Forall_lookup in E. apply list_find_None, Forall_lookup.
    intros j y [[-> ->]|[_ Hl']]%dents_stored_lookup; [done|]. by eapply E.
Qed.
End store.

Lemma dfree_spec c :
  (dfree c ≤ length c / 16)%nat ∧ ∀ y, dents c !! dfree c = Some y → de_inum y = 0.
Proof.
  unfold dfree. destruct (list_find _ (dents c)) as [[k y]|] eqn:E.
  - apply list_find_Some in E as (Hl & Hy & _). pose proof (lookup_lt_Some _ _ _ Hl) as Hlt. rewrite length_dents in Hlt.
    split; [lia|]. intros y' Hy'. by simplify_eq.
  - split; [done|]. intros y Hy. apply lookup_lt_Some in Hy. rewrite length_dents in Hy. lia.
Qed.

(** ** Guarantees *)

(** [dirlookup] of a directory is the search of its entries for the first
    one that is in use and has the name, compared as C strings of at most
    DIRSIZ bytes: it returns [iget] of that entry's inode and the entry's
    offset, or null if there is none. It always returns to that point and
    changes nothing but the buffer cache. *)
Theorem dirlookup_search devread s dp i name :
  dir_ok s dp i →
  ∃ s', fs_eq s s' ∧
    dirlookup devread dp name s =
      match dfind (content (view s) i) name with
      | Some (k, de) => (ip ← iget ROOTDEV (de_inum de); mret (Some (ip, 16 * Z.of_nat k))) s'
      | None => Ok None s'
      end.
Proof.
  intros Hd. destruct (dirlookup_run devread dp i _ name s Hd eq_refl) as (s' & He & _ & Hrun). eauto.
Qed.

(** What writing an entry into the directory needs. *)
Record dir_tx (s : kst) (dp : nat) (i : inode) : Prop := {
  dt_ok : dir_ok s dp i;
  dt_tx : in_tx s MAXOPBLOCKS;
  dt_meta : meta_used s (view s);
  dt_inum : inum_ok s (i_inum i);
  dt_sync : synced s (view s) i;
  dt_dinode : dinode_ok (dinode_of i);
  dt_room : i_size i + DIRENT_SIZE ≤ MAXFILE * BSIZE;
  dt_free : 3 ≤ nfree s (view s)
}.

Lemma turns_dirent k : turns (16 * Z.of_nat k) 16 = 1.
Proof.
  unfold turns. change BSIZE with 512. replace ((16 * Z.of_nat k) mod 512) with (16 * (Z.of_nat k mod 32))
    by (rewrite <- Z.mul_mod_distr_l by lia; done).
  pose proof (Z.mod_pos_bound (Z.of_nat k) 32 ltac:(lia)). symmetry.
  apply (Z.div_unique _ _ _ (16 * (Z.of_nat k mod 32) + 16 + (512 - 1) - 512)); lia.
Qed.

Lemma dirlink_none_run devread devwrite s dp i name inum :
  let c := content (view s) i in
  let de := Dirent inum (strncpy name 14) in
  dir_tx s dp i → Forall byte_ok name → dfind c name = None →
  ∃ s' v' i', dirlink devread devwrite dp name inum s = Ok 0 s' ∧ (∀ k, view s' k = v' k) ∧
    k_icache s' = <[dp := i']> (k_icache s) ∧ fs_ok ∅ s' ∧ nlog s' ≤ nlog s + MAXOPBLOCKS ∧
    k_sb s' = k_sb s ∧ log_start (k_log s') = log_start (k_log s) ∧ log_size (k_log s') = log_size (k_log s) ∧
    writei_done s (view s) i (16 * Z.of_nat (dfree c)) (dirent_put de) v' i'.
Proof.
  intros c de Ht Hname Hnone. destruct Ht as [Hd Htx Hmeta Hin Hsync Hdi Hroom Hnf].
  destruct (dir_size dp i c s Hd eq_refl) as (Hs1 & Hs2 & Hs3). destruct (dfree_spec c) as [Hk _].
  unfold dirlink. destruct (dirlookup_run devread dp i c name s Hd eq_refl) as (s1 & He1 & Hd1 & Hrun1).
  rewrite Hnone in Hrun1. rewrite (mbind_Ok _ _ _ _ _ Hrun1).
  unfold inode_at at 1. erewrite mbind_Ok; [|by erewrite mbind_Ok; [rewrite (do_at _ _ _ Hd1)|]].
  assert (content (view s1) i = c) as Hc1 by (apply content_ext; apply He1).
  assert (0 < i_size i / DIRENT_SIZE + 2) by (pose proof (Z.div_pos (i_size i) DIRENT_SIZE ltac:(lia) ltac:(done)); lia).
  assert (i_size i / DIRENT_SIZE = Z.of_nat (length c / 16)) as Hdiv.
  { change DIRENT_SIZE with 16. rewrite Hs1, Z.mul_comm, Z.div_mul by done. done. }
  destruct (dirlink_loop_run devread dp i c (Z.to_nat (i_size i / DIRENT_SIZE + 2)) 0 s1 Hd1 Hc1) as (s2 & He2 & Hd2 & Hrun2);
    [lia|lia|]. rewrite Z.mul_0_r in Hrun2. rewrite (mbind_Ok _ _ _ _ _ Hrun2). rewrite drop_0. cbn [Nat.add].
  fold (dfree c). change (match list_find _ (dents c) with Some (j, _) => j | None => _ end) with (dfree c).
  rewrite u32_small by lia. change DIRENT_SIZE with 16 in *.
  assert (length (dirent_put de) = 16%nat) as Hlen by (apply length_dirent_put, length_strncpy).
  assert (op s MAXOPBLOCKS [] ∅ s2) as Ho.
  { eapply op_fs_eq; [by apply op_start; [apply Hd|done|]|by eapply fs_eq_trans|apply Hd2]. }
  enough (wp (writei devwrite dp (dirent_put de) (16 * Z.of_nat (dfree c)) 16) (λ r s', r = 16 ∧ ∃ ws i',
    op s MAXOPBLOCKS ws ∅ s' ∧ k_icache s' = <[dp := i']> (k_icache s) ∧
    writei_done s (view s) i (16 * Z.of_nat (dfree c)) (dirent_put de) (wview ws (view s)) i') s2) as Hw.
  { apply wp_run in Hw as (r & s' & Hr & -> & ws & i' & Ho' & Hic & Hdone). exists s', (wview ws (view s)), i'.
    rewrite (mbind_Ok _ _ _ _ _ Hr). pose proof (op_rest _ _ _ _ _ Ho') as Hrest. injection Hrest as ? ? ? ? ? ? ? ? ? ? ?.
    split_and!; [done| |done|apply Ho'| |done|done|done|done].
    - intros k. by eapply op_view.
    - pose proof (op_nlog _ _ _ _ _ Ho'). pose proof (op_used _ _ _ _ _ Ho'). lia. }
  pose proof (cost_nil s i) as Hcost. pose proof (turns_dirent (dfree c)) as Hturns.
  match goal with |- wp _ ?Q _ => pose proof (wp_writei devwrite s MAXOPBLOCKS [] dp i (dirent_put de) (16 * Z.of_nat (dfree c)) Q s2) as Hw end.
  cbv zeta in Hw. rewrite Hlen in Hw. change (Z.of_nat 16) with 16 in Hw. rewrite Hturns in Hw.
  apply Hw; try done; try lia.
  - apply Hd.
  - apply Hd.
  - apply Hd2.
  - by rewrite (do_type _ _ _ Hd).
  - apply Hd.
  - by apply dirent_put_bytes, strncpy_bytes.
  - klia.
  - intros s' ws' i' Ho' Hic Hdone _. split; [done|]. exists ws', i'. split_and!; [done| |done].
    rewrite Hic, (fs_eq_icache _ _ He2), (fs_eq_icache _ _ He1). done.
Qed.


(** The root directory of the demo image. *)
Lemma demo_dir_ok : dir_ok demo_fs 0 demo_root_inode.
Proof.
  split; [apply demo_fs_ok|done|apply demo_geom|done|done|apply demo_root_ok|done].
Qed.

Lemma demo_dir_tx : dir_tx demo_fs 0 demo_root_inode.
Proof.
  split.
  - apply demo_dir_ok.
  - apply demo_in_tx.
  - apply demo_meta_used.
  - by split.
  - by vm_compute.
  - unfold dinode_ok. split_and!; first [reflexivity|discriminate|repeat constructor; discriminate].
  - done.
  - by vm_compute.
Qed.

(** Looking up ".." and linking "a". *)
Lemma dirlookup_search_witness :
  ∃ s', fs_eq demo_fs s' ∧
    dirlookup (λ _, None) 0 [46; 46] demo_fs = (ip ← iget ROOTDEV 1; mret (Some (ip, 16))) s'.
Proof.
  pose proof (dirlookup_search (λ _, None) demo_fs 0 demo_root_inode [46; 46] demo_dir_ok) as H.
  assert (dfind (content (view demo_fs) demo_root_inode) [46; 46] = Some (1%nat, Dirent 1 (46 :: 46 :: replicate 12 0))) as E
    by (vm_compute; reflexivity).
  rewrite E in H. exact H.
Defined.

