(* ===== verification/Path.v ===== *)
(** * Path: path names

    [skipelem] of fs.c takes one element off a path; [namex] walks a path with
    it. The reference here splits the path at the slashes first: its elements
    are the non-empty pieces between slashes. *)

From S2P Require Import Prelude State Bio Log Fs.

(** The elements of a path, [e] being the one under construction. *)
Fixpoint elems_acc (e path : list Z) : list (list Z) :=
  match path with
  | [] => if bool_decide (e = []) then [] else [e]
  | c :: path =>
      if c =? SLASH then if bool_decide (e = []) then elems_acc [] path else e :: elems_acc [] path
      else elems_acc (e ++ [c]) path
  end.
Definition elems (path : list Z) : list (list Z) := elems_acc [] path.

Lemma elems_skip_slashes p : elems (skip_slashes p) = elems p.
Proof.
  induction p as [|c p IH]; [done|]. cbn [skip_slashes]. unfold elems in *. cbn [elems_acc].
  destruct (c =? SLASH) eqn:E; [done|]. cbn [elems_acc]. by rewrite E.
Qed.

Lemma skip_slashes_head p c q : skip_slashes p = c :: q → c ≠ SLASH.
Proof.
  induction p as [|c' p IH]; [done|]. cbn [skip_slashes]. destruct (Z.eqb_spec c' SLASH); [done|]. by intros [= <- _].
Qed.

Lemma skip_slashes_length p : (length (skip_slashes p) ≤ length p)%nat.
Proof. induction p as [|c p IH]; [done|]. cbn [skip_slashes]. destruct (c =? SLASH); simpl; lia. Qed.

Lemma take_elem_spec p : ∀ a e r,
  take_elem p = (e, r) →
  length p = (length e + length r)%nat ∧
  elems_acc a p = if bool_decide (a ++ e = []) then elems r else (a ++ e) :: elems r.
Proof.
  induction p as [|c p IH]; intros a e r; cbn [take_elem elems_acc].
  - intros [= <- <-]. by rewrite app_nil_r.
  - destruct (c =? SLASH) eqn:E.
    + intros [= <- <-]. rewrite app_nil_r. unfold elems. cbn [elems_acc]. by rewrite E.
    + destruct (take_elem p) as [e' r'] eqn:Et. intros [= <- <-].
      destruct (IH (a ++ [c]) e' r' eq_refl) as [Hl ->]. rewrite <- app_assoc. simpl. split; [lia|done].
Qed.

(** The name array after an element has been copied into it. *)
Definition set_name (e name : list Z) : list Z :=
  if DIRSIZ <=? Z.of_nat (length e) then splice 0 (take (Z.to_nat DIRSIZ) e) name
  else <[length e := 0]> (splice 0 e name).

(** [skipelem] takes off the first element. *)
Lemma skipelem_spec path name :
  match skipelem path name with
  | None => elems path = []
  | Some (path', name') => ∃ e, elems path = e :: elems path' ∧ name' = set_name e name ∧
      (length path' < length path)%nat ∧ (path' = [] ↔ elems path' = [])
  end.
Proof.
  unfold skipelem. rewrite <- elems_skip_slashes. pose proof (skip_slashes_length path) as Hl.
  destruct (skip_slashes path) as [|c p] eqn:E; [done|].
  pose proof (skip_slashes_head _ _ _ E) as Hc. destruct (take_elem (c :: p)) as [e r] eqn:Et.
  destruct (take_elem_spec (c :: p) [] e r Et) as [Hlen He].
  assert (e ≠ []) as Hne.
  { cbn [take_elem] in Et. rewrite (proj2 (Z.eqb_neq _ _) Hc) in Et. destruct (take_elem p). by injection Et as <- _. }
  unfold elems at 1. rewrite He. cbn [app]. rewrite bool_decide_eq_false_2 by done.
  exists e. rewrite elems_skip_slashes. split_and!; [done| | |].
  - unfold set_name. by rewrite Nat2Z.id.
  - pose proof (skip_slashes_length r). assert (0 < length e)%nat by (destruct e; simpl; [done|lia]). lia.
  - rewrite <- elems_skip_slashes. destruct (skip_slashes r) as [|c' r'] eqn:E'; [done|].
    split; [done|]. intros Hel. pose proof (skip_slashes_head _ _ _ E') as Hc'. exfalso. revert Hel.
    unfold elems. cbn [elems_acc app]. rewrite (proj2 (Z.eqb_neq _ _) Hc').
    destruct (take_elem r') as [e2 r2] eqn:E2. destruct (take_elem_spec r' [c'] e2 r2 E2) as [_ ->]. done.
Qed.

(** The name that a lookup sees: the element, cut at DIRSIZ bytes. *)
Lemma set_name_prefix e name :
  length name = 14%nat → take (length e) (set_name e name) = take 14 e ∧
  (length e < 14 → set_name e name !! length e = Some 0%Z)%nat ∧ length (set_name e name) = 14%nat.
Proof.
  intros Hn. unfold set_name. change DIRSIZ with 14. change (Z.to_nat 14) with 14%nat.
  destruct (Z.leb_spec 14 (Z.of_nat (length e))) as [Hle|Hlt].
  - assert (splice 0 (take 14 e) name = take 14 e) as ->.
    { unfold splice. rewrite take_0, length_take, Nat.min_l by lia. simpl. by rewrite drop_ge, app_nil_r by lia. }
    rewrite take_take, Nat.min_r by lia. rewrite length_take. split_and!; [done|lia|lia].
  - assert (splice 0 e name = e ++ drop (length e) name) as -> by done.
    rewrite (take_ge e) by lia. rewrite length_insert, length_app, length_drop. split_and!; [|intros _|lia].
    + rewrite take_insert_ge by lia. by rewrite take_app_length.
    + apply list_lookup_insert_eq. rewrite length_app, length_drop. lia.
Qed.

(** ** The walk *)

Section walk.
Context (devread : Z → option (nat → Z → KM (Z * list Z))).

(** The loop of [namex], over the elements. *)
Fixpoint walk (es : list (list Z)) (ip : nat) (nameiparent : bool) (name : list Z) : KM (option nat * list Z) :=
  match es with
  | [] => if nameiparent then iput ip ;; mret (None, name) else mret (Some ip, name)
  | e :: es =>
      let name := set_name e name in
      ilock ip ;;
      i ← inode_at ip;
      if negb (i_type i =? T_DIR) then iunlockput ip ;; mret (None, name) else
      if nameiparent && bool_decide (es = []) then iunlock ip ;; mret (Some ip, name)
      else
        next ← dirlookup devread ip name;
        match next with
        | None => iunlockput ip ;; mret (None, name)
        | Some (next, _) => iunlockput ip ;; walk es next nameiparent name
        end
  end.

Lemma K_bind_ext {A B} (m : KM A) (k k' : A → KM B) s : (∀ a s, k a s = k' a s) → (m ≫= k) s = (m ≫= k') s.
Proof. intros H. unfold mbind, K_bind. by destruct (m s). Qed.

Lemma namex_loop_walk fuel : ∀ ip path parent name s,
  (length path < fuel)%nat →
  namex_loop devread fuel ip path parent name s = walk (elems path) ip parent name s.
Proof.
  induction fuel as [|fuel IH]; intros ip path parent name s Hf; [lia|]. cbn [namex_loop].
  pose proof (skipelem_spec path name) as Hsk. destruct (skipelem path name) as [[path' name']|]; [|by rewrite Hsk].
  destruct Hsk as (e & -> & -> & Hlen & Hnil). cbn [walk].
  apply K_bind_ext. intros _ s1. apply K_bind_ext. intros i s2. destruct (negb _); [done|].
  rewrite (bool_decide_ext _ _ Hnil). destruct (parent && _); [done|].
  apply K_bind_ext. intros [[next off]|] s3; [|done]. apply K_bind_ext. intros _ s4. apply IH. lia.
Qed.
End walk.

(** C32 Path names. [namex] is the walk over the elements of the path, the
    non-empty pieces between its slashes: from the root directory for a path
    that starts with a slash and from the current directory otherwise, each
    element but the last being looked up in a locked directory, and the name
    array holding the last element seen. The loop that cuts the path character
    by character always comes to an end. *)
Theorem namex_walk devread cwd path parent name s :
  namex devread cwd path parent name s =
    (ip ← (if decide (head path = Some SLASH) then iget ROOTDEV ROOTINO else idup cwd);
     walk devread (elems path) ip parent name) s.
Proof.
  unfold namex. assert ((sbyte path 0 =? SLASH) = bool_decide (head path = Some SLASH)) as ->.
  { destruct path as [|c path]; [done|]. unfold sbyte. simpl. destruct (Z.eqb_spec c SLASH) as [->|Hc].
    - by rewrite bool_decide_eq_true_2.
    - rewrite bool_decide_eq_false_2; [done|congruence]. }
  rewrite bool_decide_decide. destruct (decide _); apply K_bind_ext; intros ip s1; apply namex_loop_walk; lia.
Qed.

(** The elements of a path have no slash in them and are not empty, and a
    path put together from such elements with slashes in between is cut into
    the same elements; the copy in the name array is the element, cut at
    DIRSIZ bytes and otherwise ended by a NUL. *)
Theorem path_roundtrip es :
  Forall (λ e, e ≠ [] ∧ SLASH ∉ e) es →
  elems (es ≫= λ e, SLASH :: e) = es ∧
  ∀ e name, e ∈ es → length name = Z.to_nat DIRSIZ →
    skipelem e name = Some ([], set_name e name) ∧ take (length e) (set_name e name) = take (Z.to_nat DIRSIZ) e ∧
    (length e < Z.to_nat DIRSIZ → set_name e name !! length e = Some 0%Z)%nat.
Proof.
  assert (∀ e a, SLASH ∉ e → ∀ p, elems_acc a (e ++ p) = elems_acc (a ++ e) p) as Happ.
  { induction e as [|c e IH]; intros a Hs p; [by rewrite app_nil_r|]. apply not_elem_of_cons in Hs as [Hc Hs].
    cbn [app elems_acc]. rewrite (proj2 (Z.eqb_neq _ _)) by congruence. rewrite IH by done. by rewrite <- app_assoc. }
  assert (∀ e a, SLASH ∉ e → a ++ e ≠ [] → elems_acc a e = [a ++ e]) as Hone.
  { intros e a Hs Hne. rewrite <- (app_nil_r e) at 1. rewrite Happ by done. cbn [elems_acc].
    by rewrite bool_decide_eq_false_2. }
  intros Hes. split.
  - clear Hone. unfold elems. assert (∀ a, elems_acc a (es ≫= λ e, SLASH :: e) =
      if bool_decide (a = []) then es else a :: es) as H; [|by rewrite H].
    induction Hes as [|e es [Hne Hs] _ IH]; intros a; [done|]. rewrite bind_cons. cbn [app elems_acc Z.eqb].
    rewrite Z.eqb_refl, !Happ by done. cbn [app]. rewrite !IH. rewrite (bool_decide_eq_false_2 (e = [])) by done. done.
  - intros e name He Hn. rewrite Forall_forall in Hes. destruct (Hes e He) as [Hne Hs].
    destruct (set_name_prefix e name Hn) as (H1 & H2 & _). split_and!; [|done|done].
    assert (elems e = [e]) as Hel by (apply (Hone e []); done).
    pose proof (skipelem_spec e name) as Hsk. rewrite Hel in Hsk.
    destruct (skipelem e name) as [[p n]|]; [|done]. destruct Hsk as (e' & [= <- Hp] & -> & _ & Hnil).
    by rewrite (proj2 Hnil (eq_sym Hp)).
Qed.

(** "/usr/ls" *)
Lemma path_roundtrip_witness : elems [47; 117; 115; 114; 47; 108; 115] = [[117; 115; 114]; [108; 115]].
Proof.
  destruct (path_roundtrip [[117; 115; 114]; [108; 115]]) as [H _].
  - apply (bool_decide_unpack _). vm_compute. exact I.
  - exact H.
Defined.
