(* ===== verification/Pipe.v ===== *)
(** * Pipe: pipes (kernel/src/pipe.rs)

    The ring of a pipe and the loops of [pipewrite] and [piperead]. A call
    that has to wait ends with [WSleep] and the bytes it still has to write,
    or with [RSleep]; the process goes on from there when it is woken, and
    tests again. Counters are [usize] and wrap around, as in the release
    profile that xv6/Makefile builds; 512 divides 2^32, so the ring does not
    notice. The pipe's spin lock is taken and released inside one call.
    [pipe_fifo] is about every interleaving of the two ends. *)

From S2P Require Import Prelude.

Definition PIPESIZE : Z := 512.

Record pipe := Pipe {
  p_data : list Z;
  p_nread : Z;       (* number of bytes read *)
  p_nwrite : Z;      (* number of bytes written *)
  p_readopen : Z;    (* read fd is still open *)
  p_writeopen : Z    (* write fd is still open *)
}.

Abbreviation PM := (K pipe).

(** The page of the pipe as [pipealloc] leaves it; [data] is what was there. *)
Definition pipe_init (data : list Z) : pipe := Pipe data 0 0 1 1.

Definition put_byte (b : Z) : PM unit :=
  modify (λ p, Pipe (<[Z.to_nat (p_nwrite p mod PIPESIZE) := b]> (p_data p)) (p_nread p) (u32 (p_nwrite p + 1))
                 (p_readopen p) (p_writeopen p)).

Definition take_byte : PM Z :=
  p ← get;
  put (Pipe (p_data p) (u32 (p_nread p + 1)) (p_nwrite p) (p_readopen p) (p_writeopen p)) ;;
  mret (p_data p !!! Z.to_nat (p_nread p mod PIPESIZE)).

(** Why a writer stops: all written, -1, or asleep with bytes left. *)
Inductive wres := WDone | WErr | WSleep (rest : list Z).

(** [pipewrite] from byte [i] on; [src] is [addr[i..n]]. *)
Fixpoint pipewrite (killed : bool) (src : list Z) : PM wres :=
  match src with
  | [] => mret WDone
  | b :: src' =>
      p ← get;
      if p_nwrite p =? u32 (p_nread p + PIPESIZE) then
        if (p_readopen p =? 0) || killed then mret WErr else mret (WSleep src)
      else put_byte b ;; pipewrite killed src'
  end.

Inductive rres := RDone (bytes : list Z) | RErr | RSleep.

(** The copying loop of [piperead]. *)
Fixpoint piperead_loop (n : nat) : PM (list Z) :=
  match n with
  | O => mret []
  | S n =>
      p ← get;
      if p_nread p =? p_nwrite p then mret []
      else b ← take_byte; bs ← piperead_loop n; mret (b :: bs)
  end.

Definition piperead (killed : bool) (n : nat) : PM rres :=
  p ← get;
  if (p_nread p =? p_nwrite p) && negb (p_writeopen p =? 0) then
    if killed then mret RErr else mret RSleep
  else bs ← piperead_loop n; mret (RDone bs).

(** [pipeclose]: whether the page is to be freed. *)
Definition pipeclose (writable : bool) : PM bool :=
  p ← get;
  let p' := if writable then Pipe (p_data p) (p_nread p) (p_nwrite p) (p_readopen p) 0
            else Pipe (p_data p) (p_nread p) (p_nwrite p) 0 (p_writeopen p) in
  put p' ;;
  mret ((p_readopen p' =? 0) && (p_writeopen p' =? 0)).

(** ** The ring as a queue *)

(** The number of bytes in the ring. *)
Definition fill (p : pipe) : Z := u32 (p_nwrite p - p_nread p).

Definition queue (p : pipe) : list Z :=
  (λ i, p_data p !!! Z.to_nat ((p_nread p + i) mod PIPESIZE)) <$> seqZ 0 (fill p).

Record pipe_ok (p : pipe) : Prop := PipeOk {
  po_data : length (p_data p) = 512%nat;
  po_nread : 0 ≤ p_nread p < 2 ^ 32;
  po_nwrite : 0 ≤ p_nwrite p < 2 ^ 32;
  po_fill : fill p ≤ PIPESIZE
}.

Lemma fill_pos p : 0 ≤ fill p.
Proof. apply u32_range. Qed.
#[local] Hint Resolve fill_pos : core.

Lemma length_queue p : Z.of_nat (length (queue p)) = fill p.
Proof. unfold queue. rewrite length_fmap, length_seqZ. pose proof (fill_pos p). lia. Qed.

(** 2^32 is a multiple of the size of the ring. *)
Lemma u32_ring x : u32 x mod PIPESIZE = x mod PIPESIZE.
Proof. unfold u32. apply Z.mod_mod_divide. by exists (2 ^ 23). Qed.

(** The writer's counter is the reader's plus the bytes between. *)
Lemma nwrite_fill p : pipe_ok p → p_nwrite p = u32 (p_nread p + fill p).
Proof.
  intros [_ _ Hw _]. unfold fill, u32. rewrite Zplus_mod_idemp_r.
  replace (p_nread p + (p_nwrite p - p_nread p)) with (p_nwrite p) by lia. by rewrite Z.mod_small.
Qed.

Lemma ring_full p : pipe_ok p → p_nwrite p = u32 (p_nread p + PIPESIZE) ↔ fill p = PIPESIZE.
Proof.
  intros Hok. split; [|intros <-; by apply nwrite_fill].
  intros E. unfold fill. rewrite E. unfold u32. rewrite Zminus_mod_idemp_l.
  replace (p_nread p + PIPESIZE - p_nread p) with PIPESIZE by lia. done.
Qed.

Lemma ring_empty p : pipe_ok p → p_nread p = p_nwrite p ↔ fill p = 0.
Proof.
  intros Hok. split; intros E.
  - unfold fill. rewrite E, Z.sub_diag. done.
  - rewrite (nwrite_fill p Hok), E, Z.add_0_r, u32_small; [done|apply Hok].
Qed.

(** A byte goes to the end of the queue. *)
Lemma put_byte_queue p b :
  pipe_ok p → fill p < PIPESIZE →
  ∃ p', put_byte b p = Ok tt p' ∧ pipe_ok p' ∧ queue p' = queue p ++ [b] ∧ p_nread p' = p_nread p ∧
    p_nwrite p' = u32 (p_nwrite p + 1) ∧ p_readopen p' = p_readopen p ∧ p_writeopen p' = p_writeopen p.
Proof.
  intros Hok Hroom. pose proof (nwrite_fill p Hok) as Hnw. pose proof (fill_pos p) as H0. destruct Hok as [Hl Hr Hw Hf].
  pose proof (Z.mod_pos_bound (p_nwrite p) PIPESIZE ltac:(done)) as Hm.
  eexists. split; [done|]. set (p' := Pipe _ _ _ _ _).
  assert (Hfill : fill p' = fill p + 1).
  { unfold fill at 1. simpl. rewrite Hnw. unfold u32. rewrite Zplus_mod_idemp_l, Zminus_mod_idemp_l.
    replace (p_nread p + fill p + 1 - p_nread p) with (fill p + 1) by lia. apply Z.mod_small. unfold PIPESIZE in *. lia. }
  split; [constructor; [by simpl; rewrite length_insert|done|apply u32_range|lia]|]. split; [|done].
  unfold queue. rewrite Hfill, seqZ_app, fmap_app by lia. simpl p_data. simpl p_nread. f_equal.
  - apply list_fmap_ext. intros j i [-> Hj]%lookup_seqZ. rewrite list_lookup_total_insert_ne; [done|].
    rewrite Hnw, u32_ring. intros E. apply Z2Nat.inj in E; [|apply Z.mod_pos_bound; done..].
    pose proof (Z.div_mod (p_nread p + fill p) PIPESIZE ltac:(done)) as D1.
    pose proof (Z.div_mod (p_nread p + (0 + Z.of_nat j)) PIPESIZE ltac:(done)) as D2. rewrite <- E in D2.
    unfold PIPESIZE in *. lia.
  - rewrite Z.add_0_l. replace (seqZ (fill p) 1) with [fill p] by (unfold seqZ; simpl; f_equal; lia).
    simpl. rewrite Hnw, u32_ring. f_equal. rewrite list_lookup_total_insert_eq; [done|].
    pose proof (Z.mod_pos_bound (p_nread p + fill p) PIPESIZE ltac:(done)). unfold PIPESIZE in *. lia.
Qed.

(** A byte comes from the front. *)
Lemma take_byte_queue p :
  pipe_ok p → 0 < fill p →
  ∃ b p', take_byte p = Ok b p' ∧ pipe_ok p' ∧ queue p = b :: queue p' ∧
    p_nwrite p' = p_nwrite p ∧ p_readopen p' = p_readopen p ∧ p_writeopen p' = p_writeopen p.
Proof.
  intros Hok Hne. pose proof (nwrite_fill p Hok) as Hnw. destruct Hok as [Hl Hr Hw Hf].
  eexists _, _. split; [done|]. set (p' := Pipe _ _ _ _ _).
  assert (Hfill : fill p' = fill p - 1).
  { unfold fill at 1. simpl. rewrite Hnw. unfold u32. rewrite Zminus_mod_idemp_l, Zminus_mod_idemp_r.
    replace (p_nread p + fill p - (p_nread p + 1)) with (fill p - 1) by lia. apply Z.mod_small. unfold PIPESIZE in *. lia. }
  split; [constructor; [done|apply u32_range|done|lia]|]. split; [|done].
  unfold queue. rewrite Hfill, (seqZ_cons 0 (fill p)) by lia. rewrite fmap_cons, Z.add_0_r. f_equal.
  change (Z.succ 0) with (1 + 0). rewrite <- (fmap_add_seqZ 1 0 (Z.pred (fill p))), <- list_fmap_compose.
  replace (Z.pred (fill p)) with (fill p - 1) by lia. apply list_fmap_ext. intros j i _. unfold compose. simpl.
  rewrite <- (Zplus_mod_idemp_l (u32 _)), u32_ring, Zplus_mod_idemp_l. do 3 f_equal. lia.
Qed.

(** ** Runs of the two ends *)

Lemma pipewrite_queue killed src p :
  pipe_ok p →
  wp (pipewrite killed src) (λ r p', ∃ done rest, src = done ++ rest ∧ pipe_ok p' ∧ queue p' = queue p ++ done ∧
    p_nread p' = p_nread p ∧ p_readopen p' = p_readopen p ∧ p_writeopen p' = p_writeopen p ∧
    match r with
    | WDone => rest = []
    | WErr => fill p' = PIPESIZE ∧ (p_readopen p = 0 ∨ killed = true)
    | WSleep l => l = rest ∧ rest ≠ [] ∧ fill p' = PIPESIZE ∧ p_readopen p ≠ 0
    end) p.
Proof.
  revert p. induction src as [|b src IH]; intros p Hok.
  - apply wp_ret. exists [], []. rewrite (app_nil_r (queue p)). by split_and!.
  - cbn [pipewrite]. eapply wp_step; [done|].
    destruct (Z.eqb_spec (p_nwrite p) (u32 (p_nread p + PIPESIZE))) as [Hfull|Hfree].
    + apply ring_full in Hfull; [|done].
      destruct (Z.eqb_spec (p_readopen p) 0) as [Hc|Hc]; simpl; [|destruct killed]; apply wp_ret; exists [], (b :: src);
        rewrite (app_nil_r (queue p)); split_and!; auto.
    + rewrite ring_full in Hfree by done. pose proof (po_fill p Hok) as Hf.
      destruct (put_byte_queue p b Hok) as (p1 & E1 & Hok1 & Hq1 & Hr1 & Hw1 & Hro1 & Hwo1); [lia|].
      eapply wp_step; [exact E1|]. eapply wp_mono; [by apply IH|].
      intros r p' (dn & rest & -> & Hok' & Hq' & Hr' & Hro' & Hwo' & Hres). exists (b :: dn), rest.
      rewrite Hq', Hq1, <- app_assoc, <- Hro1. split_and!; try done; congruence.
Qed.

Lemma piperead_loop_queue n p :
  pipe_ok p →
  wp (piperead_loop n) (λ bs p', pipe_ok p' ∧ queue p = bs ++ queue p' ∧ length bs = (n `min` length (queue p))%nat ∧
    p_nwrite p' = p_nwrite p ∧ p_readopen p' = p_readopen p ∧ p_writeopen p' = p_writeopen p) p.
Proof.
  revert p. induction n as [|n IH]; intros p Hok; cbn [piperead_loop]; [by apply wp_ret|].
  eapply wp_step; [done|]. destruct (Z.eqb_spec (p_nread p) (p_nwrite p)) as [E|E].
  - apply ring_empty in E; [|done]. apply wp_ret.
    assert (queue p = []) as -> by (apply length_zero_iff_nil; pose proof (length_queue p); lia). by split_and!.
  - rewrite ring_empty in E by done. pose proof (fill_pos p).
    destruct (take_byte_queue p Hok) as (b & p1 & E1 & Hok1 & Hq1 & Hw1 & Hro1 & Hwo1); [lia|].
    eapply wp_step; [exact E1|]. apply wp_bind. eapply wp_mono; [by apply IH|].
    intros bs p' (Hok' & Hq' & Hlen & Hw' & Hro' & Hwo'). apply wp_ret.
    rewrite Hq1. split_and!; try done; try congruence; [by rewrite Hq'|cbn [length]; lia].
Qed.

(** ** Every interleaving *)

(** What a process does to a pipe between two times it sleeps or returns. *)
Inductive pevent :=
  | EvWrite (killed : bool) (src : list Z)
  | EvRead (killed : bool) (n : nat)
  | EvClose (writable : bool).

(** A pipe, the bytes the writers have put into it and the bytes the readers
    have got, in order. *)
Record pstate := PState { ps_pipe : pipe; ps_sent : list Z; ps_got : list Z }.

Definition on_pipe {A} (m : PM A) (k : A → pipe → pipe → K pstate unit) : K pstate unit := λ s,
  match m (ps_pipe s) with
  | Ok a p' => k a (ps_pipe s) p' (PState p' (ps_sent s) (ps_got s))
  | Fault f => Fault f
  end.

(** A writer's bytes have gone in when [nwrite] counts them. *)
Definition pipe_step (e : pevent) : K pstate unit :=
  match e with
  | EvWrite killed src => on_pipe (pipewrite killed src) (λ _ p p',
      modify (λ s, PState (ps_pipe s) (ps_sent s ++ take (Z.to_nat (u32 (p_nwrite p' - p_nwrite p))) src) (ps_got s)))
  | EvRead killed n => on_pipe (piperead killed n) (λ r _ _,
      match r with
      | RDone bs => modify (λ s, PState (ps_pipe s) (ps_sent s) (ps_got s ++ bs))
      | _ => mret tt
      end)
  | EvClose writable => on_pipe (pipeclose writable) (λ _ _ _, mret tt)
  end.

Definition fifo (s : pstate) : Prop :=
  pipe_ok (ps_pipe s) ∧ ps_sent s = ps_got s ++ queue (ps_pipe s).

Lemma pipe_step_fifo e s : fifo s → wp (pipe_step e) (λ _, fifo) s.
Proof.
  intros [Hok Hq]. destruct e as [killed src|killed n|w]; cbn [pipe_step]; unfold wp, on_pipe.
  - pose proof (pipewrite_queue killed src (ps_pipe s) Hok) as Hw. unfold wp in Hw.
    destruct (pipewrite killed src (ps_pipe s)) as [r p'|]; [|done].
    destruct Hw as (dn & rest & -> & Hok' & Hq' & Hr' & _). simpl.
    assert (u32 (p_nwrite p' - p_nwrite (ps_pipe s)) = Z.of_nat (length dn)) as ->.
    { pose proof (f_equal length Hq') as Hlen. rewrite length_app in Hlen.
      pose proof (length_queue p'). pose proof (length_queue (ps_pipe s)). pose proof (po_fill _ Hok') as Hf'.
      rewrite (nwrite_fill p'), (nwrite_fill (ps_pipe s)), Hr' by done. unfold u32.
      rewrite Zminus_mod_idemp_l, Zminus_mod_idemp_r.
      replace (_ - _) with (Z.of_nat (length dn)) by lia. apply Z.mod_small. unfold PIPESIZE in *. lia. }
    rewrite Nat2Z.id, take_app_length. split; [done|]. simpl. by rewrite Hq', Hq, app_assoc.
  - unfold piperead. erewrite mbind_Ok by done.
    destruct ((p_nread _ =? p_nwrite _) && _); [destruct killed; by split|].
    pose proof (piperead_loop_queue n (ps_pipe s) Hok) as Hw. unfold wp in Hw.
    unfold mbind, K_bind. destruct (piperead_loop n (ps_pipe s)) as [bs p'|]; [|done].
    destruct Hw as (Hok' & Hq' & _). split; [done|]. simpl. by rewrite <- app_assoc, <- Hq'.
  - unfold pipeclose. erewrite mbind_Ok by done. destruct Hok as [? ? ? ?].
    destruct w; cbv [mbind K_bind put mret K_ret]; simpl; (split; [by constructor|done]).
Qed.

(** C18 A pipe is a first-in first-out queue of at most 512 bytes: in every
    interleaving of writes, reads and closes, whatever the writers and
    readers ask for, wherever they sleep or are killed and however often the
    counters wrap around, no call faults, and the bytes that went in are the
    bytes that came out followed by the bytes in the ring, in order and
    without loss or duplication. *)
Theorem pipe_fifo data evs :
  length data = 512%nat →
  ∃ s, for_each evs pipe_step (PState (pipe_init data) [] []) = Ok tt s ∧
    ps_sent s = ps_got s ++ queue (ps_pipe s) ∧ (length (queue (ps_pipe s)) ≤ 512)%nat.
Proof.
  intros Hd.
  assert (Hgen : ∀ s, fifo s → wp (for_each evs pipe_step) (λ _, fifo) s).
  { induction evs as [|e evs IH]; intros s Hs; [by apply wp_ret|]. cbn [for_each]. apply wp_bind.
    eapply wp_mono; [by apply pipe_step_fifo|]. intros [] s' Hs'. by apply IH. }
  destruct (proj1 (wp_run _ _ _) (Hgen (PState (pipe_init data) [] []) ltac:(by split))) as ([] & s & E & [Hok Hq]).
  exists s. split_and!; [done..|]. pose proof (length_queue (ps_pipe s)). destruct Hok. unfold PIPESIZE in *. lia.
Qed.

Definition demo_events : list pevent := [EvWrite false (replicate 600 7); EvRead false 100; EvWrite false [1; 2]; EvClose true; EvRead false 1000].

Lemma pipe_fifo_witness :
  ∃ s, for_each demo_events pipe_step (PState (pipe_init (replicate 512 0)) [] []) = Ok tt s ∧
    ps_sent s = ps_got s ++ queue (ps_pipe s) ∧ (length (queue (ps_pipe s)) ≤ 512)%nat.
Proof. apply (pipe_fifo (replicate 512 0) demo_events); reflexivity. Defined.
