(* ===== verification/Proc.v ===== *)
(** * Proc: the process table (kernel/c/proc.c, proc.h)

    The table is a list of NPROC slots; a pointer to a process is its index.
    Operations run on a processor [c] on behalf of the process [cur], the result
    of [myproc()]. The table's lock has an owner: taking it twice on one
    processor is a failed assertion, taking it while another processor has it
    waits. The trap frame and the context that lie on the kernel stack are kept
    with the process, next to their addresses.

    The rest of the kernel that process management calls (pages, address
    spaces, open files, inodes) is the interface [Kern]: a state of its own and
    the operations of it. *)

From S2P Require Import Prelude State Kalloc Fs.

Definition KSTACKSIZE : Z := 4096.

(** ** Data *)

Inductive procstate := UNUSED | EMBRYO | SLEEPING | RUNNABLE | RUNNING | ZOMBIE.

#[global] Instance procstate_eq_dec : EqDecision procstate.
Proof. solve_decision. Defined.

(** A channel: a slot of the table ([wait] sleeps on its own process) or the
    address of another object. *)
Inductive channel := ChProc (i : nat) | ChObj (a : Z).

#[global] Instance channel_eq_dec : EqDecision channel.
Proof. solve_decision. Defined.

Record context := Context_ { ctx_edi : Z; ctx_esi : Z; ctx_ebx : Z; ctx_ebp : Z; ctx_eip : Z }.

Record trapframe := Trapframe {
  tf_edi : Z; tf_esi : Z; tf_ebp : Z; tf_oesp : Z; tf_ebx : Z; tf_edx : Z; tf_ecx : Z; tf_eax : Z;
  tf_gs : Z; tf_padding1 : Z; tf_fs : Z; tf_padding2 : Z; tf_es : Z; tf_padding3 : Z; tf_ds : Z; tf_padding4 : Z;
  tf_trapno : Z;
  tf_err : Z; tf_eip : Z; tf_cs : Z; tf_padding5 : Z; tf_eflags : Z;
  tf_esp : Z; tf_ss : Z; tf_padding6 : Z
}.

Definition sizeof_trapframe : Z := 8 * 4 + 8 * 2 + 4 + (4 + 4 + 2 + 2 + 4) + (4 + 2 + 2).
Definition sizeof_context : Z := 5 * 4.

(** [memset(p->tf, 0, sizeof *p->tf)] and [np->tf->eax = 0] *)
Definition tf_zero : trapframe := Trapframe 0 0 0 0 0 0 0 0 0 0 0 0 0 0 0 0 0 0 0 0 0 0 0 0 0.
Definition tf_clear_eax (t : trapframe) : trapframe :=
  Trapframe (tf_edi t) (tf_esi t) (tf_ebp t) (tf_oesp t) (tf_ebx t) (tf_edx t) (tf_ecx t) 0
    (tf_gs t) (tf_padding1 t) (tf_fs t) (tf_padding2 t) (tf_es t) (tf_padding3 t) (tf_ds t) (tf_padding4 t)
    (tf_trapno t) (tf_err t) (tf_eip t) (tf_cs t) (tf_padding5 t) (tf_eflags t) (tf_esp t) (tf_ss t) (tf_padding6 t).

Record proc := Proc {
  p_sz : Z;                   (* size of process memory *)
  p_pgdir : Z;                (* page table *)
  p_kstack : Z;               (* bottom of kernel stack *)
  p_state : procstate;
  p_pid : Z;
  p_parent : option nat;
  p_tf : Z * trapframe;       (* trap frame: its address and contents *)
  p_ret : Z;                  (* the word below it, where forkret returns to *)
  p_context : Z * context;    (* saved context: its address and contents *)
  p_chan : option channel;
  p_killed : Z;
  p_ofile : list Z;           (* NOFILE pointers, 0 for none *)
  p_cwd : Z;
  p_name : list Z             (* 16 bytes *)
}.

Definition null_proc : proc :=
  Proc 0 0 0 UNUSED 0 None (0, tf_zero) 0 (0, Context_ 0 0 0 0 0) None 0 (replicate 16 0) 0 (replicate 16 0).

#[global] Instance proc_inhabited : Inhabited proc := populate null_proc.

(** Assignments to one field. *)
Definition set_state (x : procstate) (p : proc) : proc :=
  Proc (p_sz p) (p_pgdir p) (p_kstack p) x (p_pid p) (p_parent p) (p_tf p) (p_ret p) (p_context p) (p_chan p) (p_killed p) (p_ofile p) (p_cwd p) (p_name p).
Definition set_pid (x : Z) (p : proc) : proc :=
  Proc (p_sz p) (p_pgdir p) (p_kstack p) (p_state p) x (p_parent p) (p_tf p) (p_ret p) (p_context p) (p_chan p) (p_killed p) (p_ofile p) (p_cwd p) (p_name p).
Definition set_parent (x : option nat) (p : proc) : proc :=
  Proc (p_sz p) (p_pgdir p) (p_kstack p) (p_state p) (p_pid p) x (p_tf p) (p_ret p) (p_context p) (p_chan p) (p_killed p) (p_ofile p) (p_cwd p) (p_name p).
Definition set_kstack (x : Z) (p : proc) : proc :=
  Proc (p_sz p) (p_pgdir p) x (p_state p) (p_pid p) (p_parent p) (p_tf p) (p_ret p) (p_context p) (p_chan p) (p_killed p) (p_ofile p) (p_cwd p) (p_name p).
Definition set_pgdir (x : Z) (p : proc) : proc :=
  Proc (p_sz p) x (p_kstack p) (p_state p) (p_pid p) (p_parent p) (p_tf p) (p_ret p) (p_context p) (p_chan p) (p_killed p) (p_ofile p) (p_cwd p) (p_name p).
Definition set_sz (x : Z) (p : proc) : proc :=
  Proc x (p_pgdir p) (p_kstack p) (p_state p) (p_pid p) (p_parent p) (p_tf p) (p_ret p) (p_context p) (p_chan p) (p_killed p) (p_ofile p) (p_cwd p) (p_name p).
Definition set_tf (x : Z * trapframe) (p : proc) : proc :=
  Proc (p_sz p) (p_pgdir p) (p_kstack p) (p_state p) (p_pid p) (p_parent p) x (p_ret p) (p_context p) (p_chan p) (p_killed p) (p_ofile p) (p_cwd p) (p_name p).
Definition set_ret (x : Z) (p : proc) : proc :=
  Proc (p_sz p) (p_pgdir p) (p_kstack p) (p_state p) (p_pid p) (p_parent p) (p_tf p) x (p_context p) (p_chan p) (p_killed p) (p_ofile p) (p_cwd p) (p_name p).
Definition set_context (x : Z * context) (p : proc) : proc :=
  Proc (p_sz p) (p_pgdir p) (p_kstack p) (p_state p) (p_pid p) (p_parent p) (p_tf p) (p_ret p) x (p_chan p) (p_killed p) (p_ofile p) (p_cwd p) (p_name p).
Definition set_chan (x : option channel) (p : proc) : proc :=
  Proc (p_sz p) (p_pgdir p) (p_kstack p) (p_state p) (p_pid p) (p_parent p) (p_tf p) (p_ret p) (p_context p) x (p_killed p) (p_ofile p) (p_cwd p) (p_name p).
Definition set_killed (x : Z) (p : proc) : proc :=
  Proc (p_sz p) (p_pgdir p) (p_kstack p) (p_state p) (p_pid p) (p_parent p) (p_tf p) (p_ret p) (p_context p) (p_chan p) x (p_ofile p) (p_cwd p) (p_name p).
Definition set_ofile (x : list Z) (p : proc) : proc :=
  Proc (p_sz p) (p_pgdir p) (p_kstack p) (p_state p) (p_pid p) (p_parent p) (p_tf p) (p_ret p) (p_context p) (p_chan p) (p_killed p) x (p_cwd p) (p_name p).
Definition set_cwd (x : Z) (p : proc) : proc :=
  Proc (p_sz p) (p_pgdir p) (p_kstack p) (p_state p) (p_pid p) (p_parent p) (p_tf p) (p_ret p) (p_context p) (p_chan p) (p_killed p) (p_ofile p) x (p_name p).
Definition set_pname (x : list Z) (p : proc) : proc :=
  Proc (p_sz p) (p_pgdir p) (p_kstack p) (p_state p) (p_pid p) (p_parent p) (p_tf p) (p_ret p) (p_context p) (p_chan p) (p_killed p) (p_ofile p) (p_cwd p) x.

(** [ptable], with the variables of the file that its lock protects. *)
Record ptable := Ptable {
  pt_lock : option nat;       (* the processor that holds ptable.lock *)
  pt_proc : list proc;
  pt_init : option nat;       (* initproc *)
  pt_nextpid : Z;
  pt_first : Z                (* the static [first] of forkret *)
}.

Abbreviation PM := (K ptable).

Definition set_plock (x : option nat) (t : ptable) : ptable := Ptable x (pt_proc t) (pt_init t) (pt_nextpid t) (pt_first t).
Definition set_procs (x : list proc) (t : ptable) : ptable := Ptable (pt_lock t) x (pt_init t) (pt_nextpid t) (pt_first t).
Definition set_initproc (x : option nat) (t : ptable) : ptable := Ptable (pt_lock t) (pt_proc t) x (pt_nextpid t) (pt_first t).
Definition set_nextpid (x : Z) (t : ptable) : ptable := Ptable (pt_lock t) (pt_proc t) (pt_init t) x (pt_first t).
Definition set_first (x : Z) (t : ptable) : ptable := Ptable (pt_lock t) (pt_proc t) (pt_init t) (pt_nextpid t) x.

(** The process in slot [i], and an assignment to it. *)
Definition pr (t : ptable) (i : nat) : proc := pt_proc t !!! i.
Definition upd (i : nat) (f : proc → proc) (t : ptable) : ptable :=
  set_procs (<[i := f (pr t i)]> (pt_proc t)) t.
Definition set_proc (i : nat) (f : proc → proc) : PM unit := modify (upd i f).

(** The slots, in the order of [for(p = ptable.proc; p < &ptable.proc[NPROC]; p++)]. *)
Definition slots (t : ptable) : list nat := seq 0 (length (pt_proc t)).

(** [acquire(&ptable.lock)] and [release(&ptable.lock)] on processor [c] *)
Definition acquire_pt (c : nat) : PM unit :=
  o ← gets pt_lock;
  match o with
  | None => modify (set_plock (Some c))
  | Some c' => if decide (c' = c) then panic "assertion failed: !self.is_locked()" else fail (FSleep "spin")
  end.
Definition release_pt (c : nat) : PM unit :=
  o ← gets pt_lock;
  if decide (o = Some c) then modify (set_plock None) else panic "assertion failed: self.is_locked()".

Definition pinit : PM unit := modify (set_plock None).

(** ** Sleeping and waking *)

(** The checks of [sched] before the switch to the scheduler. *)
Definition sched (cur : nat) : PM unit :=
  p ← gets (λ t, pr t cur);
  if decide (p_state p = RUNNING) then panic "enter_scheduler: running" else mret tt.

Definition wake (chan : option channel) (p : proc) : proc :=
  if decide (p_state p = SLEEPING ∧ p_chan p = chan) then set_state RUNNABLE p else p.

Definition wakeup1 (chan : option channel) : PM unit :=
  ps ← gets slots; for_each ps (λ i, set_proc i (wake chan)).

Definition wakeup (c : nat) (chan : channel) : PM unit := acquire_pt c ;; wakeup1 (Some chan) ;; release_pt c.

(** [sleep] up to its switch to the scheduler; [lk] tells whether the caller's
    lock is another one than ptable.lock. *)
Definition sleep_down (c cur : nat) (chan : channel) (lk : bool) : PM unit :=
  when lk (acquire_pt c) ;;
  set_proc cur (set_chan (Some chan)) ;;
  set_proc cur (set_state SLEEPING) ;;
  sched cur.

(** [sleep] from there on. *)
Definition sleep_up (c cur : nat) (lk : bool) : PM unit :=
  set_proc cur (set_chan None) ;;
  when lk (release_pt c).

Definition yield_down (c cur : nat) : PM unit :=
  acquire_pt c ;; set_proc cur (set_state RUNNABLE) ;; sched cur.
Definition yield_up (c : nat) : PM unit := release_pt c.

(** Kill the process with the given pid. *)
Fixpoint kill_loop (pid : Z) (ps : list nat) : PM Z :=
  match ps with
  | [] => mret (-1)
  | i :: ps =>
      p ← gets (λ t, pr t i);
      if p_pid p =? pid then
        set_proc i (set_killed 1) ;;
        when (bool_decide (p_state p = SLEEPING)) (set_proc i (set_state RUNNABLE)) ;;
        mret 0
      else kill_loop pid ps
  end.
Definition kill (c : nat) (pid : Z) : PM Z :=
  acquire_pt c ;; ps ← gets slots; r ← kill_loop pid ps; release_pt c ;; mret r.

(** ** The scheduler *)

(** The loop over the table from slot [k] on: the next process to run. *)
Definition find_runnable (t : ptable) (k : nat) : option nat :=
  head (filter (λ i, p_state (pr t i) = RUNNABLE) (drop k (slots t))).

(** [switchuvm]'s checks on the process it switches to. *)
Definition switchuvm (p : proc) : PM unit :=
  if p_kstack p =? 0 then panic "uvm_switch: no kstack" else
  if p_pgdir p =? 0 then panic "uvm_switch: no kstack" else mret tt.

(** The scheduler of processor [c] from slot [k] of the table on, up to its
    switch to a process, or to the end of the loop. *)
Definition scheduler_pass (c k : nat) : PM (option nat) :=
  t ← get;
  match find_runnable t k with
  | None => release_pt c ;; mret None
  | Some i => switchuvm (pr t i) ;; set_proc i (set_state RUNNING) ;; mret (Some i)
  end.

(** ** The interface to the rest of the kernel *)

Class Kern (E : Type) := {
  k_kalloc : K E Z;
  k_kfree : Z → K E unit;
  k_setupkvm : K E Z;
  k_inituvm : Z → list Z → K E unit;
  k_copyuvm : Z → Z → K E Z;
  k_freevm : Z → K E unit;
  k_filedup : Z → K E Z;
  k_fileclose : Z → K E unit;
  k_idup : Z → K E Z;
  k_iput : Z → K E unit;
  k_begin_op : K E unit;
  k_end_op : K E unit;
  k_namei : list Z → K E Z;
  k_iinit : Z → K E unit;
  k_initlog : Z → K E unit
}.

(** Code on the table and code on the rest, in the whole kernel's state. *)
Definition on_tab {E A} (m : PM A) : K (ptable * E) A := λ s,
  match m s.1 with Ok a t => Ok a (t, s.2) | Fault f => Fault f end.
Definition on_env {E A} (m : K E A) : K (ptable * E) A := λ s,
  match m s.2 with Ok a e => Ok a (s.1, e) | Fault f => Fault f end.

(** ** Creating processes *)

(** [safestrcpy] of the string at [t] to an array of [n] bytes: zeroes, the
    bytes of the string, a NUL at the end; a longer string is written past the
    end of the array. *)
Definition safestrcpy {S} (t : list Z) (n : nat) : K S (list Z) :=
  if (n <? strlen t)%nat then undef "safestrcpy: past the end of the array" else
  mret (<[(n - 1)%nat := 0]> (take (strlen t) t ++ replicate (n - strlen t) 0)).

(** mmu.h *)
Definition SEG_UCODE : Z := 3.
Definition SEG_UDATA : Z := 4.
Definition DPL_USER : Z := 3.
Definition FL_IF : Z := 0x200.

Section create.
Context {E : Type} `{!Kern E}.
Context (trapret forkret_addr : Z).   (* addresses of code *)

Abbreviation EM := (K (ptable * E)).

(** [allocproc] under the lock: a slot and a process id. *)
Fixpoint find_unused (ps : list nat) : PM (option nat) :=
  match ps with
  | [] => mret None
  | i :: ps => p ← gets (λ t, pr t i); if decide (p_state p = UNUSED) then mret (Some i) else find_unused ps
  end.
Definition alloc_slot (c : nat) : PM (option nat) :=
  acquire_pt c ;;
  ps ← gets slots;
  o ← find_unused ps;
  match o with
  | None => release_pt c ;; mret None
  | Some i =>
      set_proc i (set_state EMBRYO) ;;
      n ← gets pt_nextpid;
      set_proc i (set_pid n) ;;
      (if n =? 2 ^ 31 - 1 then undef "nextpid: overflow" else modify (set_nextpid (n + 1))) ;;
      release_pt c ;; mret (Some i)
  end.

(** [allocproc] from there on: the kernel stack, with a context that starts at
    forkret and returns to trapret. *)
Definition alloc_stack (i : nat) : EM bool :=
  ks ← on_env k_kalloc;
  on_tab (set_proc i (set_kstack ks)) ;;
  if ks =? 0 then on_tab (set_proc i (set_state UNUSED)) ;; mret false
  else
    let sp := u32 (ks + KSTACKSIZE) in
    let sp := u32 (sp - sizeof_trapframe) in
    on_tab (set_proc i (λ p, set_tf (sp, (p_tf p).2) p)) ;;
    let sp := u32 (sp - 4) in
    on_tab (set_proc i (set_ret trapret)) ;;
    let sp := u32 (sp - sizeof_context) in
    on_tab (set_proc i (set_context (sp, Context_ 0 0 0 0 forkret_addr))) ;;
    mret true.

Definition allocproc (c : nat) : EM (option nat) :=
  o ← on_tab (alloc_slot c);
  match o with
  | None => mret None
  | Some i => b ← alloc_stack i; mret (if b : bool then Some i else None)
  end.

(** Making the process in slot [i] known to the scheduler. *)
Definition set_runnable (c i : nat) : PM unit :=
  acquire_pt c ;; set_proc i (set_state RUNNABLE) ;; release_pt c.

(** Set up first user process. *)
Definition userinit_fill (initcode : list Z) (i : nat) : EM unit :=
  on_tab (modify (set_initproc (Some i))) ;;
  pg ← on_env k_setupkvm;
  on_tab (set_proc i (set_pgdir pg)) ;;
  (if pg =? 0 then panic "userinit: out of memory?" else mret tt) ;;
  on_env (k_inituvm pg initcode) ;;
  on_tab (set_proc i (set_sz PGSIZE)) ;;
  let cs := Z.lor (Z.shiftl SEG_UCODE 3) DPL_USER in
  let ds := Z.lor (Z.shiftl SEG_UDATA 3) DPL_USER in
  on_tab (set_proc i (λ p, set_tf ((p_tf p).1,
    Trapframe 0 0 0 0 0 0 0 0 0 0 0 0 ds 0 ds 0 0 0 0 cs 0 FL_IF PGSIZE ds 0) p)) ;;
  (* "initcode" *)
  name ← safestrcpy [105; 110; 105; 116; 99; 111; 100; 101] 16;
  on_tab (set_proc i (set_pname name)) ;;
  cwd ← on_env (k_namei [47]); (* "/" *)
  on_tab (set_proc i (set_cwd cwd)).
Definition userinit (initcode : list Z) (c : nat) : EM unit :=
  o ← allocproc c;
  match o with
  | None => undef "userinit: null pointer"
  | Some i => userinit_fill initcode i ;; on_tab (set_runnable c i)
  end.

(** The loop of [fork] over the open files. *)
Fixpoint dup_files (i : nat) (fd : nat) (files : list Z) : EM unit :=
  match files with
  | [] => mret tt
  | f :: files =>
      (if f =? 0 then mret tt else
        f' ← on_env (k_filedup f); on_tab (set_proc i (λ p, set_ofile (<[fd := f']> (p_ofile p)) p))) ;;
      dup_files i (S fd) files
  end.

(** [fork] between the allocation of the slot [i] and the point where the
    scheduler learns of it; [false] when there is no memory. *)
Definition fork_copy (cur i : nat) : EM bool :=
  curproc ← gets (λ s, pr s.1 cur);
  pg ← on_env (k_copyuvm (p_pgdir curproc) (p_sz curproc));
  on_tab (set_proc i (set_pgdir pg)) ;;
  if pg =? 0 then
    np ← gets (λ s, pr s.1 i);
    on_env (k_kfree (p_kstack np)) ;;
    on_tab (set_proc i (set_kstack 0)) ;;
    on_tab (set_proc i (set_state UNUSED)) ;;
    mret false
  else
    on_tab (set_proc i (set_sz (p_sz curproc))) ;;
    on_tab (set_proc i (set_parent (Some cur))) ;;
    on_tab (set_proc i (λ p, set_tf ((p_tf p).1, (p_tf curproc).2) p)) ;;
    (* Clear %eax so that fork returns 0 in the child. *)
    on_tab (set_proc i (λ p, set_tf ((p_tf p).1, tf_clear_eax (p_tf p).2) p)) ;;
    dup_files i 0 (p_ofile curproc) ;;
    cwd ← on_env (k_idup (p_cwd curproc));
    on_tab (set_proc i (set_cwd cwd)) ;;
    name ← safestrcpy (p_name curproc) 16;
    on_tab (set_proc i (set_pname name)) ;;
    mret true.

(** Create a new process copying the current one as the parent. *)
Definition fork (c cur : nat) : EM Z :=
  o ← allocproc c;
  match o with
  | None => mret (-1)
  | Some i =>
      b ← fork_copy cur i;
      if b : bool then
        pid ← gets (λ s, p_pid (pr s.1 i));
        on_tab (set_runnable c i) ;;
        mret pid
      else mret (-1)
  end.

(** ** Exit and wait *)

(** Close all open files. *)
Fixpoint close_files (cur : nat) (fds : list nat) : EM unit :=
  match fds with
  | [] => mret tt
  | fd :: fds =>
      f ← gets (λ s, p_ofile (pr s.1 cur) !!! fd);
      (if f =? 0 then mret tt else
        on_env (k_fileclose f) ;; on_tab (set_proc cur (λ p, set_ofile (<[fd := 0]> (p_ofile p)) p))) ;;
      close_files cur fds
  end.

(** [exit] before it takes the lock. *)
Definition exit_files (cur : nat) : EM unit :=
  ini ← gets (λ s, pt_init s.1);
  (if decide (ini = Some cur) then panic "init exiting" else mret tt) ;;
  close_files cur (seq 0 16) ;;
  cwd ← gets (λ s, p_cwd (pr s.1 cur));
  on_env k_begin_op ;; on_env (k_iput cwd) ;; on_env k_end_op ;;
  on_tab (set_proc cur (set_cwd 0)).

(** Pass abandoned children to init. *)
Fixpoint reparent (cur : nat) (ps : list nat) : PM unit :=
  match ps with
  | [] => mret tt
  | i :: ps =>
      p ← gets (λ t, pr t i);
      (if decide (p_parent p = Some cur) then
        ini ← gets pt_init;
        set_proc i (set_parent ini) ;;
        when (bool_decide (p_state p = ZOMBIE)) (wakeup1 (ChProc <$> ini))
      else mret tt) ;;
      reparent cur ps
  end.

(** [exit] under the lock, up to its switch to the scheduler. *)
Definition exit_down (c cur : nat) : PM unit :=
  acquire_pt c ;;
  p ← gets (λ t, pr t cur);
  wakeup1 (ChProc <$> p_parent p) ;;
  ps ← gets slots;
  reparent cur ps ;;
  set_proc cur (set_state ZOMBIE) ;;
  sched cur.

Definition exit (c cur : nat) : EM unit := exit_files cur ;; on_tab (exit_down c cur).

(** The scan of [wait]: a child that has exited, or whether there are children. *)
Fixpoint wait_scan (cur : nat) (ps : list nat) (havekids : bool) : PM (nat + bool) :=
  match ps with
  | [] => mret (inr havekids)
  | i :: ps =>
      p ← gets (λ t, pr t i);
      if decide (p_parent p = Some cur) then
        if decide (p_state p = ZOMBIE) then mret (inl i) else wait_scan cur ps true
      else wait_scan cur ps havekids
  end.

Definition reap (i : nat) : EM Z :=
  p ← gets (λ s, pr s.1 i);
  on_env (k_kfree (p_kstack p)) ;;
  on_tab (set_proc i (set_kstack 0)) ;;
  on_env (k_freevm (p_pgdir p)) ;;
  on_tab (set_proc i (set_pid 0)) ;;
  on_tab (set_proc i (set_parent None)) ;;
  on_tab (set_proc i (λ p, set_pname (<[0%nat := 0]> (p_name p)) p)) ;;
  on_tab (set_proc i (set_killed 0)) ;;
  on_tab (set_proc i (set_state UNUSED)) ;;
  mret (p_pid p).

(** One turn of the loop of [wait], with the lock held: the value it returns,
    or [None] when it has gone to sleep. *)
Definition wait_turn (c cur : nat) : EM (option Z) :=
  ps ← on_tab (gets slots);
  r ← on_tab (wait_scan cur ps false);
  match r with
  | inl i => pid ← reap i; on_tab (release_pt c) ;; mret (Some pid)
  | inr havekids =>
      p ← on_tab (gets (λ t, pr t cur));
      if negb havekids || negb (p_killed p =? 0) then on_tab (release_pt c) ;; mret (Some (-1))
      else on_tab (sleep_down c cur (ChProc cur) false) ;; mret None
  end.
Definition wait (c cur : nat) : EM (option Z) := on_tab (acquire_pt c) ;; wait_turn c cur.

(** [wait] when the scheduler has switched back to it. *)
Definition wait_again (c cur : nat) : EM (option Z) := on_tab (sleep_up c cur false) ;; wait_turn c cur.

(** A fork child's very first scheduling by the scheduler will switch here. *)
Definition forkret (c : nat) : EM unit :=
  on_tab (release_pt c) ;;
  f ← gets (λ s, pt_first s.1);
  if f =? 0 then mret tt else
  on_tab (modify (set_first 0)) ;;
  on_env (k_iinit ROOTDEV) ;;
  on_env (k_initlog ROOTDEV).
End create.
