(* ===== verification/File.v ===== *)
(** * File: open files

    The file table of kernel/src/file.rs and [pipealloc] of
    kernel/src/pipe.rs, over one state: the file system's globals, the file
    table, the pipes, the page allocator and the process that makes the call.

    A [struct file*] is an index into the table's storage. The table is an
    [ArrayVec], a vector of another crate: [ArrayVec] is the class of what its
    documentation says of the two operations the code uses. Removing an
    element moves the later ones down, and a pointer to the place after the
    last element points to no file: using it is undefined. Arithmetic wraps
    around, as in the release profile that xv6/Makefile builds. *)

From S2P Require Import Prelude State Bio Log Kalloc Fs Pipe.

(** ** The state *)

Inductive FileKind := FD_NONE | FD_PIPE | FD_INODE.

#[global] Instance FileKind_eq_dec : EqDecision FileKind.
Proof. solve_decision. Defined.

Record file := File {
  f_kind : FileKind;
  f_ref : Z;              (* reference count *)
  f_readable : Z;
  f_writable : Z;
  f_pipe : option Z;      (* the page of the pipe *)
  f_ip : option nat;
  f_off : Z
}.

#[global] Instance file_eq_dec : EqDecision file.
Proof. solve_decision. Defined.

Definition file_new : file := File FD_NONE 0 0 0 None None 0.

Definition set_f_ref (r : Z) (f : file) : file :=
  File (f_kind f) r (f_readable f) (f_writable f) (f_pipe f) (f_ip f) (f_off f).
Definition set_f_off (o : Z) (f : file) : file :=
  File (f_kind f) (f_ref f) (f_readable f) (f_writable f) (f_pipe f) (f_ip f) o.

(** The running process, as these calls see it. *)
Record uctx := UCtx {
  u_mem : list Z;             (* the bytes mapped from address 0 *)
  u_sz : Z;                   (* proc->sz *)
  u_esp : Z;                  (* proc->tf->esp *)
  u_killed : bool;
  u_ofile : list (option nat);
  u_cwd : nat;
  u_guard : list Z;           (* the pages that user code may not touch *)
  u_eip : Z;                  (* proc->tf->eip *)
  u_name : list Z             (* proc->name *)
}.

Record fstate := FState {
  x_k : kst;
  x_files : list file;        (* FILE_TABLE.files *)
  x_pipes : gmap Z pipe;      (* the pages that hold a struct pipe *)
  x_kmem : kmem;
  x_proc : uctx
}.

Abbreviation FM := (K fstate).

Definition set_k (k : kst) (s : fstate) : fstate := FState k (x_files s) (x_pipes s) (x_kmem s) (x_proc s).
Definition set_files (l : list file) (s : fstate) : fstate := FState (x_k s) l (x_pipes s) (x_kmem s) (x_proc s).
Definition set_pipes (m : gmap Z pipe) (s : fstate) : fstate := FState (x_k s) (x_files s) m (x_kmem s) (x_proc s).
Definition set_kmem (m : kmem) (s : fstate) : fstate := FState (x_k s) (x_files s) (x_pipes s) m (x_proc s).
Definition set_uctx (p : uctx) (s : fstate) : fstate := FState (x_k s) (x_files s) (x_pipes s) (x_kmem s) p.

Definition set_u_mem (m : list Z) (p : uctx) : uctx :=
  UCtx m (u_sz p) (u_esp p) (u_killed p) (u_ofile p) (u_cwd p) (u_guard p) (u_eip p) (u_name p).
Definition set_u_ofile (l : list (option nat)) (p : uctx) : uctx :=
  UCtx (u_mem p) (u_sz p) (u_esp p) (u_killed p) l (u_cwd p) (u_guard p) (u_eip p) (u_name p).
Definition set_u_cwd (c : nat) (p : uctx) : uctx :=
  UCtx (u_mem p) (u_sz p) (u_esp p) (u_killed p) (u_ofile p) c (u_guard p) (u_eip p) (u_name p).

(** Code of the file system and of the page allocator. *)
Definition on_k {A} (m : KM A) : FM A := λ s,
  match m (x_k s) with Ok a k => Ok a (set_k k s) | Fault f => Fault f end.
Definition on_kmem {A} (m : MM A) : FM A := λ s,
  match m (x_kmem s) with Ok a k => Ok a (set_kmem k s) | Fault f => Fault f end.

(** Code on the pipe at a page. *)
Definition on_pipe_at {A} (a : option Z) (m : PM A) : FM A := λ s,
  match a ≫= λ a, p ← x_pipes s !! a; Some (a, p) with
  | Some (a, p) =>
      match m p with Ok x p' => Ok x (set_pipes (<[a := p']> (x_pipes s)) s) | Fault f => Fault f end
  | None => Fault (FUndef "not a struct pipe*")
  end.

(** [*f] and a store to it. *)
Definition file_at (f : nat) : FM file :=
  l ← gets x_files; of_option (FUndef "struct file* past the end of the table") (l !! f).
Definition file_put (f : nat) (x : file) : FM unit := modify (λ s, set_files (<[f := x]> (x_files s)) s).
Definition file_upd (f : nat) (g : file → file) : FM unit := x ← file_at f; file_put f (g x).

(** [Option::unwrap] of the [struct inode*] of a file. *)
Definition ip_of (x : file) : FM nat := of_option (FUndef "null struct inode*") (f_ip x).

(** ** ArrayVec<File, NFILE> (the arrayvec crate) *)

Class ArrayVec := {
  try_push : file → list file → option (list file);
  av_remove : nat → list file → list file;
  (* "Push element to the end of the vector"; an error if it is full *)
  try_push_spec f l : try_push f l = if decide (Z.of_nat (length l) < NFILE) then Some (l ++ [f]) else None;
  (* "Remove the element at index and shift down the following elements" *)
  av_remove_spec i l : (i < length l)%nat → av_remove i l = delete i l
}.

(** ** kernel/src/file.rs *)

Section file.
Context {AV : ArrayVec}.
Context (kend : Z).                                            (* end of the kernel *)
Context (devread : Z → option (nat → Z → KM (Z * list Z)))     (* devsw *)
        (devwrite : Z → option (nat → list Z → Z → KM Z)).

(** Allocate a file structure. *)
Definition filealloc : FM nat :=
  on_k (acquire L_ftable) ;;
  l ← gets x_files;
  match try_push file_new l with
  | None => panic "called `Result::unwrap()` on an `Err` value"
  | Some l =>
      modify (set_files l) ;;
      let f := Nat.pred (length l) in
      file_upd f (λ x, set_f_ref (s32 (f_ref x + 1)) x) ;;
      on_k (release L_ftable) ;;
      mret f
  end.

(** Increment ref count for file f. *)
Definition filedup (f : nat) : FM nat :=
  on_k (acquire L_ftable) ;;
  x ← file_at f;
  if f_ref x <? 1 then panic "filedup" else
  file_put f (set_f_ref (s32 (f_ref x + 1)) x) ;;
  on_k (release L_ftable) ;;
  mret f.

(** [pipeclose], with the page freed when both ends are closed. *)
Definition pipeclose_at (a : option Z) (writable : bool) : FM unit :=
  last ← on_pipe_at a (pipeclose writable);
  if last : bool then
    page ← of_option (FUndef "not a struct pipe*") a;
    modify (λ s, set_pipes (delete page (x_pipes s)) s) ;;
    on_kmem (kfree kend page)
  else mret tt.

(** Close file f. (Decrement ref count, close when reaches 0.) *)
Definition fileclose (f : nat) : FM unit :=
  on_k (acquire L_ftable) ;;
  x ← file_at f;
  if f_ref x <? 1 then panic "fileclose" else
  let x := set_f_ref (f_ref x - 1) x in
  file_put f x ;;
  (if f_ref x =? 0 then
     l ← gets x_files;
     match list_find (λ y, y = x) l with
     | None => panic "called `Option::unwrap()` on a `None` value"
     | Some (index, _) =>
         modify (set_files (av_remove index l)) ;;
         match f_kind x with
         | FD_PIPE => pipeclose_at (f_pipe x) (negb (f_writable x =? 0))
         | FD_INODE =>
             on_k begin_op ;;
             ip ← ip_of x;
             on_k (iput ip) ;;
             on_k end_op
         | FD_NONE => mret tt
         end
     end
   else mret tt) ;;
  on_k (release L_ftable).

(** Get metadata about file f. *)
Definition filestat (f : nat) : FM (Z * option stat) :=
  x ← file_at f;
  match f_kind x with
  | FD_INODE =>
      ip ← ip_of x;
      on_k (ilock ip) ;;
      st ← on_k (stati ip);
      on_k (iunlock ip) ;;
      mret (0, Some st)
  | _ => mret (-1, None)
  end.

(** Read from file f: the return value and the bytes stored at [buf]. The
    result of [readi] is taken as unsigned, so an error counts as bytes read. *)
Definition fileread (f : nat) (n : Z) : FM (Z * list Z) :=
  if 2 ^ 31 <=? n then undef "slice longer than isize::MAX" else
  x ← file_at f;
  if f_readable x =? 0 then mret (-1, []) else
  match f_kind x with
  | FD_PIPE =>
      p ← gets x_proc;
      r ← on_pipe_at (f_pipe x) (piperead (u_killed p) (Z.to_nat n));
      match r with
      | RDone bytes => mret (Z.of_nat (length bytes), bytes)
      | RErr => mret (-1, [])
      | RSleep => fail (FSleep "pipe")
      end
  | FD_INODE =>
      ip ← ip_of x;
      on_k (ilock ip) ;;
      r ← on_k (readi devread ip (f_off x) n);
      when (0 <? u32 r.1) (file_upd f (λ x, set_f_off (u32 (f_off x + u32 r.1)) x)) ;;
      on_k (iunlock ip) ;;
      mret r
  | FD_NONE => panic "fileread"
  end.

(** The most bytes one transaction writes. *)
Definition MAX : Z := (MAXOPBLOCKS - 1 - 1 - 2) / 2 * 512.

(** The loop of [write]: a few blocks at a time. [i] bytes are done; the
    result is the value of [i] at the end of the loop. *)
Fixpoint filewrite_loop (fuel : nat) (f ip : nat) (buf : list Z) (i : Z) : FM Z :=
  match fuel with
  | O => undef "filewrite: out of fuel"
  | S fuel =>
      let n := Z.of_nat (length buf) in
      if i <? n then
        let n1 := Z.min (n - i) MAX in
        on_k begin_op ;;
        on_k (ilock ip) ;;
        x ← file_at f;
        read ← on_k (writei devwrite ip (slice (Z.to_nat i) (Z.to_nat n1) buf) (f_off x) n1);
        when (0 <? read) (file_upd f (λ x, set_f_off (u32 (f_off x + read)) x)) ;;
        on_k (iunlock ip) ;;
        on_k end_op ;;
        if read <? 0 then mret i
        else if negb (read =? n1) then panic "short filewrite"
        else filewrite_loop fuel f ip buf (i + read)
      else mret i
  end.

(** Write to file f. *)
Definition filewrite (f : nat) (buf : list Z) : FM Z :=
  x ← file_at f;
  if f_writable x =? 0 then mret (-1) else
  match f_kind x with
  | FD_PIPE =>
      p ← gets x_proc;
      r ← on_pipe_at (f_pipe x) (pipewrite (u_killed p) buf);
      match r with
      | WDone => mret (s32 (Z.of_nat (length buf)))
      | WErr => mret (-1)
      | WSleep _ => fail (FSleep "pipe")
      end
  | FD_INODE =>
      ip ← ip_of x;
      i ← filewrite_loop (S (length buf)) f ip buf 0;
      mret (if i =? Z.of_nat (length buf) then s32 i else -1)
  | FD_NONE => panic "filewrite"
  end.

(** ** [pipealloc] of kernel/src/pipe.rs *)

(** A page as a fresh [Pipe]: the data follow a lock of 52 bytes. *)
Definition pipe_of_page (page : list Z) : pipe := pipe_init (slice 52 512 page).

Definition pipealloc : FM (option (nat * nat)) :=
  f0 ← filealloc;
  f1 ← filealloc;
  p ← on_kmem kalloc;
  if p =? 0 then
    fileclose f0 ;;
    fileclose f1 ;;
    mret None
  else
    page ← on_kmem (page_at p);
    modify (λ s, set_pipes (<[p := pipe_of_page page]> (x_pipes s)) s) ;;
    file_upd f0 (λ x, File FD_PIPE (f_ref x) 1 0 (Some p) (f_ip x) (f_off x)) ;;
    file_upd f1 (λ x, File FD_PIPE (f_ref x) 0 1 (Some p) (f_ip x) (f_off x)) ;;
    mret (Some (f0, f1)).
End file.
