(* ===== verification/Exec.v ===== *)
(** * Exec: a new program in a process (kernel/c/exec.c)

    [exec] with what it uses of kernel/src/vm.rs. A page table under
    construction is the bytes it maps from address 0 on (its pages follow one
    another, since [uvm_alloc] starts where the last one ended) and the pages
    without [PTE_U]. Whether pages can be allocated is a parameter: [kvm] for
    the page directory and [room] for user pages.

    [exec_stack] says what a program finds on its stack, and [exec_replaces]
    what the process becomes, or that a call that fails leaves it as it was. *)

From S2P Require Import Prelude State Bio Log Kalloc Fs Demo Proc Pipe File.

(** ** elf.h *)

Definition ELF_MAGIC : Z := 0x464C457F.
Definition ELF_PROG_LOAD : Z := 1.

Record elfhdr := Elfhdr { elf_magic : Z; elf_entry : Z; elf_phoff : Z; elf_phnum : Z }.
Record proghdr := Proghdr { ph_type : Z; ph_off : Z; ph_vaddr : Z; ph_filesz : Z; ph_memsz : Z }.

(** [sizeof], and the fields that are used. *)
Definition ELFHDR_SIZE : Z := 52.
Definition PROGHDR_SIZE : Z := 32.
Definition uint_at (b : list Z) (off : nat) : Z := u32 (get_u32 b off).
Definition elf_get (b : list Z) : elfhdr := Elfhdr (uint_at b 0) (uint_at b 24) (uint_at b 28) (u16 (get_u16 b 44)).
Definition ph_get (b : list Z) : proghdr :=
  Proghdr (uint_at b 0) (uint_at b 4) (uint_at b 8) (uint_at b 16) (uint_at b 20).

(** ** vm.rs *)

(** The user part of a page table. *)
Record vm := Vm { vm_mem : list Z; vm_guard : list Z }.

Section exec.
Context (devread : Z → option (nat → Z → KM (Z * list Z))) (stack : list Z).
Context (kvm : bool) (room : Z → Z → bool).

(** Grow the memory from oldsz to newsz: the new table and size, 0 on error. *)
Definition allocuvm (v : vm) (oldsz newsz : Z) : FM (vm * Z) :=
  if KERNBASE <=? newsz then mret (v, 0)
  else if newsz <? oldsz then mret (v, oldsz)
  else if room oldsz newsz then
    mret (Vm (vm_mem v ++ replicate (Z.to_nat (PGROUNDUP newsz - PGROUNDUP oldsz)) 0) (vm_guard v), newsz)
  else panic "not implemented".

(** Load a segment, a page at a time, from byte [i] of it on. *)
Fixpoint loaduvm_loop (fuel : nat) (v : vm) (addr : Z) (ip : nat) (offset size i : Z) : FM (option vm) :=
  match fuel with
  | O => undef "loaduvm: out of fuel"
  | S fuel =>
      if i <? size then
        if Z.of_nat (length (vm_mem v)) <=? u32 (addr + i) then panic "uvm_load: address should exist" else
        let n := if size - i <? PGSIZE then size - i else PGSIZE in
        r ← on_k (readi devread ip (u32 (offset + i)) n);
        let v := Vm (splice (Z.to_nat (u32 (addr + i))) r.2 (vm_mem v)) (vm_guard v) in
        if negb (u32 r.1 =? n) then mret None
        else loaduvm_loop fuel v addr ip offset size (i + PGSIZE)
      else mret (Some v)
  end.
Definition loaduvm (v : vm) (addr : Z) (ip : nat) (offset size : Z) : FM (option vm) :=
  if negb (addr mod PGSIZE =? 0) then panic "uvm_load: addr must be page aligned" else
  loaduvm_loop (Z.to_nat (size / PGSIZE + 2)) v addr ip offset size 0.

(** Clear PTE_U on a page. *)
Definition clearpteu (v : vm) (uva : Z) : FM vm :=
  if Z.of_nat (length (vm_mem v)) <=? uva then panic "clear_pte_u" else
  mret (Vm (vm_mem v) (PGROUNDDOWN uva :: vm_guard v)).

(** Copy bytes to a user address, a page at a time; only to pages that are
    mapped with PTE_U. *)
Fixpoint copyout (fuel : nat) (v : vm) (va : Z) (bytes : list Z) : FM (option vm) :=
  match fuel with
  | O => undef "copyout: out of fuel"
  | S fuel =>
      match bytes with
      | [] => mret (Some v)
      | _ =>
          let va0 := PGROUNDDOWN va in
          if (Z.of_nat (length (vm_mem v)) <=? va0) || bool_decide (va0 ∈ vm_guard v) then mret None else
          let n := Z.to_nat (Z.min (PGSIZE - (va - va0)) (Z.of_nat (length bytes))) in
          copyout fuel (Vm (splice (Z.to_nat va) (take n bytes) (vm_mem v)) (vm_guard v)) (u32 (va0 + PGSIZE)) (drop n bytes)
      end
  end.
Definition copy_out (v : vm) (va : Z) (bytes : list Z) : FM (option vm) := copyout (S (length bytes)) v va bytes.

(** ** exec.c *)

(** Load program into memory: program headers [i] on, of [phnum] in all. *)
Fixpoint load_segments (fuel : nat) (ip : nat) (off : Z) (v : vm) (sz : Z) : FM (option (vm * Z)) :=
  match fuel with
  | O => mret (Some (v, sz))
  | S fuel =>
      r ← on_k (readi devread ip off PROGHDR_SIZE);
      if negb (r.1 =? PROGHDR_SIZE) then mret None else
      let ph := ph_get r.2 in
      let next := u32 (off + PROGHDR_SIZE) in
      if negb (ph_type ph =? ELF_PROG_LOAD) then load_segments fuel ip next v sz else
      if ph_memsz ph <? ph_filesz ph then mret None else
      if u32 (ph_vaddr ph + ph_memsz ph) <? ph_vaddr ph then mret None else
      a ← allocuvm v sz (u32 (ph_vaddr ph + ph_memsz ph));
      if a.2 =? 0 then mret None else
      if negb (ph_vaddr ph mod PGSIZE =? 0) then mret None else
      l ← loaduvm a.1 (ph_vaddr ph) ip (ph_off ph) (ph_filesz ph);
      match l with
      | None => mret None
      | Some v => load_segments fuel ip next v a.2
      end
  end.

(** [x & ~3] *)
Definition align4 (x : Z) : Z := Z.land x (u32 (Z.lnot 3)).

(** Push argument strings; the result has [sp] and the words of [ustack] from
    [ustack[3]] on. *)
Fixpoint push_args (argc : Z) (argv : list (list Z)) (v : vm) (sp : Z) (words : list Z) : FM (option (vm * Z * list Z)) :=
  match argv with
  | [] => mret (Some (v, sp, words))
  | arg :: argv =>
      if MAXARG <=? argc then mret None else
      let sp := align4 (u32 (sp - Z.of_nat (strlen arg + 1))) in
      r ← copy_out v sp (take (strlen arg) arg ++ [0]);
      match r with
      | None => mret None
      | Some v => push_args (argc + 1) argv v sp (words ++ [sp])
      end
  end.

(** The words of [ustack], and the stack pointer below them. *)
Definition ustack_of (argc sp : Z) (words : list Z) : list Z :=
  0xffffffff :: argc :: u32 (sp - (argc + 1) * 4) :: words ++ [0].

Definition build_stack (v : vm) (sz : Z) (argv : list (list Z)) : FM (option (vm * Z)) :=
  r ← push_args 0 argv v sz [];
  match r with
  | None => mret None
  | Some (v, sp, words) =>
      let argc := Z.of_nat (length argv) in
      let sp' := u32 (sp - (3 + argc + 1) * 4) in
      r ← copy_out v sp' (ustack_of argc sp words ≫= le_enc 4);
      mret ((λ v, (v, sp')) <$> r)
  end.

(** The path after its last slash. *)
Fixpoint last_elem (s last : list Z) : list Z :=
  match s with
  | [] => last
  | c :: s => last_elem s (if c =? SLASH then s else last)
  end.

(** [curproc] with the new image. *)
Definition new_image (v : vm) (sz eip esp : Z) (name : list Z) (p : uctx) : uctx :=
  UCtx (vm_mem v) sz esp (u_killed p) (u_ofile p) (u_cwd p) (vm_guard v) eip name.

(** After the inode has been put back: the stack, and the commit to the new
    image. *)
Definition exec_tail (path : list Z) (argv : list (list Z)) (entry : Z) (v : vm) (sz : Z) : FM Z :=
  let sz := PGROUNDUP sz in
  a ← allocuvm v sz (u32 (sz + 2 * PGSIZE));
  if a.2 =? 0 then mret (-1) else
  v ← clearpteu a.1 (u32 (a.2 - 2 * PGSIZE));
  r ← build_stack v a.2 argv;
  match r with
  | None => mret (-1)
  | Some (v, sp) =>
      name ← safestrcpy (last_elem path path) 16;
      modify (λ s, set_uctx (new_image v a.2 entry sp name (x_proc s)) s) ;;
      mret 0
  end.

Definition exec (path : list Z) (argv : list (list Z)) : FM Z :=
  on_k begin_op ;;
  p ← gets x_proc;
  ip ← on_k (namei devread (u_cwd p) path stack);
  match ip with
  | None => on_k end_op ;; mret (-1)
  | Some ip =>
      let bad := on_k (iunlockput ip) ;; on_k end_op ;; mret (-1) in
      on_k (ilock ip) ;;
      r ← on_k (readi devread ip 0 ELFHDR_SIZE);
      if negb (r.1 =? ELFHDR_SIZE) then bad else
      let elf := elf_get r.2 in
      if negb (elf_magic elf =? ELF_MAGIC) then bad else
      if negb kvm then bad else
      l ← load_segments (Z.to_nat (elf_phnum elf)) ip (elf_phoff elf) (Vm [] []) 0;
      match l with
      | None => bad
      | Some (v, sz) =>
          on_k (iunlockput ip) ;;
          on_k end_op ;;
          exec_tail path argv (elf_entry elf) v sz
      end
  end.
End exec.

(** ** Memory *)

Lemma align4_spec x : 0 ≤ x < 2 ^ 32 → align4 x = x - x mod 4.
Proof.
  intros Hx. unfold align4. replace (u32 (Z.lnot 3)) with (Z.ldiff (Z.ones 32) (Z.ones 2)) by done.
  replace (Z.land x _) with (Z.ldiff (Z.land x (Z.ones 32)) (Z.ones 2)).
  - rewrite Z.land_ones, Z.mod_small, Z.ldiff_ones_r by lia. rewrite Z.shiftl_mul_pow2, Z.shiftr_div_pow2 by lia.
    change (2 ^ 2) with 4. pose proof (Z.div_mod x 4 ltac:(done)). lia.
  - apply Z.bits_inj'. intros n Hn. rewrite Z.land_spec, !Z.ldiff_spec, Z.land_spec. by rewrite andb_assoc.
Qed.

Lemma PGROUNDDOWN_spec a : 0 ≤ a < 2 ^ 32 → PGROUNDDOWN a = a / PGSIZE * PGSIZE.
Proof. apply land_page_mask. Qed.

Lemma splice_app (off : nat) (a b m : list Z) :
  (off + length a + length b ≤ length m)%nat → splice (off + length a) b (splice off a m) = splice off (a ++ b) m.
Proof.
  intros H. apply list_eq. intros j. rewrite lookup_splice by (rewrite length_splice; lia).
  rewrite !lookup_splice by (rewrite ?length_app; lia). rewrite length_app. repeat case_decide; try lia; try done.
  - rewrite lookup_app_r by lia. f_equal. lia.
  - by rewrite lookup_app_l by lia.
Qed.

(** The user pages of [v]: whole pages below the kernel. *)
Record vm_ok (v : vm) : Prop := {
  vo_pages : Z.of_nat (length (vm_mem v)) mod PGSIZE = 0;
  vo_size : Z.of_nat (length (vm_mem v)) ≤ KERNBASE
}.

(** The bytes at [va] on may be stored. *)
Definition writable (v : vm) (va n : Z) : Prop :=
  0 ≤ va ∧ va + n ≤ Z.of_nat (length (vm_mem v)) ∧ ∀ x, va ≤ x < va + n → PGROUNDDOWN x ∉ vm_guard v.

Lemma page_end v va : vm_ok v → 0 ≤ va → PGROUNDDOWN va < Z.of_nat (length (vm_mem v)) → va < 2 ^ 32 →
  PGROUNDDOWN va + PGSIZE ≤ Z.of_nat (length (vm_mem v)) ∧ PGROUNDDOWN va ≤ va < PGROUNDDOWN va + PGSIZE.
Proof.
  intros [Hp Hs] H0 Hlt H32. rewrite PGROUNDDOWN_spec in * by lia. pose proof (Z.div_mod va PGSIZE ltac:(done)) as D.
  pose proof (Z.mod_pos_bound va PGSIZE ltac:(done)). apply Z.mod_divide in Hp as [k Hk]; [|done]. rewrite Hk in *.
  change PGSIZE with 4096 in *. nia.
Qed.

Lemma PGROUNDDOWN_same va x : 0 ≤ va → va < 2 ^ 32 → PGROUNDDOWN va ≤ x < PGROUNDDOWN va + PGSIZE → x < 2 ^ 32 → PGROUNDDOWN x = PGROUNDDOWN va.
Proof.
  intros H0 H32 Hx Hx32. rewrite PGROUNDDOWN_spec in Hx by lia. pose proof (Z.div_pos va PGSIZE H0 ltac:(done)).
  rewrite !PGROUNDDOWN_spec by (change PGSIZE with 4096 in *; lia). f_equal. symmetry.
  apply (Z.div_unique _ _ _ (x - va / PGSIZE * PGSIZE)); [left|]; lia.
Qed.

(** [copy_out] stores the bytes exactly when all their pages are the user's. *)
Lemma copyout_run fuel : ∀ v va bytes s,
  vm_ok v → 0 ≤ va < 2 ^ 32 → (length bytes < fuel)%nat →
  ∃ r, copyout fuel v va bytes s = Ok r s ∧
    match r with
    | Some v' => bytes = [] ∧ v' = v ∨ writable v va (Z.of_nat (length bytes)) ∧ v' = Vm (splice (Z.to_nat va) bytes (vm_mem v)) (vm_guard v)
    | None => ¬ writable v va (Z.of_nat (length bytes))
    end.
Proof.
  induction fuel as [|fuel IH]; intros v va bytes s Hv Hva Hf; [lia|]. cbn [copyout].
  destruct bytes as [|b bytes']; [exists (Some v); split; [done|by left]|]. set (bytes := b :: bytes') in *.
  assert (0 < length bytes)%nat as Hlen by (simpl; lia). clearbody bytes. clear b bytes'.
  destruct (Z.leb_spec (Z.of_nat (length (vm_mem v))) (PGROUNDDOWN va)) as [Hout|Hin]; cbn [orb].
  { exists None. split; [done|]. intros (_ & Hend & _). rewrite PGROUNDDOWN_spec in Hout by lia.
    pose proof (Z.mul_div_le va PGSIZE ltac:(done)). lia. }
  case_bool_decide as Hg.
  { exists None. split; [done|]. intros (_ & Hend & Hx). apply (Hx va); [lia|done]. }
  destruct (page_end v va Hv ltac:(lia) Hin ltac:(lia)) as [Hpe Hpr]. set (va0 := PGROUNDDOWN va) in *.
  set (n := Z.to_nat (Z.min (PGSIZE - (va - va0)) (Z.of_nat (length bytes)))).
  pose proof (vo_size v Hv) as Hsz. change KERNBASE with (2 ^ 31) in Hsz.
  assert ((0 < n ≤ length bytes)%nat ∧ va + Z.of_nat n ≤ va0 + PGSIZE) as Hn by (unfold n; lia).
  assert (length (take n bytes) = n) as Htk by (rewrite length_take; lia).
  set (v1 := Vm (splice (Z.to_nat va) (take n bytes) (vm_mem v)) (vm_guard v)).
  assert (length (vm_mem v1) = length (vm_mem v)) as Hl1 by (simpl; apply length_splice; lia).
  assert (vm_ok v1) as Hv1 by (destruct Hv; split; by rewrite Hl1).
  rewrite u32_small by (change PGSIZE with 4096 in *; lia).
  assert (∀ x, va ≤ x < va + Z.of_nat n → PGROUNDDOWN x ∉ vm_guard v) as Hfirst.
  { intros x Hx. rewrite (PGROUNDDOWN_same va x) by (fold va0; lia). done. }
  destruct (decide (n = length bytes)) as [E|E].
  { exists (Some v1). rewrite (drop_ge bytes) by lia. destruct fuel; [lia|]. split; [done|]. right.
    unfold v1. rewrite (take_ge bytes) by lia. split; [|done]. rewrite <- E. split_and!; [lia|lia|done]. }
  assert (va0 + PGSIZE = va + Z.of_nat n) as Hva' by (unfold n in *; lia). rewrite Hva'.
  destruct (IH v1 (va + Z.of_nat n) (drop n bytes) s Hv1) as (r & Hr & Hpost); [lia|rewrite length_drop; lia|].
  exists r. split; [done|]. unfold writable in Hpost. rewrite Hl1 in Hpost. rewrite length_drop in Hpost. destruct r as [v'|].
  - right. destruct Hpost as [[Hnil ->]|[(Hw1 & Hw2 & Hw3) ->]].
    { apply (f_equal length) in Hnil. rewrite length_drop in Hnil. simpl in Hnil. lia. }
    split; [split_and!; [lia|lia|]|].
    + intros x Hx. destruct (decide (x < va + Z.of_nat n)); [apply Hfirst; lia|]. apply Hw3. lia.
    + f_equal. simpl. replace (Z.to_nat (va + Z.of_nat n)) with (Z.to_nat va + length (take n bytes))%nat by lia.
      rewrite splice_app by (rewrite length_drop; lia). by rewrite take_drop.
  - intros (Hw1 & Hw2 & Hw3). apply Hpost. split_and!; [lia|lia|]. intros x Hx. apply Hw3. lia.
Qed.

(** ** The stack of a new program *)

(** Two pages on top of the memory, the lower one a guard. *)
Record stack_vm (v : vm) (sz : Z) : Prop := {
  sv_ok : vm_ok v;
  sv_size : Z.of_nat (length (vm_mem v)) = sz;
  sv_two : 2 * PGSIZE ≤ sz;
  sv_guard : vm_guard v = [sz - 2 * PGSIZE]
}.

Lemma stack_page v sz x : stack_vm v sz → sz - 2 * PGSIZE ≤ x < sz →
  PGROUNDDOWN x = if decide (x < sz - PGSIZE) then sz - 2 * PGSIZE else sz - PGSIZE.
Proof.
  intros [[Hp Hs] Hl Ht _] Hx. rewrite Hl in *. change KERNBASE with (2 ^ 31) in Hs. rewrite PGROUNDDOWN_spec by (change PGSIZE with 4096 in *; lia).
  apply Z.mod_divide in Hp as [k Hk]; [|done]. subst sz. change PGSIZE with 4096 in *.
  case_decide.
  - replace (k * 4096 - 2 * 4096) with ((k - 2) * 4096) in * by lia. f_equal. symmetry.
    apply (Z.div_unique _ _ _ (x - (k - 2) * 4096)); [left|]; lia.
  - replace (k * 4096 - 4096) with ((k - 1) * 4096) in * by lia. f_equal. symmetry.
    apply (Z.div_unique _ _ _ (x - (k - 1) * 4096)); [left|]; lia.
Qed.

(** Bytes that end in the stack page, or right below it, can be stored when
    they start in it. *)
Lemma stack_writable v sz va n :
  stack_vm v sz → 0 < n → sz - PGSIZE - 4 < va + n → va + n ≤ sz → writable v va n ↔ sz - PGSIZE ≤ va.
Proof.
  intros Hv Hn Hlo Hhi. pose proof (sv_size v sz Hv) as Hl. pose proof (sv_two v sz Hv) as Ht. split.
  - intros (H0 & _ & Hg). destruct (decide (sz - PGSIZE ≤ va)) as [|Hlt]; [done|]. exfalso.
    set (x := Z.min (va + n - 1) (sz - PGSIZE - 1)). change PGSIZE with 4096 in *.
    apply (Hg x); [lia|]. rewrite (stack_page v sz) by (done || (change PGSIZE with 4096; lia)).
    change PGSIZE with 4096. rewrite decide_True by lia. rewrite (sv_guard v sz Hv). by apply list_elem_of_singleton.
  - intros Hva. change PGSIZE with 4096 in *. split_and!; [lia|lia|]. intros x Hx.
    rewrite (stack_page v sz) by (done || (change PGSIZE with 4096; lia)). change PGSIZE with 4096.
    rewrite decide_False by lia. rewrite (sv_guard v sz Hv), list_elem_of_singleton. change PGSIZE with 4096. lia.
Qed.

Lemma copy_out_stack v sz va bytes s :
  stack_vm v sz → bytes ≠ [] → 0 ≤ va < 2 ^ 32 →
  sz - PGSIZE - 4 < va + Z.of_nat (length bytes) → va + Z.of_nat (length bytes) ≤ sz →
  copy_out v va bytes s =
    Ok (if decide (sz - PGSIZE ≤ va) then Some (Vm (splice (Z.to_nat va) bytes (vm_mem v)) (vm_guard v)) else None) s.
Proof.
  intros Hv Hne Hva Hlo Hhi. unfold copy_out. destruct (copyout_run (S (length bytes)) v va bytes s (sv_ok v sz Hv) Hva ltac:(lia)) as (r & -> & Hr).
  assert (0 < Z.of_nat (length bytes)) as H by (destruct bytes; [done|simpl; lia]).
  pose proof (stack_writable v sz va _ Hv H Hlo Hhi) as Hw. f_equal.
  case_decide; destruct r as [v'|]; try tauto.
  - destruct Hr as [[? _]|[_ ->]]; done.
Qed.

Lemma splice_stack_vm v sz va bytes :
  stack_vm v sz → 0 ≤ va → va + Z.of_nat (length bytes) ≤ sz →
  stack_vm (Vm (splice (Z.to_nat va) bytes (vm_mem v)) (vm_guard v)) sz.
Proof.
  intros [[H1 H2] H3 H4 H5] H0 He. assert (length (splice (Z.to_nat va) bytes (vm_mem v)) = length (vm_mem v)) as Hl
    by (apply length_splice; lia). split; [split|..]; simpl; rewrite ?Hl; done.
Qed.

(** The C string at [a]. *)
Definition cstring_at (m : list Z) (a : Z) (arg : list Z) : Prop :=
  slice (Z.to_nat a) (strlen arg + 1) m = take (strlen arg) arg ++ [0].

(** Where an argument goes. *)
Definition below (sp : Z) (arg : list Z) : Z :=
  let x := sp - Z.of_nat (strlen arg + 1) in x - x mod 4.
Fixpoint arg_ptrs (sp : Z) (argv : list (list Z)) : list Z :=
  match argv with [] => [] | arg :: argv => below sp arg :: arg_ptrs (below sp arg) argv end.
Definition arg_end (sp : Z) (argv : list (list Z)) : Z := foldl below sp argv.

Lemma below_lt sp arg : below sp arg + Z.of_nat (strlen arg + 1) ≤ sp ∧ sp - 4 < below sp arg + Z.of_nat (strlen arg + 1) ∧ below sp arg mod 4 = 0.
Proof.
  unfold below. set (x := sp - Z.of_nat (strlen arg + 1)). pose proof (Z.mod_pos_bound x 4 ltac:(lia)).
  split_and!; [lia|lia|]. pose proof (Z.div_mod x 4 ltac:(done)). replace (x - x mod 4) with (x / 4 * 4) by lia. by apply Z.mod_mul.
Qed.

Lemma arg_end_le argv : ∀ sp, arg_end sp argv ≤ sp.
Proof.
  induction argv as [|a argv IH]; intros sp; [done|]. unfold arg_end in *. simpl. specialize (IH (below sp a)).
  pose proof (below_lt sp a). lia.
Qed.

Lemma strlen_le l : (strlen l ≤ length l)%nat.
Proof. induction l as [|c l IH]; simpl; [lia|]. destruct (c =? 0); lia. Qed.

Lemma length_cbytes arg : length (take (strlen arg) arg ++ [0]) = (strlen arg + 1)%nat.
Proof. rewrite length_app, length_take. pose proof (strlen_le arg). simpl. lia. Qed.

(** One argument: the place and the copy. *)
Lemma push_one sz v sp arg s :
  let n := Z.of_nat (strlen arg + 1) in
  let bytes := take (strlen arg) arg ++ [0] in
  stack_vm v sz → sz - PGSIZE ≤ sp ≤ sz → Z.of_nat (length arg) < KERNBASE →
  if decide (sz - PGSIZE ≤ below sp arg) then
    align4 (u32 (sp - n)) = below sp arg ∧
    copy_out v (below sp arg) bytes s = Ok (Some (Vm (splice (Z.to_nat (below sp arg)) bytes (vm_mem v)) (vm_guard v))) s
  else copy_out v (align4 (u32 (sp - n))) bytes s = Ok None s.
Proof.
  intros n bytes Hv Hsp Harg. pose proof (sv_two v sz Hv) as Ht. pose proof (vo_size v (sv_ok v sz Hv)) as Hsz.
  rewrite (sv_size v sz Hv) in Hsz. pose proof (strlen_le arg) as Hsl. change KERNBASE with (2 ^ 31) in *.
  destruct (below_lt sp arg) as (Hb1 & Hb2 & Hb3). fold n in Hb1, Hb2.
  assert (Z.of_nat (length bytes) = n) as Hlen by (unfold bytes; by rewrite length_cbytes).
  assert (bytes ≠ []) as Hne by (intros H; by apply app_eq_nil in H as [_ ?]). clearbody bytes.
  pose proof (copy_out_stack v sz (below sp arg) bytes s Hv Hne) as Hcopy. rewrite Hlen in Hcopy. change PGSIZE with 4096 in *.
  destruct (decide (0 ≤ sp - n)) as [Hpos|Hneg].
  - rewrite (u32_small (sp - n)), align4_spec by lia. change (sp - n - (sp - n) mod 4) with (below sp arg).
    assert (0 ≤ below sp arg) as Hb0.
    { unfold below. fold n. pose proof (Z.div_mod (sp - n) 4 ltac:(done)). pose proof (Z.mod_pos_bound (sp - n) 4 ltac:(lia)).
      pose proof (Z.div_pos (sp - n) 4 Hpos ltac:(lia)). lia. }
    rewrite Hcopy by lia. by case_decide.
  - rewrite decide_False by lia.
    assert (u32 (sp - n) = sp - n + 2 ^ 32) as Hu by (unfold u32; symmetry; apply (Z.mod_unique _ _ (-1)); lia).
    pose proof (Z.mod_pos_bound (u32 (sp - n)) 4 ltac:(lia)). pose proof (u32_range (sp - n)).
    pose proof (Z.mod_le (u32 (sp - n)) 4 ltac:(lia) ltac:(lia)). unfold copy_out. rewrite align4_spec by done.
    destruct (copyout_run (S (length bytes)) v (u32 (sp - n) - u32 (sp - n) mod 4) bytes s (sv_ok v sz Hv) ltac:(lia) ltac:(lia))
      as ([v'|] & -> & Hr); [|done].
    destruct Hr as [[? _]|[(_ & Hw & _) _]]; [done|]. rewrite Hlen, (sv_size v sz Hv) in Hw. lia.
Qed.

(** [push_args] puts each string where [arg_ptrs] says, and leaves the bytes
    above alone; it fails when the page is full or there are too many. *)
Lemma push_args_run sz argv : ∀ argc v sp words s,
  stack_vm v sz → sz - PGSIZE ≤ sp ≤ sz → Forall (λ arg, Z.of_nat (length arg) < KERNBASE) argv → 0 ≤ argc →
  if decide (argc + Z.of_nat (length argv) ≤ MAXARG ∧ sz - PGSIZE ≤ arg_end sp argv) then
    ∃ v', push_args argc argv v sp words s = Ok (Some (v', arg_end sp argv, words ++ arg_ptrs sp argv)) s ∧
      stack_vm v' sz ∧ (∀ x, (Z.to_nat sp ≤ x)%nat → vm_mem v' !! x = vm_mem v !! x) ∧
      Forall2 (λ arg a, cstring_at (vm_mem v') a arg) argv (arg_ptrs sp argv)
  else argc ≤ MAXARG → push_args argc argv v sp words s = Ok None s.
Proof.
  induction argv as [|arg argv IH]; intros argc v sp words s Hv Hsp Hargs H0; cbn [push_args].
  { case_decide as Hd; [exists v; by rewrite app_nil_r|]. intros Hle. exfalso. apply Hd. simpl. lia. }
  apply Forall_cons in Hargs as [Harg Hargs]. pose proof (sv_two v sz Hv) as Ht.
  destruct (below_lt sp arg) as (Hb1 & _ & _). pose proof (push_one sz v sp arg s Hv Hsp Harg) as Hone.
  assert (arg_end sp (arg :: argv) = arg_end (below sp arg) argv) as -> by done. pose proof (arg_end_le argv (below sp arg)) as Hle.
  destruct (Z.leb_spec MAXARG argc) as [Hmax|Hmax]; [rewrite decide_False by (cbn [length]; lia); done|].
  destruct (decide (sz - PGSIZE ≤ below sp arg)) as [Hfit|Hno]; [|rewrite decide_False by lia; by rewrite (mbind_Ok _ _ _ _ _ Hone)].
  destruct Hone as [Hal Hcopy]. rewrite Hal, (mbind_Ok _ _ _ _ _ Hcopy). change PGSIZE with 4096 in *.
  set (v1 := Vm (splice (Z.to_nat (below sp arg)) (take (strlen arg) arg ++ [0]) (vm_mem v)) (vm_guard v)).
  assert (stack_vm v1 sz) as Hv1 by (apply splice_stack_vm; [done|lia|rewrite length_cbytes; lia]).
  specialize (IH (argc + 1) v1 (below sp arg) (words ++ [below sp arg]) s Hv1 ltac:(change PGSIZE with 4096; lia) Hargs ltac:(lia)).
  cbn [length] in *. change PGSIZE with 4096 in *.
  case_decide as Hd1; [rewrite decide_True by lia|rewrite decide_False by lia; intros _; apply IH; lia].
  destruct IH as (v' & Hrun & Hv' & Hkeep & Hstr). exists v'. rewrite Hrun, <- app_assoc. cbn [arg_ptrs app].
  assert (∀ x, (Z.to_nat sp ≤ x)%nat → vm_mem v1 !! x = vm_mem v !! x) as Hk1.
  { intros x Hx. simpl. rewrite lookup_splice by (rewrite length_cbytes; pose proof (sv_size v sz Hv); lia).
    rewrite length_cbytes. rewrite decide_False by lia. done. }
  split_and!; [done|done|intros x Hx; rewrite Hkeep by lia; by apply Hk1|].
  constructor; [|done]. unfold cstring_at. apply list_eq. intros j. rewrite lookup_slice.
  case_decide as Hj; [|symmetry; apply lookup_ge_None_2; rewrite length_cbytes; lia].
  rewrite Hkeep by lia. simpl. rewrite lookup_splice by (rewrite length_cbytes; pose proof (sv_size v sz Hv); lia).
  rewrite length_cbytes. rewrite decide_True by lia. f_equal. lia.
Qed.

(** Word [k] of an array at [a]. *)
Definition word (m : list Z) (a : Z) (k : nat) : Z := get_u32 m (Z.to_nat a + 4 * k).

Lemma slice_words ws k w : ws !! k = Some w → slice (4 * k) 4 (ws ≫= le_enc 4) = le_enc 4 w.
Proof.
  revert k. induction ws as [|w' ws IH]; intros k; [done|]. rewrite bind_cons. destruct k as [|k].
  - intros [= ->]. rewrite Nat.mul_0_r. unfold slice. rewrite drop_0. by apply take_app_length'.
  - intros Hk. unfold slice. rewrite (drop_app_ge (le_enc 4 w')) by (rewrite length_le_enc; lia). rewrite length_le_enc.
    replace (4 * S k - 4)%nat with (4 * k)%nat by lia. by apply IH.
Qed.

Lemma length_words ws : length (ws ≫= le_enc 4) = (4 * length ws)%nat.
Proof. induction ws as [|w ws IH]; [done|]. rewrite bind_cons, length_app, length_le_enc, IH. simpl. lia. Qed.

(** A word of an array that has just been stored. *)
Lemma word_splice m a ws k w :
  0 ≤ a → a + 4 * Z.of_nat (length ws) ≤ Z.of_nat (length m) → ws !! k = Some w → 0 ≤ w < 2 ^ 32 →
  word (splice (Z.to_nat a) (ws ≫= le_enc 4) m) a k = w.
Proof.
  intros Ha Hend Hk Hw. pose proof (lookup_lt_Some _ _ _ Hk) as Hlt. unfold word, get_u32.
  assert (slice (Z.to_nat a + 4 * k) 4 (splice (Z.to_nat a) (ws ≫= le_enc 4) m) = le_enc 4 w) as ->.
  { rewrite <- (slice_words ws k w Hk). apply list_eq. intros j. rewrite !lookup_slice. case_decide; [|done].
    rewrite lookup_splice by (rewrite length_words; lia). rewrite length_words, decide_True by lia. f_equal. lia. }
  rewrite le_dec_enc. change (256 ^ Z.of_nat 4) with (2 ^ 32). by apply Z.mod_small.
Qed.

(** What a program's [main] finds: the stack pointer at a return address,
    [argc], [argv], and the array of pointers to the strings with a null
    pointer at its end, all in the stack page. *)
Record stack_ok (m : list Z) (sz sp : Z) (argv : list (list Z)) : Prop := {
  so_range : sz - PGSIZE ≤ sp ≤ sz;
  so_align : sp mod 4 = 0;
  so_pc : word m sp 0 = 0xffffffff;
  so_argc : word m sp 1 = Z.of_nat (length argv);
  so_argv : word m sp 2 = sp + 12;
  so_args : ∀ k arg, argv !! k = Some arg → cstring_at m (word m (sp + 12) k) arg;
  so_null : word m (sp + 12) (length argv) = 0
}.

(** The arguments fit: at most MAXARG, and in one page with their pointers. *)
Definition fits (sz : Z) (argv : list (list Z)) : Prop :=
  Z.of_nat (length argv) ≤ MAXARG ∧ sz - PGSIZE ≤ arg_end sz argv - (4 + Z.of_nat (length argv)) * 4.

#[global] Instance fits_dec sz argv : Decision (fits sz argv).
Proof. unfold fits. apply _. Defined.

Lemma arg_end_mod argv : ∀ sp, sp mod 4 = 0 → arg_end sp argv mod 4 = 0.
Proof.
  induction argv as [|a argv IH]; intros sp Hsp; [done|]. unfold arg_end in *. simpl. apply IH. apply below_lt.
Qed.

Lemma length_arg_ptrs argv : ∀ sp, length (arg_ptrs sp argv) = length argv.
Proof. induction argv as [|a argv IH]; intros sp; simpl; [done|]. by rewrite IH. Qed.

Lemma arg_ptrs_range argv : ∀ sp, Forall (λ a, arg_end sp argv ≤ a < sp) (arg_ptrs sp argv).
Proof.
  induction argv as [|a argv IH]; intros sp; [constructor|]. cbn [arg_ptrs]. pose proof (below_lt sp a).
  change (arg_end sp (a :: argv)) with (arg_end (below sp a) argv). pose proof (arg_end_le argv (below sp a)).
  constructor; [lia|]. eapply Forall_impl; [apply IH|]. simpl. lia.
Qed.

Lemma build_stack_run v sz argv s :
  stack_vm v sz → Forall (λ arg, Z.of_nat (length arg) < KERNBASE) argv →
  if decide (fits sz argv) then
    ∃ v' sp, build_stack v sz argv s = Ok (Some (v', sp)) s ∧ stack_vm v' sz ∧ stack_ok (vm_mem v') sz sp argv
  else build_stack v sz argv s = Ok None s.
Proof.
  intros Hv Hargs. pose proof (sv_two v sz Hv) as Ht. pose proof (sv_ok v sz Hv) as [Hpg Hsz].
  rewrite (sv_size v sz Hv) in *. change KERNBASE with (2 ^ 31) in Hsz. change PGSIZE with 4096 in *.
  unfold build_stack, fits. change PGSIZE with 4096. change MAXARG with 32.
  pose proof (push_args_run sz argv 0 v sz [] s Hv ltac:(change PGSIZE with 4096; lia) Hargs ltac:(lia)) as Hpush.
  change PGSIZE with 4096 in Hpush. change MAXARG with 32 in Hpush. cbn [app] in Hpush. rewrite Z.add_0_l in Hpush.
  set (argc := Z.of_nat (length argv)) in *. pose proof (arg_end_le argv sz) as Hle.
  case_decide as Hd; [|rewrite decide_False by lia; rewrite (mbind_Ok _ _ _ _ _ (Hpush ltac:(lia))); done].
  destruct Hpush as (v1 & Hrun & Hv1 & _ & Hstr). rewrite (mbind_Ok _ _ _ _ _ Hrun). set (sp := arg_end sz argv) in *.
  set (ws := ustack_of argc sp (arg_ptrs sz argv)).
  assert (length ws = 4 + length argv)%nat as Hws by (unfold ws, ustack_of; cbn [length]; rewrite length_app, length_arg_ptrs; simpl; lia).
  rewrite (u32_small (sp - (3 + argc + 1) * 4)) by lia. set (sp' := sp - (3 + argc + 1) * 4).
  assert (Z.of_nat (length (ws ≫= le_enc 4)) = (4 + argc) * 4) as Hlen by (rewrite length_words, Hws; lia).
  assert (ws ≫= le_enc 4 ≠ []) as Hne by (intros H; apply (f_equal length) in H; rewrite length_words, Hws in H; simpl in H; lia).
  rewrite (mbind_Ok _ _ _ _ _ (copy_out_stack v1 sz sp' _ s Hv1 Hne ltac:(lia) ltac:(change PGSIZE with 4096; lia) ltac:(lia))).
  change PGSIZE with 4096. case_decide as Hfit; [rewrite decide_True by lia|by rewrite decide_False by lia].
  exists (Vm (splice (Z.to_nat sp') (ws ≫= le_enc 4) (vm_mem v1)) (vm_guard v1)), sp'.
  assert (stack_vm (Vm (splice (Z.to_nat sp') (ws ≫= le_enc 4) (vm_mem v1)) (vm_guard v1)) sz) as Hv2
    by (apply splice_stack_vm; [done|lia|lia]).
  split_and!; [done|done|]. set (m := splice _ _ _).
  assert (∀ k w, ws !! k = Some w → 0 ≤ w < 2 ^ 32 → word m sp' k = w) as Hword.
  { intros k w Hk Hw. apply word_splice; [lia|pose proof (sv_size v1 sz Hv1); lia|done|done]. }
  assert (∀ k, word m (sp' + 12) k = word m sp' (3 + k)) as Hshift by (intros k; unfold word; f_equal; lia).
  assert (sz mod 4 = 0) as Hsz4.
  { apply Z.mod_divide in Hpg as [q Hq]; [|done]. rewrite Hq. replace (q * 4096) with (q * 1024 * 4) by lia. by apply Z.mod_mul. }
  assert (u32 (sp - (argc + 1) * 4) = sp' + 12) as Hargv by (rewrite u32_small by lia; lia).
  split.
  - change PGSIZE with 4096. lia.
  - unfold sp'. rewrite Zminus_mod, Z.mod_mul by done. unfold sp. by rewrite arg_end_mod.
  - by apply Hword.
  - by apply (Hword 1%nat); [|lia].
  - rewrite <- Hargv. by apply (Hword 2%nat); [|apply u32_range].
  - intros k arg Hk. rewrite Hshift. destruct (Forall2_lookup_l _ _ _ _ _ Hstr Hk) as (a & Ha & Hca).
    assert (sp ≤ a < sz) as Har by (pose proof (arg_ptrs_range argv sz) as Hr; rewrite Forall_lookup in Hr; by apply (Hr k)).
    rewrite (Hword (3 + k)%nat a) by (try lia; unfold ws, ustack_of; simpl; by apply lookup_app_l_Some).
    unfold cstring_at in *. rewrite <- Hca. unfold m. apply slice_splice_ne; pose proof (sv_size v1 sz Hv1); [lia|]. right. lia.
  - rewrite Hshift. apply Hword; [|done]. unfold ws, ustack_of. simpl. rewrite lookup_app_r by (rewrite length_arg_ptrs; lia).
    by rewrite length_arg_ptrs, Nat.sub_diag.
Qed.

(** ** Loading *)

(** What [exec] has of the state besides the file system. *)
Definition context_of (s : fstate) := (x_files s, x_proc s).

Lemma ctx_on_k {A} (m : KM A) : keeps context_of (on_k m).
Proof. intros s a s'. unfold on_k. destruct (m (x_k s)); [|done]. by intros [= _ <-]. Qed.

Lemma wlp_on_k {A} (m : KM A) (P : A → Prop) Q s :
  (∀ k, wlp m (λ a _, P a) k) → (∀ a s', P a → context_of s' = context_of s → Q a s') → wlp (on_k m) Q s.
Proof.
  intros Hm HQ. specialize (Hm (x_k s)). unfold wlp, on_k in *. destruct (m (x_k s)); [|done]. by apply HQ.
Qed.

Lemma wlp_ctx {A} (m : FM A) Q s : keeps context_of m → (∀ a s', context_of s' = context_of s → Q a s') → wlp m Q s.
Proof. apply (wlp_keeps context_of). Qed.

Lemma wlp_true {A} (m : KM A) k : wlp m (λ _ _, True) k.
Proof. unfold wlp. by destruct (m k). Qed.

(** [readi] stores no more than it is asked for. *)
Lemma readi_loop_length fuel ip n : ∀ off tot acc k,
  0 ≤ tot ≤ n → n < 2 ^ 32 →
  wlp (readi_loop fuel ip off tot n acc) (λ bs _, Z.of_nat (length bs) ≤ Z.of_nat (length acc) + (n - tot)) k.
Proof.
  induction fuel as [|fuel IH]; intros off tot acc k Ht Hn; cbn [readi_loop]; [apply wlp_fail|].
  destruct (Z.ltb_spec tot n); [|apply wlp_ret; lia].
  apply wlp_bind. eapply wlp_mono; [apply wlp_true|]. intros addr k1 _.
  apply wlp_bind. eapply wlp_mono; [apply wlp_true|]. intros i k2 _.
  apply wlp_bind. eapply wlp_mono; [apply wlp_true|]. intros bp k3 _.
  apply wlp_bind. eapply wlp_mono; [apply wlp_true|]. intros data k4 _.
  apply wlp_bind. eapply wlp_mono; [apply wlp_true|]. intros _ k5 _.
  set (m := chunk off tot n). assert (0 ≤ m ≤ n - tot) as Hm.
  { unfold m, chunk. rewrite u32_small by lia. pose proof (Z.mod_pos_bound off BSIZE ltac:(done)). lia. }
  rewrite (u32_small (tot + m)) by lia. eapply wlp_mono; [apply IH; lia|]. simpl. intros bs _ Hbs.
  rewrite length_app in Hbs. unfold slice in Hbs. rewrite length_take in Hbs. lia.
Qed.

Section load.
Context (devread : Z → option (nat → Z → KM (Z * list Z))) (stack : list Z) (kvm : bool) (room : Z → Z → bool).
(** A device stores no more than it is asked for. *)
Context (Hdev : ∀ major g ip n k, devread major = Some g → wlp (g ip n) (λ r _, Z.of_nat (length r.2) ≤ Z.max 0 n) k).

Lemma readi_length ip off n k :
  0 ≤ off → 0 ≤ n < 2 ^ 31 → wlp (readi devread ip off n) (λ r _, Z.of_nat (length r.2) ≤ n) k.
Proof.
  intros Hoff Hn. unfold readi. apply wlp_bind. eapply wlp_mono; [apply wlp_true|]. intros i k1 _.
  destruct (i_type i =? T_DEV).
  - destruct (_ || _); [apply wlp_ret; simpl; lia|]. destruct (devread (i_major i)) as [g|] eqn:E; [|apply wlp_ret; simpl; lia].
    eapply wlp_mono; [by eapply Hdev|]. simpl. intros r _. rewrite s32_small by lia. lia.
  - destruct ((i_size i <? off) || _) eqn:Eb; [apply wlp_ret; simpl; lia|].
    apply orb_false_iff in Eb as [Eb _]. apply Z.ltb_ge in Eb.
    set (n' := if _ : bool then _ else _). assert (0 ≤ n' ≤ n) as Hn'.
    { unfold n'. destruct (Z.ltb_spec (i_size i) (u32 (off + n))); [|lia]. pose proof (u32_range (off + n)).
      rewrite u32_small by lia. pose proof (Z.mod_le (off + n) (2 ^ 32)). unfold u32 in *. lia. }
    apply wlp_bind. eapply wlp_mono; [apply readi_loop_length; lia|]. simpl. intros bs k2 Hbs. apply wlp_ret. simpl. lia.
Qed.

(** The overflow test of the loop is the right one. *)
Lemma u32_add_no_wrap a b : 0 ≤ a < 2 ^ 32 → 0 ≤ b < 2 ^ 32 → a ≤ u32 (a + b) → u32 (a + b) = a + b.
Proof.
  intros Ha Hb H. destruct (decide (a + b < 2 ^ 32)); [by apply u32_small; lia|].
  assert (u32 (a + b) = a + b - 2 ^ 32) by (unfold u32; symmetry; apply (Z.mod_unique _ _ 1); lia). lia.
Qed.

(** An image of [sz] bytes while it is loaded: whole pages, all of them PTE_U. *)
Record loaded (v : vm) (sz : Z) : Prop := {
  ld_size : Z.of_nat (length (vm_mem v)) = PGROUNDUP sz;
  ld_range : 0 ≤ sz < KERNBASE;
  ld_guard : vm_guard v = [];
}.

Lemma wlp_allocuvm v sz newsz Q s :
  loaded v sz → 0 ≤ newsz →
  (∀ v' sz', sz' = 0 ∨ loaded v' sz' ∧ sz' = Z.max sz newsz → Q (v', sz') s) →
  wlp (allocuvm room v sz newsz) Q s.
Proof.
  intros [Hl Hr Hg] Hn HQ. unfold allocuvm. destruct (Z.leb_spec KERNBASE newsz); [apply wlp_ret, HQ; by left|].
  destruct (Z.ltb_spec newsz sz); [apply wlp_ret, HQ; right; split; [done|lia]|].
  destruct (room sz newsz); [|apply wlp_fail]. apply wlp_ret, HQ. right. split; [|lia].
  split; [|lia|done]. simpl. rewrite length_app, length_replicate.
  enough (PGROUNDUP sz ≤ PGROUNDUP newsz) by lia. change KERNBASE with 2147483648 in *.
  rewrite !PGROUNDUP_spec by (change PGSIZE with 4096; lia).
  apply Z.mul_le_mono_nonneg_r; [done|]. apply Z.div_le_mono; [done|lia].
Qed.

Lemma wlp_loaduvm_loop fuel addr ip offset size Q : ∀ i v s,
  0 ≤ i → 0 ≤ addr → addr + size ≤ Z.of_nat (length (vm_mem v)) → addr + size < KERNBASE →
  (∀ r s', context_of s' = context_of s →
     match r with Some v' => length (vm_mem v') = length (vm_mem v) ∧ vm_guard v' = vm_guard v | None => True end → Q r s') →
  wlp (loaduvm_loop devread fuel v addr ip offset size i) Q s.
Proof.
  induction fuel as [|fuel IH]; intros i v s Hi Ha Hl Hk HQ; cbn [loaduvm_loop]; [apply wlp_fail|].
  change KERNBASE with 2147483648 in *.
  destruct (Z.ltb_spec i size); [|apply wlp_ret; by apply HQ]. destruct (_ <=? _); [apply wlp_fail|].
  set (n := if _ : bool then _ else _).
  assert (0 < n ∧ i + n ≤ size) as [Hn0 Hn].
  { unfold n. change PGSIZE with 4096. destruct (Z.ltb_spec (size - i) 4096); lia. }
  apply wlp_bind. eapply (wlp_on_k _ (λ r, Z.of_nat (length r.2) ≤ n)).
  { intros k. apply readi_length; [apply u32_range|lia]. }
  intros r s1 Hr Hs1. rewrite (u32_small (addr + i)) by lia.
  destruct (negb _); [apply wlp_ret; by apply HQ|].
  assert (length (splice (Z.to_nat (addr + i)) r.2 (vm_mem v)) = length (vm_mem v)) as Hsp by (apply length_splice; lia).
  apply IH; cbn [vm_mem vm_guard]; rewrite ?Hsp; [change PGSIZE with 4096; lia|lia|lia|done|].
  intros r' s' Hs' Hr'. apply HQ; [congruence|done].
Qed.

Lemma wlp_load_segments fuel ip Q : ∀ off v sz s,
  0 ≤ off → loaded v sz →
  (∀ r s', context_of s' = context_of s → match r with Some (v', sz') => loaded v' sz' | None => True end → Q r s') →
  wlp (load_segments devread room fuel ip off v sz) Q s.
Proof.
  induction fuel as [|fuel IH]; intros off v sz s Hoff Hv HQ; cbn [load_segments]; [apply wlp_ret; by apply HQ|].
  apply wlp_bind. eapply (wlp_on_k _ (λ _, True)); [intros k; apply wlp_true|]. intros r s1 _ Hs1.
  assert (∀ r s', context_of s' = context_of s1 → match r with Some (v', sz') => loaded v' sz' | None => True end → Q r s') as HQ1
    by (intros r' s' Hs' Hr'; apply HQ; [congruence|done]).
  destruct (negb _); [apply wlp_ret; by apply HQ1|]. set (ph := ph_get r.2).
  assert (∀ o, 0 ≤ uint_at r.2 o < 2 ^ 32) as Hu by (intros o; apply u32_range).
  destruct (negb _); [apply IH; [apply u32_range|done|done]|].
  destruct (Z.ltb_spec (ph_memsz ph) (ph_filesz ph)) as [|Hmf]; [apply wlp_ret; by apply HQ1|].
  destruct (Z.ltb_spec (u32 (ph_vaddr ph + ph_memsz ph)) (ph_vaddr ph)) as [|Hw]; [apply wlp_ret; by apply HQ1|].
  assert (0 ≤ ph_vaddr ph < 2 ^ 32 ∧ 0 ≤ ph_memsz ph < 2 ^ 32) as [Hva Hm] by (split; apply Hu).
  assert (u32 (ph_vaddr ph + ph_memsz ph) = ph_vaddr ph + ph_memsz ph) as Hsum by (by apply u32_add_no_wrap).
  apply wlp_bind. apply wlp_allocuvm; [done|apply u32_range|]. intros v2 sz2 Ha. cbn [fst snd].
  destruct (Z.eqb_spec sz2 0) as [|Hne]; [apply wlp_ret; by apply HQ1|]. destruct Ha as [?|[Hv2 Hsz2]]; [done|].
  destruct (negb _) eqn:Epg; [apply wlp_ret; by apply HQ1|].
  apply wlp_bind. unfold loaduvm. rewrite Epg. destruct Hv2 as [Hl2 Hr2 Hg2].
  pose proof (PGROUNDUP_bounds sz2 ltac:(change KERNBASE with 2147483648 in *; change PGSIZE with 4096; lia)) as [Hb _].
  apply wlp_loaduvm_loop; [done|lia|lia|lia|]. intros [v3|] s3 Hs3 Hr3; [|apply wlp_ret; by apply HQ1].
  destruct Hr3 as [Hl3 Hg3]. apply IH; [apply u32_range|split; [by rewrite Hl3|done|by rewrite Hg3]|].
  intros r' s' Hs' Hr'. apply HQ1; [congruence|done].
Qed.

(** The process [p] after it has replaced its image by one with arguments
    [argv]: [p']. *)
Record replaced (p p' : uctx) (argv : list (list Z)) : Prop := {
  rp_stack : stack_ok (u_mem p') (u_sz p') (u_esp p') argv;
  rp_size : Z.of_nat (length (u_mem p')) = u_sz p';
  rp_range : 2 * PGSIZE ≤ u_sz p' < KERNBASE;
  rp_guard : u_guard p' = [u_sz p' - 2 * PGSIZE];
  rp_ofile : u_ofile p' = u_ofile p;
  rp_cwd : u_cwd p' = u_cwd p
}.

(** All of the image is replaced, or none of it. *)
Definition exec_done (s : fstate) (argv : list (list Z)) (r : Z) (s' : fstate) : Prop :=
  x_files s' = x_files s ∧
  (r = -1 ∧ x_proc s' = x_proc s ∨ r = 0 ∧ replaced (x_proc s) (x_proc s') argv ∧ fits (u_sz (x_proc s')) argv).

Lemma PGROUNDUP_aligned sz : 0 ≤ sz ≤ 2 ^ 32 - PGSIZE → sz mod PGSIZE = 0 → PGROUNDUP sz = sz.
Proof.
  intros Hr Hp. rewrite PGROUNDUP_spec by done. apply Z.mod_divide in Hp as [q ->]; [|done].
  replace (q * PGSIZE + PGSIZE - 1) with (q * PGSIZE + (PGSIZE - 1)) by lia.
  rewrite Z.div_add_l by done. change ((PGSIZE - 1) / PGSIZE) with 0. lia.
Qed.

Lemma PGROUNDDOWN_aligned a : 0 ≤ a < 2 ^ 32 → a mod PGSIZE = 0 → PGROUNDDOWN a = a.
Proof. intros Hr Hp. rewrite PGROUNDDOWN_spec by done. apply Z.mod_divide in Hp as [q ->]; [|done]. by rewrite Z.div_mul. Qed.

Lemma loaded_stack v sz :
  loaded v sz → sz mod PGSIZE = 0 → 2 * PGSIZE ≤ sz → stack_vm (Vm (vm_mem v) [sz - 2 * PGSIZE]) sz.
Proof.
  intros [Hl Hr _] Hp Ht. rewrite PGROUNDUP_aligned in Hl by (try done; change KERNBASE with 2147483648 in *; change PGSIZE with 4096; lia).
  split; [|by simpl; lia|done|done]. split; simpl; rewrite Hl; [done|lia].
Qed.

Lemma exec_tail_done path argv entry v sz s :
  loaded v sz → Forall (λ arg, Z.of_nat (length arg) < KERNBASE) argv →
  wlp (exec_tail room path argv entry v sz) (exec_done s argv) s.
Proof.
  intros Hv Hargv. pose proof Hv as [Hl Hr Hg]. change KERNBASE with 2147483648 in Hr.
  pose proof (PGROUNDUP_bounds sz ltac:(change PGSIZE with 4096; lia)) as [Hb Hp]. unfold exec_tail.
  change PGSIZE with 4096 in Hb. set (sz1 := PGROUNDUP sz) in *.
  rewrite (u32_small (sz1 + _)) by (change PGSIZE with 4096; lia).
  assert (exec_done s argv (-1) s) as Hbad by (by split; [|left]).
  apply wlp_bind. destruct (decide (KERNBASE ≤ sz1 + 2 * PGSIZE)) as [Hk|Hk].
  { unfold allocuvm. destruct (Z.leb_spec KERNBASE (sz1 + 2 * PGSIZE)); [|lia]. by do 2 apply wlp_ret. }
  change PGSIZE with 4096 in Hk. change KERNBASE with 2147483648 in Hk.
  assert (PGROUNDUP sz1 = sz1) as Hup by (apply PGROUNDUP_aligned; [change PGSIZE with 4096; lia|done]).
  apply wlp_allocuvm; [split; [by rewrite Hup|change KERNBASE with 2147483648; lia|done]|change PGSIZE with 4096; lia|].
  intros v2 sz2 Ha. cbn [fst snd]. destruct (Z.eqb_spec sz2 0) as [|Hne]; [by apply wlp_ret|].
  destruct Ha as [?|[Hv2 Hsz2]]; [done|]. rewrite Z.max_r in Hsz2 by (change PGSIZE with 4096; lia).
  assert (sz2 mod PGSIZE = 0) as Hp2 by (rewrite Hsz2, Z.mod_add by done; done).
  pose proof (loaded_stack v2 sz2 Hv2 Hp2 ltac:(change PGSIZE with 4096 in *; lia)) as Hst.
  apply wlp_bind. unfold clearpteu. destruct (_ <=? _); [apply wlp_fail|]. apply wlp_ret.
  assert (PGROUNDDOWN (u32 (sz2 - 2 * PGSIZE)) = sz2 - 2 * PGSIZE) as ->.
  { replace (sz2 - 2 * PGSIZE) with sz1 by lia. rewrite u32_small by lia. by apply PGROUNDDOWN_aligned; [lia|]. }
  rewrite (ld_guard _ _ Hv2).
  pose proof (build_stack_run _ _ argv s Hst Hargv) as Hbs. apply wlp_bind.
  destruct (decide (fits sz2 argv)); [|unfold wlp; rewrite Hbs; by apply wlp_ret].
  destruct Hbs as (v3 & sp & E & [[_ _] Hs3 Ht3 Hg3] & Hso). unfold wlp at 1. rewrite E. apply wlp_bind.
  unfold safestrcpy. destruct (_ <? _)%nat; [apply wlp_fail|]. apply wlp_ret, wlp_bind, wlp_modify, wlp_ret.
  split; [done|]. right. split_and!; [done| |done]. pose proof (ld_range _ _ Hv2). by split; simpl; [| |lia|..].
Qed.

Lemma exec_done_ctx s s1 argv r s' : context_of s1 = context_of s → exec_done s1 argv r s' → exec_done s argv r s'.
Proof. unfold context_of, exec_done. by intros [= -> ->]. Qed.

Lemma wlp_bad ip s s0 argv : context_of s = context_of s0 →
  wlp (on_k (iunlockput ip) ;; on_k end_op ;; mret (-1)) (exec_done s0 argv) s.
Proof.
  intros Hs. apply wlp_bind, wlp_ctx; [apply ctx_on_k|]. intros _ s1 H1.
  apply wlp_bind, wlp_ctx; [apply ctx_on_k|]. intros _ s2 H2. apply wlp_ret.
  apply (exec_done_ctx s0 s2); [congruence|]. by split; [|left].
Qed.

Lemma exec_run path argv s :
  Forall (λ arg, Z.of_nat (length arg) < KERNBASE) argv →
  wlp (exec devread stack kvm room path argv) (exec_done s argv) s.
Proof.
  intros Hargv. unfold exec.
  apply wlp_bind, wlp_ctx; [apply ctx_on_k|]. intros _ s1 H1. apply wlp_bind, wlp_gets.
  apply wlp_bind, wlp_ctx; [apply ctx_on_k|]. intros [ip|] s2 H2.
  2:{ apply wlp_bind, wlp_ctx; [apply ctx_on_k|]. intros _ s3 H3. apply wlp_ret.
      apply (exec_done_ctx s s3); [congruence|]. by split; [|left]. }
  apply wlp_bind, wlp_ctx; [apply ctx_on_k|]. intros _ s3 H3.
  apply wlp_bind, wlp_ctx; [apply ctx_on_k|]. intros r s4 H4.
  assert (context_of s4 = context_of s) as Hs4 by congruence.
  destruct (negb _); [by apply wlp_bad|]. destruct (negb _); [by apply wlp_bad|]. destruct (negb _); [by apply wlp_bad|].
  apply wlp_bind, wlp_load_segments; [apply u32_range|by split|].
  intros [[v sz]|] s5 H5 Hl; [|apply wlp_bad; congruence].
  apply wlp_bind, wlp_ctx; [apply ctx_on_k|]. intros _ s6 H6.
  apply wlp_bind, wlp_ctx; [apply ctx_on_k|]. intros _ s7 H7.
  eapply wlp_mono; [by apply exec_tail_done|]. intros r' s' Hd. apply (exec_done_ctx s s7); [congruence|done].
Qed.
End load.

(** C19 The stack of a new program. On the two pages that exec has put on top
    of the image, the lower one not accessible, the part of exec that pushes
    the arguments always ends without a fault. It fails exactly if there are
    more than MAXARG arguments or if the strings, each rounded up to four bytes,
    and the pointers to them do not fit in the upper page. Otherwise the stack
    pointer it gives is aligned and in the stack page, and there are found,
    from it on, the fake return address, [argc], [argv], and at [argv] the
    pointers to copies of the strings, with a null pointer after the last. *)
Theorem exec_stack v sz argv s :
  stack_vm v sz → Forall (λ arg, Z.of_nat (length arg) < KERNBASE) argv →
  ∃ r, build_stack v sz argv s = Ok r s ∧ (is_Some r ↔ fits sz argv) ∧
    ∀ v' sp, r = Some (v', sp) → stack_vm v' sz ∧ stack_ok (vm_mem v') sz sp argv.
Proof.
  intros Hv Hargv. pose proof (build_stack_run v sz argv s Hv Hargv) as H. destruct (decide (fits sz argv)) as [Hf|Hf].
  - destruct H as (v' & sp & E & Hv' & Hso). exists (Some (v', sp)). split_and!; [done|by split|]. by intros v1 sp1 [= <- <-].
  - exists None. split_and!; [done| |done]. split; [by intros [? ?]|done].
Qed.

(** C13 exec replaces all of the image or none of it. Whatever is in the file
    that is named, and whatever the path and the arguments are: if exec comes
    back, the open files are those of before, and either it has returned -1 and
    the process is unchanged, or it has returned 0 and the process has a new
    memory with the stack of its arguments on top, above a page that is not
    accessible, and the descriptors and the directory it had. The files read
    can ask for any segments: the tests of exec's loop keep them in the memory. *)
Theorem exec_replaces devread stack kvm room path argv s r s' :
  (∀ major g ip n k, devread major = Some g → wlp (g ip n) (λ r _, Z.of_nat (length r.2) ≤ Z.max 0 n) k) →
  Forall (λ arg, Z.of_nat (length arg) < KERNBASE) argv →
  exec devread stack kvm room path argv s = Ok r s' →
  x_files s' = x_files s ∧
  (r = -1 ∧ x_proc s' = x_proc s ∨
   r = 0 ∧ replaced (x_proc s) (x_proc s') argv ∧ fits (u_sz (x_proc s')) argv).
Proof. intros Hdev Hargv E. exact (wlp_Ok _ _ _ _ _ (exec_run _ stack kvm room Hdev path argv s Hargv) E). Qed.

(** ** A program *)

(** A file with one segment of 100 bytes that fills two pages. *)
Definition demo_elf : list Z :=
  put_u32 0 ELF_MAGIC (put_u32 24 16 (put_u32 28 52 (put_u16 44 1
    (put_u32 52 ELF_PROG_LOAD (put_u32 68 100 (put_u32 72 4200 zero_block)))))).

Definition demo_exec : fstate :=
  let root := splice 32 (dirent_put (Dirent 2 (97 :: replicate 13 0))) demo_root in
  let inodes := dinode_put 128 (Dinode T_FILE 0 0 1 512 (60 :: replicate 12 0)) demo_inodes in
  FState (KS (<[(ROOTDEV, 60) := demo_elf]> (<[(ROOTDEV, 59) := root]> (<[(ROOTDEV, 32) := inodes]> demo_image))) [] true ∅
      (Log 2 30 0 0 ROOTDEV (Logheader 0 (replicate 30 0))) (sb_decode demo_superblock) (replicate 50 empty_inode) [] 1)
    [] ∅ (Kmem false 1 0 ∅) (UCtx [] 0 0 false [] 0 [] 0 []).

Lemma exec_stack_witness :
  ∃ r, build_stack (Vm (replicate 8192 0) [0]) 8192 [[97]; [45; 110]] demo_exec = Ok r demo_exec ∧
    (is_Some r ↔ fits 8192 [[97]; [45; 110]]) ∧
    ∀ v' sp, r = Some (v', sp) → stack_vm v' 8192 ∧ stack_ok (vm_mem v') 8192 sp [[97]; [45; 110]].
Proof.
  apply (exec_stack (Vm (replicate 8192 0) [0]) 8192 [[97]; [45; 110]] demo_exec).
  - split; [split|..]; vm_compute; try reflexivity; discriminate.
  - repeat constructor; discriminate.
Defined.

(** "/a", with the arguments "a" and "-n". *)
Lemma demo_run_ok :
  ∃ s', exec (λ _, None) (replicate 14 0) true (λ _ _, true) [47; 97] [[97]; [45; 110]] demo_exec = Ok 0 s'.
Proof.
  set (o := exec _ _ _ _ _ _ _).
  assert (match o with Ok r _ => r =? 0 | Fault _ => false end = true) as H by (vm_cast_no_check (eq_refl true)).
  revert H. clearbody o. destruct o as [r s'|f]; intros H; [|discriminate]. apply Z.eqb_eq in H as ->. by exists s'.
Qed.

Lemma exec_replaces_witness :
  ∃ s', exec (λ _, None) (replicate 14 0) true (λ _ _, true) [47; 97] [[97]; [45; 110]] demo_exec = Ok 0 s' ∧
    replaced (x_proc demo_exec) (x_proc s') [[97]; [45; 110]].
Proof.
  destruct demo_run_ok as [s' E]. exists s'. split; [exact E|].
  destruct (exec_replaces (λ _, None) (replicate 14 0) true (λ _ _, true) [47; 97] [[97]; [45; 110]] demo_exec 0 s')
    as [_ [[Hbad _]|(_ & Hr & _)]].
  - intros major g ip n k Hg. discriminate Hg.
  - clear E. repeat constructor; discriminate.
  - exact E.
  - discriminate Hbad.
  - exact Hr.
Defined.
