(* ===== verification/VmExec.v ===== *)
(** * VmExec: exec's memory is what the page tables hold

    Exec.v has the memory of a program as the bytes mapped from address 0 on
    and the pages user code may not touch. Here the operations of vm.rs on page
    tables are shown to be those operations: each step of exec on its memory
    is a step of the tables that represent it. *)

From S2P Require Import Prelude State Bio Log Kalloc Vm VmTable VmMap VmUser VmCopy Fs Demo Proc Pipe File Exec.

(** ** vm.rs: loading a segment

    [uvm_load] reads the file straight into the pages. *)

Section load.
Context (devread : Z → option (nat → Z → KM (Z * list Z))).

Fixpoint uvm_load_loop (pgdir addr : Z) (ip : nat) (offset size : Z) (idxs : list Z) : FM bool :=
  match idxs with
  | [] => mret true
  | i :: idxs =>
      w ← on_kmem (walk_pgdir pgdir (u32 (addr + i)) false);
      match w with
      | None => panic "uvm_load: address should exist"
      | Some pte =>
          e ← on_kmem (load32 pte);
          let n := if size - i <? PGSIZE then size - i else PGSIZE in
          r ← on_k (readi devread ip (u32 (offset + i)) n);
          on_kmem (store_page (P2V (PTE_address e)) r.2) ;;
          if negb (u32 r.1 =? n) then mret false
          else uvm_load_loop pgdir addr ip offset size idxs
      end
  end.
Definition uvm_load (pgdir addr : Z) (ip : nat) (offset size : Z) : FM bool :=
  if negb (addr mod PGSIZE =? 0) then panic "uvm_load: addr must be page aligned" else
  uvm_load_loop pgdir addr ip offset size (step_by 0 size).
End load.

Section splice.
Context {A : Type}.
Implicit Types (a b src : list A).

Lemma splice_app_r off src a b : (length a ≤ off)%nat → splice off src (a ++ b) = a ++ splice (off - length a) src b.
Proof.
  intros H. unfold splice. rewrite take_app_ge, drop_app_ge, <- app_assoc by lia. by replace (off + length src - length a)%nat with (off - length a + length src)%nat by lia.
Qed.
Lemma splice_app_l off src a b : (off + length src ≤ length a)%nat → splice off src (a ++ b) = splice off src a ++ b.
Proof. intros H. unfold splice. rewrite take_app_le, drop_app_le, <- !app_assoc by lia. done. Qed.
End splice.

Section rep.
Context (kend : Z).
Abbreviation uspace := (uspace kend).

(** The pages [us] in the state [s] are the memory [v]. *)
Record represents (s : kmem) (us : list (Z * Z)) (v : vm) : Prop := {
  re_mem : vm_mem v = umem s us;
  re_guard : ∀ n p, us !! n = Some p → PTE_is_user p.2 = negb (bool_decide (Z.of_nat n * PGSIZE ∈ vm_guard v));
  re_bound : ∀ g, g ∈ vm_guard v → g < Z.of_nat (length us) * PGSIZE
}.

Lemma umem_app s us us' : umem s (us ++ us') = umem s us ++ umem s us'.
Proof. unfold umem. rewrite fmap_app. apply bind_app. Qed.

Lemma umem_length s us : Forall (λ p, length (page_of s p.1) = 4096%nat) us → length (umem s us) = (length us * 4096)%nat.
Proof.
  unfold umem. induction 1 as [|p us Hp _ IH]; [done|]. rewrite fmap_cons, bind_cons, length_app, Hp, IH. simpl length. lia.
Qed.

Section at_space.
Context (s : kmem) (free : list Z) (A : aspace) (us : list (Z * Z)) (rest : gset Z) (Hus : uspace s free A us rest).

Lemma us_page_of n v f : us !! n = Some (v, f) → ∃ pg, km_mem s !! v = Some pg ∧ page_of s v = pg ∧ length pg = 4096%nat.
Proof.
  intros Hn. destruct (us_page kend _ _ _ _ _ Hus _ _ _ Hn) as (_ & _ & _ & _ & _ & _ & pg & Hpg & Hok). exists pg. split_and!; [done| |done].
  unfold page_of. by rewrite Hpg.
Qed.

Lemma length_umem : length (umem s us) = (length us * 4096)%nat.
Proof.
  apply umem_length, Forall_lookup. intros n [v f] Hn. destruct (us_page_of _ _ _ Hn) as (pg & _ & Hp & Hl).
  change (length (page_of s v) = 4096%nat). by rewrite Hp.
Qed.

(** Bytes in one page. *)
Lemma umem_splice n v f o bytes :
  us !! n = Some (v, f) → (o + length bytes ≤ 4096)%nat →
  umem (set_mem (<[v := splice o bytes (page_of s v)]> (km_mem s)) s) us = splice (n * 4096 + o) bytes (umem s us).
Proof.
  intros Hn Hl. destruct (us_page_of _ _ _ Hn) as (pg & Hpg & Hpo & Hpl). rewrite Hpo. pose proof length_umem as Hlen.
  pose proof (us_nodup _ _ _ (us_shape _ _ _ _ _ _ Hus)) as Hnd.
  pose proof (lookup_lt_Some _ _ _ Hn) as Hlt.
  assert (length (umem s (take n us)) = (n * 4096)%nat) as Hl1.
  { rewrite (umem_length s (take n us)); [by rewrite length_take_le by lia|]. apply Forall_take, Forall_lookup.
    intros k [u g] Hk. destruct (us_page_of _ _ _ Hk) as (pg' & _ & Hp & ?).
    change (length (page_of s u) = 4096%nat). by rewrite Hp. }
  rewrite <- (take_drop_middle us n (v, f) Hn) in Hnd |- *. rewrite fmap_app, fmap_cons in Hnd.
  apply NoDup_app in Hnd as (_ & Hd1 & Hnd). apply NoDup_cons in Hnd as [Hd2 _].
  set (s' := set_mem _ _).
  assert (umem s' (take n us) = umem s (take n us)) as Hu1.
  { apply umem_same. intros u Hu. simpl. rewrite lookup_insert_ne; [done|]. intros ->. apply elem_of_list_to_set in Hu.
    apply (Hd1 u Hu). by left. }
  assert (umem s' (drop (S n) us) = umem s (drop (S n) us)) as Hu2.
  { apply umem_same. intros u Hu. simpl. rewrite lookup_insert_ne; [done|]. intros ->. by apply elem_of_list_to_set in Hu. }
  rewrite !umem_app, Hu1, splice_app_r by lia. f_equal. rewrite Hl1. replace (n * 4096 + o - n * 4096)%nat with o by lia.
  change (umem s' ((v, f) :: drop (S n) us)) with (page_of s' v ++ umem s' (drop (S n) us)).
  change (umem s ((v, f) :: drop (S n) us)) with (page_of s v ++ umem s (drop (S n) us)).
  rewrite Hu2, Hpo, splice_app_l by lia. f_equal. unfold page_of, s'. simpl. by rewrite lookup_insert_eq.
Qed.
End at_space.

(** ** The operations *)

(** What [allocuvm] asks of the allocator. *)
Definition room_for (A : aspace) (free : list Z) (old new : Z) : bool :=
  let n := PGROUNDUP old / PGSIZE in
  bool_decide (grow_need A n ((new + PGSIZE - 1) / PGSIZE - n) ≤ length free)%nat.

Lemma umem_zero s vs : Forall (λ v, km_mem s !! v = Some zero_page) vs →
  umem s ((λ v, (v, 7)) <$> vs) = replicate (length vs * 4096) 0.
Proof.
  induction 1 as [|v vs Hv _ IH]; [done|]. rewrite fmap_cons.
  change (umem s ((v, 7) :: ((λ v, (v, 7)) <$> vs))) with (page_of s v ++ umem s ((λ v, (v, 7)) <$> vs)).
  rewrite IH. unfold page_of. rewrite Hv. change (default [] (Some zero_page)) with (replicate 4096 0).
  rewrite <- replicate_add. done.
Qed.

Lemma sim_alloc s free A us rest v old new x :
  uspace s free A us rest → represents s us v → Z.of_nat (length us) * PGSIZE = PGROUNDUP old → 0 ≤ old < KERNBASE → 0 ≤ new →
  match allocuvm (room_for A free) v old new x with
  | Ok (v', r) _ => ∃ s' free' A' us', uvm_alloc (as_dir A) old new s = Ok r s' ∧ uspace s' free' A' us' rest ∧
      represents s' us' v' ∧ as_dir A' = as_dir A ∧ same_on rest s s'
  | Fault f => uvm_alloc (as_dir A) old new s = Fault f
  end.
Proof.
  intros Hus [Hmem Hg Hb] Hlen Ho Hnew. unfold allocuvm.
  destruct (Z.leb_spec KERNBASE new) as [Hk|Hk].
  { exists s, free, A, us. unfold uvm_alloc. rewrite (proj2 (Z.leb_le _ _)) by done. by split_and!. }
  destruct (Z.ltb_spec new old) as [Hlt|Hge].
  { exists s, free, A, us. unfold uvm_alloc. rewrite (proj2 (Z.leb_gt _ _)), (proj2 (Z.ltb_lt _ _)) by done. by split_and!. }
  pose proof (uvm_alloc_run kend s free A us rest old new Hus Hlen ltac:(lia) Hk) as H. cbv zeta in H.
  unfold room_for. rewrite <- Hlen, Z.div_mul by done. set (n := Z.of_nat (length us)) in *. set (k := (new + PGSIZE - 1) / PGSIZE - n) in *.
  destruct (decide (grow_need A n k ≤ length free)%nat) as [Hd|Hd].
  - rewrite bool_decide_eq_true_2 by done. destruct H as (s' & A' & vs & E & Hus' & Hl & Hs & Hz & Hex).
    exists s', (drop (grow_need A n k) free), A', (us ++ ((λ v, (v, 7)) <$> vs)).
    split_and!; [done|done| |apply Hex|intros u Hu; apply Hs; by apply elem_of_union_r].
    assert (PGROUNDUP new = (n + k) * PGSIZE) as Hup by (rewrite PGROUNDUP_spec by plia; unfold k; lia).
    split; simpl.
    + rewrite umem_app, (umem_zero s' vs Hz), Hmem. f_equal.
      * symmetry. apply umem_same. intros u Hu. apply Hs. by apply elem_of_union_l.
      * f_equal. rewrite Hup. plia.
    + intros m p. destruct (decide (m < length us)%nat) as [Hm|Hm]; [rewrite lookup_app_l by done; apply Hg|].
      rewrite lookup_app_r, list_lookup_fmap by lia. destruct (vs !! _); [|done]. intros [= <-]. simpl.
      rewrite bool_decide_eq_false_2; [done|]. intros Hin%Hb. plia.
    + intros g Hin%Hb. rewrite length_app. plia.
  - rewrite bool_decide_eq_false_2 by done. done.
Qed.

Lemma sim_copyout rest fuel : ∀ s free A us v va bytes x,
  uspace s free A us rest → represents s us v → 0 ≤ va < 2 ^ 32 →
  match copyout fuel v va bytes x with
  | Ok (Some v') _ => ∃ s', copy_out_loop fuel (as_dir A) va bytes s = Ok true s' ∧ uspace s' free A us rest ∧
      represents s' us v' ∧ same_on rest s s'
  | Ok None _ => ∃ s' v', copy_out_loop fuel (as_dir A) va bytes s = Ok false s' ∧ uspace s' free A us rest ∧
      represents s' us v' ∧ same_on rest s s'
  | Fault f => copy_out_loop fuel (as_dir A) va bytes s = Fault f
  end.
Proof.
  induction fuel as [|fuel IH]; intros s free A us v va bytes x Hus Hre Hva; cbn [copyout copy_out_loop]; [done|].
  destruct bytes as [|b bytes]; [exists s; by split_and!|]. set (bs := b :: bytes).
  pose proof Hre as [Hmem Hg Hb]. rewrite PGROUNDDOWN_spec by done. set (va0 := va / PGSIZE * PGSIZE).
  assert (0 ≤ va0 ∧ va0 ≤ va < va0 + PGSIZE ∧ va0 mod PGSIZE = 0) as (H0 & Hva0 & Hal) by (unfold va0; dlia).
  rewrite (mbind_Ok _ _ _ _ _ (uva_to_ka_run kend _ _ _ _ _ Hus va0 ltac:(lia))).
  assert (va0 / PGSIZE = va / PGSIZE) as -> by (unfold va0; by rewrite Z.div_mul).
  set (i := Z.to_nat (va / PGSIZE)). assert (Z.of_nat i * PGSIZE = va0) as Hi by (unfold i, va0; dlia).
  rewrite Hmem, (length_umem _ _ _ _ _ Hus). destruct (us !! i) as [[u f]|] eqn:Ei.
  2:{ apply lookup_ge_None in Ei. rewrite (proj2 (Z.leb_le _ _)) by plia. exists s, v. by split_and!. }
  pose proof (lookup_lt_Some _ _ _ Ei) as Hlt. rewrite (proj2 (Z.leb_gt _ _)) by plia. specialize (Hg _ _ Ei) as Hgi.
  rewrite Hi in Hgi. simpl in Hgi. destruct (bool_decide (va0 ∈ vm_guard v)) eqn:Eg; simpl in Hgi; rewrite Hgi; cbn [orb]; cbv iota.
  { exists s, v. by split_and!. }
  set (n := Z.to_nat (Z.min (PGSIZE - (va - va0)) (Z.of_nat (length bs)))).
  destruct (us_page kend _ _ _ _ _ Hus _ _ _ Ei) as (Hu & _ & _ & _ & _ & _ & pg & Hpg & Hpok).
  assert (u32 (u + (va - va0)) = u + (va - va0)) as -> by (apply u32_small; destruct Hu; dlia).
  rewrite (mbind_Ok _ _ _ _ _ (store_page_run u (va - va0) (take n bs) s pg Hu ltac:(plia) Hpg)).
  assert (page_of s u = pg) as Hpo by (unfold page_of; by rewrite Hpg).
  assert (length (take n bs) = n) as Hln by (rewrite length_take_le; [done|unfold n; lia]).
  assert (Z.to_nat (va - va0) + n ≤ 4096)%nat as Hfit by (unfold n; plia).
  set (s1 := set_mem _ s). set (v1 := Vm _ _).
  assert (uspace s1 free A us rest) as Hus1.
  { eapply uspace_write; [done|exact Ei|]. unfold page_ok in *. rewrite length_splice; lia. }
  assert (represents s1 us v1) as Hre1.
  { split; simpl; [|done|done]. unfold s1. rewrite <- Hpo, (umem_splice _ _ _ _ _ Hus _ _ _ _ _ Ei) by lia. f_equal. plia. }
  assert (same_on rest s s1) as Hs1.
  { intros w Hw. simpl. rewrite lookup_insert_ne; [done|]. intros ->. eapply us_rest; [apply Hus| |exact Hw].
    apply list_elem_of_fmap. exists (w, f). split; [done|by eapply list_elem_of_lookup_2]. }
  specialize (IH s1 free A us v1 (u32 (va0 + PGSIZE)) (drop n bs) x Hus1 Hre1 (u32_range _)).
  destruct (copyout fuel v1 (u32 (va0 + PGSIZE)) (drop n bs) x) as [[v'|] x'|f'].
  - destruct IH as (s' & E & H1 & H2 & H3). exists s'. split_and!; [done..|by eapply same_on_trans].
  - destruct IH as (s' & v' & E & H1 & H2 & H3). exists s', v'. split_and!; [done..|by eapply same_on_trans].
  - done.
Qed.

(** Clearing PTE_U. *)
Lemma PTE_new_clear pa f : PTE_new pa (Z.land f (u32 (Z.lnot PTE_U))) = Z.land (PTE_new pa f) (u32 (Z.lnot PTE_U)).
Proof.
  unfold PTE_new. rewrite Z.land_lor_distr_l, <- !Z.land_assoc. done.
Qed.

Lemma clear_not_user f : PTE_is_user (Z.land f (u32 (Z.lnot PTE_U))) = false.
Proof. unfold PTE_is_user. rewrite <- Z.land_assoc. change (Z.land (u32 (Z.lnot PTE_U)) PTE_U) with 0. by rewrite Z.land_0_r. Qed.

Lemma clear_present f : PTE_is_present (Z.land f (u32 (Z.lnot PTE_U))) = PTE_is_present f.
Proof. unfold PTE_is_present. rewrite <- Z.land_assoc. done. Qed.

Lemma clear_range f : 0 ≤ f < 4096 → 0 ≤ Z.land f (u32 (Z.lnot PTE_U)) < 4096.
Proof.
  intros Hf. split; [apply Z.land_nonneg; left; lia|]. destruct (decide (Z.land f (u32 (Z.lnot PTE_U)) = 0)) as [->|Hne]; [done|].
  assert (0 ≤ Z.land f (u32 (Z.lnot PTE_U))) by (apply Z.land_nonneg; left; lia).
  change 4096 with (2 ^ 12). apply Z.log2_lt_pow2; [lia|].
  eapply Z.le_lt_trans; [apply Z.log2_land; [lia|done]|]. apply Z.min_lt_iff. left.
  destruct (decide (f = 0)) as [->|]; [done|]. apply Z.log2_lt_pow2; lia.
Qed.

Lemma sim_clear s free A us rest v uva x :
  uspace s free A us rest → represents s us v → 0 ≤ uva < 2 ^ 32 →
  match clearpteu v uva x with
  | Ok v' _ => ∃ s' A' us', clear_pte_u (as_dir A) uva s = Ok tt s' ∧ uspace s' free A' us' rest ∧
      represents s' us' v' ∧ as_dir A' = as_dir A ∧ same_on rest s s'
  | Fault _ => True
  end.
Proof.
  intros Hus [Hmem Hg Hb] Hva. unfold clearpteu. rewrite Hmem, (length_umem _ _ _ _ _ Hus).
  destruct (Z.leb_spec (Z.of_nat (length us * 4096)) uva) as [|Hlt]; [done|].
  set (i := Z.to_nat (uva / PGSIZE)). assert (Z.of_nat i = uva / PGSIZE) as Hi by (unfold i; dlia).
  destruct (lookup_lt_is_Some_2 us i) as [[u f] Ei]; [unfold i; dlia|].
  destruct (us_page kend _ _ _ _ _ Hus _ _ _ Ei) as (Hu & He & Hp & Hn19 & Hmap & [t Ht] & _). rewrite Hi in *.
  set (f' := Z.land f (u32 (Z.lnot PTE_U))).
  destruct (store_pte kend s free A _ (uva / PGSIZE / 1024) t ((uva / PGSIZE) mod 1024) (Some (V2P u, f')) (us_pt _ _ _ _ _ _ Hus) Ht)
    as (s1 & E1 & Hok1 & Hs1).
  { dlia. }
  { intros pa g [= <- <-]. unfold f'. rewrite clear_present. destruct He as (? & ? & Hf). split; [|done].
    pose proof (clear_range f Hf). unfold entry_ok. tauto. }
  replace (uva / PGSIZE / 1024 * 1024 + (uva / PGSIZE) mod 1024) with (uva / PGSIZE) in Hok1 by dlia.
  set (us' := <[i := (u, f')]> us).
  assert (us'.*1 = us.*1) as Hfst.
  { unfold us'. rewrite list_fmap_insert. apply list_insert_id. by rewrite list_lookup_fmap, Ei. }
  exists s1, (set_pte (uva / PGSIZE) (Some (V2P u, f')) A), us'. split_and!; [| | |done|intros w Hw; apply Hs1; by apply elem_of_union_r].
  - unfold clear_pte_u. rewrite (walk_load kend _ _ _ _ _ Hus) by done. rewrite Ht.
    rewrite (mbind_Ok _ _ _ _ _ (load_entry kend _ _ _ _ _ Hus uva t Hva Ht)), Hmap.
    change (pte_of (Some (V2P u, f))) with (PTE_new (V2P u) f). rewrite <- PTE_new_clear. exact E1.
  - destruct (us_shape _ _ _ _ _ _ Hus) as [Hnd Hr Hl Hm Hk]. split; [by rewrite Hfst|]. split; rewrite ?Hfst; [done|done|..].
    + unfold us'. by rewrite length_insert.
    + intros n Hn. simpl. destruct (decide (n = uva / PGSIZE)) as [->|Hne].
      * rewrite lookup_partial_alter_eq. fold i. unfold us'. by rewrite list_lookup_insert_eq by (by eapply lookup_lt_Some).
      * rewrite lookup_partial_alter_ne by done. unfold us'. rewrite list_lookup_insert_ne by (unfold i; dlia). by apply Hm.
    + intros n pa g Hn. simpl. rewrite lookup_partial_alter_ne by lia. by apply Hk.
  - split; simpl.
    + unfold umem. rewrite Hfst. symmetry. apply (umem_same s s1 us). intros w Hw. apply Hs1. by apply elem_of_union_l.
    + intros n p. unfold us'. rewrite PGROUNDDOWN_spec by done. destruct (decide (n = i)) as [->|Hne].
      * rewrite list_lookup_insert_eq by (by eapply lookup_lt_Some). intros [= <-]. simpl. unfold f'. rewrite clear_not_user.
        rewrite bool_decide_eq_true_2; [done|]. rewrite Hi. by left.
      * rewrite list_lookup_insert_ne by done. intros Hn. rewrite (Hg _ _ Hn). f_equal. apply bool_decide_ext.
        rewrite elem_of_cons. split; [by right|]. intros [Heq|]; [|done]. exfalso. apply Hne. unfold i. plia.
    + intros g. unfold us'. rewrite length_insert, PGROUNDDOWN_spec by done. intros [->|Hin]%elem_of_cons; [|by apply Hb].
      apply lookup_lt_Some in Ei. unfold i in Ei. dlia.
Qed.
End rep.

(** ** Loading *)

(** The same state but for the pages of memory. *)
Definition with_kmem (m : kmem) (x : fstate) : fstate := FState (x_k x) (x_files x) (x_pipes x) m (x_proc x).

Section load.
Context (kend : Z) (devread : Z → option (nat → Z → KM (Z * list Z))).
Context (Hdev : ∀ major g ip n k, devread major = Some g → wlp (g ip n) (λ r _, Z.of_nat (length r.2) ≤ Z.max 0 n) k).
Abbreviation uspace := (uspace kend).

Lemma on_kmem_run {B} (op : MM B) m b m' x : op m = Ok b m' → on_kmem op (with_kmem m x) = Ok b (with_kmem m' x).
Proof. intros E. unfold on_kmem. simpl. by rewrite E. Qed.

Lemma on_k_with {B} (op : KM B) m x :
  on_k op (with_kmem m x) = match on_k op x with Ok b x' => Ok b (with_kmem m x') | Fault f => Fault f end.
Proof. unfold on_k. simpl. by destruct (op (x_k x)). Qed.

Lemma on_k_length ip off n x r x' :
  0 ≤ off → 0 ≤ n < 2 ^ 31 → on_k (readi devread ip off n) x = Ok r x' → Z.of_nat (length r.2) ≤ n.
Proof.
  intros Ho Hn. unfold on_k. destruct (readi devread ip off n (x_k x)) eqn:E; [|done]. intros [= <- _].
  exact (wlp_Ok _ _ _ _ _ (readi_length devread Hdev ip off n (x_k x) Ho Hn) E).
Qed.

Lemma sim_load rest addr ip offset size free A us fuel : ∀ i m v x,
  uspace m free A us rest → represents m us v → 0 ≤ addr → addr mod PGSIZE = 0 → 0 ≤ i →
  addr + size ≤ Z.of_nat (length us) * PGSIZE → size / PGSIZE + 1 - i < Z.of_nat fuel → (0 < fuel)%nat →
  match loaduvm_loop devread fuel v addr ip offset size (i * PGSIZE) x with
  | Ok r x' => ∃ m' v', uvm_load_loop devread (as_dir A) addr ip offset size (addrs i ((size + PGSIZE - 1) / PGSIZE - i)) (with_kmem m x)
        = Ok (bool_decide (is_Some r)) (with_kmem m' x') ∧
      uspace m' free A us rest ∧ represents m' us v' ∧ same_on rest m m' ∧ (∀ w, r = Some w → w = v')
  | Fault f => uvm_load_loop devread (as_dir A) addr ip offset size (addrs i ((size + PGSIZE - 1) / PGSIZE - i)) (with_kmem m x) = Fault f
  end.
Proof.
  induction fuel as [|fuel IH]; intros i m v x Hus Hre Ha Hal Hi Hend Hfuel Hpos; [lia|]. cbn [loaduvm_loop].
  destruct (Z.ltb_spec (i * PGSIZE) size) as [Hlt|Hge].
  2:{ exists m, v. unfold addrs. rewrite seqZ_nil by dlia. split_and!; [done|done|done|done|by intros w [= ->]]. }
  pose proof (us_len _ _ _ (us_shape _ _ _ _ _ _ Hus)) as Hl19. pose proof Hre as [Hmem Hg Hb].
  assert (0 ≤ addr + i * PGSIZE < 2 ^ 31) as Ha31 by plia.
  rewrite (u32_small (addr + i * PGSIZE)) by lia. rewrite Hmem, (length_umem _ _ _ _ _ _ Hus).
  rewrite (proj2 (Z.leb_gt _ _)) by plia. rewrite addrs_cons by dlia. cbn [uvm_load_loop]. rewrite (u32_small (addr + i * PGSIZE)) by lia.
  set (j := Z.to_nat ((addr + i * PGSIZE) / PGSIZE)). assert (Z.of_nat j * PGSIZE = addr + i * PGSIZE) as Hj by (unfold j; dlia).
  assert ((addr + i * PGSIZE) / PGSIZE = Z.of_nat j) as Hdj by (unfold j; dlia).
  destruct (lookup_lt_is_Some_2 us j) as [[u f] Ej]; [plia|].
  destruct (us_page kend _ _ _ _ _ Hus _ _ _ Ej) as (Hu & He & _ & _ & Hmap & [t Ht] & pg & Hpg & Hpok).
  pose proof (walk_present kend _ _ _ _ (us_pt _ _ _ _ _ _ Hus) (addr + i * PGSIZE) false t ltac:(lia)) as Hw.
  pose proof (load_entry kend _ _ _ _ _ Hus (addr + i * PGSIZE) t ltac:(lia)) as Hload. rewrite Hdj in Hw, Hload.
  rewrite (mbind_Ok _ _ _ _ _ (on_kmem_run _ _ _ _ x (Hw Ht))), (mbind_Ok _ _ _ _ _ (on_kmem_run _ _ _ _ x (Hload Ht))), Hmap.
  change (pte_of (Some (V2P u, f))) with (PTE_new (V2P u) f). rewrite PTE_address_new, P2V_V2P by (done || apply Hu).
  set (n := if size - i * PGSIZE <? PGSIZE then size - i * PGSIZE else PGSIZE).
  assert (0 ≤ n ≤ PGSIZE) as Hn by (unfold n; destruct (Z.ltb_spec (size - i * PGSIZE) PGSIZE); plia).
  pose proof (on_k_with (readi devread ip (u32 (offset + i * PGSIZE)) n) m x) as Er'.
  destruct (on_k (readi devread ip (u32 (offset + i * PGSIZE)) n) x) as [r x1|f'] eqn:Er; [|by rewrite (mbind_Fault _ _ _ _ Er), (mbind_Fault _ _ _ _ Er')].
  rewrite (mbind_Ok _ _ _ _ _ Er), (mbind_Ok _ _ _ _ _ Er').
  assert (Z.of_nat (length r.2) ≤ n) as Hlr by (eapply on_k_length; [apply u32_range|plia|exact Er]).
  pose proof (store_page_run u 0 r.2 m pg Hu ltac:(plia) Hpg) as Est. rewrite Z.add_0_r in Est.
  rewrite (mbind_Ok _ _ _ _ _ (on_kmem_run _ _ _ _ x1 Est)). set (m1 := set_mem _ m). set (v1 := Vm _ _).
  assert (page_of m u = pg) as Hpo by (unfold page_of; by rewrite Hpg).
  assert (uspace m1 free A us rest) as Hus1.
  { eapply uspace_write; [done|exact Ej|]. unfold page_ok in *. rewrite length_splice; plia. }
  assert (represents m1 us v1) as Hre1.
  { split; simpl; [|done|done]. unfold m1. rewrite <- Hpo, (umem_splice _ _ _ _ _ _ Hus _ _ _ _ _ Ej) by plia. f_equal. plia. }
  assert (same_on rest m m1) as Hs1.
  { intros w Hw'. simpl. rewrite lookup_insert_ne; [done|]. intros ->. eapply us_rest; [apply Hus| |exact Hw'].
    apply list_elem_of_fmap. exists (w, f). split; [done|by eapply list_elem_of_lookup_2]. }
  destruct (negb (u32 r.1 =? n)); [exists m1, v1; by split_and!|].
  replace (i * PGSIZE + PGSIZE) with ((i + 1) * PGSIZE) by lia. specialize (IH (i + 1) m1 v1 x1 Hus1 Hre1 Ha Hal ltac:(lia) Hend ltac:(lia) ltac:(dlia)).
  replace ((size + PGSIZE - 1) / PGSIZE - i - 1) with ((size + PGSIZE - 1) / PGSIZE - (i + 1)) by lia.
  destruct (loaduvm_loop devread fuel v1 addr ip offset size ((i + 1) * PGSIZE) x1) as [r' x'|f']; [|done].
  destruct IH as (m' & v' & E & H1 & H2 & H3 & H4). exists m', v'. split_and!; [done..|by eapply same_on_trans|done].
Qed.
End load.

(** The directory [d] holds the memory [v]; the pages [rest] are of others. *)
Definition holds_vm (kend d : Z) (rest : gset Z) (s : kmem) (v : vm) : Prop :=
  ∃ free A us, as_dir A = d ∧ uspace kend s free A us rest ∧ represents s us v.

(** C20 The page tables of vm.rs implement the memory of exec. Let the tables
    of a directory hold a memory. Then growing it, loading a segment of a
    file into it, copying bytes out to it and taking a page from the user do
    to the tables what Exec.v says of the memory: they return the same result,
    or end in the same fault, and the tables then hold the memory they should;
    growing faults exactly if the free pages are fewer than the new pages and
    the tables that are missing for them. The pages of others keep their
    bytes: in particular no address reaches a page of the kernel. *)
Theorem vm_refines kend s free A us rest v x :
  uspace kend s free A us rest → represents s us v →
  (∀ old new, PGROUNDUP old = Z.of_nat (length us) * PGSIZE → 0 ≤ old < KERNBASE → 0 ≤ new →
    match allocuvm (room_for A free) v old new x with
    | Ok (v', r) _ => ∃ s', uvm_alloc (as_dir A) old new s = Ok r s' ∧ holds_vm kend (as_dir A) rest s' v' ∧ same_on rest s s'
    | Fault f => uvm_alloc (as_dir A) old new s = Fault f
    end) ∧
  (∀ devread addr ip offset sz,
    (∀ major g ip n k, devread major = Some g → wlp (g ip n) (λ r _, Z.of_nat (length r.2) ≤ Z.max 0 n) k) →
    0 ≤ addr → 0 ≤ sz → addr + sz ≤ Z.of_nat (length us) * PGSIZE →
    match loaduvm devread v addr ip offset sz x with
    | Ok r x' => ∃ s' v', uvm_load devread (as_dir A) addr ip offset sz (with_kmem s x) = Ok (bool_decide (is_Some r)) (with_kmem s' x') ∧
        holds_vm kend (as_dir A) rest s' v' ∧ same_on rest s s' ∧ (∀ w, r = Some w → w = v')
    | Fault f => uvm_load devread (as_dir A) addr ip offset sz (with_kmem s x) = Fault f
    end) ∧
  (∀ va bytes, 0 ≤ va < 2 ^ 32 →
    match Exec.copy_out v va bytes x with
    | Ok r _ => ∃ s' v', Vm.copy_out (as_dir A) va bytes s = Ok (bool_decide (is_Some r)) s' ∧
        holds_vm kend (as_dir A) rest s' v' ∧ same_on rest s s' ∧ (∀ w, r = Some w → w = v')
    | Fault f => Vm.copy_out (as_dir A) va bytes s = Fault f
    end) ∧
  (∀ uva, 0 ≤ uva < Z.of_nat (length us) * PGSIZE →
    ∃ v' s', clearpteu v uva x = Ok v' x ∧ clear_pte_u (as_dir A) uva s = Ok tt s' ∧ holds_vm kend (as_dir A) rest s' v' ∧ same_on rest s s').
Proof.
  intros Hus Hre. split_and!.
  - intros old new Hup Ho Hn. pose proof (sim_alloc kend s free A us rest v old new x Hus Hre ltac:(done) Ho Hn) as H.
    destruct (allocuvm (room_for A free) v old new x) as [[v' r] x'|f]; [|done]. destruct H as (s' & free' & A' & us' & E & H1 & H2 & H3 & H4).
    exists s'. split_and!; [done| |done]. by exists free', A', us'.
  - intros devread addr ip offset sz Hdev Ha Hs0 Hend. unfold loaduvm, uvm_load. destruct (negb _) eqn:Eal; [done|].
    apply negb_false_iff, Z.eqb_eq in Eal.
    pose proof (sim_load kend devread Hdev rest addr ip offset sz free A us (Z.to_nat (sz / PGSIZE + 2)) 0 s v x Hus Hre Ha Eal
      ltac:(lia) Hend ltac:(dlia) ltac:(dlia)) as H.
    pose proof (step_by_addrs 0 sz) as Hst. change (0 * PGSIZE) with 0 in *. rewrite Hst.
    destruct (loaduvm_loop _ _ _ _ _ _ _ _ x) as [r x'|f]; [|done]. destruct H as (s' & v' & E & H1 & H2 & H3 & H4).
    exists s', v'. split_and!; [exact E| |done|done]. by exists free, A, us.
  - intros va bytes Hva. unfold Exec.copy_out, Vm.copy_out.
    pose proof (sim_copyout kend rest (S (length bytes)) s free A us v va bytes x Hus Hre Hva) as H.
    destruct (copyout _ v va bytes x) as [[v'|] x'|f]; [| |done].
    + destruct H as (s' & E & H1 & H2 & H3). exists s', v'. split_and!; [done| |done|by intros w [= ->]]. by exists free, A, us.
    + destruct H as (s' & v' & E & H1 & H2 & H3). exists s', v'. split_and!; [done| |done|done]. by exists free, A, us.
  - intros uva Hva. pose proof (us_len _ _ _ (us_shape _ _ _ _ _ _ Hus)) as Hl.
    pose proof (sim_clear kend s free A us rest v uva x Hus Hre ltac:(plia)) as H.
    unfold clearpteu in *. rewrite (re_mem _ _ _ Hre), (length_umem _ _ _ _ _ _ Hus) in *.
    rewrite (proj2 (Z.leb_gt _ _)) in * by plia. destruct H as (s' & A' & us' & E & H1 & H2 & H3 & H4).
    eexists _, s'. split_and!; [done|done| |done]. by exists free, A', us'.
Qed.

(** Ten bytes across the two pages of a process. *)
Lemma vm_refines_witness :
  ∃ s d, demo_start 200 (demo_kmem 200) = Ok (Some d) s ∧
  ∃ s', Vm.copy_out d 4090 (replicate 10 7) s = Ok true s' ∧
    holds_vm demo_end d ∅ s' (Vm (splice 4090 (replicate 10 7) (zero_page ++ zero_page)) []).
Proof.
  destruct (demo_process 200) as (s & free & A & us & E & Hu & Hl & Hf & Hz); [lia|]. exists s, (as_dir A). split; [exact E|].
  assert (represents s us (Vm (zero_page ++ zero_page) [])) as Hre.
  { split; [symmetry; exact Hz| |intros g Hg; apply elem_of_nil in Hg; destruct Hg].
    intros n p Hn. assert (us.*2 !! n = Some p.2) as Hn2 by (rewrite list_lookup_fmap, Hn; reflexivity). rewrite Hl in Hn2.
    destruct n as [|[|n]]; simpl in Hn2; [injection Hn2 as <-; reflexivity..|]. rewrite lookup_nil in Hn2. discriminate. }
  destruct (vm_refines demo_end s free A us ∅ (Vm (zero_page ++ zero_page) []) demo_exec Hu Hre) as (_ & _ & Hc & _).
  specialize (Hc 4090 (replicate 10 7) ltac:(lia)).
  assert (Exec.copy_out (Vm (zero_page ++ zero_page) []) 4090 (replicate 10 7) demo_exec =
    Ok (Some (Vm (splice 4090 (replicate 10 7) (zero_page ++ zero_page)) [])) demo_exec) as E2 by (vm_compute; reflexivity).
  rewrite E2 in Hc. destruct Hc as (s' & v' & E' & Hh & _ & Hv). rewrite <- (Hv _ eq_refl) in Hh. exists s'. split; [exact E'|exact Hh].
Defined.
