(* ===== verification/Sysfile.v ===== *)
(** * Sysfile: the system calls on files

    The argument fetching of kernel/src/syscall.rs and the system calls of
    kernel/c/sysfile.c, one definition each. A user address is a number, and
    the bytes at it are the process's memory; touching memory that is not
    mapped, in the kernel, is undefined here (the trap handler panics).
    [stack] is what an uninitialised [char name[DIRSIZ]] holds. *)

From S2P Require Import Prelude State Bio Log Kalloc Fs Pipe File Exec.

(** ** kernel/src/syscall.rs *)

(** A word of user memory. *)
Definition load_word (a : Z) : FM Z :=
  p ← gets x_proc;
  if (0 <=? a) && (a + 4 <=? Z.of_nat (length (u_mem p))) then mret (get_u32 (u_mem p) (Z.to_nat a))
  else undef "page fault in the kernel".

(** The bytes [bs] stored at a user address. *)
Definition store_bytes (a : Z) (bs : list Z) : FM unit :=
  p ← gets x_proc;
  if (0 <=? a) && (a + Z.of_nat (length bs) <=? Z.of_nat (length (u_mem p))) then
    modify (λ s, set_uctx (set_u_mem (splice (Z.to_nat a) bs (u_mem (x_proc s))) (x_proc s)) s)
  else undef "page fault in the kernel".

(** [n] bytes of user memory. *)
Definition load_bytes (a n : Z) : FM (list Z) :=
  p ← gets x_proc;
  if (0 <=? a) && (a + n <=? Z.of_nat (length (u_mem p))) then
    mret (slice (Z.to_nat a) (Z.to_nat n) (u_mem p))
  else undef "page fault in the kernel".

(** The C string at a user address. *)
Definition cstr (a : Z) : FM (list Z) :=
  p ← gets x_proc;
  let s := drop (Z.to_nat a) (u_mem p) in
  if bool_decide (0 ∈ s) then mret (take (strlen s) s) else undef "page fault in the kernel".

(** Fetch the int at addr from the current process. *)
Definition fetchint (addr : Z) : FM (option Z) :=
  p ← gets x_proc;
  if (u_sz p <=? addr) || (u_sz p <? u32 (addr + 4)) then mret None
  else w ← load_word addr; mret (Some (s32 w)).

(** [strlen] of syscall.rs: the elements of a [*const char] are words. *)
Fixpoint strlen_words (fuel : nat) (a : Z) : FM Z :=
  match fuel with
  | O => undef "strlen: out of fuel"
  | S fuel =>
      w ← load_word a;
      if w =? 0 then mret 0 else n ← strlen_words fuel (a + 4); mret (n + 1)
  end.

(** Fetch the nul-terminated string at addr from the current process; the
    length it returns. *)
Definition fetchstr (addr : Z) : FM (option Z) :=
  p ← gets x_proc;
  if u_sz p <=? addr then mret None
  else n ← strlen_words (S (length (u_mem p))) addr; mret (Some (s32 n)).

(** Fetch the nth 32-bit system call argument. *)
Definition argint (n : Z) : FM (option Z) :=
  p ← gets x_proc;
  fetchint (u32 (u_esp p + 4 + 4 * n)).

(** Fetch the nth word-sized system call argument as a pointer to a block of
    memory of size bytes. *)
Definition argptr (n size : Z) : FM (option Z) :=
  p ← gets x_proc;
  i ← argint n;
  match i with
  | None => mret None
  | Some i =>
      if (u_sz p <=? u32 i) || (u_sz p <? u32 (u32 i + u32 size)) then mret None else mret (Some (u32 i))
  end.

(** Fetch the nth word-sized system call argument as a string pointer. *)
Definition argstr (n : Z) : FM (option Z) :=
  addr ← argint n;
  match addr with
  | None => mret None
  | Some addr =>
      len ← fetchstr (u32 addr);
      match len with
      | None => mret None
      | Some len => mret (if len <? 0 then None else Some (u32 addr))
      end
  end.

(** The string an argument points to. *)
Definition argpath (n : Z) : FM (option (list Z)) :=
  a ← argstr n;
  match a with
  | None => mret None
  | Some a => s ← cstr a; mret (Some s)
  end.

(** [syscall]: the handler that [eax] selects. *)
Definition syscall (SYSCALLS : list (FM Z)) (eax : Z) : FM Z :=
  match (if eax =? 0 then None else SYSCALLS !! Z.to_nat (eax - 1)) with
  | Some handler => r ← handler; mret (u32 r)
  | None => panic "unknown syscall"
  end.

(** ** kernel/c/sysfile.c *)

Definition O_RDONLY : Z := 0.
Definition O_WRONLY : Z := 1.
Definition O_RDWR : Z := 2.
Definition O_CREATE : Z := 0x200.

Definition ofile_set (fd : nat) (f : option nat) : FM unit :=
  modify (λ s, set_uctx (set_u_ofile (<[fd := f]> (u_ofile (x_proc s))) (x_proc s)) s).

(** Fetch the nth word-sized system call argument as a file descriptor and
    return both the descriptor and the corresponding struct file. *)
Definition argfd (n : Z) : FM (option (nat * nat)) :=
  fd ← argint n;
  match fd with
  | None => mret None
  | Some fd =>
      if (fd <? 0) || (NOFILE <=? fd) then mret None else
      p ← gets x_proc;
      mret (f ← u_ofile p !!! Z.to_nat fd; Some (Z.to_nat fd, f))
  end.

(** Allocate a file descriptor for the given file. *)
Fixpoint fdalloc_loop (fds : list nat) (f : nat) : FM Z :=
  match fds with
  | [] => mret (-1)
  | fd :: fds =>
      p ← gets x_proc;
      match u_ofile p !!! fd with
      | None => ofile_set fd (Some f) ;; mret (Z.of_nat fd)
      | Some _ => fdalloc_loop fds f
      end
  end.
Definition fdalloc (f : nat) : FM Z := fdalloc_loop (seq 0 (Z.to_nat NOFILE)) f.

Definition set_nlink (g : Z → Z) (i : inode) : inode := set_i_nlink (s16 (g (i_nlink i))) i.

Definition DOT : list Z := [46].
Definition DOTDOT : list Z := [46; 46].

Section sysfile.
Context {AV : ArrayVec}.
Context (kend : Z).
Context (devread : Z → option (nat → Z → KM (Z * list Z)))
        (devwrite : Z → option (nat → list Z → Z → KM Z)).
Context (stack : list Z).

Definition sys_dup : FM Z :=
  a ← argfd 0;
  match a with
  | None => mret (-1)
  | Some (_, f) =>
      fd ← fdalloc f;
      if fd <? 0 then mret (-1) else
      filedup f ;;
      mret fd
  end.

Definition sys_read : FM Z :=
  a ← argfd 0;
  n ← argint 2;
  match a, n with
  | Some (_, f), Some n =>
      p ← argptr 1 n;
      match p with
      | None => mret (-1)
      | Some p =>
          r ← fileread devread f (u32 n);
          store_bytes p r.2 ;;
          mret r.1
      end
  | _, _ => mret (-1)
  end.

Definition sys_write : FM Z :=
  a ← argfd 0;
  n ← argint 2;
  match a, n with
  | Some (_, f), Some n =>
      p ← argptr 1 n;
      match p with
      | None => mret (-1)
      | Some p =>
          buf ← load_bytes p (u32 n);
          filewrite devwrite f buf
      end
  | _, _ => mret (-1)
  end.

Definition sys_close : FM Z :=
  a ← argfd 0;
  match a with
  | None => mret (-1)
  | Some (fd, f) =>
      ofile_set fd None ;;
      fileclose kend f ;;
      mret 0
  end.

(** [sizeof(struct stat)], and the fields of one as they lie in memory. *)
Definition STAT_SIZE : Z := 20.
Definition stat_put (a : nat) (st : stat) (mem : list Z) : list Z :=
  put_u32 (a + 16) (st_size st) (put_u16 (a + 12) (st_nlink st) (put_u32 (a + 8) (st_ino st)
    (put_u32 (a + 4) (st_dev st) (put_u16 a (st_type st) mem)))).

Definition sys_fstat : FM Z :=
  a ← argfd 0;
  p ← argptr 1 STAT_SIZE;
  match a, p with
  | Some (_, f), Some p =>
      r ← filestat f;
      match r.2 with
      | Some st =>
          load_bytes p STAT_SIZE ;;
          modify (λ s, set_uctx (set_u_mem (stat_put (Z.to_nat p) st (u_mem (x_proc s))) (x_proc s)) s)
      | None => mret tt
      end ;;
      mret r.1
  | _, _ => mret (-1)
  end.

(** Create the path new as a link to the same inode as old. *)
Definition link (cwd : nat) (old new : list Z) : KM Z :=
  begin_op ;;
  ip ← namei devread cwd old stack;
  match ip with
  | None => end_op ;; mret (-1)
  | Some ip =>
      ilock ip ;;
      i ← inode_at ip;
      if i_type i =? T_DIR then iunlockput ip ;; end_op ;; mret (-1) else
      inode_upd ip (set_nlink (λ n, n + 1)) ;;
      iupdate ip ;;
      iunlock ip ;;
      r ← nameiparent devread cwd new stack;
      done ← match r with
             | (None, _) => mret false
             | (Some dp, name) =>
                 ilock dp ;;
                 d ← inode_at dp;
                 i ← inode_at ip;
                 linked ← (if negb (i_dev d =? i_dev i) then mret false
                           else r ← dirlink devread devwrite dp name (i_inum i); mret (negb (r <? 0)));
                 iunlockput dp ;;
                 mret linked
             end;
      if done : bool then iput ip ;; end_op ;; mret 0
      else (* bad *)
        ilock ip ;;
        inode_upd ip (set_nlink (λ n, n - 1)) ;;
        iupdate ip ;;
        iunlockput ip ;;
        end_op ;;
        mret (-1)
  end.

Definition sys_link : FM Z :=
  old ← argpath 0;
  match old with
  | None => mret (-1)
  | Some old =>
      new ← argpath 1;
      match new with
      | None => mret (-1)
      | Some new => p ← gets x_proc; on_k (link (u_cwd p) old new)
      end
  end.

(** Is the directory dp empty except for "." and ".." ? *)
Fixpoint isdirempty_loop (fuel : nat) (dp : nat) (off : Z) : KM Z :=
  match fuel with
  | O => undef "isdirempty: out of fuel"
  | S fuel =>
      i ← inode_at dp;
      if off <? i_size i then
        r ← readi devread dp off DIRENT_SIZE;
        if negb (r.1 =? DIRENT_SIZE) then panic "isdirempty: readi" else
        if negb (de_inum (dirent_get r.2) =? 0) then mret 0
        else isdirempty_loop fuel dp (off + DIRENT_SIZE)
      else mret 1
  end.
Definition isdirempty (dp : nat) : KM Z :=
  i ← inode_at dp;
  isdirempty_loop (Z.to_nat (i_size i / DIRENT_SIZE + 2)) dp (2 * DIRENT_SIZE).

Definition unlink (cwd : nat) (path : list Z) : KM Z :=
  begin_op ;;
  r ← nameiparent devread cwd path stack;
  match r with
  | (None, _) => end_op ;; mret (-1)
  | (Some dp, name) =>
      let bad := iunlockput dp ;; end_op ;; mret (-1) in
      ilock dp ;;
      (* Cannot unlink "." or "..". *)
      if (namecmp name DOT =? 0) || (namecmp name DOTDOT =? 0) then bad else
      r ← dirlookup devread dp name;
      match r with
      | None => bad
      | Some (ip, off) =>
          ilock ip ;;
          i ← inode_at ip;
          if i_nlink i <? 1 then panic "unlink: nlink < 1" else
          empty ← (if i_type i =? T_DIR then isdirempty ip else mret 1);
          if (i_type i =? T_DIR) && (empty =? 0) then iunlockput ip ;; bad else
          r ← writei devwrite dp (replicate 16 0) off DIRENT_SIZE;
          if negb (r =? DIRENT_SIZE) then panic "unlink: writei" else
          i ← inode_at ip;
          when (i_type i =? T_DIR)
            (inode_upd dp (set_nlink (λ n, n - 1)) ;;
             iupdate dp) ;;
          iunlockput dp ;;
          inode_upd ip (set_nlink (λ n, n - 1)) ;;
          iupdate ip ;;
          iunlockput ip ;;
          end_op ;;
          mret 0
      end
  end.

Definition sys_unlink : FM Z :=
  path ← argpath 0;
  match path with
  | None => mret (-1)
  | Some path => p ← gets x_proc; on_k (unlink (u_cwd p) path)
  end.

(** The new inode's fields. *)
Definition set_created (major minor : Z) (i : inode) : inode :=
  Inode (i_dev i) (i_inum i) (i_ref i) (i_lock i) (i_valid i) (i_type i) (s16 major) (s16 minor) 1
    (i_size i) (i_addrs i).

Definition create (cwd : nat) (path : list Z) (type major minor : Z) : KM (option nat) :=
  r ← nameiparent devread cwd path stack;
  match r with
  | (None, _) => mret None
  | (Some dp, name) =>
      ilock dp ;;
      r ← dirlookup devread dp name;
      match r with
      | Some (ip, _) =>
          iunlockput dp ;;
          ilock ip ;;
          i ← inode_at ip;
          if (type =? T_FILE) && (i_type i =? T_FILE) then mret (Some ip) else
          iunlockput ip ;;
          mret None
      | None =>
          d ← inode_at dp;
          ip ← ialloc (i_dev d) type;
          ilock ip ;;
          inode_upd ip (set_created major minor) ;;
          iupdate ip ;;
          when (type =? T_DIR) (* Create . and .. entries. *)
            (inode_upd dp (set_nlink (λ n, n + 1)) ;; (* for ".." *)
             iupdate dp ;;
             i ← inode_at ip;
             d ← inode_at dp;
             r ← dirlink devread devwrite ip DOT (i_inum i);
             if r <? 0 then panic "create dots" else
             r ← dirlink devread devwrite ip DOTDOT (i_inum d);
             if r <? 0 then panic "create dots" else mret tt) ;;
          i ← inode_at ip;
          r ← dirlink devread devwrite dp name (i_inum i);
          if r <? 0 then panic "create: dirlink" else
          iunlockput dp ;;
          mret (Some ip)
      end
  end.

(** The inode that [sys_open] opens, locked, inside the transaction; if there
    is none the transaction is ended. *)
Definition open_inode (cwd : nat) (path : list Z) (omode : Z) : KM (option nat) :=
  begin_op ;;
  if negb (Z.land omode O_CREATE =? 0) then
    ip ← create cwd path T_FILE 0 0;
    match ip with
    | None => end_op ;; mret None
    | Some ip => mret (Some ip)
    end
  else
    ip ← namei devread cwd path stack;
    match ip with
    | None => end_op ;; mret None
    | Some ip =>
        ilock ip ;;
        i ← inode_at ip;
        if (i_type i =? T_DIR) && negb (omode =? O_RDONLY) then
          iunlockput ip ;; end_op ;; mret None
        else mret (Some ip)
    end.

(** [!(omode & O_WRONLY)] and [(omode & O_WRONLY) || (omode & O_RDWR)] *)
Definition b2z (b : bool) : Z := if b then 1 else 0.
Definition readable_of (omode : Z) : Z := b2z (Z.land omode O_WRONLY =? 0).
Definition writable_of (omode : Z) : Z :=
  b2z (negb (Z.land omode O_WRONLY =? 0) || negb (Z.land omode O_RDWR =? 0)).

Definition sys_open : FM Z :=
  path ← argpath 0;
  omode ← argint 1;
  match path, omode with
  | Some path, Some omode =>
      p ← gets x_proc;
      ip ← on_k (open_inode (u_cwd p) path omode);
      match ip with
      | None => mret (-1)
      | Some ip =>
          f ← filealloc;
          fd ← fdalloc f;
          if fd <? 0 then
            fileclose kend f ;;
            on_k (iunlockput ip) ;;
            on_k end_op ;;
            mret (-1)
          else
            on_k (iunlock ip) ;;
            on_k end_op ;;
            file_upd f (λ x, File FD_INODE (f_ref x) (readable_of omode) (writable_of omode)
                               (f_pipe x) (Some ip) 0) ;;
            mret fd
      end
  | _, _ => mret (-1)
  end.

(** The end of [sys_mkdir] and [sys_mknod]. *)
Definition created (m : KM (option nat)) : KM Z :=
  ip ← m;
  match ip with
  | None => end_op ;; mret (-1)
  | Some ip => iunlockput ip ;; end_op ;; mret 0
  end.

Definition sys_mkdir : FM Z :=
  on_k begin_op ;;
  path ← argpath 0;
  p ← gets x_proc;
  on_k (created (match path with
                 | None => mret None
                 | Some path => create (u_cwd p) path T_DIR 0 0
                 end)).

Definition sys_mknod : FM Z :=
  on_k begin_op ;;
  path ← argpath 0;
  major ← argint 1;
  minor ← argint 2;
  p ← gets x_proc;
  on_k (created (match path, major, minor with
                 | Some path, Some major, Some minor => create (u_cwd p) path T_DEV major minor
                 | _, _, _ => mret None
                 end)).

Definition sys_chdir : FM Z :=
  on_k begin_op ;;
  path ← argpath 0;
  p ← gets x_proc;
  ip ← match path with
       | None => mret None
       | Some path => on_k (namei devread (u_cwd p) path stack)
       end;
  match ip with
  | None => on_k end_op ;; mret (-1)
  | Some ip =>
      on_k (ilock ip) ;;
      i ← on_k (inode_at ip);
      if negb (i_type i =? T_DIR) then on_k (iunlockput ip) ;; on_k end_op ;; mret (-1) else
      on_k (iunlock ip) ;;
      on_k (iput (u_cwd p)) ;;
      on_k end_op ;;
      modify (λ s, set_uctx (set_u_cwd ip (x_proc s)) s) ;;
      mret 0
  end.

(** The loop of [sys_exec] that fetches the arguments, from [argv[i]] on. *)
Fixpoint fetch_args (uargv : Z) (idx : list Z) : FM (option (list (list Z))) :=
  match idx with
  | [] => mret None
  | i :: idx =>
      uarg ← fetchint (u32 (uargv + 4 * i));
      match uarg with
      | None => mret None
      | Some uarg =>
          if uarg =? 0 then mret (Some []) else
          len ← fetchstr (u32 uarg);
          match len with
          | None => mret None
          | Some len =>
              if len <? 0 then mret None else
              s ← cstr (u32 uarg);
              rest ← fetch_args uargv idx;
              mret (cons s <$> rest)
          end
      end
  end.

Definition sys_exec (kvm : bool) (room : Z → Z → bool) : FM Z :=
  path ← argpath 0;
  uargv ← argint 1;
  match path, uargv with
  | Some path, Some uargv =>
      argv ← fetch_args (u32 uargv) (seqZ 0 MAXARG);
      match argv with
      | None => mret (-1)
      | Some argv => exec devread stack kvm room path argv
      end
  | _, _ => mret (-1)
  end.

Definition sys_pipe : FM Z :=
  fd ← argptr 0 8;
  match fd with
  | None => mret (-1)
  | Some fd =>
      r ← pipealloc kend;
      match r with
      | None => mret (-1)
      | Some (rf, wf) =>
          fd0 ← fdalloc rf;
          fd1 ← (if fd0 <? 0 then mret (-1) else fdalloc wf);
          if (fd0 <? 0) || (fd1 <? 0) then
            when (0 <=? fd0) (ofile_set (Z.to_nat fd0) None) ;;
            fileclose kend rf ;;
            fileclose kend wf ;;
            mret (-1)
          else
            store_bytes fd (le_enc 4 fd0) ;;
            store_bytes (fd + 4) (le_enc 4 fd1) ;;
            mret 0
      end
  end.
End sysfile.
