(* ===== verification/Filewrite.v ===== *)
(** * Filewrite: from [write] to the disk

    [filewrite] of file.rs splits a write into transactions. This file puts
    the layers together: the log gives each piece a transaction of its own
    ([begin_op] and [end_op] of log.c, run by one process alone), fs.c writes
    the piece, and the commit makes it durable before the next one starts.
    [fileread] returns what was written. *)

From S2P Require Import Prelude State Bio Log LogOps LogCrash LogSafety Kalloc Fs Demo Balloc Content Grow Inode Writei Dir Pipe File.

(** ** Transactions of a process that runs alone *)

(** No transaction is open. *)
Record quiet (s : kst) : Prop := {
  q_ok : fs_ok ∅ s;
  q_nlog : nlog s = 0;
  q_out : log_outstanding (k_log s) = 0;
  q_comm : log_committing (k_log s) = 0;
  q_size : MAXOPBLOCKS < log_size (k_log s)
}.

(** One operation is in its transaction. *)
Record opened (s : kst) : Prop := {
  o_ok : fs_ok ∅ s;
  o_nlog : nlog s ≤ MAXOPBLOCKS;
  o_out : log_outstanding (k_log s) = 1;
  o_comm : log_committing (k_log s) = 0;
  o_size : MAXOPBLOCKS < log_size (k_log s)
}.

Definition with_ops (n : Z) (s : kst) : kst := set_log (set_outstanding n (k_log s)) s.

Lemma view_with_ops n s k : view (with_ops n s) k = view s k.
Proof. done. Qed.

Lemma fs_ok_log H s l :
  fs_ok H s → log_start l = log_start (k_log s) → log_size l = log_size (k_log s) → log_dev l = log_dev (k_log s) →
  log_lh l = log_lh (k_log s) → fs_ok H (set_log l s).
Proof.
  intros [Hg ? ? ? Hh ? ? Hb] E1 E2 E3 E4.
  assert (Hl : logged (set_log l s) = logged s) by (unfold logged; simpl; by rewrite E4).
  split; rewrite ?Hl; try done.
  - destruct Hg. split; simpl; by rewrite ?E1, ?E2, ?E3, ?E4.
  - intros b Hb'. unfold home. simpl. rewrite E1, E2. by apply Hh.
  - intros k b Hk. destruct (Hb k b Hk) as (Hbuf & Hbok & Hc).
    assert (klogged (set_log l s) k ↔ klogged s k) as Hkl by (unfold klogged; by rewrite Hl).
    split_and!; [|done|by rewrite Hkl]. rewrite Hbuf at 1. unfold buf_of. f_equal.
    by destruct (decide (klogged s k)), (decide (klogged (set_log l s) k)); try tauto.
Qed.

Lemma fs_ok_icache H s c : fs_ok H s → fs_ok H (set_icache c s).
Proof. by intros [? ? ? ? ? ? ? ?]. Qed.

Lemma begin_op_run s : quiet s → begin_op s = Ok tt (with_ops 1 s).
Proof.
  intros [Hok Hn Ho Hc Hs]. pose proof (ok_geom _ _ Hok) as Hg. pose proof (ok_spin _ _ Hok) as Hsp.
  unfold begin_op, acquire, release, mbind, K_bind, gets, modify, mret, K_ret.
  rewrite Hsp. simpl. rewrite Hc, Ho. simpl. rewrite <- (nlog_lh_n s Hg), Hn. simpl.
  unfold with_ops. do 2 f_equal. destruct s. simpl in *. by subst.
Qed.

Lemma with_ops_opened s : quiet s → opened (with_ops 1 s).
Proof.
  intros [Hok Hn Ho Hc Hs]. split; [by apply fs_ok_log|change (nlog (with_ops 1 s)) with (nlog s); klia|done|done|done].
Qed.

(** The state before the commit that [end_op] does. *)
Definition closing (s : kst) : kst := set_log (set_committing 1 (set_outstanding 0 (k_log s))) s.

Definition closed (s : kst) : kst :=
  let s1 := if decide (nlog s = 0) then closing s else committed (closing s) in
  set_log (set_committing 0 (k_log s1)) s1.

Lemma closing_ok s : opened s → fs_ok ∅ (closing s).
Proof. intros [Hok _ _ _ _]. by apply fs_ok_log. Qed.

Lemma end_op_run s : opened s → end_op s = Ok tt (closed s).
Proof.
  intros Hop. pose proof (closing_ok s Hop) as Hcl. destruct Hop as [Hok Hn Ho Hc Hs].
  pose proof (ok_spin _ _ Hok) as Hsp. pose proof (ok_geom _ _ Hok) as Hg.
  assert (commit (closing s) = Ok tt (if decide (nlog s = 0) then closing s else committed (closing s))) as Hcommit.
  { case_decide as Hz.
    - unfold commit, get_lh, mbind, K_bind, gets. simpl. by rewrite <- (nlog_lh_n s Hg), Hz.
    - apply commit_run; [done|]. change (nlog (closing s)) with (nlog s). unfold nlog in *. klia. }
  unfold end_op, acquire, release, mbind, K_bind, gets, modify, mret, K_ret. rewrite Hsp. simpl. rewrite Hc, Ho. simpl.
  change (filter _ [L_log]) with (@nil spinlock). change (1 - 1) with 0.
  assert (set_spin [] (set_log (set_committing 1 (set_outstanding 0 (k_log s)))
     (set_log (set_outstanding 0 (k_log s)) (set_spin [L_log] s))) = closing s) as ->.
  { unfold closing. destruct s. simpl in *. by subst. }
  rewrite Hcommit. unfold closed. set (s1 := if decide (nlog s = 0) then _ else _).
  assert (k_spin s1 = []) as Hsp1 by (unfold s1; case_decide; done).
  rewrite Hsp1. simpl. do 2 f_equal. destruct s1. simpl in *. by subst.
Qed.

Lemma closed_quiet s : opened s → quiet (closed s).
Proof.
  intros Hop. pose proof (closing_ok s Hop) as Hcl. destruct Hop as [Hok Hn Ho Hc Hs]. unfold closed. case_decide as Hz.
  - split; [by apply fs_ok_log|done|done|done|done].
  - split; [apply fs_ok_log; [by apply committed_durable|done..]|done|done|done|done].
Qed.

(** The end of a transaction changes no block outside of the log. *)
Lemma closed_view s b : opened s → home s b → view (closed s) (ROOTDEV, b) = view s (ROOTDEV, b).
Proof.
  intros Hop Hb. pose proof (closing_ok s Hop) as Hcl. unfold closed. case_decide; [done|].
  change (view (set_log _ ?s') ?k) with (view s' k). by rewrite (proj1 (proj2 (committed_durable _ Hcl) b Hb)).
Qed.

Lemma closed_rest s : k_icache (closed s) = k_icache s ∧ k_sb (closed s) = k_sb s ∧ k_pid (closed s) = k_pid s ∧
  log_start (k_log (closed s)) = log_start (k_log s) ∧ log_size (k_log (closed s)) = log_size (k_log s).
Proof. unfold closed. by case_decide. Qed.

(** With no transaction open, what the blocks show is on the disk. *)
Lemma quiet_disk s b : quiet s → view s b = disk_get (k_disk s) b.
Proof.
  intros [Hok Hn _ _ _]. unfold view. destruct (k_bcache s !! b) as [x|] eqn:E; [|done].
  destruct (ok_buf _ _ Hok _ _ E) as (_ & _ & Hc). destruct Hc as [Hc _]; [|set_solver].
  intros [_ Hl]. unfold nlog in Hn. destruct (logged s); [set_solver|done].
Qed.

(** ** Views that agree outside of the log *)

Section agree.
Context (s : kst) (Hlog : log_geom (k_log s) (k_havedisk1 s)) (Hsb : sb_geom s).
Context (v v' : bkey → list Z) (Hv : ∀ b, home s b → v' (ROOTDEV, b) = v (ROOTDEV, b)).

Lemma agree_free b : free_in s v' b = free_in s v b.
Proof. unfold free_in. by rewrite Hv by by apply bmap_home. Qed.

Lemma agree_blk i bn : file_ok s v i → blk_of v' i bn = blk_of v i bn.
Proof.
  intros Hf. unfold blk_of. destruct (bn <? NDIRECT); [done|]. destruct (Z.eqb_spec (iaddr i NDIRECT) 0); [done|].
  rewrite Hv; [done|]. by apply data_home, (f_ind _ _ _ Hf).
Qed.

Lemma agree_file i : file_ok s v i → file_ok s v' i.
Proof.
  intros Hf. pose proof (λ bn, agree_blk i bn Hf) as Hb. destruct Hf as [? ? ? F4 F5 F6 F7].
  split; try done; intros *; rewrite ?Hb, ?agree_free; auto.
Qed.

Lemma agree_content i : file_ok s v i → content v' i = content v i.
Proof.
  intros Hf. apply fbytes_ext. intros o Ho. pose proof (f_size _ _ _ Hf) as Hsz.
  unfold fbyte. rewrite agree_blk by done. rewrite Hv; [done|].
  assert (0 ≤ o / BSIZE < MAXFILE) as Hbn by (apply (div_range o); [lia|done]).
  apply data_home, (f_blk _ _ _ Hf); [done|done|done|]. apply (f_full _ _ _ Hf); [lia|].
  pose proof (Z.mul_div_le o BSIZE ltac:(done)). lia.
Qed.

Lemma agree_dino inum : inum_ok s inum → dino s v' inum = dino s v inum.
Proof. intros Hi. unfold dino. rewrite Hv; [done|]. by apply IBLOCK_home. Qed.

Lemma agree_nfree : nfree s v' = nfree s v.
Proof. unfold nfree. do 2 f_equal. apply list_filter_iff. intros b. by rewrite agree_free. Qed.
End agree.

(** ** A file between two calls *)

Record idle (s : kst) (ip : nat) (i : inode) : Prop := {
  id_quiet : quiet s;
  id_geom : sb_geom s;
  id_meta : meta_used s (view s);
  id_inode : k_icache s !! ip = Some i;
  id_lock : i_lock i = None;
  id_ref : 1 ≤ i_ref i;
  id_valid : i_valid i ≠ 0;
  id_type : i_type i ≠ T_DEV;
  id_inum : inum_ok s (i_inum i);
  id_file : file_ok s (view s) i;
  id_sync : synced s (view s) i;
  id_dinode : dinode_ok (dinode_of i)
}.

Definition lock_inode (ip : nat) (i : inode) (s : kst) : kst :=
  set_icache (<[ip := set_i_lock (Some (k_pid s)) i]> (k_icache s)) s.

Lemma ilock_run s ip i :
  k_icache s !! ip = Some i → i_lock i = None → 1 ≤ i_ref i → i_valid i ≠ 0 →
  ilock ip s = Ok tt (lock_inode ip i s).
Proof.
  intros Hi Hl Hr Hv. unfold ilock, acquiresleep, inode_put, inode_at, mbind, K_bind, gets, of_option, modify, mret, K_ret, when.
  rewrite Hi. simpl. rewrite (proj2 (Z.ltb_ge _ _)) by lia. rewrite Hi, Hl. simpl.
  rewrite list_lookup_insert_eq by by eapply lookup_lt_Some. simpl. by rewrite (proj2 (Z.eqb_neq _ _)).
Qed.

Lemma iunlock_run s ip i :
  k_icache s !! ip = Some i → i_lock i = Some (k_pid s) → 1 ≤ i_ref i →
  iunlock ip s = Ok tt (set_icache (<[ip := set_i_lock None i]> (k_icache s)) s).
Proof.
  intros Hi Hl Hr. unfold iunlock, releasesleep, inode_upd, inode_put, inode_at, mbind, K_bind, gets, of_option, modify, mret, K_ret.
  rewrite Hi. simpl. rewrite Hl. simpl. rewrite Z.eqb_refl. simpl. rewrite (proj2 (Z.ltb_ge _ _)) by lia. by rewrite Hi.
Qed.

(** ** One piece of a write *)

Lemma file_ok_lock s v i l : file_ok s v i → file_ok s v (set_i_lock l i).
Proof. by intros [? ? ? ? ? ? ?]. Qed.

Lemma unlocked_inode i z a l :
  i_lock i = None → set_i_lock None (set_i_size z (set_i_addrs a (set_i_lock l i))) = set_i_size z (set_i_addrs a i).
Proof. destruct i. simpl. by intros ->. Qed.

(** What one piece does to the file and the file system. *)
Record piece_done (s : kst) (ip : nat) (i : inode) (off : Z) (src : list Z) (s' : kst) (i' : inode) : Prop := {
  pd_idle : idle s' ip i';
  pd_content : content (view s') i' = take (Z.to_nat off) (content (view s) i) ++ src ++
                 drop (Z.to_nat (off + Z.of_nat (length src))) (content (view s) i);
  pd_size : i_size i' = Z.max (i_size i) (off + Z.of_nat (length src));
  pd_free : nfree s (view s) - new_ind i ≤ nfree s' (view s') - new_ind i' + turns off (Z.of_nat (length src));
  pd_inum : i_inum i' = i_inum i;
  pd_icache : k_icache s' = <[ip := i']> (k_icache s);
  pd_sb : k_sb s' = k_sb s;
  pd_inodes : ∀ inum, inum_ok s inum → inum ≠ i_inum i → dino s' (view s') inum = dino s (view s) inum
}.

Section piece.
Context (devwrite : Z → option (nat → list Z → Z → KM Z)).
Context (s : kst) (ip : nat) (i : inode) (src : list Z) (off : Z).
Abbreviation n := (Z.of_nat (length src)).
Context (Hid : idle s ip i) (Hoff : 0 ≤ off ≤ i_size i) (Hend : off + n ≤ MAXFILE * BSIZE) (Hsrc : Forall byte_ok src)
        (Hturns : turns off n + 3 ≤ MAXOPBLOCKS) (Hnf : turns off n + 2 ≤ nfree s (view s)).

Let s2 := lock_inode ip i (with_ops 1 s).
Let il := set_i_lock (Some (k_pid s)) i.

(** [writei] in the transaction. *)
Lemma piece_writei :
  ∃ s3 ws i3, writei devwrite ip src off n s2 = Ok n s3 ∧ op s2 MAXOPBLOCKS ws ∅ s3 ∧
    k_icache s3 = <[ip := i3]> (k_icache s2) ∧ writei_done s2 (view s2) il off src (wview ws (view s2)) i3.
Proof.
  destruct Hid as [Hq Hg Hm Hi Hl Hr Hva Ht Hin Hf Hsy Hd].
  pose proof (with_ops_opened s Hq) as [Hok Hnl Hou Hco Hsz].
  assert (fs_ok ∅ s2) as Hok2 by by apply fs_ok_icache.
  assert (in_tx s2 MAXOPBLOCKS) as Htx.
  { split; [change (nlog s2) with (nlog s); rewrite (q_nlog _ Hq); klia| |simpl; lia].
    change (nlog s2) with (nlog s). rewrite (q_nlog _ Hq). simpl. simpl in Hsz. lia. }
  enough (wp (writei devwrite ip src off n) (λ r s3, r = n ∧ ∃ ws i3, op s2 MAXOPBLOCKS ws ∅ s3 ∧
    k_icache s3 = <[ip := i3]> (k_icache s2) ∧ writei_done s2 (view s2) il off src (wview ws (view s2)) i3) s2) as Hw.
  { apply wp_run in Hw as (r & s3 & Hrun & -> & ws & i3 & Hrest). by exists s3, ws, i3. }
  pose proof (cost_nil s2 il) as Hcost.
  apply (wp_writei devwrite s2 MAXOPBLOCKS [] ip il); try done.
  - by apply op_start.
  - apply Hok2.
  - by apply (sb_geom_ext s).
  - simpl. by eapply list_lookup_insert_eq, lookup_lt_Some.
  - apply file_ok_lock. by apply (file_ok_ext s s2 (view s)).
  - lia.
  - intros s3 ws i3 Ho Hic Hdone _. split; [done|]. by exists ws, i3.
Qed.

(** The whole transaction. *)
Lemma piece_run :
  ∃ s3 s4 s5 i', begin_op s = Ok tt (with_ops 1 s) ∧ ilock ip (with_ops 1 s) = Ok tt s2 ∧
    writei devwrite ip src off n s2 = Ok n s3 ∧ iunlock ip s3 = Ok tt s4 ∧ end_op s4 = Ok tt s5 ∧
    piece_done s ip i off src s5 i'.
Proof.
  destruct piece_writei as (s3 & ws & i3 & Hrun & Ho & Hic & Hdone).
  pose proof Hid as [Hq Hg Hm Hi Hl Hr Hva Ht Hin Hf Hsy Hd].
  pose proof (op_rest _ _ _ _ _ Ho) as Hrest. injection Hrest as _ _ _ Esb _ Epid Est Esz Eou Eco Ede.
  pose proof (wd_inode _ _ _ _ _ _ _ Hdone) as Hi3.
  assert (k_icache s3 !! ip = Some i3) as Hi3'.
  { rewrite Hic. apply list_lookup_insert_eq. simpl. rewrite length_insert. by eapply lookup_lt_Some. }
  set (i' := set_i_lock None i3). set (s4 := set_icache (<[ip := i']> (k_icache s3)) s3).
  assert (opened s4) as Hop.
  { split; [apply fs_ok_icache, Ho| | | |].
    - change (nlog s4) with (nlog s3). pose proof (op_nlog _ _ _ _ _ Ho). pose proof (op_used _ _ _ _ _ Ho).
      change (nlog s2) with (nlog s) in *. rewrite (q_nlog _ Hq) in *. lia.
    - simpl. by rewrite Eou.
    - simpl. rewrite Eco. apply Hq.
    - simpl. rewrite Esz. apply Hq. }
  exists s3, s4, (closed s4), i'. split_and!; [by apply begin_op_run|by apply ilock_run|done| |by apply end_op_run|].
  { apply iunlock_run; [done|by rewrite Hi3, Epid|by rewrite Hi3]. }
  destruct (closed_rest s4) as (Cic & Csb & Cpid & Cst & Csz). set (s5 := closed s4) in *.
  assert (log_geom (k_log s4) (k_havedisk1 s4)) as Hlog4 by apply Hop.
  assert (sb_geom s4) as Hg4 by (apply (sb_geom_ext s); [done|done|done|done]).
  set (v3 := wview ws (view s2)) in *.
  assert (∀ b, home s4 b → view s5 (ROOTDEV, b) = v3 (ROOTDEV, b)) as Hv.
  { intros b Hb. unfold s5. rewrite closed_view by done. apply (op_view _ _ _ _ _ (ROOTDEV, b) Ho). }
  assert (k_sb s5 = k_sb s) as Esb5 by by rewrite Csb; simpl; rewrite Esb.
  assert (Hf4 : file_ok s4 v3 i').
  { apply file_ok_lock. apply (file_ok_ext s2 s4 v3); [done|by simpl; rewrite Esb|apply Hdone]. }
  assert (∀ inum, dino s5 (view s5) inum = dino s4 (view s5) inum) as Hdi by (intros; unfold dino; by rewrite Csb).
  assert (∀ inum, inum_ok s inum → dino s5 (view s5) inum = dino s2 v3 inum) as Hdi2.
  { intros inum Hn. rewrite Hdi, (agree_dino s4 Hlog4 Hg4 v3) by (done || (unfold inum_ok; simpl; by rewrite Esb)).
    unfold dino. simpl. by rewrite Esb. }
  split.
  - split.
    + by apply closed_quiet.
    + apply (sb_geom_ext s4); done.
    + intros b Hb. unfold free_in. rewrite Csb. change (free_in s4 (view s5) b = false).
      rewrite (agree_free s4 Hlog4 Hg4 v3) by done. unfold free_in. simpl. rewrite Esb.
      apply (wd_meta _ _ _ _ _ _ _ Hdone b). by rewrite Esb5 in Hb.
    + rewrite Cic. simpl. apply list_lookup_insert_eq. by eapply lookup_lt_Some.
    + done.
    + simpl. by rewrite Hi3.
    + simpl. by rewrite Hi3.
    + simpl. by rewrite Hi3.
    + unfold inum_ok. rewrite Esb5. change (i_inum i') with (i_inum i3). rewrite Hi3. done.
    + apply (file_ok_ext s4 s5 (view s5)); [done|done|]. by apply (agree_file s4 Hlog4 Hg4 v3).
    + unfold synced. rewrite Hdi2 by (simpl; by rewrite Hi3). apply Hdone.
    + apply (file_dinode_ok s4 Hlog4 Hg4 v3 i' i); [done| |done].
      change (i_size i') with (i_size i3). change (i_addrs i') with (i_addrs i3). unfold i'. rewrite Hi3 at 1. by apply unlocked_inode.
  - rewrite (agree_content s4 Hlog4 Hg4 v3) by done. apply (wd_content _ _ _ _ _ _ _ Hdone).
  - apply (wd_size _ _ _ _ _ _ _ Hdone).
  - assert (nfree s5 (view s5) = nfree s4 (view s5)) as -> by (unfold nfree, free_in; by rewrite Csb).
    rewrite (agree_nfree s4 Hlog4 Hg4 v3) by done. pose proof (wd_free _ _ _ _ _ _ _ Hdone) as Hfr.
    assert (nfree s4 v3 = nfree s2 v3) as -> by (unfold nfree, free_in; simpl; by rewrite Esb). done.
  - simpl. by rewrite Hi3.
  - rewrite Cic. simpl. rewrite Hic. simpl. by rewrite !list_insert_insert_eq.
  - done.
  - intros inum Hn Hne. rewrite Hdi2 by done. by apply (wd_inodes _ _ _ _ _ _ _ Hdone).
Qed.
End piece.

(** ** Replacing a range of bytes *)

Definition patch (off : nat) (bs c : list Z) : list Z := take off c ++ bs ++ drop (off + length bs) c.

Lemma patch_nil off c : patch off [] c = c.
Proof. unfold patch. simpl. by rewrite Nat.add_0_r, take_drop. Qed.

Lemma patch_patch off a b c :
  (off ≤ length c)%nat → patch (off + length a) b (patch off a c) = patch off (a ++ b) c.
Proof.
  intros Hle. unfold patch. rewrite !app_assoc.
  rewrite (take_app_le (take off c ++ a)) by (rewrite length_app, length_take; lia).
  rewrite take_ge by (rewrite length_app, length_take; lia). rewrite <- !app_assoc. do 3 f_equal.
  rewrite (app_assoc (take off c)), drop_app_ge by (rewrite length_app, length_take; lia).
  rewrite drop_drop, !length_app, length_take. f_equal. lia.
Qed.

Lemma slice_patch off bs c : (off ≤ length c)%nat → slice off (length bs) (patch off bs c) = bs.
Proof.
  intros Hle. unfold patch, slice. rewrite drop_app_length' by (rewrite length_take; lia). by rewrite take_app_length.
Qed.

(** ** The loop of [filewrite] *)

Section lift.
Context {A : Type}.

Lemma wp_on_k (m : KM A) Q s : wp m (λ a k, Q a (set_k k s)) (x_k s) → wp (on_k m) Q s.
Proof. unfold wp, on_k. by destruct (m (x_k s)). Qed.

Lemma on_k_Ok (m : KM A) a k s : m (x_k s) = Ok a k → on_k m s = Ok a (set_k k s).
Proof. unfold on_k. by intros ->. Qed.
End lift.

Lemma file_at_Ok f x s : x_files s !! f = Some x → file_at f s = Ok x s.
Proof. unfold file_at, mbind, K_bind, gets, of_option. by intros ->. Qed.

Definition pieces (n : Z) : Z := (n + (MAX - 1)) / MAX.

Lemma pieces_step n : 0 < n → pieces (n - Z.min n MAX) = pieces n - 1.
Proof.
  intros Hn. unfold pieces. change MAX with 1536. destruct (Z.min_spec n 1536) as [[? ->]|[? ->]].
  - rewrite Z.sub_diag. change ((0 + (1536 - 1)) / 1536) with 0. symmetry. apply Z.sub_move_r. rewrite Z.add_0_l.
    symmetry. apply (Z.div_unique _ _ _ (n - 1)); lia.
  - replace (n + (1536 - 1)) with (n - 1536 + (1536 - 1) + 1 * 1536) by lia. rewrite Z.div_add by lia. lia.
Qed.

Lemma pieces_pos n : 0 < n → 1 ≤ pieces n.
Proof. intros Hn. unfold pieces. change MAX with 1536. apply Z.div_le_lower_bound; lia. Qed.

Lemma turns_piece off n : 0 ≤ n ≤ MAX → turns off n ≤ 4.
Proof.
  intros Hn. unfold turns. pose proof (Z.mod_pos_bound off BSIZE ltac:(done)). change MAX with 1536 in *.
  change BSIZE with 512 in *. apply Z.lt_succ_r, Z.div_lt_upper_bound; lia.
Qed.

(** The file after [filewrite], or after some turns of its loop. *)
Record wrote (s : fstate) (f ip : nat) (x : file) (i : inode) (bs : list Z) (s' : fstate) (i' : inode) : Prop := {
  wr_idle : idle (x_k s') ip i';
  wr_content : content (view (x_k s')) i' = patch (Z.to_nat (f_off x)) bs (content (view (x_k s)) i);
  wr_inum : i_inum i' = i_inum i;
  wr_files : x_files s' = <[f := set_f_off (f_off x + Z.of_nat (length bs)) x]> (x_files s);
  wr_rest : x_pipes s' = x_pipes s ∧ x_kmem s' = x_kmem s ∧ x_proc s' = x_proc s;
  wr_sb : k_sb (x_k s') = k_sb (x_k s);
  wr_icache : k_icache (x_k s') = <[ip := i']> (k_icache (x_k s));
  wr_inodes : ∀ inum, inum_ok (x_k s) inum → inum ≠ i_inum i →
    dino (x_k s') (view (x_k s')) inum = dino (x_k s) (view (x_k s)) inum
}.

Section loop.
Context (devwrite : Z → option (nat → list Z → Z → KM Z)) (f ip : nat).

Lemma filewrite_loop_run fuel : ∀ s x i buf k,
  x_files s !! f = Some x → idle (x_k s) ip i → 0 ≤ f_off x ≤ i_size i →
  let n := Z.of_nat (length buf) in
  0 ≤ k ≤ n → f_off x + (n - k) ≤ MAXFILE * BSIZE → Forall byte_ok buf → n - k < Z.of_nat fuel →
  4 * pieces (n - k) + 2 ≤ nfree (x_k s) (view (x_k s)) - new_ind i →
  ∃ s' i', filewrite_loop devwrite fuel f ip buf k s = Ok n s' ∧ wrote s f ip x i (drop (Z.to_nat k) buf) s' i'.
Proof.
  induction fuel as [|fuel IH]; intros s x i buf k Hx Hid Hoff n Hk Hend Hb Hfuel Hnf; [lia|].
  cbn [filewrite_loop]. fold n. destruct (Z.ltb_spec k n) as [Hlt|Hge].
  2: { exists s, i. replace k with n in * by lia. split; [done|]. rewrite drop_ge by lia.
       split; try done.
       - by rewrite patch_nil.
       - simpl. rewrite Z.add_0_r. replace (set_f_off (f_off x) x) with x by by destruct x. by rewrite list_insert_id.
       - symmetry. apply list_insert_id, Hid. }
  set (n1 := Z.min (n - k) MAX). assert (0 < n1 ≤ n - k ∧ n1 ≤ MAX) as Hn1 by (unfold n1; change MAX with 1536; lia).
  set (bs := slice (Z.to_nat k) (Z.to_nat n1) buf).
  assert (Z.of_nat (length bs) = n1) as Hlen by (unfold bs; rewrite length_slice; lia).
  pose proof (turns_piece (f_off x) n1 ltac:(lia)) as Ht4. pose proof (pieces_pos (n - k) ltac:(lia)) as Hp1.
  pose proof (pieces_step (n - k) ltac:(lia)) as Hps. fold n1 in Hps.
  assert (0 ≤ new_ind i) by (unfold new_ind; case_decide; lia).
  destruct (piece_run devwrite (x_k s) ip i bs (f_off x) Hid Hoff) as (s3 & s4 & s5 & i1 & R1 & R2 & R3 & R4 & R5 & Hpd);
    [lia|by apply Forall_slice|rewrite Hlen; klia|rewrite Hlen; lia|]. rewrite Hlen in R3.
  rewrite (mbind_Ok _ _ _ _ _ (on_k_Ok _ _ _ s R1)). rewrite (mbind_Ok _ _ _ _ _ (on_k_Ok _ _ _ (set_k _ s) R2)).
  erewrite mbind_Ok by by apply file_at_Ok. rewrite (mbind_Ok _ _ _ _ _ (on_k_Ok _ _ _ (set_k _ (set_k _ s)) R3)).
  assert ((0 <? n1) = true) as -> by (apply Z.ltb_lt; lia). cbn [when].
  assert (MAXFILE * BSIZE < 2 ^ 32) by done.
  set (x1 := set_f_off (f_off x + n1) x).
  erewrite mbind_Ok; [|unfold file_upd; erewrite mbind_Ok by (by apply file_at_Ok); rewrite u32_small by lia; reflexivity].
  rewrite (mbind_Ok _ _ _ _ _ (on_k_Ok _ _ _ (set_files _ (set_k s3 _)) R4)).
  rewrite (mbind_Ok _ _ _ _ _ (on_k_Ok _ _ _ (set_k s4 _) R5)).
  rewrite (proj2 (Z.ltb_ge n1 0)), Z.eqb_refl by lia. cbn [negb].
  match goal with |- context [filewrite_loop _ _ _ _ _ _ ?s] => set (t := s) end.
  pose proof (pd_free _ _ _ _ _ _ _ Hpd) as Hfr. rewrite Hlen in Hfr. pose proof (pd_size _ _ _ _ _ _ _ Hpd) as Hsz. rewrite Hlen in Hsz.
  assert (x_files t !! f = Some x1) as Hx1 by (simpl; by eapply list_lookup_insert_eq, lookup_lt_Some).
  destruct (IH t x1 i1 buf (k + n1) Hx1 (pd_idle _ _ _ _ _ _ _ Hpd)) as (s' & i' & Hrun & Hw);
    [simpl; lia|lia|simpl; lia|done|lia|fold n; replace (n - (k + n1)) with (n - k - n1) by lia; rewrite Hps; simpl; lia|].
  exists s', i'. split; [done|].
  assert (drop (Z.to_nat k) buf = bs ++ drop (Z.to_nat (k + n1)) buf) as Hdrop.
  { unfold bs, slice. replace (Z.to_nat (k + n1)) with (Z.to_nat k + Z.to_nat n1)%nat by lia.
    by rewrite <- drop_drop, take_drop. }
  destruct Hw as [W1 W2 W3 W4 W5 W6 W7 W8]. destruct Hpd as [P1 P2 P3 P4 P5 P6 P7 P8].
  rewrite Hdrop. split; try done.
  - rewrite W2. simpl. rewrite P2. fold (patch (Z.to_nat (f_off x)) bs (content (view (x_k s)) i)).
    replace (Z.to_nat (f_off x + Z.of_nat (length bs))) with (Z.to_nat (f_off x) + length bs)%nat by lia.
    fold (patch (Z.to_nat (f_off x)) bs (content (view (x_k s)) i)).
    replace (Z.to_nat (f_off x + n1)) with (Z.to_nat (f_off x) + length bs)%nat by lia.
    apply patch_patch. unfold content. rewrite length_fbytes. lia.
  - by rewrite W3.
  - rewrite W4. simpl. rewrite list_insert_insert_eq, length_app. unfold x1, set_f_off. simpl.
    do 2 f_equal. lia.
  - by rewrite W6.
  - rewrite W7. simpl. rewrite P6. by rewrite list_insert_insert_eq.
  - intros inum Hi Hne. rewrite W8; [simpl; by apply P8| |by rewrite P5]. unfold inum_ok. simpl. by rewrite P7.
Qed.
End loop.

(** ** [filewrite] and [fileread] of a file *)

(** An open file of the inode [ip], with the offset inside the file. *)
Record open_file (s : fstate) (f ip : nat) (x : file) (i : inode) : Prop := {
  of_file : x_files s !! f = Some x;
  of_kind : f_kind x = FD_INODE;
  of_ip : f_ip x = Some ip;
  of_idle : idle (x_k s) ip i;
  of_off : 0 ≤ f_off x ≤ i_size i
}.

Lemma filewrite_run devwrite s f x ip i buf :
  let n := Z.of_nat (length buf) in
  open_file s f ip x i → f_writable x ≠ 0 → f_off x + n ≤ MAXFILE * BSIZE → Forall byte_ok buf →
  4 * pieces n + 3 ≤ nfree (x_k s) (view (x_k s)) →
  ∃ s' i', filewrite devwrite f buf s = Ok n s' ∧ wrote s f ip x i buf s' i'.
Proof.
  intros n [Hx Hk Hip Hid Hoff] Hw Hend Hb Hnf. unfold filewrite. erewrite mbind_Ok by by apply file_at_Ok.
  rewrite (proj2 (Z.eqb_neq _ _) Hw), Hk. unfold ip_of. rewrite Hip. erewrite mbind_Ok by done.
  assert (MAXFILE * BSIZE < 2 ^ 31) by done.
  destruct (filewrite_loop_run devwrite f ip (S (length buf)) s x i buf 0 Hx Hid Hoff) as (s' & i' & Hrun & Hwr);
    [lia|lia|done|lia|rewrite Z.sub_0_r; unfold new_ind; fold n; case_decide; lia|].
  exists s', i'. rewrite (mbind_Ok _ _ _ _ _ Hrun), Z.eqb_refl, s32_small by lia. by rewrite drop_0 in Hwr.
Qed.

Lemma fileread_run devread s f x ip i n :
  open_file s f ip x i → f_readable x ≠ 0 → 0 ≤ n < 2 ^ 31 →
  ∃ s', fileread devread f n s = Ok (Z.min n (i_size i - f_off x),
      slice (Z.to_nat (f_off x)) (Z.to_nat n) (content (view (x_k s)) i)) s' ∧
    x_files s' = <[f := set_f_off (f_off x + Z.min n (i_size i - f_off x)) x]> (x_files s).
Proof.
  intros [Hx Hk Hip Hid Hoff] Hr Hn. destruct Hid as [Hq Hg Hm Hi Hl Hre Hva Ht Hin Hf Hsy Hd].
  pose proof (f_size _ _ _ Hf) as Hsz. assert (MAXFILE * BSIZE < 2 ^ 31) by done.
  unfold fileread. rewrite (proj2 (Z.leb_gt _ _)) by lia. erewrite mbind_Ok by by apply file_at_Ok.
  rewrite (proj2 (Z.eqb_neq _ _) Hr), Hk. unfold ip_of. rewrite Hip. erewrite mbind_Ok by done.
  erewrite mbind_Ok by by apply on_k_Ok, ilock_run. set (k2 := lock_inode ip i (x_k s)).
  set (il := set_i_lock (Some (k_pid (x_k s))) i). set (r := Z.min n (i_size i - f_off x)).
  assert (wp (readi devread ip (f_off x) n) (λ a k, fs_eq k2 k ∧
    a = (r, slice (Z.to_nat (f_off x)) (Z.to_nat n) (content (view (x_k s)) i))) k2) as Hw.
  { apply (wp_readi devread k2 ip il); [apply fs_ok_icache, Hq|change (nlog k2) with (nlog (x_k s)); rewrite (q_nlog _ Hq); klia|
      by apply (sb_geom_ext (x_k s))|simpl; by eapply list_lookup_insert_eq, lookup_lt_Some| |done|done|lia|lia|by intros k He _].
    apply file_ok_lock. by apply (file_ok_ext (x_k s) k2 (view (x_k s))). }
  apply wp_run in Hw as (a & k3 & R3 & He & ->). rewrite (mbind_Ok _ _ _ _ _ (on_k_Ok _ _ _ (set_k k2 s) R3)). cbn [fst].
  rewrite (u32_small r) by lia. pose proof (fs_eq_icache _ _ He) as Hic. destruct He as [[c ->] _].
  assert (∃ t, when (0 <? r) (file_upd f (λ x, set_f_off (u32 (f_off x + r)) x)) (set_k (set_bcache c k2) (set_k k2 s)) = Ok tt t ∧
    x_k t = set_bcache c k2 ∧ x_files t = <[f := set_f_off (f_off x + r) x]> (x_files s)) as (t & Ht1 & Ht2 & Ht3).
  { destruct (Z.ltb_spec 0 r); cbn [when].
    - unfold file_upd. erewrite mbind_Ok by by apply file_at_Ok. rewrite u32_small by lia. by eexists.
    - eexists. split_and!; [done|done|]. assert (r = 0) as -> by lia. rewrite Z.add_0_r.
      replace (set_f_off (f_off x) x) with x by by destruct x. symmetry. by apply list_insert_id. }
  rewrite (mbind_Ok _ _ _ _ _ Ht1).
  assert (iunlock ip (x_k t) = Ok tt (set_icache (<[ip := set_i_lock None il]> (k_icache (x_k t))) (x_k t))) as R4.
  { rewrite Ht2. apply iunlock_run; [simpl; by eapply list_lookup_insert_eq, lookup_lt_Some|done|done]. }
  rewrite (mbind_Ok _ _ _ _ _ (on_k_Ok _ _ _ t R4)). eexists. by split.
Qed.

(** C2 [filewrite] of an open file, whatever the length of the buffer: the
    call splits it into transactions that each fit the log, none of the
    panics on the way ("short filewrite", "too big a transaction", no buffer)
    happens, and it returns the number of bytes. The bytes at the offset are
    then on the disk: read there, the file is the old content with the range
    replaced and extended. The offset has moved past them, the file is well
    formed and no transaction is open, and no other inode has changed. *)
Theorem filewrite_content devwrite s f x ip i buf :
  let n := Z.of_nat (length buf) in
  open_file s f ip x i → f_writable x ≠ 0 → f_off x + n ≤ MAXFILE * BSIZE → Forall byte_ok buf →
  4 * pieces n + 3 ≤ nfree (x_k s) (view (x_k s)) →
  ∃ s' i', filewrite devwrite f buf s = Ok n s' ∧ open_file s' f ip (set_f_off (f_off x + n) x) i' ∧ i_inum i' = i_inum i ∧
    content (disk_get (k_disk (x_k s'))) i' = patch (Z.to_nat (f_off x)) buf (content (view (x_k s)) i) ∧
    ∀ inum, inum_ok (x_k s) inum → inum ≠ i_inum i →
      dino (x_k s') (disk_get (k_disk (x_k s'))) inum = dino (x_k s) (disk_get (k_disk (x_k s))) inum.
Proof.
  intros n Hof Hw Hend Hb Hnf. destruct (filewrite_run devwrite s f x ip i buf Hof Hw Hend Hb Hnf) as (s' & i' & Hrun & Hwr).
  destruct Hof as [Hx Hk Hip Hid Hoff]. destruct Hwr as [W1 W2 W3 W4 W5 W6 W7 W8].
  pose proof (λ k, quiet_disk _ k (id_quiet _ _ _ W1)) as Hd'. pose proof (λ k, quiet_disk _ k (id_quiet _ _ _ Hid)) as Hd.
  exists s', i'. split_and!; [done| |done| |].
  - split; try done.
    + rewrite W4. by eapply list_lookup_insert_eq, lookup_lt_Some.
    + simpl. fold n. pose proof (f_equal length W2) as Hl. unfold content, patch in Hl.
      rewrite !length_app, length_take, length_drop, !length_fbytes in Hl. pose proof (f_size _ _ _ (id_file _ _ _ W1)). lia.
  - rewrite <- W2. apply content_ext. intros k. by rewrite Hd'.
  - intros inum Hi Hne. specialize (W8 inum Hi Hne). unfold dino in *. by rewrite <- Hd', <- Hd.
Qed.

(** C26 What is written is read back: bytes written through one descriptor of
    a file are what a read through another one at the same offset returns. *)
Theorem filewrite_fileread devread devwrite s f g x y ip i buf :
  let n := Z.of_nat (length buf) in
  open_file s f ip x i → f_writable x ≠ 0 → f_off x + n ≤ MAXFILE * BSIZE → Forall byte_ok buf →
  4 * pieces n + 3 ≤ nfree (x_k s) (view (x_k s)) →
  f ≠ g → open_file s g ip y i → f_readable y ≠ 0 → f_off y = f_off x →
  ∃ s', (filewrite devwrite f buf ;; fileread devread g n) s = Ok (n, buf) s' ∧
    x_files s' !! g = Some (set_f_off (f_off y + n) y).
Proof.
  intros n Hof Hw Hend Hb Hnf Hfg Hog Hr Hoff. assert (MAXFILE * BSIZE < 2 ^ 31) by done.
  destruct (filewrite_run devwrite s f x ip i buf Hof Hw Hend Hb Hnf) as (s1 & i1 & Hrun & [W1 W2 W3 W4 _ _ _ _]).
  pose proof (of_off _ _ _ _ _ Hof) as Ho. pose proof (of_off _ _ _ _ _ Hog) as Ho'.
  assert (n ≤ i_size i1 - f_off y) as Hn.
  { pose proof (f_equal length W2) as Hl. unfold content, patch in Hl. pose proof (f_size _ _ _ (id_file _ _ _ W1)).
    rewrite !length_app, length_take, length_drop, !length_fbytes in Hl. lia. }
  destruct (fileread_run devread s1 g y ip i1 n) as (s2 & Hread & Hfiles); [|done|lia|].
  { destruct Hog. split; try done; [|lia]. rewrite W4. by rewrite list_lookup_insert_ne. }
  exists s2. rewrite (mbind_Ok _ _ _ _ _ Hrun), Hread, Z.min_l by lia. split.
  - rewrite W2, Hoff. replace (Z.to_nat n) with (length buf) by lia. rewrite slice_patch; [done|].
    unfold content. rewrite length_fbytes. lia.
  - rewrite Hfiles, Z.min_l by lia. apply list_lookup_insert_eq. rewrite W4, length_insert.
    eapply lookup_lt_Some, Hog.
Qed.

(** ** The file system mkfs.c makes, with its file open twice *)

Definition rest_inode : inode := set_i_lock None demo_root_inode.
Definition rest_fs : kst := set_icache (<[0%nat := rest_inode]> demo_icache) (with_ops 0 demo_fs).
Definition demo_writer : file := File FD_INODE 1 0 1 None (Some 0%nat) 512.
Definition demo_reader : file := File FD_INODE 1 1 0 None (Some 0%nat) 512.
Definition demo_files : fstate :=
  FState rest_fs [demo_writer; demo_reader] ∅ (Kmem false 1 0 ∅) (UCtx [] 0 0 false [Some 0%nat; Some 1%nat] 0 [] 0 []).

Lemma rest_idle : idle rest_fs 0 rest_inode.
Proof.
  split.
  - split; [apply fs_ok_icache, fs_ok_log; [apply demo_fs_ok|done..]|done|done|done|done].
  - apply (sb_geom_ext demo_fs); [done..|apply demo_geom].
  - apply demo_meta_used.
  - done.
  - done.
  - done.
  - done.
  - done.
  - by split.
  - apply file_ok_lock. apply (file_ok_ext demo_fs rest_fs (view demo_fs)); [done|done|apply demo_root_ok].
  - vm_compute. reflexivity.
  - split_and!; try done. apply (bool_decide_unpack _). vm_compute. exact I.
Qed.

Lemma demo_open_writer : open_file demo_files 0 0 demo_writer rest_inode.
Proof. split; [done|done|done|apply rest_idle|done]. Qed.
Lemma demo_open_reader : open_file demo_files 1 0 demo_reader rest_inode.
Proof. split; [done|done|done|apply rest_idle|done]. Qed.

Lemma rest_nfree : nfree rest_fs (view rest_fs) = 940.
Proof. vm_compute. reflexivity. Qed.

(** A write of 4000 bytes, in three transactions. *)
Lemma filewrite_content_witness :
  ∃ s' i', filewrite (λ _, None) 0 (replicate 4000 7) demo_files = Ok 4000 s' ∧
    open_file s' 0 0 (set_f_off 4512 demo_writer) i' ∧ i_inum i' = 1 ∧
    content (disk_get (k_disk (x_k s'))) i' = patch 512 (replicate 4000 7) (content (view rest_fs) rest_inode) ∧
    ∀ inum, inum_ok rest_fs inum → inum ≠ 1 →
      dino (x_k s') (disk_get (k_disk (x_k s'))) inum = dino rest_fs (disk_get (k_disk rest_fs)) inum.
Proof.
  apply (filewrite_content (λ _, None) demo_files 0 demo_writer 0 rest_inode (replicate 4000 7)).
  - apply demo_open_writer.
  - discriminate.
  - rewrite length_replicate. vm_compute. discriminate.
  - apply Forall_replicate. split; [discriminate|reflexivity].
  - rewrite length_replicate. change (nfree _ _) with (nfree rest_fs (view rest_fs)). rewrite rest_nfree. vm_compute. discriminate.
Defined.

Lemma filewrite_fileread_witness :
  ∃ s', (filewrite (λ _, None) 0 (replicate 4000 7) ;; fileread (λ _, None) 1 4000) demo_files = Ok (4000, replicate 4000 7) s' ∧
    x_files s' !! 1%nat = Some (set_f_off 4512 demo_reader).
Proof.
  apply (filewrite_fileread (λ _, None) (λ _, None) demo_files 0 1 demo_writer demo_reader 0 rest_inode (replicate 4000 7)).
  - apply demo_open_writer.
  - discriminate.
  - rewrite length_replicate. vm_compute. discriminate.
  - apply Forall_replicate. split; [discriminate|reflexivity].
  - rewrite length_replicate. change (nfree _ _) with (nfree rest_fs (view rest_fs)). rewrite rest_nfree. vm_compute. discriminate.
  - discriminate.
  - apply demo_open_reader.
  - discriminate.
  - reflexivity.
Defined.
