(* ===== verification/Descriptors.v ===== *)
(** * Descriptors: file descriptors and reference counts

    The file table counts the descriptors that name each file. As long as a
    file that is closed for the last time is the last one of the table, the
    counts stay exact and every descriptor names a file, whatever the system
    calls of sysfile.c do ([descriptors_consistent]). Closing an inner file
    moves the files after it under the descriptors that name them
    ([close_moves_files]), and closing the last descriptor of an unlinked file
    reads the disk with the lock of the table held ([close_unlinked_panics]). *)

From S2P Require Import Prelude State Bio Log Kalloc Fs Pipe File Sysfile.

(** ** Counting *)

Lemma delete_insert_list {A} (l : list A) i x : delete i (<[i := x]> l) = delete i l.
Proof. revert i. induction l as [|y l IH]; intros [|i]; [done..|]. simpl. by rewrite IH. Qed.

(** How many of the holders [all] name [f]. *)
Definition holders (all : list nat) (f : nat) : nat := length (filter (λ g, g = f) all).

(** The counts [refs] are exact, and what is held is in the table. *)
Record refs_ok (refs : list Z) (all : list nat) : Prop := {
  ro_held : ∀ f, f ∈ all → (f < length refs)%nat;
  ro_count : ∀ f r, refs !! f = Some r → r = Z.of_nat (holders all f) ∧ 0 < r
}.

Lemma holders_cons f g all : holders (g :: all) f = ((if decide (g = f) then 1 else 0) + holders all f)%nat.
Proof. unfold holders. rewrite filter_cons. by case_decide. Qed.

Lemma holders_pos all f : f ∈ all ↔ (0 < holders all f)%nat.
Proof.
  unfold holders. split; intros H.
  - assert (f ∈ filter (λ g, g = f) all) as Hf by by apply list_elem_of_filter. by destruct (filter _ all); [apply elem_of_nil in Hf|simpl; lia].
  - destruct (filter (λ g, g = f) all) as [|g l] eqn:E; [simpl in H; lia|].
    assert (g ∈ filter (λ g, g = f) all) as [-> ?]%list_elem_of_filter by (rewrite E; set_solver). done.
Qed.

Lemma holders_le all f : (holders all f ≤ length all)%nat.
Proof. apply length_filter. Qed.

#[global] Instance refs_ok_perm refs : Proper ((≡ₚ) ==> iff) (refs_ok refs).
Proof.
  assert (∀ a b, a ≡ₚ b → refs_ok refs a → refs_ok refs b) as Hone.
  { intros a b Hab [H1 H2]. split; [intros f; rewrite <- Hab; apply H1|].
    intros f r Hf. unfold holders. rewrite <- Hab. by apply H2. }
  intros a b Hab. split; by apply Hone.
Qed.

(** One more holder of a file, and a new file. *)
Lemma refs_dup refs all f r : refs_ok refs all → refs !! f = Some r → refs_ok (<[f := r + 1]> refs) (f :: all).
Proof.
  intros [H1 H2] Hf. split.
  - intros g. rewrite length_insert, elem_of_cons. intros [->|Hg]; [by eapply lookup_lt_Some|by apply H1].
  - intros g r'. rewrite holders_cons. destruct (decide (f = g)) as [<-|Hne].
    + rewrite list_lookup_insert_eq by by eapply lookup_lt_Some. intros [= <-]. destruct (H2 _ _ Hf). lia.
    + rewrite list_lookup_insert_ne by done. apply H2.
Qed.

Lemma refs_new refs all : refs_ok refs all → refs_ok (refs ++ [1]) (length refs :: all).
Proof.
  intros [H1 H2]. split.
  - intros g. rewrite length_app, elem_of_cons. simpl. intros [->|Hg%H1]; lia.
  - intros g r. rewrite holders_cons. intros [Hg|[Hge Hg]]%lookup_app_Some.
    + pose proof (lookup_lt_Some _ _ _ Hg). rewrite decide_False by lia. by apply H2.
    + apply list_lookup_singleton_Some in Hg as [Hz <-]. rewrite decide_True by lia.
      destruct (holders all g) eqn:E; [lia|]. assert (g ∈ all) as Hin%H1 by (apply holders_pos; lia). lia.
Qed.

(** One holder less, when others remain. *)
Lemma refs_drop refs all f r :
  refs_ok refs (f :: all) → refs !! f = Some r → 1 < r → refs_ok (<[f := r - 1]> refs) all.
Proof.
  intros [H1 H2] Hf Hr. split.
  - intros g Hg. rewrite length_insert. apply H1. by apply elem_of_cons; right.
  - intros g r'. destruct (decide (f = g)) as [<-|Hne].
    + rewrite list_lookup_insert_eq by by eapply lookup_lt_Some. intros [= <-]. destruct (H2 _ _ Hf) as [E _].
      rewrite holders_cons, decide_True in E by done. lia.
    + rewrite list_lookup_insert_ne by done. intros Hg. specialize (H2 _ _ Hg). by rewrite holders_cons, decide_False in H2.
Qed.

(** The last holder of the last file. *)
Lemma refs_last refs all f :
  refs_ok refs (f :: all) → refs !! f = Some 1 → S f = length refs → refs_ok (delete f refs) all.
Proof.
  intros [H1 H2] Hf Hlast. assert (f ∉ all) as Hnf.
  { intros Hin%holders_pos. destruct (H2 _ _ Hf) as [E _]. rewrite holders_cons, decide_True in E by done. lia. }
  rewrite delete_take_drop, drop_ge, app_nil_r by lia. split.
  - intros g Hg. rewrite length_take. specialize (H1 g ltac:(by apply elem_of_cons; right)).
    assert (g ≠ f) by congruence. lia.
  - intros g r Hg. pose proof (lookup_lt_Some _ _ _ Hg) as Hlt. rewrite length_take in Hlt. rewrite lookup_take_lt in Hg by lia.
    specialize (H2 _ _ Hg). by rewrite holders_cons, decide_False in H2 by lia.
Qed.

(** The files that the descriptors of a process name. *)
Definition named (ofile : list (option nat)) : list nat := omap id ofile.

Lemma named_set ofile fd f : ofile !! fd = Some None → named (<[fd := Some f]> ofile) ≡ₚ f :: named ofile.
Proof.
  intros H. unfold named. rewrite <- (take_drop_middle ofile fd None H) at 2.
  rewrite insert_take_drop by by eapply lookup_lt_Some. rewrite !omap_app. simpl. by rewrite Permutation_middle.
Qed.

Lemma named_clear ofile fd f : ofile !! fd = Some (Some f) → named ofile ≡ₚ f :: named (<[fd := None]> ofile).
Proof.
  intros H. unfold named. rewrite <- (take_drop_middle ofile fd (Some f) H) at 1.
  rewrite insert_take_drop by by eapply lookup_lt_Some. rewrite !omap_app. simpl. by rewrite Permutation_middle.
Qed.

Lemma length_named ofile : (length (named ofile) ≤ length ofile)%nat.
Proof. unfold named. induction ofile as [|[x|] l IH]; cbn in *; lia. Qed.

Lemma elem_of_named ofile f : f ∈ named ofile ↔ Some f ∈ ofile.
Proof.
  unfold named. rewrite list_elem_of_omap. split; [by intros (o & Ho & <-)|]. intros H. by exists (Some f).
Qed.

(** ** What the calls do to the counts and the descriptors *)

Definition refs (s : fstate) : list Z := f_ref <$> x_files s.
Definition ofile (s : fstate) : list (option nat) := u_ofile (x_proc s).
Definition shape (s : fstate) := (refs s, ofile s).

Lemma shape_on_k {A} (m : KM A) : keeps shape (on_k m).
Proof. intros s a s'. unfold on_k. destruct (m (x_k s)); [|done]. by intros [= _ <-]. Qed.
Lemma shape_on_kmem {A} (m : MM A) : keeps shape (on_kmem m).
Proof. intros s a s'. unfold on_kmem. destruct (m (x_kmem s)); [|done]. by intros [= _ <-]. Qed.
Lemma shape_on_pipe_at {A} o (m : PM A) : keeps shape (on_pipe_at o m).
Proof. intros s a s'. unfold on_pipe_at. destruct (_ ≫= _) as [[? p]|]; [|done]. destruct (m p); [|done]. by intros [= _ <-]. Qed.
#[local] Hint Resolve shape_on_k shape_on_kmem shape_on_pipe_at : keeps.

Lemma shape_file_at f : keeps shape (file_at f). Proof. unfold file_at. solve_keeps. Qed.
Lemma shape_file_upd f g : (∀ x, f_ref (g x) = f_ref x) → keeps shape (file_upd f g).
Proof.
  intros Hg s a s'. unfold file_upd, file_at, file_put, mbind, K_bind, gets, of_option, modify, mret, K_ret.
  destruct (x_files s !! f) as [x|] eqn:E; [|done]. intros [= _ <-]. unfold shape, refs. simpl. f_equal.
  rewrite list_fmap_insert, Hg. apply list_insert_id. by rewrite list_lookup_fmap, E.
Qed.
Lemma shape_ip_of x : keeps shape (ip_of x). Proof. unfold ip_of. solve_keeps. Qed.
#[local] Hint Resolve shape_file_at shape_ip_of : keeps.
#[local] Hint Extern 1 (keeps shape (file_upd _ _)) => (apply shape_file_upd; done) : keeps.

Lemma shape_load_word a : keeps shape (load_word a). Proof. unfold load_word. solve_keeps. Qed.
Lemma shape_store_bytes a bs : keeps shape (store_bytes a bs). Proof. unfold store_bytes. solve_keeps. Qed.
Lemma shape_load_bytes a n : keeps shape (load_bytes a n). Proof. unfold load_bytes. solve_keeps. Qed.
Lemma shape_cstr a : keeps shape (cstr a). Proof. unfold cstr. solve_keeps. Qed.
#[local] Hint Resolve shape_load_word shape_store_bytes shape_load_bytes shape_cstr : keeps.
Lemma shape_fetchint a : keeps shape (fetchint a). Proof. unfold fetchint. solve_keeps. Qed.
Lemma shape_strlen_words fuel : ∀ a, keeps shape (strlen_words fuel a).
Proof. induction fuel as [|fuel IH]; intros a; cbn [strlen_words]; solve_keeps. Qed.
#[local] Hint Resolve shape_fetchint shape_strlen_words : keeps.
Lemma shape_fetchstr a : keeps shape (fetchstr a). Proof. unfold fetchstr. solve_keeps. Qed.
Lemma shape_argint n : keeps shape (argint n). Proof. unfold argint. solve_keeps. Qed.
#[local] Hint Resolve shape_fetchstr shape_argint : keeps.
Lemma shape_argptr n z : keeps shape (argptr n z). Proof. unfold argptr. solve_keeps. Qed.
Lemma shape_argstr n : keeps shape (argstr n). Proof. unfold argstr. solve_keeps. Qed.
#[local] Hint Resolve shape_argptr shape_argstr : keeps.
Lemma shape_argpath n : keeps shape (argpath n). Proof. unfold argpath. solve_keeps. Qed.
Lemma shape_argfd n : keeps shape (argfd n). Proof. unfold argfd. solve_keeps. Qed.
#[local] Hint Resolve shape_argpath shape_argfd : keeps.

Section calls.
Context {AV : ArrayVec} (kend : Z).
Context (devread : Z → option (nat → Z → KM (Z * list Z)))
        (devwrite : Z → option (nat → list Z → Z → KM Z)) (stack : list Z).

Lemma shape_filestat f : keeps shape (filestat f). Proof. unfold filestat. solve_keeps. Qed.
Lemma shape_fileread f n : keeps shape (fileread devread f n). Proof. unfold fileread. solve_keeps. Qed.
Lemma shape_filewrite_loop fuel : ∀ f ip buf i, keeps shape (filewrite_loop devwrite fuel f ip buf i).
Proof. induction fuel as [|fuel IH]; intros f ip buf i; cbn [filewrite_loop]; solve_keeps. Qed.
#[local] Hint Resolve shape_filestat shape_fileread shape_filewrite_loop : keeps.
Lemma shape_filewrite f buf : keeps shape (filewrite devwrite f buf). Proof. unfold filewrite. solve_keeps. Qed.
#[local] Hint Resolve shape_filewrite : keeps.

(** The calls that neither open nor close. *)
Definition other_calls : list (FM Z) :=
  [sys_read devread; sys_write devwrite; sys_fstat; sys_link devread devwrite stack; sys_unlink devread devwrite stack;
   sys_mkdir devread devwrite stack; sys_mknod devread devwrite stack; sys_chdir devread stack].

Lemma other_calls_shape m : m ∈ other_calls → keeps shape m.
Proof.
  intros Hm. repeat (apply elem_of_cons in Hm as [->|Hm]); [..|by apply elem_of_nil in Hm];
    unfold sys_read, sys_write, sys_fstat, sys_link, sys_unlink, sys_mkdir, sys_mknod, sys_chdir; solve_keeps.
Qed.
End calls.

(** ** The calls that change them *)

Section specs.
Context {AV : ArrayVec} (kend : Z).

Lemma wlp_shape {A} (m : FM A) Q s : keeps shape m → (∀ a s', refs s' = refs s → ofile s' = ofile s → Q a s') → wlp m Q s.
Proof. intros Hm HQ. apply (wlp_keeps shape); [done|]. intros a s' [= H1 H2]. by apply HQ. Qed.

Lemma refs_lookup s f x : x_files s !! f = Some x → refs s !! f = Some (f_ref x).
Proof. intros H. unfold refs. by rewrite list_lookup_fmap, H. Qed.

Lemma wlp_file_at f Q s : (∀ x, x_files s !! f = Some x → Q x s) → wlp (file_at f) Q s.
Proof.
  intros HQ. unfold wlp, file_at, mbind, K_bind, gets, of_option.
  destruct (x_files s !! f) as [x|] eqn:E; [|done]. by apply HQ.
Qed.

Lemma wlp_filealloc s :
  wlp filealloc (λ f s', f = length (refs s) ∧ Z.of_nat (length (refs s)) < NFILE ∧
    refs s' = refs s ++ [1] ∧ ofile s' = ofile s) s.
Proof.
  unfold filealloc. apply wlp_bind, wlp_shape; [apply shape_on_k|]. intros _ s1 E1 E2.
  apply wlp_bind, wlp_gets. rewrite try_push_spec. case_decide as Hlen; [|apply wlp_fail].
  rewrite <- E1, <- E2. unfold refs at 1 2. rewrite length_fmap. clear E1 E2.
  apply wlp_bind, wlp_modify. set (f := length (x_files s1)).
  assert (Nat.pred (length (x_files s1 ++ [file_new])) = f) as -> by (rewrite length_app; simpl; unfold f; lia).
  apply wlp_bind. unfold file_upd. apply wlp_bind, wlp_file_at. simpl. intros x Hx.
  rewrite lookup_app_r, Nat.sub_diag in Hx by done. injection Hx as <-.
  apply wlp_modify. apply wlp_bind, wlp_shape; [apply shape_on_k|]. intros _ s2 E1 E2. apply wlp_ret.
  rewrite E1, E2. split_and!; [done|done| |done]. unfold refs. simpl.
  rewrite insert_app_r_alt, Nat.sub_diag by done. by rewrite fmap_app.
Qed.

Lemma wlp_filedup f s :
  wlp (filedup f) (λ _ s', ∃ r, refs s !! f = Some r ∧ refs s' = <[f := s32 (r + 1)]> (refs s) ∧ ofile s' = ofile s) s.
Proof.
  unfold filedup. apply wlp_bind, wlp_shape; [apply shape_on_k|]. intros _ s1 E1 E2. rewrite <- E1, <- E2. clear E1 E2.
  apply wlp_bind, wlp_file_at. intros x Hx. destruct (f_ref x <? 1); [apply wlp_fail|].
  apply wlp_bind, wlp_modify. apply wlp_bind, wlp_shape; [apply shape_on_k|]. intros _ s2 E1 E2. apply wlp_ret.
  exists (f_ref x). split_and!; [by apply refs_lookup| |by rewrite E2]. rewrite E1. unfold refs. simpl.
  by rewrite list_fmap_insert.
Qed.

Lemma shape_pipeclose_at a w : keeps shape (pipeclose_at kend a w).
Proof.
  unfold pipeclose_at. apply keeps_bind; [apply shape_on_pipe_at|]. intros [|]; [|apply keeps_ret].
  apply keeps_bind; [apply keeps_of_option|]. intros p. apply keeps_bind; [by apply keeps_modify|].
  intros _. apply shape_on_kmem.
Qed.

(** The file that [position] finds is the one that is closed: its count is
    the only one that is 0. *)
Lemma closed_index s f x :
  x_files s !! f = Some x → f_ref x = 1 → (∀ g r, refs s !! g = Some r → 0 < r) →
  list_find (λ y, y = set_f_ref 0 x) (<[f := set_f_ref 0 x]> (x_files s)) = Some (f, set_f_ref 0 x).
Proof.
  intros Hx Hr Hpos. apply list_find_Some. split_and!.
  - by eapply list_lookup_insert_eq, lookup_lt_Some.
  - done.
  - intros j y Hj Hlt ->. rewrite list_lookup_insert_ne in Hj by lia.
    specialize (Hpos _ _ (refs_lookup _ _ _ Hj)). simpl in Hpos. lia.
Qed.

Lemma wlp_fileclose f s :
  (∀ g r, refs s !! g = Some r → 0 < r) →
  wlp (fileclose kend f) (λ _ s', ∃ r, refs s !! f = Some r ∧ ofile s' = ofile s ∧
    refs s' = if decide (r = 1) then delete f (refs s) else <[f := r - 1]> (refs s)) s.
Proof.
  intros Hpos. unfold fileclose. apply wlp_bind, wlp_shape; [apply shape_on_k|]. intros _ s1 E1 E2.
  rewrite <- E1 in *. rewrite <- E2. clear E1 E2. apply wlp_bind, wlp_file_at. intros x Hx.
  destruct (f_ref x <? 1); [apply wlp_fail|]. pose proof (refs_lookup _ _ _ Hx) as Hrx.
  apply wlp_bind, wlp_modify, wlp_bind. cbn [set_f_ref f_ref].
  apply (wlp_mono _ (λ _ s', ofile s' = ofile s1 ∧
    refs s' = if decide (f_ref x = 1) then delete f (refs s1) else <[f := f_ref x - 1]> (refs s1))).
  2: { intros _ s2 [E2 E1]. apply wlp_shape; [apply shape_on_k|]. intros _ s3 E3 E4.
       exists (f_ref x). rewrite E3, E4. done. }
  destruct (Z.eqb_spec (f_ref x - 1) 0) as [Hz|Hz].
  - assert (f_ref x = 1) as Hr by lia. rewrite decide_True by done. rewrite Hr. change (1 - 1) with 0.
    apply wlp_bind, wlp_gets. cbn [x_files set_files]. rewrite (closed_index s1 f x Hx Hr Hpos).
    apply wlp_bind, wlp_modify. apply wlp_shape.
    + cbn [f_kind set_f_ref f_pipe f_ip]. destruct (f_kind x); [apply keeps_ret|apply shape_pipeclose_at|].
      apply keeps_bind; [apply shape_on_k|]. intros _. apply keeps_bind; [apply shape_ip_of|]. intros ip.
      apply keeps_bind; [apply shape_on_k|]. intros _. apply shape_on_k.
    + intros _ s2 E1 E2. rewrite E1, E2. split; [done|]. unfold refs. simpl.
      rewrite av_remove_spec by (rewrite length_insert; by eapply lookup_lt_Some).
      rewrite list_fmap_delete, list_fmap_insert. by rewrite delete_insert_list.
  - rewrite decide_False by lia. apply wlp_ret. split; [done|]. unfold refs. simpl. by rewrite list_fmap_insert.
Qed.
End specs.

(** [fdalloc] takes the lowest descriptor that is free. *)
Definition set_fd (fd : nat) (o : option nat) (s : fstate) : fstate :=
  set_uctx (set_u_ofile (<[fd := o]> (ofile s)) (x_proc s)) s.

Lemma fdalloc_loop_run f s n : ∀ j,
  (j + n = length (ofile s))%nat →
  fdalloc_loop (seq j n) f s =
    match list_find (λ o, o = None) (drop j (ofile s)) with
    | Some (k, _) => Ok (Z.of_nat (j + k)) (set_fd (j + k) (Some f) s)
    | None => Ok (-1) s
    end.
Proof.
  induction n as [|n IH]; intros j Hj; [by rewrite drop_ge by lia|]. cbn [seq fdalloc_loop].
  erewrite mbind_Ok by done. destruct (lookup_lt_is_Some_2 (ofile s) j ltac:(lia)) as [o Ho].
  rewrite (drop_S _ _ _ Ho), (list_lookup_total_correct _ _ _ Ho). cbn [list_find].
  destruct o as [g|]; [rewrite decide_False by done|rewrite decide_True by done; by rewrite Nat.add_0_r].
  rewrite IH by lia. destruct (list_find _ (drop (S j) (ofile s))) as [[k o]|]; [|done]. simpl.
  by replace (j + S k)%nat with (S (j + k)) by lia.
Qed.

Lemma fdalloc_run f s :
  length (ofile s) = 16%nat →
  fdalloc f s = match list_find (λ o, o = None) (ofile s) with
                | Some (fd, _) => Ok (Z.of_nat fd) (set_fd fd (Some f) s)
                | None => Ok (-1) s
                end.
Proof. intros Hl. unfold fdalloc. by rewrite fdalloc_loop_run by done. Qed.

Lemma wlp_fdalloc f s :
  length (ofile s) = 16%nat →
  wlp (fdalloc f) (λ fd s', refs s' = refs s ∧
    (fd = -1 ∧ ofile s' = ofile s ∨
     ∃ k, fd = Z.of_nat k ∧ ofile s !! k = Some None ∧ ofile s' = <[k := Some f]> (ofile s))) s.
Proof.
  intros Hl. unfold wlp. rewrite fdalloc_run by done.
  destruct (list_find _ (ofile s)) as [[k o]|] eqn:E; [|split; [done|by left]].
  apply list_find_Some in E as (Ho & -> & _). split; [done|]. right. by exists k.
Qed.

(** ** Every run *)

(** The other processes hold [oth]; they are 63 at most, with 16 descriptors
    each. *)
Record fd_ok (oth : list nat) (s : fstate) : Prop := {
  fd_ofile : length (ofile s) = 16%nat;
  fd_files : Z.of_nat (length (refs s)) ≤ NFILE;
  fd_others : (length oth ≤ 63 * 16)%nat;
  fd_refs : refs_ok (refs s) (named (ofile s) ++ oth)
}.

(** Closing [f] once removes no file but the last. *)
Definition closable (f : nat) (s : fstate) : Prop := refs s !! f = Some 1 → S f = length (refs s).

Section runs.
Context {AV : ArrayVec} (kend : Z).
Context (devread : Z → option (nat → Z → KM (Z * list Z)))
        (devwrite : Z → option (nat → list Z → Z → KM Z)) (stack : list Z).

Inductive dstep : fstate * list nat → fstate * list nat → Prop :=
  | d_dup s r s' oth : sys_dup s = Ok r s' → dstep (s, oth) (s', oth)
  | d_open s r s' oth : sys_open kend devread devwrite stack s = Ok r s' → dstep (s, oth) (s', oth)
  | d_pipe s r s' oth : sys_pipe kend s = Ok r s' → dstep (s, oth) (s', oth)
  | d_close s r s' oth :
      (∀ fd f s1, argfd 0 s = Ok (Some (fd, f)) s1 → closable f s) → sys_close kend s = Ok r s' →
      dstep (s, oth) (s', oth)
  | d_other m s r s' oth : m ∈ other_calls devread devwrite stack → m s = Ok r s' → dstep (s, oth) (s', oth)
  (* fork and exit of the other processes *)
  | d_fork f s r s' oth :
      f ∈ named (ofile s) ++ oth → (length oth < 63 * 16)%nat → filedup f s = Ok r s' → dstep (s, oth) (s', f :: oth)
  | d_exit f s s' oth oth' :
      oth ≡ₚ f :: oth' → closable f s → fileclose kend f s = Ok tt s' → dstep (s, oth) (s', oth').

Lemma fd_pos oth s : fd_ok oth s → ∀ g r, refs s !! g = Some r → 0 < r.
Proof. intros H g r Hg. by apply (ro_count _ _ (fd_refs _ _ H)) in Hg as [_ ?]. Qed.

Lemma fd_bound oth s f r : fd_ok oth s → refs s !! f = Some r → r ≤ 16 + 63 * 16.
Proof.
  intros [H1 _ H3 H4] Hf. destruct (ro_count _ _ H4 _ _ Hf) as [-> _]. pose proof (holders_le (named (ofile s) ++ oth) f) as Hh.
  rewrite length_app in Hh. pose proof (length_named (ofile s)). lia.
Qed.

Lemma fd_same oth s s' : refs s' = refs s → ofile s' = ofile s → fd_ok oth s → fd_ok oth s'.
Proof. intros E1 E2 [? ? ? ?]. by split; rewrite ?E1, ?E2. Qed.

Lemma dup_ok oth s : fd_ok oth s → wlp sys_dup (λ _, fd_ok oth) s.
Proof.
  intros Hok. unfold sys_dup. apply wlp_bind, wlp_shape; [apply shape_argfd|]. intros a s1 E1 E2.
  apply (fd_same _ _ _ E1 E2) in Hok. clear E1 E2. destruct a as [[fd0 f]|]; [|by apply wlp_ret].
  apply wlp_bind. eapply wlp_mono; [apply wlp_fdalloc, Hok|].
  intros fd s2 [E1 [(-> & E2)|(k & -> & Hk & E2)]]; [apply wlp_ret; by apply (fd_same _ s1)|].
  rewrite (proj2 (Z.ltb_ge _ _)) by lia. apply wlp_bind. eapply wlp_mono; [apply wlp_filedup|].
  intros _ s3 (r & Hr & E3 & E4). apply wlp_ret. rewrite E1 in *. rewrite E2 in E4.
  pose proof (fd_bound _ _ _ _ Hok Hr). pose proof (fd_pos _ _ Hok _ _ Hr). destruct Hok as [H1 H2 H3 H4].
  split; rewrite ?E3, ?E4; [by rewrite length_insert|by rewrite length_insert|done|].
  rewrite s32_small by lia. rewrite named_set by done. by apply refs_dup.
Qed.
(** A new file that the descriptor [k] names. *)
Lemma fd_new oth s s' k :
  fd_ok oth s → Z.of_nat (length (refs s)) < NFILE → ofile s !! k = Some None →
  refs s' = refs s ++ [1] → ofile s' = <[k := Some (length (refs s))]> (ofile s) → fd_ok oth s'.
Proof.
  intros [H1 H2 H3 H4] Hn Hk E1 E2. split; rewrite ?E1, ?E2; [by rewrite length_insert|rewrite length_app; simpl; lia|done|].
  rewrite named_set by done. by apply refs_new.
Qed.

(** A file just made and removed again. *)
Lemma wlp_close_new oth s s1 :
  fd_ok oth s → refs s1 = refs s ++ [1] → ofile s1 = ofile s →
  wlp (fileclose kend (length (refs s))) (λ _ s', refs s' = refs s ∧ ofile s' = ofile s) s1.
Proof.
  intros Hok E1 E2. eapply wlp_mono; [apply wlp_fileclose|].
  - rewrite E1. intros g r [Hg|[_ Hg]]%lookup_app_Some; [by eapply fd_pos|]. by apply list_lookup_singleton_Some in Hg as [_ <-].
  - intros _ s2 (r & Hr & E3 & E4). rewrite E1 in *. rewrite lookup_app_r, Nat.sub_diag in Hr by done. injection Hr as <-.
    rewrite decide_True in E4 by done. rewrite E3, E4, E2. split; [|done]. by rewrite delete_middle, app_nil_r.
Qed.

Lemma open_ok oth s : fd_ok oth s → wlp (sys_open kend devread devwrite stack) (λ _, fd_ok oth) s.
Proof.
  intros Hok. unfold sys_open. apply wlp_bind, wlp_shape; [apply shape_argpath|]. intros path s1 E1 E2.
  apply (fd_same _ _ _ E1 E2) in Hok. apply wlp_bind, wlp_shape; [apply shape_argint|]. intros om s2 E3 E4.
  apply (fd_same _ _ _ E3 E4) in Hok. clear E1 E2 E3 E4.
  destruct path as [path|], om as [om|]; try by apply wlp_ret. apply wlp_bind, wlp_gets.
  apply wlp_bind, wlp_shape; [apply shape_on_k|]. intros ip s3 E1 E2. apply (fd_same _ _ _ E1 E2) in Hok. clear E1 E2.
  destruct ip as [ip|]; [|by apply wlp_ret]. apply wlp_bind. eapply wlp_mono; [apply wlp_filealloc|].
  intros f s4 (-> & Hn & E1 & E2). apply wlp_bind. eapply wlp_mono; [apply wlp_fdalloc; rewrite E2; apply Hok|].
  intros fd s5 [E3 [(-> & E4)|(k & -> & Hk & E4)]]; cbn [Z.ltb Z.compare].
  - apply wlp_bind. eapply wlp_mono; [apply (wlp_close_new oth s3 s5); [done|congruence|congruence]|].
    intros _ s6 [E5 E6]. apply (fd_same oth s3 s6) in Hok; [|done..].
    apply wlp_bind, wlp_shape; [apply shape_on_k|]. intros _ s7 E7 E8.
    apply wlp_bind, wlp_shape; [apply shape_on_k|]. intros _ s8 E9 E10. apply wlp_ret. apply (fd_same _ s6); congruence.
  - rewrite (proj2 (Z.ltb_ge _ _)) by lia.
    apply wlp_bind, wlp_shape; [apply shape_on_k|]. intros _ s7 E7 E8.
    apply wlp_bind, wlp_shape; [apply shape_on_k|]. intros _ s8 E9 E10.
    apply wlp_bind, wlp_shape; [by apply shape_file_upd|]. intros _ s9 E11 E12. apply wlp_ret.
    rewrite E2 in *. apply (fd_new oth s3 s9 k); [done|done|done|congruence|congruence].
Qed.

(** Of two files just made, closing the first leaves nothing at the place of
    the second: the call does not return. *)
Lemma wlp_close_two {A} oth s s1 (k : FM A) Q :
  fd_ok oth s → refs s1 = (refs s ++ [1]) ++ [1] →
  wlp (fileclose kend (length (refs s)) ;; fileclose kend (S (length (refs s))) ;; k) Q s1.
Proof.
  intros Hok E1.
  assert (∀ g r, refs s1 !! g = Some r → 0 < r) as Hpos.
  { rewrite E1. intros g r [[Hg|[_ Hg]]%lookup_app_Some|[_ Hg]]%lookup_app_Some; [by eapply fd_pos| |];
      by apply list_lookup_singleton_Some in Hg as [_ <-]. }
  apply wlp_bind. eapply wlp_mono; [by apply wlp_fileclose|].
  intros _ s2 (r & Hr & E2 & E3). rewrite E1, <- app_assoc in *. change ([1] ++ [1]) with [1; 1] in *. rewrite lookup_app_r, Nat.sub_diag in Hr by done. injection Hr as <-.
  rewrite decide_True, delete_middle in E3 by done. apply wlp_bind. eapply wlp_mono; [apply wlp_fileclose|].
  - rewrite E3. intros g r [Hg|[_ Hg]]%lookup_app_Some; [by eapply fd_pos|]. by apply list_lookup_singleton_Some in Hg as [_ <-].
  - intros _ s3 (r & Hr & _). rewrite E3, lookup_ge_None_2 in Hr; [done|]. rewrite length_app. simpl. lia.
Qed.

Lemma wlp_pipealloc oth s :
  fd_ok oth s →
  wlp (pipealloc kend) (λ r s', ∃ f, f = length (refs s) ∧ r = Some (f, S f) ∧ Z.of_nat (S f) < NFILE ∧
    refs s' = (refs s ++ [1]) ++ [1] ∧ ofile s' = ofile s) s.
Proof.
  intros Hok. unfold pipealloc. apply wlp_bind. eapply wlp_mono; [apply wlp_filealloc|]. intros f0 s1 (-> & Hn1 & E1 & E2).
  apply wlp_bind. eapply wlp_mono; [apply wlp_filealloc|]. intros f1 s2 (-> & Hn2 & E3 & E4).
  rewrite E1, length_app in *. cbn [length] in *. rewrite Nat.add_1_r in *.
  apply wlp_bind, wlp_shape; [apply shape_on_kmem|]. intros p s3 E5 E6. destruct (p =? 0).
  - apply (wlp_close_two oth s); [done|congruence].
  - apply wlp_bind, wlp_shape; [apply shape_on_kmem|]. intros pg s4 E7 E8. apply wlp_bind, wlp_modify.
    apply wlp_bind, wlp_shape; [by apply shape_file_upd|]. intros _ s5 E9 E10.
    apply wlp_bind, wlp_shape; [by apply shape_file_upd|]. intros _ s6 E11 E12. apply wlp_ret.
    eexists. split_and!; [done|done|done| |].
    + rewrite E11, E9. unfold refs at 1. simpl. fold (refs s4). congruence.
    + rewrite E12, E10. unfold ofile at 1. simpl. fold (ofile s4). congruence.
Qed.

Lemma pipe_ok_step oth s : fd_ok oth s → wlp (sys_pipe kend) (λ _, fd_ok oth) s.
Proof.
  intros Hok. unfold sys_pipe. apply wlp_bind, wlp_shape; [apply shape_argptr|]. intros a s1 E1 E2.
  apply (fd_same _ _ _ E1 E2) in Hok. clear E1 E2. destruct a as [a|]; [|by apply wlp_ret].
  apply wlp_bind. eapply wlp_mono; [by apply (wlp_pipealloc oth)|]. intros r s2 (f & -> & -> & Hn & E1 & E2).
  apply wlp_bind. eapply wlp_mono; [apply wlp_fdalloc; rewrite E2; apply Hok|].
  intros fd0 s3 [E3 [(-> & E4)|(k & -> & Hk & E4)]].
  - cbn [Z.ltb Z.compare]. apply wlp_bind, wlp_ret. cbn [Z.ltb Z.compare orb Z.leb when]. apply wlp_bind, wlp_ret.
    apply (wlp_close_two oth s1); [done|congruence].
  - rewrite (proj2 (Z.ltb_ge (Z.of_nat k) 0)) by lia. apply wlp_bind.
    eapply wlp_mono; [apply wlp_fdalloc; rewrite E4, length_insert, E2; apply Hok|].
    intros fd1 s4 [E5 [(-> & E6)|(k' & -> & Hk' & E6)]]; cbn [orb].
    + cbn [Z.ltb Z.compare]. rewrite (proj2 (Z.leb_le 0 (Z.of_nat k))) by lia. cbn [when]. apply wlp_bind, wlp_modify.
      apply (wlp_close_two oth s1); [done|]. change (refs s4 = (refs s1 ++ [1]) ++ [1]). congruence.
    + rewrite (proj2 (Z.ltb_ge (Z.of_nat k') 0)) by lia.
      apply wlp_bind, wlp_shape; [apply shape_store_bytes|]. intros _ s5 E7 E8.
      apply wlp_bind, wlp_shape; [apply shape_store_bytes|]. intros _ s6 E9 E10. apply wlp_ret.
      destruct Hok as [H1 H2 H3 H4].
      assert (ofile s6 = <[k' := Some (S (length (refs s1)))]> (<[k := Some (length (refs s1))]> (ofile s1))) as Eo by congruence.
      assert (refs s6 = (refs s1 ++ [1]) ++ [1]) as Er by congruence.
      split; rewrite ?Eo, ?Er; [by rewrite !length_insert|rewrite !length_app; simpl; lia|done|].
      rewrite named_set by congruence. rewrite E2 in Hk. rewrite named_set by done.
      replace (S (length (refs s1))) with (length (refs s1 ++ [1])) by (rewrite length_app; simpl; lia).
      by apply refs_new, refs_new.
Qed.
Lemma argfd_Some n s fd f s1 :
  length (ofile s) = 16%nat → argfd n s = Ok (Some (fd, f)) s1 → shape s1 = shape s ∧ ofile s !! fd = Some (Some f).
Proof.
  intros Hl H. split; [by eapply shape_argfd|]. unfold argfd, mbind, K_bind in H.
  destruct (argint n s) as [v s2|] eqn:E; [|done]. apply shape_argint in E as [= _ E2]. destruct v as [v|]; [|done].
  destruct (Z.ltb_spec v 0); [done|]. destruct (Z.leb_spec NOFILE v); [done|]. simpl in H. injection H as H _.
  destruct (u_ofile (x_proc s2) !!! Z.to_nat v) as [g|] eqn:Eg; [|done]. simpl in H. injection H as <- <-.
  fold (ofile s2) in Eg. rewrite E2 in Eg. apply list_lookup_alt. split; [|done]. rewrite Hl. klia.
Qed.

(** One holder of [f] less: what [fileclose] does to the counts. *)
Lemma fd_closed all f r s s' :
  refs_ok (refs s) (f :: all) → closable f s → refs s !! f = Some r →
  refs s' = (if decide (r = 1) then delete f (refs s) else <[f := r - 1]> (refs s)) →
  refs_ok (refs s') all ∧ (length (refs s') ≤ length (refs s))%nat.
Proof.
  intros H Hc Hr ->. case_decide as E.
  - subst. split; [by apply refs_last; [..|apply Hc]|]. rewrite length_delete by by eexists. lia.
  - rewrite length_insert. split; [|done]. apply refs_drop; [done|done|]. destruct (ro_count _ _ H _ _ Hr). lia.
Qed.

Lemma close_ok oth s :
  fd_ok oth s → (∀ fd f s1, argfd 0 s = Ok (Some (fd, f)) s1 → closable f s) →
  wlp (sys_close kend) (λ _, fd_ok oth) s.
Proof.
  intros Hok Hc. unfold sys_close. apply wlp_bind. eapply wlp_mono; [apply wlp_self|]. intros a s1 Ha.
  destruct a as [[fd f]|]; [|apply wlp_ret; apply shape_argfd in Ha as [= E1 E2]; by apply (fd_same _ s)].
  destruct (argfd_Some 0 s fd f s1 (fd_ofile _ _ Hok) Ha) as [[= E1 E2] Hfd].
  apply wlp_bind, wlp_modify, wlp_bind. eapply wlp_mono; [apply wlp_fileclose|].
  { change (∀ g r, refs s1 !! g = Some r → 0 < r). rewrite E1. by eapply fd_pos. }
  intros _ s2 (r & Hr & E3 & E4). apply wlp_ret. change (refs s1 !! f = Some r) in Hr.
  change (refs s2 = if decide (r = 1) then delete f (refs s1) else <[f := r - 1]> (refs s1)) in E4. rewrite E1 in *.
  assert (ofile s2 = <[fd := None]> (ofile s)) as Eo by (rewrite E3, <- E2; done).
  destruct Hok as [H1 H2 H3 H4]. rewrite (named_clear _ _ _ Hfd) in H4.
  destruct (fd_closed _ f r s s2 H4 (Hc fd f s1 Ha) Hr E4) as [Hrefs Hlen].
  split; rewrite ?Eo; [by rewrite length_insert|lia|done|done].
Qed.

Lemma fork_ok f oth s :
  fd_ok oth s → f ∈ named (ofile s) ++ oth → (length oth < 63 * 16)%nat →
  wlp (filedup f) (λ _, fd_ok (f :: oth)) s.
Proof.
  intros Hok Hf Hl. eapply wlp_mono; [apply wlp_filedup|]. intros _ s' (r & Hr & E1 & E2).
  pose proof (fd_bound _ _ _ _ Hok Hr). pose proof (fd_pos _ _ Hok _ _ Hr). destruct Hok as [H1 H2 H3 H4].
  split; rewrite ?E1, ?E2; [done|by rewrite length_insert|simpl; lia|].
  rewrite s32_small by lia. rewrite <- Permutation_middle. by apply refs_dup.
Qed.

Lemma exit_ok f oth oth' s :
  fd_ok oth s → oth ≡ₚ f :: oth' → closable f s → wlp (fileclose kend f) (λ _, fd_ok oth') s.
Proof.
  intros Hok Hp Hc. eapply wlp_mono; [apply wlp_fileclose; by eapply fd_pos|]. intros _ s' (r & Hr & E1 & E2).
  destruct Hok as [H1 H2 H3 H4]. rewrite Hp, <- Permutation_middle in H4.
  destruct (fd_closed _ f r s s' H4 Hc Hr E2) as [Hrefs Hlen].
  apply Permutation_length in Hp. simpl in Hp. split; [by rewrite E1|lia|lia|by rewrite E1].
Qed.

Lemma dstep_ok s oth s' oth' : dstep (s, oth) (s', oth') → fd_ok oth s → fd_ok oth' s'.
Proof.
  intros Hstep Hok. inversion Hstep; clear Hstep; subst;
    match goal with E : ?m _ = Ok _ _ |- _ =>
      match m with
      | sys_dup => exact (wlp_Ok _ _ _ _ _ (dup_ok _ _ Hok) E)
      | sys_open _ _ _ _ => exact (wlp_Ok _ _ _ _ _ (open_ok _ _ Hok) E)
      | sys_pipe _ => exact (wlp_Ok _ _ _ _ _ (pipe_ok_step _ _ Hok) E)
      | sys_close _ => refine (wlp_Ok _ _ _ _ _ (close_ok _ _ Hok _) E)
      | filedup _ => refine (wlp_Ok _ _ _ _ _ (fork_ok _ _ _ Hok _ _) E)
      | fileclose _ _ => refine (wlp_Ok _ _ _ _ _ (exit_ok _ _ _ _ Hok _ _) E)
      | _ => apply (other_calls_shape devread devwrite stack m ltac:(done)) in E; injection E as ? ?; by apply (fd_same _ s)
      end
    end; done.
Qed.

(** C8 The descriptors and the file table agree in every run of the system
    calls on files, with forks and exits of other processes in between, in
    which a file closed for the last time is the last of the table: every
    descriptor names a file that is in the table (so no call finds a
    dangling pointer), the reference count of each file is the number of
    descriptors that name it and is not 0, and the tables stay within their
    sizes. *)
Theorem descriptors_consistent s oth s' oth' :
  fd_ok oth s → rtc dstep (s, oth) (s', oth') →
  length (ofile s') = 16%nat ∧ Z.of_nat (length (x_files s')) ≤ NFILE ∧
  (∀ fd f, ofile s' !! fd = Some (Some f) → ∃ x, file_at f s' = Ok x s') ∧
  ∀ f x, x_files s' !! f = Some x → f_ref x = Z.of_nat (holders (named (ofile s') ++ oth') f) ∧ 0 < f_ref x.
Proof.
  intros Hok Hrun. assert (fd_ok oth' s') as [H1 H2 _ [H3 H4]].
  { remember (s, oth) as a eqn:Ea. remember (s', oth') as b eqn:Eb. revert s oth Ea Hok.
    induction Hrun as [|a [s1 oth1] b Hac Hcb IH]; intros s oth -> Hok; [by simplify_eq|].
    by eapply IH, dstep_ok. }
  split_and!; [done|by unfold refs in H2; rewrite length_fmap in H2| |].
  - intros fd f Hf. specialize (H3 f). unfold refs in H3. rewrite length_fmap in H3.
    destruct (lookup_lt_is_Some_2 (x_files s') f) as [x Hx].
    { apply H3. rewrite elem_of_app, elem_of_named. left. by eapply list_elem_of_lookup_2. }
    exists x. unfold file_at, mbind, K_bind, gets, of_option. by rewrite Hx.
  - intros f x Hx. apply H4. by apply refs_lookup.
Qed.
End runs.

(** ** Closing an inner file *)

Definition tabs (s : fstate) := (x_files s, ofile s).

Lemma tabs_on_k {A} (m : KM A) : keeps tabs (on_k m).
Proof. intros s a s'. unfold on_k. destruct (m (x_k s)); [|done]. by intros [= _ <-]. Qed.
Lemma tabs_on_kmem {A} (m : MM A) : keeps tabs (on_kmem m).
Proof. intros s a s'. unfold on_kmem. destruct (m (x_kmem s)); [|done]. by intros [= _ <-]. Qed.
Lemma tabs_on_pipe_at {A} o (m : PM A) : keeps tabs (on_pipe_at o m).
Proof. intros s a s'. unfold on_pipe_at. destruct (_ ≫= _) as [[? p]|]; [|done]. destruct (m p); [|done]. by intros [= _ <-]. Qed.
#[local] Hint Resolve tabs_on_k tabs_on_kmem tabs_on_pipe_at : keeps.
Lemma tabs_argfd n : keeps tabs (argfd n).
Proof. unfold argfd, argint, fetchint, load_word. solve_keeps. Qed.

Section moves.
Context {AV : ArrayVec} (kend : Z).

Lemma wlp_tabs {A} (m : FM A) Q s :
  keeps tabs m → (∀ a s', x_files s' = x_files s → ofile s' = ofile s → Q a s') → wlp m Q s.
Proof. intros Hm HQ. apply (wlp_keeps tabs); [done|]. intros a s' [= H1 H2]. by apply HQ. Qed.

(** The last close takes the file out of the table. *)
Lemma wlp_fileclose_last f x s :
  x_files s !! f = Some x → f_ref x = 1 → (∀ g r, refs s !! g = Some r → 0 < r) →
  wlp (fileclose kend f) (λ _ s', x_files s' = delete f (x_files s) ∧ ofile s' = ofile s) s.
Proof.
  intros Hx Hr Hpos. unfold fileclose. apply wlp_bind, wlp_tabs; [apply tabs_on_k|]. intros _ s1 E1 E2.
  apply wlp_bind, wlp_file_at. rewrite E1, Hx. intros y [= <-]. rewrite Hr. cbn [Z.ltb Z.compare Pos.compare Pos.compare_cont].
  change (1 - 1) with 0. apply wlp_bind, wlp_modify, wlp_bind. cbn [f_ref set_f_ref Z.eqb].
  apply wlp_bind, wlp_gets. cbn [x_files set_files]. rewrite E1, (closed_index s f x Hx Hr Hpos).
  apply wlp_bind, wlp_modify. apply wlp_tabs.
  - cbn [f_kind set_f_ref f_pipe f_ip]. destruct (f_kind x); unfold pipeclose_at, ip_of; solve_keeps.
  - intros _ s2 E3 E4. apply wlp_tabs; [apply tabs_on_k|]. intros _ s3 E5 E6. rewrite E5, E6, E3, E4.
    split; [|done]. simpl. rewrite av_remove_spec by (rewrite length_insert; by eapply lookup_lt_Some).
    apply delete_insert_list.
Qed.

(** C40 Closing, for the last time, a file that is not the last of the table
    moves the files after it: a descriptor that names a later file is left as
    it is, and names the next file after the call; if its file was the last
    one, it points past the end of the table, and every use of it is
    undefined. *)
Theorem close_moves_files oth s fd f fd' g s1 r s' :
  fd_ok oth s → argfd 0 s = Ok (Some (fd, f)) s1 → refs s !! f = Some 1 →
  fd ≠ fd' → ofile s !! fd' = Some (Some g) → (f < g)%nat → sys_close kend s = Ok r s' →
  ofile s' !! fd' = Some (Some g) ∧
  file_at g s' = match x_files s !! S g with
                 | Some x => Ok x s'
                 | None => Fault (FUndef "struct file* past the end of the table")
                 end.
Proof.
  intros Hok Ha Hr Hne Hg Hlt Hrun. pose proof (tabs_argfd _ _ _ _ Ha) as [= E1 E2].
  enough (wlp (sys_close kend) (λ _ s', x_files s' = delete f (x_files s) ∧ ofile s' = <[fd := None]> (ofile s)) s) as Hw.
  { destruct (wlp_Ok _ _ _ _ _ Hw Hrun) as [E3 E4]. rewrite E4, list_lookup_insert_ne by done. split; [done|].
    unfold file_at, mbind, K_bind, gets, of_option. rewrite E3, list_lookup_delete_ge by lia. by destruct (x_files s !! S g). }
  unfold refs in Hr. rewrite list_lookup_fmap in Hr. destruct (x_files s !! f) as [x|] eqn:Hx; [|done]. injection Hr as Hr.
  unfold sys_close. apply wlp_bind. unfold wlp. rewrite Ha. fold (@wlp fstate Z).
  change (wlp (ofile_set fd None ;; fileclose kend f ;; mret 0) (λ _ s', x_files s' = delete f (x_files s) ∧ ofile s' = <[fd := None]> (ofile s)) s1).
  apply wlp_bind, wlp_modify, wlp_bind. eapply wlp_mono; [apply (wlp_fileclose_last f x)|].
  - simpl. by rewrite E1.
  - done.
  - change (∀ g r, refs s1 !! g = Some r → 0 < r). unfold refs. rewrite E1. by eapply fd_pos.
  - intros _ s2 [E3 E4]. apply wlp_ret. rewrite E3, E4. simpl. rewrite E1. split; [done|]. by rewrite <- E2.
Qed.
End moves.

(** ** Pointers into the process *)

Lemma argint_same n : keeps (λ s, s) (argint n).
Proof. unfold argint, fetchint, load_word. solve_keeps. Qed.

(** C38 [argptr] keeps the kernel inside the process: for a size that is not
    negative, the block it returns lies below [proc->sz]. *)
Theorem argptr_block n size s p s' :
  u_sz (x_proc s) ≤ KERNBASE → 0 ≤ size < 2 ^ 31 → argptr n size s = Ok (Some p) s' →
  s' = s ∧ 0 ≤ p ∧ p + size ≤ u_sz (x_proc s).
Proof.
  intros Hsz Hsize. unfold argptr. erewrite mbind_Ok by done. unfold mbind, K_bind.
  destruct (argint n s) as [v s1|] eqn:E; [|done]. apply argint_same in E as ->. destruct v as [v|]; [|done].
  pose proof (u32_range v) as Hv. change KERNBASE with (2 ^ 31) in Hsz.
  destruct (Z.leb_spec (u_sz (x_proc s)) (u32 v)); [done|]. rewrite (u32_small size) by lia. rewrite (u32_small (u32 v + size)) by lia.
  destruct (Z.ltb_spec (u_sz (x_proc s)) (u32 v + size)); [done|]. intros [= <- <-]. split; [done|lia].
Qed.

(** ** A process to try it on *)

#[local] Instance list_arrayvec : ArrayVec :=
  Build_ArrayVec (λ f l, if decide (Z.of_nat (length l) < NFILE) then Some (l ++ [f]) else None) (λ i l, delete i l)
    (λ f l, eq_refl) (λ i l _, eq_refl).

(** A pipe: descriptor 0 reads, 1 writes. The first argument of the call is
    in the word at 4, the second at 8. *)
Definition demo_call (a0 a1 a2 : Z) : fstate :=
  FState (KS ∅ [] true ∅ (Log 2 31 0 0 ROOTDEV (Logheader 0 (replicate 30 0))) (Superblock 0 0 0 0 0 0 0) [] [] 1)
    [File FD_PIPE 1 1 0 (Some 4096) None 0; File FD_PIPE 1 0 1 (Some 4096) None 0]
    {[ 4096 := pipe_init (replicate 512 0) ]} (Kmem false 1 0 ∅)
    (UCtx (put_u32 4 a0 (put_u32 8 a1 (put_u32 12 a2 (replicate 64 0)))) 64 0 false
       (Some 0%nat :: Some 1%nat :: replicate 14 None) 0 [] 0 []).

Lemma demo_fd_ok a0 a1 a2 : fd_ok [] (demo_call a0 a1 a2).
Proof.
  split; [done|done|simpl; lia|]. split.
  - intros f. rewrite app_nil_r, elem_of_named. change (length (refs _)) with 2%nat.
    change (ofile _) with (Some 0%nat :: Some 1%nat :: replicate 14 None). rewrite !elem_of_cons.
    intros [[= ->]|[[= ->]|H]]; [lia|lia|]. by apply elem_of_replicate in H as [? _].
  - intros [|[|f]] r; simpl; [by intros [= <-]|by intros [= <-]|done].
Qed.

Lemma descriptors_consistent_witness :
  ∃ s', rtc (dstep 0 (λ _, None) (λ _, None) []) (demo_call 1 0 0, []) (s', []) ∧
    ofile s' !! 2%nat = Some (Some 1%nat) ∧ length (ofile s') = 16%nat ∧ Z.of_nat (length (x_files s')) ≤ NFILE ∧
    (∀ fd f, ofile s' !! fd = Some (Some f) → ∃ x, file_at f s' = Ok x s') ∧
    ∀ f x, x_files s' !! f = Some x → f_ref x = Z.of_nat (holders (named (ofile s') ++ []) f) ∧ 0 < f_ref x.
Proof.
  destruct (sys_dup (demo_call 1 0 0)) as [r s'|] eqn:E; [|vm_compute in E; discriminate E].
  assert (rtc (dstep 0 (λ _, None) (λ _, None) []) (demo_call 1 0 0, []) (s', [])) as Hrun by exact (rtc_once _ _ (d_dup _ _ _ _ _ _ _ _ E)).
  exists s'. split; [exact Hrun|]. split; [vm_compute in E; injection E as _ <-; reflexivity|].
  exact (descriptors_consistent 0 (λ _, None) (λ _, None) [] (demo_call 1 0 0) [] s' [] (demo_fd_ok 1 0 0) Hrun).
Defined.

(** Closing the read end first. *)
Lemma close_moves_files_witness :
  ∃ s', sys_close 0 (demo_call 0 0 0) = Ok 0 s' ∧ ofile s' !! 1%nat = Some (Some 1%nat) ∧
    file_at 1 s' = Fault (FUndef "struct file* past the end of the table").
Proof.
  destruct (sys_close 0 (demo_call 0 0 0)) as [r s'|] eqn:E; [|vm_compute in E; discriminate E].
  exists s'. split; [vm_compute in E; injection E as <- <-; reflexivity|].
  apply (close_moves_files 0 [] (demo_call 0 0 0) 0 0 1 1 (demo_call 0 0 0) r s').
  - apply demo_fd_ok.
  - reflexivity.
  - reflexivity.
  - discriminate.
  - reflexivity.
  - lia.
  - exact E.
Defined.

Lemma argptr_block_witness : ∃ s', argptr 0 40 (demo_call 16 0 0) = Ok (Some 16) s' ∧ 16 + 40 ≤ 64.
Proof.
  destruct (argptr_block 0 40 (demo_call 16 0 0) 16 (demo_call 16 0 0)) as (E & _ & H).
  - discriminate.
  - split; [discriminate|reflexivity].
  - reflexivity.
  - exists (demo_call 16 0 0). split; [reflexivity|exact H].
Defined.

(** A negative size passes the check: [read(0, p, -1)]. *)
Lemma argptr_negative : argptr 1 (-1) (demo_call 0 63 (-1)) = Ok (Some 63) (demo_call 0 63 (-1)).
Proof. vm_compute. reflexivity. Qed.

(** A string that ends inside the process, but not before a word that is
    zero: [argstr] runs off the end of memory. *)
Lemma argstr_runs_off :
  let s := demo_call 0 0 0 in
  let s := set_uctx (UCtx (put_u32 4 61 (replicate 60 0 ++ [1; 97; 0; 1])) 64 0 false (ofile s) 0 [] 0 []) s in
  cstr 61 s = Ok [97] s ∧ argstr 0 s = Fault (FUndef "page fault in the kernel").
Proof. vm_compute. done. Qed.

(** With one descriptor left, [sys_pipe] closes the read end and then the
    place where the write end was. *)
Lemma sys_pipe_no_descriptor :
  let s := demo_call 16 0 0 in
  let s := set_uctx (set_u_ofile (replicate 15 (Some 0%nat) ++ [None]) (x_proc s)) s in
  let s := set_kmem (Kmem false 1 8192 {[ 8192 := replicate 4096 0 ]}) s in
  sys_pipe 0 s = Fault (FUndef "struct file* past the end of the table").
Proof. vm_compute. reflexivity. Qed.

(** ** Closing a file that has no name any more *)

Section unlinked.
Abbreviation locks := (Fault (FPanic "enter_scheduler: locks")).

(** A state in which the disk cannot be read: a spin lock is held, and nothing
    is cached. *)
Record stuck (s : kst) : Prop := {
  sk_cache : k_bcache s = ∅;
  sk_spin : k_spin s = [L_ftable];
  sk_disk : k_havedisk1 s = true
}.

Lemma bread_stuck s dev b : stuck s → u32 b < FSSIZE → bread dev b s = locks.
Proof.
  intros [Hc Hsp Hd] Hb. set (k := (u32 dev, u32 b)). set (bf := Buf 0 (Some (k_pid s)) 1 zero_block).
  set (s1 := set_bcache {[k := bf]} s).
  assert (bget k s = Ok tt s1) as E1.
  { unfold bget, mbind, K_bind, gets, modify. cbn [k_bcache k_pid set_bcache]. rewrite Hc, map_filter_empty, lookup_empty, map_size_empty.
    change (NBUF <=? Z.of_nat 0) with false. unfold buf_put, modify. cbn [k_bcache set_bcache]. done. }
  assert (buf_at k s1 = Ok bf s1) as E2.
  { unfold buf_at, mbind, K_bind, gets. unfold s1. cbn [k_bcache set_bcache]. by rewrite lookup_singleton_eq. }
  unfold bread. rewrite (mbind_Ok _ _ _ _ _ E1), (mbind_Ok _ _ _ _ _ E2). change (Z.land (b_flags bf) B_VALID =? 0) with true. cbn [when].
  apply mbind_Fault. unfold iderw. rewrite (mbind_Ok _ _ _ _ _ E2), (mbind_Ok _ _ _ (k_pid s) s1) by done.
  change (holdingsleep (k_pid s) (b_lock bf)) with (k_pid s =? k_pid s). rewrite Z.eqb_refl. cbn [negb].
  change (Z.land (b_flags bf) (Z.lor B_VALID B_DIRTY) =? B_VALID) with false. cbv iota.
  rewrite (mbind_Ok _ _ _ true s1) by (unfold gets; change (k_havedisk1 s1) with (k_havedisk1 s); by rewrite Hd).
  rewrite andb_false_r. cbn [snd]. rewrite (proj2 (Z.leb_gt _ _) Hb). cbv iota.
  rewrite (mbind_Ok _ _ _ [L_ftable] s1) by (unfold gets; change (k_spin s1) with (k_spin s); by rewrite Hsp). done.
Qed.

Lemma bfree_stuck s dev b : stuck s → BBLOCK b (k_sb s) < FSSIZE → bfree dev b s = locks.
Proof.
  intros Hs Hb. unfold bfree. rewrite (mbind_Ok _ _ _ _ _ (eq_refl : gets k_sb s = Ok (k_sb s) s)).
  apply mbind_Fault, bread_stuck; [done|]. unfold BBLOCK in *. rewrite u32_small; [done|]. apply u32_range.
Qed.

Lemma itrunc_stuck ip i s :
  stuck s → k_icache s !! ip = Some i → IBLOCK (i_inum i) (k_sb s) < FSSIZE →
  (∀ n, 0 ≤ i_addrs i !!! n < FSSIZE ∧ BBLOCK (i_addrs i !!! n) (k_sb s) < FSSIZE) → itrunc ip s = locks.
Proof.
  intros Hs Hip Hib Ha. assert (inode_at ip s = Ok i s) as Hat.
  { unfold inode_at, mbind, K_bind, gets. by rewrite Hip. }
  assert (∀ n, addr_get ip n s = Ok (i_addrs i !!! Z.to_nat n) s) as Hget.
  { intros n. unfold addr_get. by rewrite (mbind_Ok _ _ _ _ _ Hat). }
  unfold itrunc. match goal with |- (for_each _ ?body ≫= _) s = _ => assert (∀ ns, for_each ns body s = Ok tt s ∨ for_each ns body s = locks) as Hloop end.
  { induction ns as [|n ns IH]; [by left|]. cbn [for_each].
    destruct (Z.eqb_spec (i_addrs i !!! Z.to_nat n) 0) as [E|E].
    - rewrite (mbind_Ok _ _ _ tt s); [done|]. rewrite (mbind_Ok _ _ _ _ _ (Hget n)). by rewrite E.
    - right. apply mbind_Fault. rewrite (mbind_Ok _ _ _ _ _ (Hget n)). rewrite (proj2 (Z.eqb_neq _ _) E). cbn [negb when].
      rewrite (mbind_Ok _ _ _ _ _ Hat). apply mbind_Fault, bfree_stuck; [done|apply Ha]. }
  destruct (Hloop (seqZ 0 NDIRECT)) as [E|E]; [|by apply mbind_Fault]. rewrite (mbind_Ok _ _ _ _ _ E).
  rewrite (mbind_Ok _ _ _ _ _ (Hget NDIRECT)). destruct (Ha (Z.to_nat NDIRECT)) as [[Hl Hh] _].
  destruct (Z.eqb_spec (i_addrs i !!! Z.to_nat NDIRECT) 0) as [E0|E0]; cbn [negb when].
  - rewrite (mbind_Ok _ _ _ tt s) by done. set (s1 := set_icache (<[ip := set_i_size 0 i]> (k_icache s)) s).
    rewrite (mbind_Ok _ _ _ tt s1).
    + unfold iupdate. rewrite (mbind_Ok _ _ _ (set_i_size 0 i) s1).
      * rewrite (mbind_Ok _ _ _ _ _ (eq_refl : gets k_sb s1 = Ok (k_sb s1) s1)). apply mbind_Fault, bread_stuck; [by destruct Hs|].
        change (IBLOCK (i_inum (set_i_size 0 i)) (k_sb s1)) with (IBLOCK (i_inum i) (k_sb s)).
        unfold IBLOCK in *. rewrite u32_small; [done|]. apply u32_range.
      * unfold inode_at, mbind, K_bind, gets. cbn [k_icache set_icache s1]. unfold s1. cbn [k_icache set_icache].
        rewrite list_lookup_insert_eq by (by eapply lookup_lt_Some). done.
    + unfold inode_upd. rewrite (mbind_Ok _ _ _ _ _ Hat). done.
  - apply mbind_Fault. rewrite (mbind_Ok _ _ _ _ _ Hat). apply mbind_Fault, bread_stuck; [done|].
    rewrite u32_small; [done|]. unfold FSSIZE in *. lia.
Qed.

Lemma iput_stuck ip i s :
  stuck s → k_icache s !! ip = Some i → i_ref i = 1 → i_valid i ≠ 0 → i_nlink i = 0 → i_lock i = None →
  IBLOCK (i_inum i) (k_sb s) < FSSIZE →
  (∀ n, 0 ≤ i_addrs i !!! n < FSSIZE ∧ BBLOCK (i_addrs i !!! n) (k_sb s) < FSSIZE) → iput ip s = locks.
Proof.
  intros Hs Hip Hr Hv Hn Hl Hib Ha. unfold iput. pose proof (lookup_lt_Some _ _ _ Hip) as Hlt.
  set (i1 := set_i_lock (Some (k_pid s)) i). set (s1 := set_icache (<[ip := i1]> (k_icache s)) s).
  assert (k_icache s1 !! ip = Some i1) as Hip1 by (by apply list_lookup_insert_eq).
  rewrite (mbind_Ok _ _ _ tt s1).
  2:{ unfold acquiresleep, inode_at, mbind, K_bind, gets. rewrite Hip. cbn [of_option mret K_ret]. unfold mret, K_ret. rewrite Hl. done. }
  rewrite (mbind_Ok _ _ _ i1 s1) by (unfold inode_at, mbind, K_bind, gets; by rewrite Hip1).
  change (i_valid i1) with (i_valid i). change (i_nlink i1) with (i_nlink i). rewrite (proj2 (Z.eqb_neq _ _) Hv), Hn.
  cbn [negb andb Z.eqb when]. apply mbind_Fault.
  set (s2 := set_spin [L_icache; L_ftable] s1). rewrite (mbind_Ok _ _ _ tt s2).
  2:{ unfold acquire, mbind, K_bind, gets. change (k_spin s1) with (k_spin s). rewrite (sk_spin _ Hs). done. }
  rewrite (mbind_Ok _ _ _ i1 s2) by (unfold inode_at, mbind, K_bind, gets; change (k_icache s2) with (k_icache s1); by rewrite Hip1).
  set (s3 := set_spin [L_ftable] s2). rewrite (mbind_Ok _ _ _ tt s3) by done.
  change (i_ref i1) with (i_ref i). rewrite Hr. cbn [Z.eqb Pos.eqb when]. apply mbind_Fault, (itrunc_stuck ip i1); [|done|done|done].
  by destruct Hs.
Qed.
End unlinked.

(** C30 Closing the last descriptor of a file that has no name any more stops
    the kernel, when no other call is keeping blocks in the cache: the table's
    spin lock is held while iput frees the file's blocks, which needs the disk,
    and the scheduler refuses to switch away from a process with a spin lock. *)
Theorem close_unlinked_panics `{!ArrayVec} kend f s x ip i :
  x_files s !! f = Some x → f_kind x = FD_INODE → f_ref x = 1 → f_ip x = Some ip →
  k_icache (x_k s) !! ip = Some i → i_ref i = 1 → i_valid i ≠ 0 → i_nlink i = 0 → i_lock i = None →
  k_spin (x_k s) = [] → k_bcache (x_k s) = ∅ → k_havedisk1 (x_k s) = true →
  log_committing (k_log (x_k s)) = 0 →
  lh_n (log_lh (k_log (x_k s))) + (log_outstanding (k_log (x_k s)) + 1) * MAXOPBLOCKS ≤ LOGSIZE →
  IBLOCK (i_inum i) (k_sb (x_k s)) < FSSIZE →
  (∀ n, 0 ≤ i_addrs i !!! n < FSSIZE ∧ BBLOCK (i_addrs i !!! n) (k_sb (x_k s)) < FSSIZE) →
  fileclose kend f s = Fault (FPanic "enter_scheduler: locks").
Proof.
  intros Hf Hk Hr Hfi Hip Hir Hv Hn Hl Hsp Hc Hd Hco Hlog Hib Ha. pose proof (lookup_lt_Some _ _ _ Hf) as Hlt.
  unfold fileclose. set (k1 := set_spin [L_ftable] (x_k s)). set (s1 := set_k k1 s).
  rewrite (mbind_Ok _ _ _ tt s1) by (unfold on_k, acquire, mbind, K_bind, gets; by rewrite Hsp).
  rewrite (mbind_Ok _ _ _ x s1) by (unfold file_at, mbind, K_bind, gets; change (x_files s1) with (x_files s); by rewrite Hf).
  rewrite Hr. change (1 <? 1) with false. cbv iota zeta. change (1 - 1) with 0. set (x' := set_f_ref 0 x).
  set (l := <[f := x']> (x_files s)). set (s2 := set_files l s1). rewrite (mbind_Ok _ _ _ tt s2) by done.
  apply mbind_Fault. change (f_ref x' =? 0) with true. cbv iota.
  rewrite (mbind_Ok _ _ _ l s2) by done. destruct (list_find (λ y, y = x') l) as [[idx y]|] eqn:Efind.
  2:{ exfalso. apply list_find_None in Efind. rewrite Forall_forall in Efind. apply (Efind x'); [|done].
      apply list_elem_of_lookup. exists f. by apply list_lookup_insert_eq. }
  set (s3 := set_files (av_remove idx l) s2). rewrite (mbind_Ok _ _ _ tt s3) by done.
  change (f_kind x') with (f_kind x). rewrite Hk. set (k4 := set_log (set_outstanding (log_outstanding (k_log k1) + 1) (k_log k1)) k1).
  set (s4 := set_k k4 s3). rewrite (mbind_Ok _ _ _ tt s4).
  2:{ unfold on_k. change (x_k s3) with k1. enough (begin_op k1 = Ok tt k4) as -> by done. unfold begin_op.
      rewrite (mbind_Ok _ _ _ tt (set_spin [L_log; L_ftable] k1)) by done.
      rewrite (mbind_Ok _ _ _ (k_log (x_k s)) (set_spin [L_log; L_ftable] k1)) by done. rewrite Hco.
      change (negb (0 =? 0)) with false. rewrite (proj2 (Z.ltb_ge _ _) Hlog). done. }
  rewrite (mbind_Ok _ _ _ ip s4) by (unfold ip_of; change (f_ip x') with (f_ip x); by rewrite Hfi).
  apply mbind_Fault. unfold on_k. change (x_k s4) with k4. by rewrite (iput_stuck ip i k4).
Qed.

(** A file of one block, open and without a link. *)
Definition demo_unlinked : fstate :=
  FState (KS ∅ [] true ∅ (Log 2 30 0 0 ROOTDEV (Logheader 0 (replicate 30 0))) (Superblock 1000 941 200 30 2 32 58)
      [Inode ROOTDEV 5 1 None 1 2 0 0 0 10 (59 :: replicate 12 0)] [] 1)
    [File FD_INODE 1 1 1 None (Some 0%nat) 0] ∅ (Kmem false 1 0 ∅)
    (UCtx (replicate 64 0) 64 0 false (Some 0%nat :: replicate 15 None) 0 [] 0 []).

Lemma close_unlinked_panics_witness : fileclose 0 0 demo_unlinked = Fault (FPanic "enter_scheduler: locks").
Proof.
  apply (close_unlinked_panics 0 0 demo_unlinked (File FD_INODE 1 1 1 None (Some 0%nat) 0) 0
    (Inode ROOTDEV 5 1 None 1 2 0 0 0 10 (59 :: replicate 12 0))); try reflexivity; try discriminate.
  intros n. assert ((59 :: replicate 12 0) !!! n = 59 ∨ (59 :: replicate 12 0) !!! n = 0 ∨ (59 :: replicate 12 0) !!! n = inhabitant) as [E|[E|E]].
  { destruct n as [|n]; [by left|]. right. change ((59 :: replicate 12 0) !!! S n) with (replicate 12 0 !!! n : Z).
    destruct (decide (n < 12)%nat); [left; by rewrite lookup_total_replicate_2|right].
    rewrite list_lookup_total_alt, lookup_ge_None_2; [done|rewrite length_replicate; lia]. }
  all: cbn [i_addrs]; rewrite E; (split; [split|]; [discriminate|reflexivity|reflexivity]).
Defined.
