(* ===== verification/User.v ===== *)
(** * User: user programs and their library (xv6/ulib.c, xv6/printf.c)

    A user program is a tree of system calls: it makes a call, and what it
    does next depends on the value the call returns and on the bytes it stores
    in the program's memory. The kernel is whatever answers the calls.
    C strings are lists of bytes without the terminating NUL. *)

From S2P Require Import Prelude.

(** ** System calls (xv6/user.h) *)

Inductive syscall :=
  | SFork | SWait | SPipe | SGetpid | SUptime
  | SWrite (fd : Z) (bytes : list Z)
  | SRead (fd n : Z)
  | SClose (fd : Z)
  | SKill (pid : Z)
  | SExec (path : list Z) (argv : list (list Z))
  | SOpen (path : list Z) (omode : Z)
  | SMknod (path : list Z) (major minor : Z)
  | SUnlink (path : list Z)
  | SFstat (fd : Z)
  | SLink (old new : list Z)
  | SMkdir (path : list Z)
  | SChdir (path : list Z)
  | SDup (fd : Z)
  | SSbrk (n : Z)
  | SSleep (n : Z).

(** fcntl.h *)
Definition O_RDONLY : Z := 0x000.
Definition O_WRONLY : Z := 0x001.
Definition O_RDWR : Z := 0x002.
Definition O_CREATE : Z := 0x200.

(** [Call c k]: make the call [c]; [k] takes the value returned and the bytes
    stored through the call's pointer argument. [Exit] does not return;
    [Stuck] is an undefined step or a loop that has not ended. *)
Inductive prog (A : Type) : Type :=
  | Ret (a : A)
  | Call (c : syscall) (k : Z → list Z → prog A)
  | Exit
  | Stuck.
Arguments Ret {A} _.
Arguments Call {A} _ _.
Arguments Exit {A}.
Arguments Stuck {A}.

Fixpoint prog_bind {A B} (p : prog A) (f : A → prog B) : prog B :=
  match p with
  | Ret a => f a
  | Call c k => Call c (λ r bs, prog_bind (k r bs) f)
  | Exit => Exit
  | Stuck => Stuck
  end.

#[export] Instance prog_ret : MRet prog := @Ret.
#[export] Instance prog_mbind : MBind prog := λ A B f p, prog_bind p f.

(** Calls by their C names. *)
Definition call (c : syscall) : prog Z := Call c (λ r _, Ret r).
Definition read (fd n : Z) : prog (Z * list Z) := Call (SRead fd n) (λ r bs, Ret (r, bs)).
Definition write (fd : Z) (bytes : list Z) : prog Z := call (SWrite fd bytes).
Definition open (path : list Z) (omode : Z) : prog Z := call (SOpen path omode).
Definition close (fd : Z) : prog Z := call (SClose fd).

(** ** Running a program *)

Inductive result (W A : Type) : Type :=
  | Returned (a : A) (w : W)
  | Exited (w : W)
  | Blocked.
Arguments Returned {W A} _ _.
Arguments Exited {W A} _.
Arguments Blocked {W A}.

(** [kern w c]: what the kernel does with call [c]: its new state, the value
    it returns and the bytes it stores. *)
Fixpoint run {W A} (kern : W → syscall → W * Z * list Z) (p : prog A) (w : W) : result W A :=
  match p with
  | Ret a => Returned a w
  | Call c k => let '(w, r, bs) := kern w c in run kern (k r bs) w
  | Exit => Exited w
  | Stuck => Blocked
  end.

Lemma run_bind {W A B} kern (p : prog A) (f : A → prog B) (w : W) :
  run kern (p ≫= f) w =
    match run kern p w with
    | Returned a w => run kern (f a) w
    | Exited w => Exited w
    | Blocked => Blocked
    end.
Proof.
  revert w. induction p as [a|c k IH| |]; intros w; try done. simpl.
  destruct (kern w c) as [[w' r] bs]. apply IH.
Qed.

(** ** A kernel with byte streams

    What the text programs rely on: an open file gives its bytes in order, in
    pieces whose sizes are not theirs to choose; [None] stands for a read that
    fails. Bytes written to a descriptor are appended to what was written
    before, unless writes to it fail. *)

Record streams := Streams {
  st_files : list (list Z * list (option (list Z))); (* contents by path name *)
  st_open : list (option (list (option (list Z))));  (* by descriptor: what is left to read *)
  st_bad : list Z;                                   (* descriptors that cannot be written *)
  st_out : list (Z * list Z)                         (* all the writes, oldest first *)
}.

(** The bytes written to one descriptor. *)
Definition written_to (fd : Z) (w : streams) : list Z :=
  st_out w ≫= λ p, if p.1 =? fd then p.2 else [].

Definition path_find (path : list Z) (l : list (list Z * list (option (list Z)))) : option (list (option (list Z))) :=
  snd <$> (snd <$> list_find (λ p, p.1 = path) l).

(** The lowest descriptor that is not open. *)
Definition lowest_free (l : list (option (list (option (list Z))))) : nat :=
  match list_find (λ o, o = None) l with Some (k, _) => k | None => length l end.

Definition set_open (fd : nat) (o : option (list (option (list Z)))) (w : streams) : streams :=
  Streams (st_files w) (<[fd := o]> (st_open w ++ [None])) (st_bad w) (st_out w).

(** [read] of at most [n] bytes. *)
Definition stream_read (n : Z) (l : list (option (list Z))) : list (option (list Z)) * Z * list Z :=
  match l with
  | [] => ([], 0, [])
  | None :: l => (l, -1, [])
  | Some bs :: l =>
      let got := take (Z.to_nat n) bs in
      let left := drop (Z.to_nat n) bs in
      (if bool_decide (left = []) then l else Some left :: l, Z.of_nat (length got), got)
  end.

Definition stream_kernel (w : streams) (c : syscall) : streams * Z * list Z :=
  match c with
  | SRead fd n =>
      match st_open w !! Z.to_nat fd with
      | Some (Some l) =>
          let '(l, r, bs) := stream_read n l in
          (Streams (st_files w) (<[Z.to_nat fd := Some l]> (st_open w)) (st_bad w) (st_out w), r, bs)
      | _ => (w, -1, [])
      end
  | SWrite fd bs =>
      if bool_decide (fd ∈ st_bad w) then (w, -1, [])
      else (Streams (st_files w) (st_open w) (st_bad w) (st_out w ++ [(fd, bs)]), Z.of_nat (length bs), [])
  | SOpen path _ =>
      match path_find path (st_files w) with
      | None => (w, -1, [])
      | Some l => let fd := lowest_free (st_open w) in (set_open fd (Some l) w, Z.of_nat fd, [])
      end
  | SClose fd =>
      (Streams (st_files w) (<[Z.to_nat fd := None]> (st_open w)) (st_bad w) (st_out w), 0, [])
  | _ => (w, -1, [])
  end.

(** ** Strings (ulib.c) *)

(** Byte [i] of a string; the NUL after its end. *)
Definition at_ (s : list Z) (i : nat) : Z := default 0 (s !! i).

(** The bytes stored by [strcpy], the NUL included. *)
Definition strcpy (t : list Z) : list Z := t ++ [0].

Fixpoint strcmp (p q : list Z) : Z :=
  match p, q with
  | a :: p', b :: q' => if a =? b then strcmp p' q' else a - b
  | _, _ => at_ p 0 - at_ q 0
  end.

Definition strlen (s : list Z) : Z := Z.of_nat (length s).

(** The rest of the string from the first [c] on. *)
Fixpoint strchr (s : list Z) (c : Z) : option (list Z) :=
  match s with
  | [] => None
  | a :: s' => if a =? c then Some s else strchr s' c
  end.

(** [while('0' <= *s && *s <= '9') n = n*10 + *s++ - '0'] *)
Fixpoint atoi_loop (n : Z) (s : list Z) : Z :=
  match s with
  | c :: s => if (48 <=? c) && (c <=? 57) then atoi_loop (s32 (n * 10 + c - 48)) s else n
  | [] => n
  end.
Definition atoi (s : list Z) : Z := atoi_loop 0 s.

(** [memset], the byte [c] stored [n] times from [dst] on *)
Definition memset (dst : list Z) (c n : Z) : list Z := splice 0 (replicate (Z.to_nat n) (u8 c)) dst.

(** [memmove] between disjoint areas: [n] bytes of [src] to the front of [dst]. *)
Definition memmove (dst src : list Z) (n : Z) : list Z := splice 0 (take (Z.to_nat n) src) dst.

(** [gets]: the bytes of one line, at most [max - 1]. *)
Fixpoint gets_loop (fuel : nat) (i max : Z) (buf : list Z) : prog (list Z) :=
  match fuel with
  | O => Stuck
  | S fuel =>
      if i + 1 <? max then
        '(cc, bs) ← read 0 1;
        if cc <? 1 then Ret buf else
        let c := at_ bs 0 in
        let buf := buf ++ [c] in
        if (c =? 10) || (c =? 13) then Ret buf else gets_loop fuel (i + 1) max buf
      else Ret buf
  end.
Definition gets (max : Z) : prog (list Z) := gets_loop (Z.to_nat max) 0 max [].

(** [stat]: the return value and the bytes of [*st]. *)
Definition stat (n : list Z) : prog (Z * list Z) :=
  fd ← open n O_RDONLY;
  if fd <? 0 then Ret (-1, []) else
  Call (SFstat fd) (λ r st,
    _ ← close fd;
    Ret (r, st)).

(** ** printf.c *)

Definition putc (fd c : Z) : prog unit := Call (SWrite fd [c]) (λ _ _, Ret tt).

Fixpoint puts (fd : Z) (s : list Z) : prog unit :=
  match s with
  | [] => Ret tt
  | c :: s => _ ← putc fd c; puts fd s
  end.

(** "0123456789ABCDEF"[d] *)
Definition digit (d : Z) : Z := if d <? 10 then 48 + d else 55 + d.

(** [do buf[i++] = digits[x % base]; while((x /= base) != 0)]: a 32-bit number
    has at most 32 digits. *)
Fixpoint digits_loop (fuel : nat) (x base : Z) : list Z :=
  match fuel with
  | O => []
  | S fuel => digit (x mod base) :: (if x / base =? 0 then [] else digits_loop fuel (x / base) base)
  end.

(** What [printint] puts into [buf], and the order it puts it out. *)
Definition printint_bytes (xx base : Z) (sgn : bool) : list Z :=
  let neg := sgn && (xx <? 0) in
  let x := if neg then u32 (- xx) else u32 xx in
  let buf := digits_loop 32 x base in
  let buf := if neg then buf ++ [45] else buf in
  reverse buf.
Definition printint (fd xx base : Z) (sgn : bool) : prog unit := puts fd (printint_bytes xx base sgn).

(** An argument of [printf] as the conversion reads it. *)
Inductive parg := PInt (z : Z) | PStr (s : option (list Z)).

Definition null_str : list Z := [40; 110; 117; 108; 108; 41]. (* "(null)" *)
Definition PERCENT : Z := 37.

(** The loop of [printf]: [state] is true after a '%'. *)
Fixpoint printf_loop (fd : Z) (fmt : list Z) (state : bool) (ap : list parg) : prog unit :=
  match fmt with
  | [] => Ret tt
  | c :: fmt =>
      if negb state then
        if c =? PERCENT then printf_loop fd fmt true ap
        else _ ← putc fd c; printf_loop fd fmt false ap
      else if c =? 100 (* 'd' *) then
        match ap with
        | PInt z :: ap => _ ← printint fd (s32 z) 10 true; printf_loop fd fmt false ap
        | _ => Stuck
        end
      else if (c =? 120) || (c =? 112) (* 'x', 'p' *) then
        match ap with
        | PInt z :: ap => _ ← printint fd (s32 z) 16 false; printf_loop fd fmt false ap
        | _ => Stuck
        end
      else if c =? 115 (* 's' *) then
        match ap with
        | PStr s :: ap => _ ← puts fd (default null_str s); printf_loop fd fmt false ap
        | _ => Stuck
        end
      else if c =? 99 (* 'c' *) then
        match ap with
        | PInt z :: ap => _ ← putc fd (u8 z); printf_loop fd fmt false ap
        | _ => Stuck
        end
      else if c =? PERCENT then _ ← putc fd c; printf_loop fd fmt false ap
      else _ ← putc fd PERCENT; _ ← putc fd c; printf_loop fd fmt false ap
  end.
Definition printf (fd : Z) (fmt : list Z) (args : list parg) : prog unit := printf_loop fd fmt false args.

(** ** Numbers *)

(** The value of a string of digits in a base up to 16. *)
Definition digit_val (c : Z) : Z := if c <=? 57 then c - 48 else c - 55.
Definition num_val (base : Z) (s : list Z) : Z := foldl (λ n c, n * base + digit_val c) 0 s.

Lemma digit_val_digit d : 0 ≤ d < 16 → digit_val (digit d) = d.
Proof. intros Hd. unfold digit, digit_val. repeat case_match; lia. Qed.

Lemma num_val_snoc base s c : num_val base (s ++ [c]) = num_val base s * base + digit_val c.
Proof. unfold num_val. by rewrite foldl_app. Qed.

Section digits.
Context (base : Z) (Hbase : 2 ≤ base ≤ 16).

Lemma digits_val fuel : ∀ x,
  0 ≤ x < base ^ Z.of_nat fuel → (0 < fuel)%nat → num_val base (reverse (digits_loop fuel x base)) = x.
Proof.
  induction fuel as [|fuel IH]; intros x Hx Hf; [lia|]. cbn [digits_loop]. rewrite reverse_cons, num_val_snoc.
  pose proof (Z.mod_pos_bound x base ltac:(lia)). rewrite digit_val_digit by lia.
  pose proof (Z.div_mod x base ltac:(lia)). pose proof (Z.div_pos x base ltac:(lia) ltac:(lia)).
  destruct (Z.eqb_spec (x / base) 0) as [Hz|Hz]; [unfold num_val; simpl; lia|].
  rewrite Nat2Z.inj_succ, Z.pow_succ_r in Hx by lia.
  assert (x / base < base ^ Z.of_nat fuel) by (apply Z.div_lt_upper_bound; lia).
  destruct fuel as [|fuel]; [change (base ^ Z.of_nat 0) with 1 in *; lia|]. rewrite IH by lia. lia.
Qed.

(** No more digits than the number needs. *)
Lemma digits_length fuel : ∀ x k,
  (0 < k)%nat → 0 ≤ x < base ^ Z.of_nat k → (length (digits_loop fuel x base) ≤ k)%nat.
Proof.
  induction fuel as [|fuel IH]; intros x k Hk Hx; cbn [digits_loop length]; [lia|].
  destruct (Z.eqb_spec (x / base) 0) as [Hz|Hz]; [simpl; lia|].
  pose proof (Z.div_pos x base ltac:(lia) ltac:(lia)). destruct k as [|k]; [lia|].
  rewrite Nat2Z.inj_succ, Z.pow_succ_r in Hx by lia.
  assert (x / base < base ^ Z.of_nat k) by (apply Z.div_lt_upper_bound; lia).
  destruct k as [|k]; [change (base ^ Z.of_nat 0) with 1 in *; lia|].
  specialize (IH (x / base) (S k) ltac:(lia) ltac:(lia)). simpl. lia.
Qed.

(** No leading zero, except for the number 0. *)
Lemma digits_last fuel : ∀ x,
  0 < x < base ^ Z.of_nat fuel → ∃ d l, reverse (digits_loop fuel x base) = digit d :: l ∧ 0 < d < base.
Proof.
  induction fuel as [|fuel IH]; intros x Hx; [change (base ^ Z.of_nat 0) with 1 in Hx; lia|].
  cbn [digits_loop]. rewrite reverse_cons. pose proof (Z.mod_pos_bound x base ltac:(lia)).
  pose proof (Z.div_mod x base ltac:(lia)). pose proof (Z.div_pos x base ltac:(lia) ltac:(lia)).
  destruct (Z.eqb_spec (x / base) 0) as [Hz|Hz]; [exists (x mod base), []; split; [done|lia]|].
  rewrite Nat2Z.inj_succ, Z.pow_succ_r in Hx by lia.
  assert (x / base < base ^ Z.of_nat fuel) by (apply Z.div_lt_upper_bound; lia).
  destruct (IH (x / base) ltac:(lia)) as (d & l & -> & Hd). by exists d, (l ++ [digit (x mod base)]).
Qed.

Lemma digits_are fuel : ∀ x, 0 ≤ x → Forall (λ c, ∃ d, c = digit d ∧ 0 ≤ d < base) (digits_loop fuel x base).
Proof.
  induction fuel as [|fuel IH]; intros x Hx; cbn [digits_loop]; constructor.
  - exists (x mod base). split; [done|]. apply Z.mod_pos_bound. lia.
  - destruct (_ =? 0); [constructor|]. apply IH, Z.div_pos; lia.
Qed.
End digits.

(** [printint] writes numbers as it should. For any 32-bit argument, in
    base 10 with a sign and in base 16 without: it puts out the sign of a
    negative number, the digits have the value of the number (its absolute
    value, or the unsigned value for %x, INT_MIN included), there is no leading
    zero, and the characters fit the buffer of 16. *)
Theorem printint_correct xx base sgn :
  - 2 ^ 31 ≤ xx < 2 ^ 31 → (base = 10 ∧ sgn = true ∨ base = 16 ∧ sgn = false) →
  ∃ ds, printint_bytes xx base sgn = (if sgn && (xx <? 0) then [45] else []) ++ ds ∧
    num_val base ds = (if sgn then Z.abs xx else u32 xx) ∧
    (length (printint_bytes xx base sgn) ≤ 16)%nat ∧
    (xx = 0 ∨ ∃ d l, ds = digit d :: l ∧ 0 < d < base).
Proof.
  intros Hx Hb. set (x := if sgn && (xx <? 0) then u32 (- xx) else u32 xx).
  exists (reverse (digits_loop 32 x base)).
  assert (2 ≤ base ≤ 16) as Hbase by lia. assert (0 ≤ x < 2 ^ 32) as Hr by (unfold x; case_match; apply u32_range).
  assert (2 ^ 32 ≤ base ^ 10 ∧ 2 ^ 32 ≤ base ^ Z.of_nat 32) as [Hp Hp'] by (destruct Hb as [[-> _]|[-> _]]; lia).
  assert (x = if sgn then Z.abs xx else u32 xx) as Hxv.
  { unfold x. destruct sgn; [|done]. simpl. destruct (Z.ltb_spec xx 0); [rewrite u32_small|rewrite u32_small]; lia. }
  assert (xx ≠ 0 → 0 < x) as Hpos.
  { intros Hne. rewrite Hxv. destruct sgn; [lia|]. pose proof (u32_range xx). destruct (decide (u32 xx = 0)) as [E|]; [|lia].
    unfold u32 in E. apply Z.mod_divide in E as [q E]; [|done]. lia. }
  assert (length (digits_loop 32 x base) ≤ 10)%nat as Hlen by (apply digits_length; lia).
  split_and!.
  - unfold printint_bytes. fold x. destruct (sgn && (xx <? 0)); [apply reverse_snoc|reflexivity].
  - rewrite digits_val by lia. exact Hxv.
  - unfold printint_bytes. fold x. rewrite length_reverse. destruct (sgn && (xx <? 0)); rewrite ?length_app; cbn [length]; lia.
  - destruct (decide (xx = 0)) as [|Hne]; [by left|right]. apply digits_last; [exact Hbase|]. specialize (Hpos Hne). lia.
Qed.

Lemma printint_correct_witness : ∃ ds, printint_bytes (- 2 ^ 31) 10 true = [45] ++ ds ∧ num_val 10 ds = 2 ^ 31.
Proof.
  destruct (printint_correct (- 2 ^ 31) 10 true) as (ds & H1 & H2 & _).
  - lia.
  - left. split; reflexivity.
  - exists ds. split; [exact H1|exact H2].
Defined.

Lemma atoi_loop_val s n :
  Forall (λ c, ∃ d, c = digit d ∧ 0 ≤ d < 10) s → 0 ≤ n →
  foldl (λ n c, n * 10 + digit_val c) n s < 2 ^ 31 →
  ∀ rest, (∀ c l, rest = c :: l → ¬ (48 ≤ c ≤ 57)) →
  atoi_loop n (s ++ rest) = foldl (λ n c, n * 10 + digit_val c) n s.
Proof.
  intros Hs. revert n. induction Hs as [|c s (d & -> & Hd) Hs IH]; intros n Hn Hlt rest Hrest.
  - simpl. destruct rest as [|c l]; [done|]. simpl. specialize (Hrest c l eq_refl).
    destruct (Z.leb_spec 48 c), (Z.leb_spec c 57); (done || lia).
  - cbn [app foldl atoi_loop] in *. rewrite digit_val_digit in * by lia.
    assert (digit d = 48 + d) as Hdd by (unfold digit; destruct (Z.ltb_spec d 10); lia). rewrite Hdd.
    rewrite (proj2 (Z.leb_le _ _)), (proj2 (Z.leb_le _ _)) by lia. cbn [andb].
    assert (∀ l m, Forall (λ c, ∃ d, c = digit d ∧ 0 ≤ d < 10) l → 0 ≤ m → m ≤ foldl (λ n c, n * 10 + digit_val c) m l) as Hmono.
    { clear. induction l as [|c l IH]; intros m Hl Hm; [done|]. apply Forall_cons in Hl as [(d & -> & Hd) Hl]. simpl.
      rewrite digit_val_digit by lia. specialize (IH (m * 10 + d) Hl ltac:(lia)). lia. }
    specialize (Hmono s (n * 10 + d) Hs ltac:(lia)).
    replace (n * 10 + (48 + d) - 48) with (n * 10 + d) by lia. rewrite s32_small by lia. apply IH; (done || lia).
Qed.

(** [atoi] reads back what [printint] writes: for a non-negative int, put
    out in decimal and followed by anything but a digit, [atoi] gives the
    number. *)
Theorem atoi_printint xx rest :
  0 ≤ xx < 2 ^ 31 → (∀ c l, rest = c :: l → ¬ (48 ≤ c ≤ 57)) →
  atoi (printint_bytes xx 10 true ++ rest) = xx.
Proof.
  intros Hx Hrest. unfold printint_bytes, atoi. rewrite (proj2 (Z.ltb_ge _ _)) by lia. cbn [andb].
  rewrite u32_small by lia. pose proof (digits_val 10 ltac:(lia) 32 xx ltac:(lia) ltac:(lia)) as Hv.
  rewrite atoi_loop_val; [exact Hv| |lia|unfold num_val in Hv; lia|done].
  apply Forall_reverse. apply digits_are; lia.
Qed.

Lemma atoi_printint_witness : atoi (printint_bytes 2147483647 10 true ++ [10]) = 2147483647.
Proof. apply atoi_printint; [lia|]. intros c l [= <- <-]. lia. Defined.

(** ** Formats *)

(** What one conversion puts out, and the arguments left. *)
Definition convert (c : Z) (args : list parg) : option (list Z * list parg) :=
  if c =? 100 then match args with PInt z :: args => Some (printint_bytes (s32 z) 10 true, args) | _ => None end
  else if (c =? 120) || (c =? 112) then
    match args with PInt z :: args => Some (printint_bytes (s32 z) 16 false, args) | _ => None end
  else if c =? 115 then match args with PStr s :: args => Some (default null_str s, args) | _ => None end
  else if c =? 99 then match args with PInt z :: args => Some ([u8 z], args) | _ => None end
  else if c =? PERCENT then Some ([PERCENT], args)
  else Some ([PERCENT; c], args).

(** A format is text up to a '%', a conversion, and a format. *)
Fixpoint format (fmt : list Z) (args : list parg) : option (list Z) :=
  match fmt with
  | [] => Some []
  | c :: fmt' =>
      if c =? PERCENT then
        match fmt' with
        | [] => Some []
        | d :: fmt'' => '(bs, args) ← convert d args; (bs ++.) <$> format fmt'' args
        end
      else (c ::.) <$> format fmt' args
  end.

(** The output of one-byte writes; nothing if writes to [fd] fail. *)
Definition put_out (fd : Z) (bs : list Z) (w : streams) : streams :=
  if bool_decide (fd ∈ st_bad w) then w
  else Streams (st_files w) (st_open w) (st_bad w) (st_out w ++ ((λ b, (fd, [b])) <$> bs)).

Lemma put_out_bad fd bs w : st_bad (put_out fd bs w) = st_bad w.
Proof. unfold put_out. by case_bool_decide. Qed.

Lemma put_out_app fd bs bs' w : put_out fd bs' (put_out fd bs w) = put_out fd (bs ++ bs') w.
Proof.
  unfold put_out. destruct (bool_decide (fd ∈ st_bad w)) eqn:E; [by rewrite E|].
  cbn [st_bad]. rewrite E. simpl. by rewrite fmap_app, app_assoc.
Qed.

Lemma put_out_nil fd w : put_out fd [] w = w.
Proof. unfold put_out. case_bool_decide; [done|]. simpl. rewrite app_nil_r. by destruct w. Qed.

Lemma written_put_out fd bs w : fd ∉ st_bad w → written_to fd (put_out fd bs w) = written_to fd w ++ bs.
Proof.
  intros Hfd. unfold written_to, put_out. rewrite bool_decide_eq_false_2 by done. simpl. rewrite bind_app. f_equal.
  induction bs as [|b bs IH]; [done|]. rewrite fmap_cons, bind_cons, IH. simpl. by rewrite Z.eqb_refl.
Qed.

Section print.
Context (fd : Z).
Implicit Types (w : streams) (bs : list Z).

Lemma run_putc c w : run stream_kernel (putc fd c) w = Returned tt (put_out fd [c] w).
Proof. unfold putc, put_out. simpl. by case_bool_decide. Qed.

Lemma run_puts bs w : run stream_kernel (puts fd bs) w = Returned tt (put_out fd bs w).
Proof.
  revert w. induction bs as [|b bs IH]; intros w; [by rewrite put_out_nil|]. cbn [puts].
  rewrite run_bind, run_putc, IH. by rewrite put_out_app.
Qed.

Lemma printf_loop_convert c fmt args w :
  run stream_kernel (printf_loop fd (c :: fmt) true args) w =
    match convert c args with
    | Some (bs, args) => run stream_kernel (printf_loop fd fmt false args) (put_out fd bs w)
    | None => Blocked
    end.
Proof.
  cbn [printf_loop negb]. unfold convert, printint.
  repeat (case_match; try done); rewrite run_bind, ?run_puts, ?run_putc; try done.
  - do 4 f_equal. lia.
  - rewrite run_bind, run_putc. by rewrite put_out_app.
Qed.

Lemma run_printf_loop fmt : ∀ args w,
  run stream_kernel (printf_loop fd fmt false args) w =
    match format fmt args with Some bs => Returned tt (put_out fd bs w) | None => Blocked end ∧
  run stream_kernel (printf_loop fd fmt true args) w =
    match format (PERCENT :: fmt) args with Some bs => Returned tt (put_out fd bs w) | None => Blocked end.
Proof.
  induction fmt as [|c fmt IH]; intros args w.
  { simpl. by rewrite put_out_nil. }
  split.
  - cbn [printf_loop negb]. destruct (Z.eqb_spec c PERCENT) as [->|Hc]; [by apply IH|].
    rewrite run_bind, run_putc. destruct (IH args (put_out fd [c] w)) as [-> _].
    cbn [format]. rewrite (proj2 (Z.eqb_neq _ _) Hc). destruct (format fmt args) as [bs|]; [|done].
    simpl. by rewrite put_out_app.
  - rewrite printf_loop_convert. cbn [format]. rewrite Z.eqb_refl.
    destruct (convert c args) as [[bs args']|]; [|done]. destruct (IH args' (put_out fd bs w)) as [-> _].
    simpl. destruct (format fmt args') as [bs'|]; [|done]. simpl. by rewrite put_out_app.
Qed.

Lemma run_printf fmt args bs w :
  format fmt args = Some bs → run stream_kernel (printf fd fmt args) w = Returned tt (put_out fd bs w).
Proof. intros Hf. unfold printf. destruct (run_printf_loop fmt args w) as [-> _]. by rewrite Hf. Qed.
End print.


