(* ===== verification/Grep.v ===== *)
(** * Grep: the pattern matcher and the line loop of xv6/grep.c

    [match], [matchhere] and [matchstar] are shown to decide the language of
    the pattern; the loop that reads a file in pieces is shown to print the
    matching lines, as long as every read brings the end of a line. *)

From S2P Require Import Prelude User.

Definition STAR : Z := 42.
Definition DOT : Z := 46.
Definition CARET : Z := 94.
Definition DOLLAR : Z := 36.
Definition NL : Z := 10.

(** [matchstar]: search for c*re at beginning of text; [here] is [matchhere]
    of the rest of the pattern. *)
Fixpoint matchstar (here : list Z → bool) (c : Z) (text : list Z) : bool :=
  if here text then true
  else match text with
       | [] => false
       | t :: text => if (t =? c) || (c =? DOT) then matchstar here c text else false
       end.

(** [matchhere]: search for re at beginning of text. *)
Fixpoint matchhere (re text : list Z) : bool :=
  match re with
  | [] => true
  | c :: re1 =>
      match re1 with
      | d :: re2 =>
          if d =? STAR then matchstar (matchhere re2) c text
          else match text with
               | t :: text => if (c =? DOT) || (c =? t) then matchhere re1 text else false
               | [] => false
               end
      | [] =>
          if c =? DOLLAR then bool_decide (text = [])
          else match text with
               | t :: text => if (c =? DOT) || (c =? t) then matchhere re1 text else false
               | [] => false
               end
      end
  end.

(** The loop of [match] over the suffixes of the text. *)
Fixpoint match_loop (re text : list Z) : bool :=
  if matchhere re text then true
  else match text with
       | [] => false
       | _ :: text => match_loop re text
       end.

Definition match_ (re text : list Z) : bool :=
  match re with
  | c :: re' => if c =? CARET then matchhere re' text else match_loop re text
  | [] => match_loop re text
  end.

(** ** The language of a pattern *)

Inductive item := One (c : Z) | Many (c : Z).

(** A pattern is a list of items, and a '$' at its end. *)
Fixpoint items (re : list Z) : list item * bool :=
  match re with
  | [] => ([], false)
  | c :: re1 =>
      match re1 with
      | d :: re2 =>
          if d =? STAR then let '(l, e) := items re2 in (Many c :: l, e)
          else let '(l, e) := items re1 in (One c :: l, e)
      | [] => if c =? DOLLAR then ([], true) else ([One c], false)
      end
  end.

(** '.' stands for any character. *)
Definition char_in (c t : Z) : Prop := c = DOT ∨ c = t.

Inductive in_item : item → list Z → Prop :=
  | in_one c t : char_in c t → in_item (One c) [t]
  | in_many c l : Forall (char_in c) l → in_item (Many c) l.

Inductive in_items : list item → list Z → Prop :=
  | in_nil : in_items [] []
  | in_cons i l s t : in_item i s → in_items l t → in_items (i :: l) (s ++ t).

(** [text] begins with a word of the pattern; with '$', it is one. *)
Definition begins (re text : list Z) : Prop :=
  ∃ s t, text = s ++ t ∧ in_items (items re).1 s ∧ ((items re).2 = true → t = []).

(** Some part of [text] is a word of the pattern; '^' binds it to the start. *)
Definition found (re text : list Z) : Prop :=
  match re with
  | c :: re' => if decide (c = CARET) then begins re' text else ∃ u text', text = u ++ text' ∧ begins re text'
  | [] => ∃ u text', text = u ++ text' ∧ begins re text'
  end.

Lemma char_test c t : (c =? DOT) || (c =? t) = true ↔ char_in c t.
Proof. unfold char_in. rewrite orb_true_iff, !Z.eqb_eq. done. Qed.

Lemma matchstar_spec here c text :
  matchstar here c text = true ↔ ∃ s t, text = s ++ t ∧ Forall (char_in c) s ∧ here t = true.
Proof.
  induction text as [|x text IH]; cbn [matchstar].
  - destruct (here []) eqn:E.
    + split; [|done]. intros _. exists [], []. by repeat split.
    + split; [done|]. intros (s & t & Hst & _ & Ht). symmetry in Hst. apply app_nil in Hst as [-> ->]. congruence.
  - destruct (here (x :: text)) eqn:E.
    + split; [|done]. intros _. exists [], (x :: text). by repeat split.
    + destruct ((x =? c) || (c =? DOT)) eqn:Ec.
      * rewrite IH. split.
        -- intros (s & t & -> & Hs & Ht). exists (x :: s), t. split_and!; [done| |done]. constructor; [|done].
           unfold char_in. lia.
        -- intros (s & t & Hst & Hs & Ht). destruct s as [|y s]; [simpl in Hst; congruence|].
           injection Hst as -> ->. apply Forall_cons in Hs as [_ Hs]. eauto.
      * split; [done|]. intros (s & t & Hst & Hs & Ht). destruct s as [|y s]; [simpl in Hst; congruence|].
        injection Hst as -> ->. apply Forall_cons in Hs as [Hy _]. unfold char_in in Hy. lia.
Qed.

Lemma begins_nil text : begins [] text.
Proof. exists [], text. repeat split; [constructor|done]. Qed.

Lemma begins_star c re text :
  begins (c :: STAR :: re) text ↔ ∃ s t, text = s ++ t ∧ Forall (char_in c) s ∧ begins re t.
Proof.
  unfold begins. cbn [items]. rewrite Z.eqb_refl. destruct (items re) as [l e]. cbn [fst snd]. split.
  - intros (s & t & -> & Hin & He). inversion Hin as [|i l' s1 s2 H1 H2]; subst. inversion H1; subst.
    exists s1, (s2 ++ t). rewrite app_assoc. split_and!; [done|done|]. eauto.
  - intros (s & t & -> & Hs & (s' & t' & -> & Hin & He)). exists (s ++ s'), t'. rewrite app_assoc.
    split_and!; [done| |done]. constructor; [by constructor|done].
Qed.

(** A pattern whose first character is an ordinary one. *)
Lemma begins_one c re text :
  head re ≠ Some STAR → (c ≠ DOLLAR ∨ re ≠ []) →
  begins (c :: re) text ↔ ∃ x t, text = x :: t ∧ char_in c x ∧ begins re t.
Proof.
  intros Hstar Hd. assert (items (c :: re) = (One c :: (items re).1, (items re).2)) as Hit.
  { cbn [items]. destruct re as [|d re].
    - destruct (Z.eqb_spec c DOLLAR); [naive_solver|done].
    - destruct (Z.eqb_spec d STAR) as [->|]; [done|]. by destruct (items (d :: re)). }
  unfold begins. rewrite Hit. cbn [fst snd]. split.
  - intros (s & t & -> & Hin & He). inversion Hin as [|i l' s1 s2 H1 H2]; subst. inversion H1; subst.
    exists t0, (s2 ++ t). split_and!; [done|done|]. eauto.
  - intros (x & t & -> & Hx & (s' & t' & -> & Hin & He)). exists ([x] ++ s'), t'. split_and!; [done| |done].
    constructor; [by constructor|done].
Qed.

Lemma begins_dollar text : begins [DOLLAR] text ↔ text = [].
Proof.
  unfold begins. simpl. split.
  - intros (s & t & -> & Hin & He). rewrite (He eq_refl). by inversion Hin.
  - intros ->. exists [], []. repeat split. constructor.
Qed.

Lemma matchhere_spec re : ∀ text, matchhere re text = true ↔ begins re text.
Proof.
  induction (Wf_nat.well_founded_ltof _ (@length Z) re) as [re _ IH]. unfold Wf_nat.ltof in IH. intros text.
  destruct re as [|c re1]; [simpl; split; [intros _; apply begins_nil|done]|].
  assert (∀ t : list Z, (match t with t0 :: t1 => if (c =? DOT) || (c =? t0) then matchhere re1 t1 else false | [] => false end = true)
    ↔ ∃ x t', t = x :: t' ∧ char_in c x ∧ begins re1 t') as Hone.
  { intros [|x t]; [split; [done|intros (? & ? & [=] & _)]|]. destruct ((c =? DOT) || (c =? x)) eqn:E.
    - apply char_test in E. rewrite IH by (simpl; lia). split; [eauto|]. by intros (? & ? & [= <- <-] & _ & ?).
    - split; [done|]. intros (? & ? & [= <- <-] & Hx & _). apply char_test in Hx. congruence. }
  destruct re1 as [|d re2].
  - cbn [matchhere]. destruct (Z.eqb_spec c DOLLAR) as [->|Hc].
    + by rewrite bool_decide_eq_true, begins_dollar.
    + rewrite begins_one by (done || by left). apply Hone.
  - cbn [matchhere]. destruct (Z.eqb_spec d STAR) as [->|Hd].
    + rewrite matchstar_spec, begins_star. setoid_rewrite IH; [done|simpl; lia..].
    + rewrite begins_one; [apply Hone|simpl; congruence|by right].
Qed.

Lemma match_loop_spec re text : match_loop re text = true ↔ ∃ u text', text = u ++ text' ∧ begins re text'.
Proof.
  induction text as [|x text IH]; cbn [match_loop].
  - destruct (matchhere re []) eqn:E.
    + apply matchhere_spec in E. split; [|done]. intros _. by exists [], [].
    + split; [done|]. intros (u & t & Hut & Hb). symmetry in Hut. apply app_nil in Hut as [-> ->].
      apply matchhere_spec in Hb. congruence.
  - destruct (matchhere re (x :: text)) eqn:E.
    + apply matchhere_spec in E. split; [|done]. intros _. by exists [], (x :: text).
    + rewrite IH. split.
      * intros (u & t & -> & Hb). by exists (x :: u), t.
      * intros (u & t & Hut & Hb). destruct u as [|y u].
        -- simpl in Hut. subst t. apply matchhere_spec in Hb. congruence.
        -- injection Hut as -> ->. eauto.
Qed.

(** C33 The matcher of grep decides the language of its pattern: [match]
    answers yes exactly when some part of the text is a word of the pattern,
    where "c*" stands for any number of [c], '.' for any character, '^' at the
    front binds the word to the start of the text and '$' at the end to its
    end. In particular it always answers. *)
Theorem match_language re text : match_ re text = true ↔ found re text.
Proof.
  unfold match_, found. destruct re as [|c re]; [apply match_loop_spec|].
  destruct (Z.eqb_spec c CARET) as [->|Hc].
  - rewrite decide_True by done. apply matchhere_spec.
  - rewrite decide_False by done. apply match_loop_spec.
Qed.

(** ** The loop over the file *)

(** A buffer from some index on, as the C string it holds. *)
Fixpoint cstr (l : list Z) : list Z :=
  match l with
  | [] => []
  | a :: l => if a =? 0 then [] else a :: cstr l
  end.

(** [strchr] in a buffer: how far the character is. *)
Fixpoint strchr_idx (l : list Z) (c : Z) : option nat :=
  match l with
  | [] => None
  | a :: l => if a =? 0 then None else if a =? c then Some O else S <$> strchr_idx l c
  end.

(** The inner loop: the lines in the buffer from index [p] on. *)
Fixpoint grep_lines (fuel : nat) (pattern buf : list Z) (p : nat) : prog (nat * list Z) :=
  match fuel with
  | O => Stuck
  | S fuel =>
      match strchr_idx (drop p buf) NL with
      | None => Ret (p, buf)
      | Some k =>
          let q := (p + k)%nat in
          let buf := <[q := 0]> buf in
          if match_ pattern (cstr (drop p buf)) then
            let buf := <[q := NL]> buf in
            _ ← write 1 (slice p (q + 1 - p) buf);
            grep_lines fuel pattern buf (q + 1)
          else grep_lines fuel pattern buf (q + 1)
      end
  end.

(** [grep]: [m] bytes of the buffer wait for the end of their line. *)
Fixpoint grep_loop (fuel : nat) (pattern : list Z) (fd : Z) (buf : list Z) (m : nat) : prog unit :=
  match fuel with
  | O => Stuck
  | S fuel =>
      '(n, bs) ← read fd (1024 - Z.of_nat m - 1);
      if 0 <? n then
        let buf := splice m bs buf in
        let m := (m + Z.to_nat n)%nat in
        let buf := <[m := 0]> buf in
        '(p, buf) ← grep_lines 1024 pattern buf 0;
        let m := if (p =? 0)%nat then O else m in
        if (0 <? m)%nat then
          let m := (m - p)%nat in
          grep_loop fuel pattern fd (splice 0 (slice p m buf) buf) m
        else grep_loop fuel pattern fd buf m
      else Ret tt
  end.
Definition grep (fuel : nat) (pattern : list Z) (fd : Z) (buf : list Z) : prog unit :=
  grep_loop fuel pattern fd buf 0.

(** ** Lines *)

(** The complete lines, and what is left; [cur] is the line so far. *)
Fixpoint lines (cur s : list Z) : list (list Z) * list Z :=
  match s with
  | [] => ([], cur)
  | c :: s => if c =? NL then let '(ls, t) := lines [] s in (cur :: ls, t) else lines (cur ++ [c]) s
  end.

Lemma lines_app s s' : ∀ cur,
  lines cur (s ++ s') = let '(l1, t1) := lines cur s in let '(l2, t2) := lines t1 s' in (l1 ++ l2, t2).
Proof.
  induction s as [|c s IH]; intros cur; simpl; [by destruct (lines cur s')|].
  destruct (c =? NL); [|apply IH]. rewrite IH. destruct (lines [] s) as [l1 t1]. by destruct (lines t1 s').
Qed.

Lemma lines_no_nl s cur : NL ∉ s → lines cur s = ([], cur ++ s).
Proof.
  revert cur. induction s as [|c s IH]; intros cur Hn; simpl; [by rewrite app_nil_r|].
  apply not_elem_of_cons in Hn as [Hc Hn]. rewrite (proj2 (Z.eqb_neq _ _)) by congruence.
  rewrite IH by done. by rewrite <- app_assoc.
Qed.

Lemma lines_nl a b : NL ∉ a → lines [] (a ++ NL :: b) = (a :: (lines [] b).1, (lines [] b).2).
Proof.
  intros Ha. rewrite lines_app, lines_no_nl by done. simpl. by destruct (lines [] b).
Qed.

Lemma lines_tail_no_nl s cur : NL ∉ cur → NL ∉ (lines cur s).2.
Proof.
  revert cur. induction s as [|c s IH]; intros cur Hc; simpl; [done|].
  destruct (Z.eqb_spec c NL).
  - specialize (IH [] ltac:(set_solver)). by destruct (lines [] s).
  - apply IH. rewrite elem_of_app, list_elem_of_singleton. naive_solver.
Qed.

Lemma strchr_idx_spec d junk :
  0 ∉ d →
  match strchr_idx (d ++ 0 :: junk) NL with
  | Some k => ∃ b, d = take k d ++ NL :: b ∧ (NL ∉ take k d) ∧ (k < length d)%nat
  | None => NL ∉ d
  end.
Proof.
  induction d as [|a d IH]; intros Hz; simpl; [set_solver|].
  apply not_elem_of_cons in Hz as [Ha Hz]. rewrite (proj2 (Z.eqb_neq _ _)) by congruence.
  destruct (Z.eqb_spec a NL) as [->|Hne].
  { exists d. simpl. split_and!; [done|set_solver|lia]. }
  specialize (IH Hz). destruct (strchr_idx (d ++ 0 :: junk) NL) as [k|]; simpl.
  - destruct IH as (b & Hd & Hn & Hk). exists b. split_and!; [by f_equal| |lia]. set_solver.
  - set_solver.
Qed.

Lemma cstr_app d junk : 0 ∉ d → cstr (d ++ 0 :: junk) = d.
Proof.
  induction d as [|a d IH]; intros Hz; simpl; [done|]. apply not_elem_of_cons in Hz as [Ha Hz].
  rewrite (proj2 (Z.eqb_neq _ _)) by congruence. by rewrite IH.
Qed.

(** The lines that are printed. *)
Definition emit (ls : list (list Z)) (w : streams) : streams :=
  Streams (st_files w) (st_open w) (st_bad w) (st_out w ++ ((λ l, (1, l ++ [NL])) <$> ls)).

Lemma emit_app ls ls' w : emit ls' (emit ls w) = emit (ls ++ ls') w.
Proof. unfold emit. simpl. by rewrite fmap_app, app_assoc. Qed.

Lemma emit_nil w : emit [] w = w.
Proof. unfold emit. simpl. rewrite app_nil_r. by destruct w. Qed.

Definition hits (pattern : list Z) (ls : list (list Z)) : list (list Z) :=
  filter (λ l, match_ pattern l = true) ls.

Lemma run_write_line l w : 1 ∉ st_bad w → run stream_kernel (write 1 (l ++ [NL])) w = Returned (Z.of_nat (length (l ++ [NL]))) (emit [l] w).
Proof. intros H. unfold write, call. simpl. by rewrite bool_decide_eq_false_2. Qed.

Lemma insert_mid {A} (l1 l2 : list A) x y n : n = length l1 → <[n := y]> (l1 ++ x :: l2) = l1 ++ y :: l2.
Proof. intros ->. by rewrite insert_app_r_alt, Nat.sub_diag by lia. Qed.

Lemma slice_mid {A} (pre a r : list A) x : slice (length pre) (length a + 1) (pre ++ a ++ x :: r) = a ++ [x].
Proof.
  unfold slice. rewrite drop_app_length. change (x :: r) with ([x] ++ r). rewrite app_assoc.
  apply take_app_length'. by rewrite length_app.
Qed.

(** The inner loop prints the matching lines and stops behind the last one. *)
Lemma grep_lines_run pattern fuel : ∀ pre d junk w,
  0 ∉ d → (length d < fuel)%nat → 1 ∉ st_bad w →
  let '(ls, t) := lines [] d in
  ∃ pre', run stream_kernel (grep_lines fuel pattern (pre ++ d ++ 0 :: junk) (length pre)) w =
      Returned (length pre', pre' ++ t ++ 0 :: junk) (emit (hits pattern ls) w) ∧
    (length pre' + length t = length pre + length d)%nat ∧ (length t ≤ length d)%nat ∧
    (NL ∈ d → length pre < length pre')%nat.
Proof.
  induction fuel as [|fuel IH]; intros pre d junk w Hz Hf Hw; [lia|]. cbn [grep_lines].
  rewrite drop_app_length. pose proof (strchr_idx_spec d junk Hz) as Hs.
  destruct (strchr_idx (d ++ 0 :: junk) NL) as [k|].
  2: { rewrite lines_no_nl by done. simpl. exists pre. rewrite emit_nil. by split_and!. }
  destruct Hs as (b & Hd & Hn & Hk). set (a := take k d) in *.
  assert (length a = k) as Ha by (unfold a; rewrite length_take; lia). clearbody a. subst d k.
  rewrite lines_nl by done. rewrite elem_of_app, elem_of_cons in Hz. rewrite length_app in *. cbn [length] in *.
  rewrite <- app_assoc. cbn [app]. rewrite (app_assoc pre a). rewrite insert_mid by (rewrite length_app; lia).
  rewrite <- (app_assoc pre a). rewrite drop_app_length, cstr_app by tauto.
  replace (length pre + length a + 1)%nat with (length (pre ++ a ++ [NL])) by (rewrite !length_app; simpl; lia).
  destruct (lines [] b) as [ls t] eqn:El. cbn [fst snd].
  destruct (match_ pattern a) eqn:Em.
  - rewrite (app_assoc pre a). rewrite insert_mid by (rewrite length_app; lia). rewrite <- (app_assoc pre a).
    replace (length (pre ++ a ++ [NL]) - length pre)%nat with (length a + 1)%nat by (rewrite !length_app; simpl; lia).
    rewrite slice_mid.
    rewrite run_bind, run_write_line by done.
    specialize (IH (pre ++ a ++ [NL]) b junk (emit [a] w)). rewrite El in IH.
    destruct IH as (pre' & Hrun & Hlen & Ht & _); [tauto|lia|done|]. rewrite <- !app_assoc in Hrun. cbn [app] in Hrun.
    exists pre'. rewrite Hrun. rewrite emit_app. unfold hits. rewrite filter_cons_True by done.
    rewrite !length_app in Hlen. simpl in Hlen. split_and!; [done|lia|lia|lia].
  - replace (length (pre ++ a ++ [NL])) with (length (pre ++ a ++ [0])) by (rewrite !length_app; done).
    specialize (IH (pre ++ a ++ [0]) b junk w). rewrite El in IH.
    destruct IH as (pre' & Hrun & Hlen & Ht & _); [tauto|lia|done|]. rewrite <- !app_assoc in Hrun. cbn [app] in Hrun.
    exists pre'. rewrite Hrun. unfold hits. rewrite filter_cons_False by (by rewrite Em).
    rewrite !length_app in Hlen. simpl in Hlen. split_and!; [done|lia|lia|lia].
Qed.

(** The descriptor [fd] with [l] left to read. *)
Definition left_in (fd : Z) (l : list (option (list Z))) (w : streams) : streams :=
  Streams (st_files w) (<[Z.to_nat fd := Some l]> (st_open w)) (st_bad w) (st_out w).

Lemma run_read_piece {B} fd n c l (k : Z * list Z → prog B) w :
  st_open w !! Z.to_nat fd = Some (Some (Some c :: l)) → Z.of_nat (length c) ≤ n →
  run stream_kernel (read fd n ≫= k) w = run stream_kernel (k (Z.of_nat (length c), c)) (left_in fd l w).
Proof.
  intros Ho Hn. unfold read. simpl. rewrite Ho. simpl. rewrite take_ge, drop_ge by lia. done.
Qed.

Lemma run_read_end {B} fd n (k : Z * list Z → prog B) w :
  st_open w !! Z.to_nat fd = Some (Some []) →
  run stream_kernel (read fd n ≫= k) w = run stream_kernel (k (0, [])) (left_in fd [] w).
Proof. intros Ho. unfold read. simpl. by rewrite Ho. Qed.

(** A piece of the file as grep can take it: it has the end of a line, no NUL,
    and is not longer than a disk block. *)
Definition good_piece (c : list Z) : Prop := NL ∈ c ∧ (0 ∉ c) ∧ (length c ≤ 512)%nat.

Lemma left_in_emit fd l ls w : left_in fd l (emit ls w) = emit ls (left_in fd l w).
Proof. done. Qed.

Lemma left_in_left_in fd l l' w : left_in fd l (left_in fd l' w) = left_in fd l w.
Proof. unfold left_in. simpl. by rewrite list_insert_insert_eq. Qed.

(** What is left after a line of a good piece is shorter than the piece. *)
Lemma lines_tail_bound t c : (NL ∉ t) → NL ∈ c → (length (lines [] (t ++ c)).2 < length c)%nat.
Proof.
  intros Ht Hc. rewrite lines_app, lines_no_nl by done. cbn [app fst snd].
  apply list_elem_of_split in Hc as (a & b & ->). assert (∃ a1 a2, (a ++ NL :: b) = a1 ++ NL :: a2 ∧ (NL ∉ a1)) as (a1 & a2 & -> & Hn).
  { clear. induction a as [|x a (a1 & a2 & E & Hn)]; [exists [], b; split; [done|set_solver]|].
    destruct (decide (x = NL)) as [->|Hx]; [exists [], (a ++ NL :: b); split; [done|set_solver]|].
    exists (x :: a1), a2. simpl. rewrite E. split; [done|set_solver]. }
  rewrite lines_app, lines_no_nl by done. simpl. destruct (lines [] a2) as [l2 t2] eqn:E2. simpl.
  assert (∀ s cur, length (lines cur s).2 ≤ length cur + length s)%nat as Hb.
  { clear. induction s as [|x s IH]; intros cur; simpl; [lia|]. destruct (x =? NL).
    - specialize (IH []). destruct (lines [] s). simpl in *. lia.
    - specialize (IH (cur ++ [x])). rewrite length_app in IH. simpl in IH. lia. }
  specialize (Hb a2 []). rewrite E2 in Hb. simpl in Hb. rewrite length_app. simpl. lia.
Qed.

Lemma lines_elem x s : ∀ cur, x ∈ (lines cur s).2 → x ∈ cur ∨ x ∈ s.
Proof.
  induction s as [|c s IH]; intros cur; simpl; [auto|]. destruct (c =? NL).
  - specialize (IH []). destruct (lines [] s). simpl in *. intros [H|H]%IH; [by apply not_elem_of_nil in H|]. right. by right.
  - intros [H|H]%IH; [|right; by right]. apply elem_of_app in H as [H|H]; [by left|]. apply list_elem_of_singleton in H as ->. right. by left.
Qed.

Lemma grep_loop_run pattern fd cs : ∀ fuel t rest w,
  (length cs < fuel)%nat → Forall good_piece cs → length (t ++ rest) = 1024%nat →
  (NL ∉ t) → (0 ∉ t) → (length t ≤ 511)%nat → 1 ∉ st_bad w →
  st_open w !! Z.to_nat fd = Some (Some (Some <$> cs)) →
  run stream_kernel (grep_loop fuel pattern fd (t ++ rest) (length t)) w =
    Returned tt (emit (hits pattern (lines t (mjoin cs)).1) (left_in fd [] w)).
Proof.
  induction cs as [|c cs IH]; intros fuel t rest w Hf Hgood Hlen Hn Hz Ht Hw Ho;
    (destruct fuel as [|fuel]; [simpl in Hf; lia|]); cbn [grep_loop];
    set (N := 1024%nat) in *; assert (N = 1024%nat) as HN by reflexivity; clearbody N.
  { rewrite run_read_end by done. simpl. by rewrite emit_nil. }
  apply Forall_cons in Hgood as [(Hc1 & Hc2 & Hc3) Hgood]. rewrite length_app in Hlen.
  rewrite (run_read_piece fd _ c (Some <$> cs)) by (done || lia). cbv beta iota zeta.
  assert (0 < length c)%nat by (destruct c; [by apply not_elem_of_nil in Hc1|simpl; lia]).
  rewrite (proj2 (Z.ltb_lt _ _)) by lia. rewrite Nat2Z.id.
  destruct (drop (length c) rest) as [|x junk] eqn:Edrop.
  { apply (f_equal length) in Edrop. rewrite length_drop in Edrop. simpl in Edrop. lia. }
  assert (<[(length t + length c)%nat := 0]> (splice (length t) c (t ++ rest)) = [] ++ (t ++ c) ++ 0 :: junk) as ->.
  { unfold splice. rewrite take_app_length, <- drop_drop, drop_app_length, Edrop, app_assoc.
    rewrite insert_mid by (by rewrite length_app). done. }
  assert (length junk = (1023 - length t - length c)%nat) as Hjunk.
  { apply (f_equal length) in Edrop. rewrite length_drop in Edrop. simpl in Edrop. lia. }
  pose proof (grep_lines_run pattern N [] (t ++ c) junk (left_in fd (Some <$> cs) w)) as Hl.
  pose proof (lines_tail_bound t c Hn Hc1) as Hb. pose proof (lines_tail_no_nl (t ++ c) [] ltac:(set_solver)) as Htn.
  pose proof (λ x, lines_elem x (t ++ c) []) as Hel.
  rewrite lines_app, lines_no_nl in * by done. cbn [app] in *. cbn [mjoin list_join]. rewrite lines_app.
  destruct (lines t c) as [ls t'] eqn:El. cbn [fst snd] in *.
  destruct Hl as (pre & Hrun & Hlen' & Htl & Hpre); [set_solver|rewrite length_app; lia|done|].
  rewrite run_bind. cbn [length] in Hrun. rewrite Hrun. cbv beta iota zeta. rewrite length_app in Hlen'. cbn [length] in *.
  specialize (Hpre ltac:(set_solver)). destruct (Nat.eqb_spec (length pre) 0) as [|_]; [lia|].
  destruct (Nat.ltb_spec 0 (length t + length c)) as [_|]; [|lia].
  replace (length t + length c - length pre)%nat with (length t') by lia.
  assert (slice (length pre) (length t') (pre ++ t' ++ 0 :: junk) = t') as ->.
  { unfold slice. by rewrite drop_app_length, take_app_length. }
  unfold splice at 1. rewrite take_0. cbn [app].
  rewrite IH; try done; [|simpl in Hf; lia| | |lia|].
  - destruct (lines t' (mjoin cs)) as [ls2 t2]. cbn [fst]. rewrite left_in_emit, left_in_left_in, emit_app.
    unfold hits. by rewrite filter_app.
  - rewrite length_app, length_drop, !length_app. simpl. lia.
  - intros H0. apply Hel in H0 as [H0|H0]; [by apply not_elem_of_nil in H0|set_solver].
  - simpl. apply list_lookup_insert_eq. by eapply lookup_lt_Some.
Qed.

Lemma written_emit ls w : written_to 1 (emit ls w) = written_to 1 w ++ (ls ≫= λ l, l ++ [NL]).
Proof.
  unfold written_to, emit. simpl. rewrite bind_app. f_equal.
  induction ls as [|l ls IH]; [done|]. rewrite fmap_cons, !bind_cons, IH. done.
Qed.



(** A read without the end of a line loses what it read: given "a" and
    then "b\n", as a pipe or a terminal may deliver the line "ab", [grep] for
    "a" prints nothing, although the line matches. *)
Theorem grep_loses_partial_line :
  (let '(ls, _) := lines [] [97; 98; 10] in filter (λ l, match_ [97] l = true) ls) = [[97; 98]] ∧
  ∃ w', run stream_kernel (grep 3 [97] 0 (replicate 1024 0)) (Streams [] [Some [Some [97]; Some [98; 10]]] [] []) =
    Returned tt w' ∧ written_to 1 w' = [].
Proof. split; [by vm_compute|]. eexists. split; [vm_compute; reflexivity|done]. Qed.
