(* ===== verification/Programs.v ===== *)
(** * Programs: the small user programs

    cat, wc, echo, ls, ln, rm, mkdir, kill, grep's main, init and zombie of
    xv6/, over the system calls and the library of [User]. The loops that read
    a file take a bound on the number of reads; reaching it is [Stuck]. *)

From Stdlib Require Import String Ascii.
From S2P Require Import Prelude User Grep.

(** A string literal as its bytes. *)
Definition str (s : string) : list Z := (λ a, Z.of_N (N_of_ascii a)) <$> list_ascii_of_string s.
Definition line (s : string) : list Z := str s ++ [NL].

(** ** cat.c *)

Fixpoint cat (fuel : nat) (fd : Z) : prog unit :=
  match fuel with
  | O => Stuck
  | S fuel =>
      '(n, buf) ← read fd 512;
      if 0 <? n then
        r ← write 1 (take (Z.to_nat n) buf);
        if negb (r =? n) then _ ← printf 1 (line "cat: write error") []; Exit
        else cat fuel fd
      else if n <? 0 then _ ← printf 1 (line "cat: read error") []; Exit
      else Ret tt
  end.

(** The loop of [main] over the file names. *)
Fixpoint cat_files (fuel : nat) (files : list (list Z)) : prog unit :=
  match files with
  | [] => Exit
  | f :: files =>
      fd ← open f 0;
      if fd <? 0 then _ ← printf 1 (line "cat: cannot open %s") [PStr (Some f)]; Exit else
      _ ← cat fuel fd;
      _ ← close fd;
      cat_files fuel files
  end.
Definition cat_main (fuel : nat) (argv : list (list Z)) : prog unit :=
  if (length argv <=? 1)%nat then _ ← cat fuel 0; Exit else cat_files fuel (tail argv).

(** ** wc.c *)

Definition blanks : list Z := [32; 13; 9; 10; 11]. (* " \r\t\n\v" *)

(** The counters: lines, words, characters, and whether in a word. *)
Record counts := Counts { c_l : Z; c_w : Z; c_c : Z; c_inword : bool }.

(** One character: the body of the inner loop. *)
Definition wc_char (k : counts) (ch : Z) : counts :=
  let c := s32 (c_c k + 1) in
  let l := if ch =? NL then s32 (c_l k + 1) else c_l k in
  match strchr blanks ch with
  | Some _ => Counts l (c_w k) c false
  | None => if negb (c_inword k) then Counts l (s32 (c_w k + 1)) c true else Counts l (c_w k) c true
  end.

Fixpoint wc_loop (fuel : nat) (fd : Z) (name : list Z) (k : counts) : prog unit :=
  match fuel with
  | O => Stuck
  | S fuel =>
      '(n, buf) ← read fd 512;
      if 0 <? n then wc_loop fuel fd name (foldl wc_char k (take (Z.to_nat n) buf))
      else if n <? 0 then _ ← printf 1 (line "wc: read error") []; Exit
      else printf 1 (line "%d %d %d %s") [PInt (c_l k); PInt (c_w k); PInt (c_c k); PStr (Some name)]
  end.
Definition wc (fuel : nat) (fd : Z) (name : list Z) : prog unit := wc_loop fuel fd name (Counts 0 0 0 false).

Fixpoint wc_files (fuel : nat) (files : list (list Z)) : prog unit :=
  match files with
  | [] => Exit
  | f :: files =>
      fd ← open f 0;
      if fd <? 0 then _ ← printf 1 (line "wc: cannot open %s") [PStr (Some f)]; Exit else
      _ ← wc fuel fd f;
      _ ← close fd;
      wc_files fuel files
  end.
Definition wc_main (fuel : nat) (argv : list (list Z)) : prog unit :=
  if (length argv <=? 1)%nat then _ ← wc fuel 0 []; Exit else wc_files fuel (tail argv).

(** ** grep.c, [main] *)

Fixpoint grep_files (fuel : nat) (pattern : list Z) (buf : list Z) (files : list (list Z)) : prog unit :=
  match files with
  | [] => Exit
  | f :: files =>
      fd ← open f 0;
      if fd <? 0 then _ ← printf 1 (line "grep: cannot open %s") [PStr (Some f)]; Exit else
      _ ← grep fuel pattern fd buf;
      _ ← close fd;
      grep_files fuel pattern buf files
  end.
Definition grep_main (fuel : nat) (buf : list Z) (argv : list (list Z)) : prog unit :=
  match argv with
  | _ :: pattern :: [] => _ ← grep fuel pattern 0 buf; Exit
  | _ :: pattern :: files => grep_files fuel pattern buf files
  | _ => _ ← printf 2 (line "usage: grep pattern [file ...]") []; Exit
  end.

(** ** echo.c, ln.c, rm.c, mkdir.c, kill.c *)

Fixpoint echo_args (args : list (list Z)) : prog unit :=
  match args with
  | [] => Exit
  | a :: args =>
      _ ← printf 1 (str "%s%s") [PStr (Some a); PStr (Some (if bool_decide (args = []) then [NL] else [32]))];
      echo_args args
  end.
Definition echo_main (argv : list (list Z)) : prog unit := echo_args (tail argv).

Definition ln_main (argv : list (list Z)) : prog unit :=
  match argv with
  | [_; old; new] =>
      r ← call (SLink old new);
      if r <? 0 then _ ← printf 2 (line "link %s %s: failed") [PStr (Some old); PStr (Some new)]; Exit
      else Exit
  | _ => _ ← printf 2 (line "Usage: ln old new") []; Exit
  end.

(** The loop of rm and mkdir: stop at the first call that fails. *)
Fixpoint each_file (f : list Z → syscall) (fmt : list Z) (files : list (list Z)) : prog unit :=
  match files with
  | [] => Ret tt
  | x :: files =>
      r ← call (f x);
      if r <? 0 then printf 2 fmt [PStr (Some x)] else each_file f fmt files
  end.
Definition rm_main (argv : list (list Z)) : prog unit :=
  if (length argv <? 2)%nat then _ ← printf 2 (line "Usage: rm files...") []; Exit
  else _ ← each_file SUnlink (line "rm: %s failed to delete") (tail argv); Exit.
Definition mkdir_main (argv : list (list Z)) : prog unit :=
  if (length argv <? 2)%nat then _ ← printf 2 (line "Usage: mkdir files...") []; Exit
  else _ ← each_file SMkdir (line "mkdir: %s failed to create") (tail argv); Exit.

Fixpoint kill_args (args : list (list Z)) : prog unit :=
  match args with
  | [] => Exit
  | a :: args => _ ← call (SKill (atoi a)); kill_args args
  end.
Definition kill_main (argv : list (list Z)) : prog unit :=
  if (length argv <? 2)%nat then _ ← printf 2 (line "usage: kill pid...") []; Exit
  else kill_args (tail argv).

(** ** zombie.c and init.c *)

Definition zombie_main : prog unit :=
  pid ← call SFork;
  if 0 <? pid then _ ← call (SSleep 5); Exit else Exit.

(** [while((wpid=wait()) >= 0 && wpid != pid)] *)
Fixpoint init_wait (fuel : nat) (pid : Z) : prog unit :=
  match fuel with
  | O => Stuck
  | S fuel =>
      wpid ← call SWait;
      if (0 <=? wpid) && negb (wpid =? pid) then _ ← printf 1 (line "zombie!") []; init_wait fuel pid
      else Ret tt
  end.

(** The endless loop of [main], for [rounds] shells and at most [fuel] children
    between two of them. *)
Fixpoint init_loop (rounds fuel : nat) : prog unit :=
  match rounds with
  | O => Stuck
  | S rounds =>
      _ ← printf 1 (line "init: starting sh") [];
      pid ← call SFork;
      if pid <? 0 then _ ← printf 1 (line "init: fork failed") []; Exit else
      if pid =? 0 then
        _ ← call (SExec (str "sh") [str "sh"]);
        _ ← printf 1 (line "init: exec sh failed") []; Exit
      else
        _ ← init_wait fuel pid;
        init_loop rounds fuel
  end.
Definition init_main (rounds fuel : nat) : prog unit :=
  fd ← open (str "console") O_RDWR;
  _ ← (if fd <? 0 then _ ← call (SMknod (str "console") 1 1); _ ← open (str "console") O_RDWR; Ret tt else Ret tt);
  _ ← call (SDup 0); (* stdout *)
  _ ← call (SDup 0); (* stderr *)
  init_loop rounds fuel.

(** ** ls.c *)

(** The path from behind its last slash on. *)
Fixpoint after_slash (path best : list Z) : list Z :=
  match path with
  | [] => best
  | c :: path => after_slash path (if c =? 47 then path else best)
  end.

(** The blank-padded name, as the C string [fmtname] returns; [buf] is the
    static array of DIRSIZ + 1 bytes, which starts out as zeros. *)
Definition fmtname (path : list Z) : list Z :=
  let p := after_slash path path in
  if (14 <=? length p)%nat then p else p ++ replicate (14 - length p) 32.

Definition T_DIR : Z := 1.
Definition T_FILE : Z := 2.

(** [struct stat] (stat.h): type, dev, ino, nlink and size at their offsets. *)
Definition st_type (st : list Z) : Z := s16 (get_u16 st 0).
Definition st_ino (st : list Z) : Z := get_u32 st 8.
Definition st_size (st : list Z) : Z := get_u32 st 16.

Definition ls_entry (name st : list Z) : prog unit :=
  printf 1 (line "%s %d %d %d") [PStr (Some (fmtname name)); PInt (st_type st); PInt (st_ino st); PInt (st_size st)].

(** The loop over the directory entries; [path] ends in a slash. *)
Fixpoint ls_dir (fuel : nat) (fd : Z) (path : list Z) : prog unit :=
  match fuel with
  | O => Stuck
  | S fuel =>
      '(n, de) ← read fd 16;
      if n =? 16 then
        if get_u16 de 0 =? 0 then ls_dir fuel fd path else
        let buf := path ++ cstr (slice 2 14 de) in
        '(r, st) ← stat buf;
        _ ← (if r <? 0 then printf 1 (line "ls: cannot stat %s") [PStr (Some buf)] else ls_entry buf st);
        ls_dir fuel fd path
      else Ret tt
  end.

Definition ls (fuel : nat) (path : list Z) : prog unit :=
  fd ← open path 0;
  if fd <? 0 then printf 2 (line "ls: cannot open %s") [PStr (Some path)] else
  Call (SFstat fd) (λ r st,
    if r <? 0 then _ ← printf 2 (line "ls: cannot stat %s") [PStr (Some path)]; _ ← close fd; Ret tt else
    _ ← (if st_type st =? T_FILE then ls_entry path st
         else if st_type st =? T_DIR then
           if 512 <? strlen path + 1 + 14 + 1 then printf 1 (line "ls: path too long") []
           else ls_dir fuel fd (path ++ [47])
         else Ret tt);
    _ ← close fd;
    Ret tt).

Fixpoint ls_args (fuel : nat) (args : list (list Z)) : prog unit :=
  match args with
  | [] => Exit
  | a :: args => _ ← ls fuel a; ls_args fuel args
  end.
Definition ls_main (fuel : nat) (argv : list (list Z)) : prog unit :=
  if (length argv <? 2)%nat then _ ← ls fuel (str "."); Exit else ls_args fuel (tail argv).

(** ** Reading a file to its end *)

(** One read of at most [n > 0] bytes from a file that has more. *)
Lemma run_read_some {B} fd n cs (k : Z * list Z → prog B) w :
  st_open w !! Z.to_nat fd = Some (Some (Some <$> cs)) → Forall (λ c, c ≠ []) cs → cs ≠ [] → 0 < n →
  ∃ got cs', got ≠ [] ∧ Forall (λ c, c ≠ []) cs' ∧ mjoin cs = got ++ mjoin cs' ∧
    run stream_kernel (read fd n ≫= k) w =
      run stream_kernel (k (Z.of_nat (length got), got)) (left_in fd (Some <$> cs') w).
Proof.
  intros Ho Hne Hcs Hn. destruct cs as [|c cs]; [done|]. apply Forall_cons in Hne as [Hc Hne].
  exists (take (Z.to_nat n) c), (if decide (drop (Z.to_nat n) c = []) then cs else drop (Z.to_nat n) c :: cs).
  split_and!.
  - destruct c; [done|]. destruct (Z.to_nat n) eqn:E; [lia|done].
  - case_decide; [done|]. by constructor.
  - cbn [mjoin list_join]. case_decide as Hd.
    + f_equal. rewrite <- (take_drop (Z.to_nat n) c) at 1. by rewrite Hd, app_nil_r.
    + cbn [mjoin list_join]. by rewrite app_assoc, take_drop.
  - unfold read. simpl. rewrite Ho. simpl. unfold left_in. do 3 f_equal.
    destruct (decide (drop (Z.to_nat n) c = [])) as [Hd|Hd].
    + by rewrite bool_decide_eq_true_2.
    + by rewrite bool_decide_eq_false_2.
Qed.

Lemma open_left_in fd l w :
  is_Some (st_open w !! Z.to_nat fd) → st_open (left_in fd l w) !! Z.to_nat fd = Some (Some l).
Proof. intros H. simpl. apply list_lookup_insert_eq. by apply lookup_lt_is_Some. Qed.

(** The loop of cat, for any state of standard output. *)
Lemma cat_run fuel : ∀ fd cs w,
  st_open w !! Z.to_nat fd = Some (Some (Some <$> cs)) → Forall (λ c, c ≠ []) cs →
  (length (mjoin cs) < fuel)%nat → 1 ∉ st_bad w →
  ∃ w', run stream_kernel (cat fuel fd) w = Returned tt w' ∧ st_open w' = <[Z.to_nat fd := Some []]> (st_open w) ∧
    st_bad w' = st_bad w ∧ written_to 1 w' = written_to 1 w ++ mjoin cs.
Proof.
  induction fuel as [|fuel IH]; intros fd cs w Ho Hne Hf Hbad; [lia|]. cbn [cat].
  destruct (decide (cs = [])) as [->|Hcs].
  { rewrite run_read_end by done. simpl. eexists. split_and!; [done|done|done|]. by rewrite app_nil_r. }
  match goal with |- context [read fd 512 ≫= ?k] =>
    destruct (run_read_some fd 512 cs k w Ho Hne Hcs ltac:(lia)) as (got & cs' & Hg & Hne' & Hj & Hrun) end.
  rewrite Hrun. clear Hrun. cbv beta iota. assert (0 < length got)%nat as Hl by (destruct got; simpl; [done|lia]).
  rewrite (proj2 (Z.ltb_lt _ _)) by lia. rewrite Nat2Z.id, firstn_all. rewrite Hj, length_app in Hf.
  set (w1 := left_in fd (Some <$> cs') w).
  set (w2 := Streams (st_files w1) (st_open w1) (st_bad w1) (st_out w1 ++ [(1, got)])).
  assert (run stream_kernel (write 1 got) w1 = Returned (Z.of_nat (length got)) w2) as Hwr.
  { unfold write, call. cbn [run stream_kernel]. by rewrite bool_decide_eq_false_2. }
  rewrite run_bind, Hwr, Z.eqb_refl. cbn [negb].
  destruct (IH fd cs' w2) as (w' & Hr & H1 & H2 & H3); [|done|lia|done|].
  - apply open_left_in. eauto.
  - exists w'. split_and!; [done| |done|].
    + rewrite H1. simpl. apply list_insert_insert_eq.
    + rewrite H3, Hj. unfold written_to, w2. simpl. rewrite bind_app, <- app_assoc. simpl. by rewrite app_nil_r.
Qed.

(** cat copies. For a file whose bytes come in pieces of any size, [cat]
    reads to the end, returns, and has written exactly these bytes to standard
    output, in order. When the output cannot be written, it exits at the
    first piece. *)
Theorem cat_copies fd cs w fuel :
  st_open w !! Z.to_nat fd = Some (Some (Some <$> cs)) → Forall (λ c, c ≠ []) cs →
  (length (mjoin cs) < fuel)%nat →
  (1 ∉ st_bad w → ∃ w', run stream_kernel (cat fuel fd) w = Returned tt w' ∧
     st_open w' !! Z.to_nat fd = Some (Some []) ∧ written_to 1 w' = written_to 1 w ++ mjoin cs) ∧
  (1 ∈ st_bad w → cs ≠ [] → ∃ w', run stream_kernel (cat fuel fd) w = Exited w' ∧ st_out w' = st_out w).
Proof.
  intros Ho Hne Hf. split.
  - intros Hbad. destruct (cat_run fuel fd cs w Ho Hne Hf Hbad) as (w' & Hr & H1 & _ & H2). exists w'.
    split_and!; [done| |done]. rewrite H1. apply list_lookup_insert_eq. by eapply lookup_lt_Some.
  - intros Hbad Hcs. destruct fuel as [|fuel]; [lia|]. cbn [cat].
    match goal with |- context [read fd 512 ≫= ?k] =>
      destruct (run_read_some fd 512 cs k w Ho Hne Hcs ltac:(lia)) as (got & cs' & Hg & Hne' & Hj & Hrun) end.
    rewrite Hrun. clear Hrun. cbv beta iota. assert (0 < length got)%nat as Hl by (destruct got; simpl; [done|lia]).
    rewrite (proj2 (Z.ltb_lt _ _)) by lia. set (w1 := left_in fd (Some <$> cs') w).
    assert (run stream_kernel (write 1 (take (Z.to_nat (Z.of_nat (length got))) got)) w1 = Returned (-1) w1) as Hwr.
    { unfold write, call. cbn [run stream_kernel]. by rewrite bool_decide_eq_true_2. }
    rewrite run_bind, Hwr. rewrite (proj2 (Z.eqb_neq (-1) _)) by lia. cbn [negb].
    rewrite run_bind. erewrite run_printf by (vm_compute; reflexivity). eexists. split; [reflexivity|].
    unfold put_out. by rewrite bool_decide_eq_true_2.
Qed.

Lemma cat_copies_witness :
  ∃ w', run stream_kernel (cat 10 0) (Streams [] [Some [Some [97; 98]; Some [99]]] [] []) = Returned tt w' ∧
    st_open w' !! 0%nat = Some (Some []) ∧ written_to 1 w' = [97; 98; 99].
Proof.
  destruct (cat_copies 0 [[97; 98]; [99]] (Streams [] [Some [Some [97; 98]; Some [99]]] [] []) 10) as [H _].
  - reflexivity.
  - repeat constructor; discriminate.
  - simpl. lia.
  - apply H. apply not_elem_of_nil.
Defined.

(** ** Counting *)

Definition blank (ch : Z) : Prop := ch ∈ blanks.

#[global] Instance blank_dec ch : Decision (blank ch).
Proof. unfold blank. apply _. Defined.

Lemma strchr_blanks ch : (∃ s, strchr blanks ch = Some s) ∧ blank ch ∨ strchr blanks ch = None ∧ ¬ blank ch.
Proof.
  assert (∀ l : list Z, (∃ s, strchr l ch = Some s) ∧ ch ∈ l ∨ strchr l ch = None ∧ ch ∉ l) as H; [|apply H].
  induction l as [|a l IH]; [right; split; [done|apply not_elem_of_nil]|]. simpl.
  destruct (Z.eqb_spec a ch) as [->|Hne]; [left; split; [eauto|left]|].
  destruct IH as [[IH ?]|[? ?]]; [left; split; [done|by right]|right]. split; [done|]. by apply not_elem_of_cons.
Qed.

(** A word starts at [i]: no blank there, and none of a word before. *)
Definition word_start (s : list Z) (i : nat) : Prop :=
  (∃ ch, s !! i = Some ch ∧ ¬ blank ch) ∧ (i = 0%nat ∨ ∃ ch, s !! (i - 1)%nat = Some ch ∧ blank ch).

#[global] Instance word_start_dec s i : Decision (word_start s i).
Proof.
  assert (∀ j (P : Z → Prop) `{∀ x, Decision (P x)}, Decision (∃ ch, s !! j = Some ch ∧ P ch)) as Hd.
  { intros j P HP. destruct (s !! j) as [ch|] eqn:E.
    - destruct (decide (P ch)); [left; eauto|right]. intros (? & [= <-] & ?). done.
    - right. by intros (? & [=] & _). }
  unfold word_start. apply and_dec; [apply Hd; apply _|apply or_dec; [apply _|apply Hd; apply _]].
Defined.

Definition nlines (s : list Z) : Z := Z.of_nat (length (filter (λ ch, ch = NL) s)).
Definition nwords (s : list Z) : Z := Z.of_nat (length (filter (word_start s) (seq 0 (length s)))).

Lemma filter_ext_elem {A} (P Q : A → Prop) `{∀ x, Decision (P x)} `{∀ x, Decision (Q x)} (l : list A) :
  (∀ x, x ∈ l → P x ↔ Q x) → filter P l = filter Q l.
Proof.
  induction l as [|x l IH]; intros Hl; [done|]. rewrite !filter_cons.
  rewrite IH by (intros y Hy; apply Hl; by right). specialize (Hl x ltac:(left)). repeat case_decide; tauto.
Qed.

Lemma nwords_snoc s ch :
  nwords (s ++ [ch]) = nwords s + if decide (word_start (s ++ [ch]) (length s)) then 1 else 0.
Proof.
  unfold nwords. rewrite length_app, seq_app, filter_app, length_app. cbn [length Nat.add seq].
  rewrite filter_cons, filter_nil.
  replace (filter (word_start (s ++ [ch])) (seq 0 (length s))) with (filter (word_start s) (seq 0 (length s))).
  { case_decide; simpl; lia. }
  apply filter_ext_elem. intros i Hi%elem_of_seq. unfold word_start. rewrite !lookup_app_l by lia. done.
Qed.

Definition in_word (s : list Z) : bool := match last s with Some ch => negb (bool_decide (blank ch)) | None => false end.

Lemma word_start_end s ch :
  word_start (s ++ [ch]) (length s) ↔ ¬ blank ch ∧ in_word s = false.
Proof.
  unfold word_start, in_word. rewrite list_lookup_middle by done. rewrite last_lookup.
  destruct s as [|x s'] using rev_ind; [simpl; naive_solver|]. clear IHs'.
  rewrite length_app. simpl. replace (Nat.pred (length s' + 1)) with (length s') by lia.
  replace (length s' + 1 - 1)%nat with (length s') by lia.
  rewrite <- app_assoc. cbn [app]. rewrite !(list_lookup_middle s') by done.
  rewrite negb_false_iff, bool_decide_eq_true. split.
  - intros [(c1 & E1 & Hb) [?|(c2 & E2 & Hx)]]; [lia|]. by simplify_eq.
  - intros [Hb Hx]. split; [eauto|]. right. eauto.
Qed.

Lemma nlines_snoc s ch : nlines (s ++ [ch]) = nlines s + if ch =? NL then 1 else 0.
Proof.
  unfold nlines. rewrite filter_app, length_app, filter_cons, filter_nil.
  destruct (Z.eqb_spec ch NL); case_decide; simpl; (lia || done).
Qed.

Lemma count_bound s : 0 ≤ nlines s ≤ Z.of_nat (length s) ∧ 0 ≤ nwords s ≤ Z.of_nat (length s).
Proof.
  unfold nlines, nwords. pose proof (length_filter (λ ch, ch = NL) s).
  pose proof (length_filter (word_start s) (seq 0 (length s))). rewrite length_seq in *. lia.
Qed.

(** The counters after the characters [s]. *)
Lemma wc_chars s :
  Z.of_nat (length s) < 2 ^ 31 →
  foldl wc_char (Counts 0 0 0 false) s = Counts (nlines s) (nwords s) (Z.of_nat (length s)) (in_word s).
Proof.
  induction s as [|ch s IH] using rev_ind; intros Hl; [done|]. rewrite length_app in *. simpl in Hl.
  rewrite foldl_app, IH by lia. cbn [foldl]. rewrite nlines_snoc, nwords_snoc.
  pose proof (count_bound s) as [Hb1 Hb2]. unfold wc_char. cbn [c_l c_w c_c c_inword].
  rewrite !(s32_small (_ + 1)) by lia. replace (Z.of_nat (length s + length [ch])) with (Z.of_nat (length s) + 1) by (simpl; lia).
  assert (in_word (s ++ [ch]) = negb (bool_decide (blank ch))) as -> by (unfold in_word; by rewrite last_snoc).
  assert ((if ch =? NL then nlines s + 1 else nlines s) = nlines s + (if ch =? NL then 1 else 0)) as -> by (case_match; lia).
  destruct (strchr_blanks ch) as [[(r & ->) Hbl]|[-> Hbl]].
  - rewrite (bool_decide_eq_true_2 (blank ch)) by done. rewrite decide_False; [by rewrite Z.add_0_r|].
    rewrite word_start_end. tauto.
  - rewrite (bool_decide_eq_false_2 (blank ch)) by done. cbn [negb]. destruct (in_word s) eqn:Ei; cbn [negb].
    + rewrite decide_False; [by rewrite Z.add_0_r|]. rewrite word_start_end. rewrite Ei. naive_solver.
    + rewrite decide_True; [done|]. by rewrite word_start_end.
Qed.

Lemma wc_loop_run fuel : ∀ fd name k cs w,
  st_open w !! Z.to_nat fd = Some (Some (Some <$> cs)) → Forall (λ c, c ≠ []) cs →
  (length (mjoin cs) < fuel)%nat →
  let k' := foldl wc_char k (mjoin cs) in
  run stream_kernel (wc_loop fuel fd name k) w =
  run stream_kernel (printf 1 (line "%d %d %d %s") [PInt (c_l k'); PInt (c_w k'); PInt (c_c k'); PStr (Some name)])
    (left_in fd [] w).
Proof.
  induction fuel as [|fuel IH]; intros fd name k cs w Ho Hne Hf; [lia|]. cbn [wc_loop].
  destruct (decide (cs = [])) as [->|Hcs]; [by rewrite run_read_end by done|].
  match goal with |- context [read fd 512 ≫= ?kk] =>
    destruct (run_read_some fd 512 cs kk w Ho Hne Hcs ltac:(lia)) as (got & cs' & Hg & Hne' & Hj & Hrun) end.
  rewrite Hrun. clear Hrun. cbv beta iota. assert (0 < length got)%nat as Hl by (destruct got; simpl; [done|lia]).
  rewrite (proj2 (Z.ltb_lt _ _)) by lia. rewrite Nat2Z.id, firstn_all. rewrite Hj, length_app in Hf.
  rewrite (IH fd name _ cs'); [|apply open_left_in; eauto|done|lia].
  rewrite left_in_left_in. by rewrite Hj, foldl_app.
Qed.

(** wc counts. For a file shorter than 2 GB, in pieces of any size, [wc]
    reads to the end and prints the number of newlines, of words (a word starts
    at a character that is no blank, at the beginning or behind a blank) and of
    characters, and the name; the cuts between the reads do not matter. *)
Theorem wc_counts fd name cs w fuel :
  st_open w !! Z.to_nat fd = Some (Some (Some <$> cs)) → Forall (λ c, c ≠ []) cs →
  (length (mjoin cs) < fuel)%nat → Z.of_nat (length (mjoin cs)) < 2 ^ 31 → 1 ∉ st_bad w →
  ∃ w', run stream_kernel (wc fuel fd name) w = Returned tt w' ∧
    written_to 1 w' = written_to 1 w ++ printint_bytes (nlines (mjoin cs)) 10 true ++ [32] ++
      printint_bytes (nwords (mjoin cs)) 10 true ++ [32] ++
      printint_bytes (Z.of_nat (length (mjoin cs))) 10 true ++ [32] ++ name ++ [NL].
Proof.
  intros Ho Hne Hf Hlen Hbad. unfold wc. rewrite (wc_loop_run fuel fd name _ cs w) by done. rewrite wc_chars by done.
  cbn [c_l c_w c_c]. pose proof (count_bound (mjoin cs)) as [Hb1 Hb2].
  assert (format (line "%d %d %d %s") [PInt (nlines (mjoin cs)); PInt (nwords (mjoin cs));
    PInt (Z.of_nat (length (mjoin cs))); PStr (Some name)] = Some (printint_bytes (nlines (mjoin cs)) 10 true ++ [32] ++
      printint_bytes (nwords (mjoin cs)) 10 true ++ [32] ++
      printint_bytes (Z.of_nat (length (mjoin cs))) 10 true ++ [32] ++ name ++ [NL])) as Hfmt.
  { change (line "%d %d %d %s") with [37; 100; 32; 37; 100; 32; 37; 100; 32; 37; 115; 10].
    cbn [format convert Z.eqb Pos.eqb PERCENT orb mbind option_bind]. rewrite !s32_small by lia.
    cbn [fmap option_fmap option_map]. done. }
  eexists. split; [by apply run_printf|]. by rewrite written_put_out.
Qed.

Lemma wc_counts_witness :
  ∃ w', run stream_kernel (wc 20 0 [102]) (Streams [] [Some [Some [97; 32]; Some [98; 99; 10]]] [] []) = Returned tt w' ∧
    written_to 1 w' = [49; 32; 50; 32; 53; 32; 102; 10].
Proof.
  destruct (wc_counts 0 [102] [[97; 32]; [98; 99; 10]] (Streams [] [Some [Some [97; 32]; Some [98; 99; 10]]] [] []) 20) as (w' & H1 & H2).
  - reflexivity.
  - repeat constructor; discriminate.
  - simpl. lia.
  - simpl. lia.
  - apply not_elem_of_nil.
  - exists w'. split; [exact H1|]. exact H2.
Defined.
