(* ===== verification/Console.v ===== *)
(** * Console: console input and output (kernel/c/console.c)

    The state is that of the C file (the input ring buffer, [cons],
    [panicked]), of the screen memory and the cursor registers of the CRT
    controller, and the characters sent to the serial port. *)

From S2P Require Import Prelude State Bio Log Fs LogOps Demo.

Definition INPUT_BUF : Z := 128.
Definition BACKSPACE : Z := 0x100.
Definition CRTPORT : Z := 0x3d4.

(** Control-x *)
Definition CTRL (x : Z) : Z := x - 64.

Definition NEWLINE : Z := 10.

(** [input] *)
Record input := Input {
  in_buf : list Z;
  in_r : Z; (* Read index *)
  in_w : Z; (* Write index *)
  in_e : Z  (* Edit index *)
}.

Record cst := Cst {
  c_input : input;
  c_locking : Z;      (* cons.locking *)
  c_lock : bool;      (* cons.lock is held by this CPU *)
  c_panicked : Z;
  c_crt : list Z;     (* CGA memory: 25 rows of 80 cells *)
  c_index : Z;        (* CRT controller: the register selected, *)
  c_regs : Z * Z;     (* and registers 14 and 15, the cursor position *)
  c_uart : list Z     (* sent to the serial port, oldest first *)
}.

Definition set_input (i : input) (s : cst) : cst :=
  Cst i (c_locking s) (c_lock s) (c_panicked s) (c_crt s) (c_index s) (c_regs s) (c_uart s).
Definition set_locking (l : Z) (s : cst) : cst :=
  Cst (c_input s) l (c_lock s) (c_panicked s) (c_crt s) (c_index s) (c_regs s) (c_uart s).
Definition set_lock (b : bool) (s : cst) : cst :=
  Cst (c_input s) (c_locking s) b (c_panicked s) (c_crt s) (c_index s) (c_regs s) (c_uart s).
Definition set_panicked (p : Z) (s : cst) : cst :=
  Cst (c_input s) (c_locking s) (c_lock s) p (c_crt s) (c_index s) (c_regs s) (c_uart s).
Definition set_crt (l : list Z) (s : cst) : cst :=
  Cst (c_input s) (c_locking s) (c_lock s) (c_panicked s) l (c_index s) (c_regs s) (c_uart s).
Definition set_index (n : Z) (s : cst) : cst :=
  Cst (c_input s) (c_locking s) (c_lock s) (c_panicked s) (c_crt s) n (c_regs s) (c_uart s).
Definition set_regs (r : Z * Z) (s : cst) : cst :=
  Cst (c_input s) (c_locking s) (c_lock s) (c_panicked s) (c_crt s) (c_index s) r (c_uart s).
Definition set_uart (l : list Z) (s : cst) : cst :=
  Cst (c_input s) (c_locking s) (c_lock s) (c_panicked s) (c_crt s) (c_index s) (c_regs s) l.

Abbreviation CM := (K cst).

Definition acquire_cons : CM unit :=
  b ← gets c_lock;
  if b : bool then panic "assertion failed: !self.is_locked()" else modify (set_lock true).
Definition release_cons : CM unit :=
  b ← gets c_lock;
  if b : bool then modify (set_lock false) else panic "assertion failed: self.is_locked()".

(** ** Devices *)

(** The two ports of the CRT controller. *)
Definition outb (port v : Z) : CM unit :=
  if port =? CRTPORT then modify (set_index (u8 v))
  else if port =? CRTPORT + 1 then
    modify (λ s, if c_index s =? 14 then set_regs (u8 v, (c_regs s).2) s
                 else if c_index s =? 15 then set_regs ((c_regs s).1, u8 v) s else s)
  else undef "outb: not a port of the console".

Definition inb (port : Z) : CM Z :=
  if port =? CRTPORT + 1 then
    gets (λ s, if c_index s =? 14 then (c_regs s).1 else if c_index s =? 15 then (c_regs s).2 else 0)
  else undef "inb: not a port of the console".

Definition uartputc (c : Z) : CM unit := modify (λ s, set_uart (c_uart s ++ [u8 c]) s).

(** [crt[pos] = v]; outside the screen memory is undefined. *)
Definition crt_store (pos v : Z) : CM unit :=
  s ← get;
  if (0 <=? pos) && (pos <? Z.of_nat (length (c_crt s)))
  then put (set_crt (<[Z.to_nat pos := v]> (c_crt s)) s)
  else undef "crt: index out of range".

(** ** Output *)

(** [for(;;);] after a panic: this CPU does nothing more. *)
Definition freeze {A} : CM A := fail (FSleep "frozen").

(** Where the cursor goes, before scrolling. *)
Definition cga_move (c pos : Z) : CM Z :=
  if c =? NEWLINE then mret (pos + (80 - pos mod 80))
  else if c =? BACKSPACE then mret (if 0 <? pos then pos - 1 else pos)
  else crt_store pos (Z.lor (Z.land c 0xff) 0x0700) ;; mret (pos + 1).

(** [memmove(crt, crt + 80, 23*80 cells)] and [memset(crt + pos, 0, ...)] *)
Definition cga_scroll (pos : Z) : CM Z :=
  s ← get;
  let crt := splice 0 (slice 80 (23 * 80) (c_crt s)) (c_crt s) in
  let pos := pos - 80 in
  put (set_crt (splice (Z.to_nat pos) (replicate (Z.to_nat (24 * 80 - pos)) 0) crt) s) ;;
  mret pos.

Definition cgaputc (c : Z) : CM unit :=
  (* Cursor position: col + 80*row. *)
  outb CRTPORT 14 ;;
  hi ← inb (CRTPORT + 1);
  outb CRTPORT 15 ;;
  lo ← inb (CRTPORT + 1);
  let pos := Z.lor (Z.shiftl hi 8) lo in
  pos ← cga_move c pos;
  if (pos <? 0) || (25 * 80 <? pos) then panic "pos under/overflow" else
  pos ← (if 24 <=? pos / 80 then cga_scroll pos else mret pos);
  outb CRTPORT 14 ;;
  outb (CRTPORT + 1) (Z.shiftr pos 8) ;;
  outb CRTPORT 15 ;;
  outb (CRTPORT + 1) pos ;;
  crt_store pos (Z.lor 32 0x0700).

Definition consputc (c : Z) : CM unit :=
  p ← gets c_panicked;
  if negb (p =? 0) then freeze else
  (if c =? BACKSPACE then uartputc 8 ;; uartputc 32 ;; uartputc 8 else uartputc c) ;;
  cgaputc c.

(** ** [cprintf] *)

Definition cdigit (d : Z) : Z := if d <? 10 then 48 + d else 87 + d. (* "0123456789abcdef" *)

Fixpoint cdigits_loop (fuel : nat) (x base : Z) : list Z :=
  match fuel with
  | O => []
  | S fuel => cdigit (x mod base) :: (if x / base =? 0 then [] else cdigits_loop fuel (x / base) base)
  end.

(** The characters of [printint], in the order they are put out. *)
Definition printint_chars (xx base : Z) (sign : bool) : list Z :=
  let sign := sign && (xx <? 0) in
  let x := if sign then u32 (- xx) else u32 xx in
  let buf := cdigits_loop 32 x base in
  reverse (if sign then buf ++ [45] else buf).
Definition cons_printint (xx base : Z) (sign : bool) : CM unit := for_each (printint_chars xx base sign) consputc.

(** An argument of [cprintf], as the conversion reads it. *)
Inductive carg := CInt (z : Z) | CStr (s : option (list Z)).

Fixpoint cprintf_loop (fmt : list Z) (argp : list carg) : CM unit :=
  match fmt with
  | [] => mret tt
  | c :: fmt =>
      if negb (c =? 37) then consputc c ;; cprintf_loop fmt argp else
      match fmt with
      | [] => mret tt
      | c :: fmt =>
          if c =? 100 then
            match argp with
            | CInt z :: argp => cons_printint (s32 z) 10 true ;; cprintf_loop fmt argp
            | _ => undef "cprintf: argument"
            end
          else if (c =? 120) || (c =? 112) then
            match argp with
            | CInt z :: argp => cons_printint (s32 z) 16 false ;; cprintf_loop fmt argp
            | _ => undef "cprintf: argument"
            end
          else if c =? 115 then
            match argp with
            | CStr s :: argp =>
                for_each (default [40; 110; 117; 108; 108; 41] s) consputc ;; (* "(null)" *)
                cprintf_loop fmt argp
            | _ => undef "cprintf: argument"
            end
          else if c =? 37 then consputc 37 ;; cprintf_loop fmt argp
          else consputc 37 ;; consputc c ;; cprintf_loop fmt argp
      end
  end.

(** Print to the console. Only understands %d, %x, %p, %s. *)
Definition cprintf (fmt : list Z) (args : list carg) : CM unit :=
  locking ← gets c_locking;
  when (negb (locking =? 0)) acquire_cons ;;
  cprintf_loop fmt args ;;
  when (negb (locking =? 0)) release_cons.

(** "lapicid %d: panic: " *)
Definition panic_fmt : list Z :=
  [108; 97; 112; 105; 99; 105; 100; 32; 37; 100; 58; 32; 112; 97; 110; 105; 99; 58; 32].

(** [panic(s)], with what [lapicid] and [getcallerpcs] return. *)
Definition cons_panic (lapicid : Z) (pcs : list Z) (s : list Z) : CM unit :=
  modify (set_locking 0) ;;
  cprintf panic_fmt [CInt lapicid] ;;
  cprintf s [] ;;
  cprintf [10] [] ;;
  for_each pcs (λ pc, cprintf [32; 37; 112] [CInt pc]) ;; (* " %p" *)
  modify (set_panicked 1) ;; (* freeze other CPU *)
  freeze.

(** ** Input *)

(** [input.buf[i % INPUT_BUF]] *)
Definition in_get (i : input) (k : Z) : Z := in_buf i !!! Z.to_nat (u32 k mod INPUT_BUF).

Definition get_input : CM input := gets c_input.
Definition put_input (i : input) : CM unit := modify (set_input i).
Definition set_e (e : Z) (i : input) : input := Input (in_buf i) (in_r i) (in_w i) (u32 e).
Definition set_w (w : Z) (i : input) : input := Input (in_buf i) (in_r i) (u32 w) (in_e i).
Definition set_r (r : Z) (i : input) : input := Input (in_buf i) (u32 r) (in_w i) (in_e i).

(** The loop of C('U'); [e] can go back at most INPUT_BUF times. *)
Fixpoint kill_line (fuel : nat) : CM unit :=
  match fuel with
  | O => undef "consoleintr: out of fuel"
  | S fuel =>
      i ← get_input;
      if negb (in_e i =? in_w i) && negb (in_get i (in_e i - 1) =? NEWLINE) then
        put_input (set_e (in_e i - 1) i) ;;
        consputc BACKSPACE ;;
        kill_line fuel
      else mret tt
  end.

(** One character of [consoleintr]. *)
Definition consoleintr_char (c : Z) : CM unit :=
  if c =? CTRL 80 then mret tt (* C('P'): Process listing. *)
  else if c =? CTRL 85 then kill_line 130 (* C('U'): Kill line. *)
  else if (c =? CTRL 72) || (c =? 0x7f) then (* C('H'), Backspace *)
    i ← get_input;
    when (negb (in_e i =? in_w i))
      (put_input (set_e (in_e i - 1) i) ;;
       consputc BACKSPACE)
  else
    i ← get_input;
    when (negb (c =? 0) && (u32 (in_e i - in_r i) <? INPUT_BUF))
      (let c := if c =? 13 then NEWLINE else c in
       let i := Input (<[Z.to_nat (in_e i mod INPUT_BUF) := u8 c]> (in_buf i)) (in_r i) (in_w i) (u32 (in_e i + 1)) in
       put_input i ;;
       consputc c ;;
       when ((c =? NEWLINE) || (c =? CTRL 68) || (in_e i =? u32 (in_r i + INPUT_BUF)))
         (i ← get_input;
          put_input (set_w (in_e i) i))). (* wakeup(&input.r) *)

(** [cs] are the values that [getc] returns before a negative one. *)
Definition consoleintr (cs : list Z) : CM unit :=
  acquire_cons ;;
  for_each cs consoleintr_char ;;
  release_cons.

(** The loop of [consoleread]: [n] bytes to go, of [target]. *)
Fixpoint consoleread_loop (n : nat) (target : Z) (killed : bool) (acc : list Z) : CM (option (Z * list Z)) :=
  match n with
  | O => mret (Some (0, acc))
  | S n' =>
      i ← get_input;
      if in_r i =? in_w i then
        if killed then mret None
        else fail (FSleep "input")
      else
        let c := in_get i (in_r i) in
        put_input (set_r (in_r i + 1) i) ;;
        if c =? CTRL 68 then (* EOF *)
          when (Z.of_nat n <? target)
            (i ← get_input; (* Save ^D for next time. *)
             put_input (set_r (in_r i - 1) i)) ;;
          mret (Some (Z.of_nat n, acc))
        else if c =? NEWLINE then mret (Some (Z.of_nat n', acc ++ [c]))
        else consoleread_loop n' target killed (acc ++ [c])
  end.

(** The console file is an inode: its functions work on the file system's
    state and on the console's. *)
Abbreviation sys := (kst * cst)%type.

Definition on_fs {A} (m : KM A) : K sys A :=
  λ s, match m s.1 with Ok a s' => Ok a (s', s.2) | Fault f => Fault f end.
Definition on_con {A} (m : CM A) : K sys A :=
  λ s, match m s.2 with Ok a s' => Ok a (s.1, s') | Fault f => Fault f end.

(** The return value and the bytes stored at [dst]; [killed] is
    [myproc()->killed]. A reader with nothing to read sleeps. *)
Definition consoleread (ip : nat) (n : Z) (killed : bool) : K sys (Z * list Z) :=
  on_fs (iunlock ip) ;;
  r ← on_con (acquire_cons ;;
              r ← (if 0 <? n then consoleread_loop (Z.to_nat n) n killed [] else mret (Some (n, [])));
              release_cons ;;
              mret r);
  on_fs (ilock ip) ;;
  match r with
  | None => mret (-1, [])
  | Some (togo, bytes) => mret (n - togo, bytes)
  end.

Definition consolewrite (ip : nat) (buf : list Z) (n : Z) : K sys Z :=
  on_fs (iunlock ip) ;;
  on_con (acquire_cons ;;
          for_each (take (Z.to_nat n) buf) (λ b, consputc (Z.land b 0xff)) ;;
          release_cons) ;;
  on_fs (ilock ip) ;;
  mret n.

(** [initlock], and [cons.locking]; the device switch gets [consoleread] and
    [consolewrite]. *)
Definition consoleinit : CM unit :=
  modify (set_lock false) ;;
  modify (set_locking 1).

(** ** The screen *)

Definition cursor (s : cst) : Z := (c_regs s).1 * 256 + (c_regs s).2.

(** 25 rows, and the cursor on one of the first 24. *)
Record screen_ok (s : cst) : Prop := {
  so_crt : length (c_crt s) = 2000%nat;
  so_hi : 0 ≤ (c_regs s).1 < 256;
  so_lo : 0 ≤ (c_regs s).2 < 256;
  so_pos : cursor s < 24 * 80
}.

(** The screen after a character: cells and cursor. *)
Definition screen_put (c : Z) (crt : list Z) (pos : Z) : list Z * Z :=
  let '(crt, pos) :=
    if decide (c = NEWLINE) then (crt, (pos / 80 + 1) * 80)
    else if decide (c = BACKSPACE) then (crt, Z.max 0 (pos - 1))
    else (<[Z.to_nat pos := Z.lor (Z.land c 0xff) 0x0700]> crt, pos + 1) in
  let '(crt, pos) :=
    if decide (pos < 24 * 80) then (crt, pos)
    else (take (23 * 80) (drop 80 crt) ++ replicate 80 0 ++ drop (24 * 80) crt, pos - 80) in
  (<[Z.to_nat pos := 0x720]> crt, pos).

Lemma screen_put_length c crt pos :
  length crt = 2000%nat → length (screen_put c crt pos).1 = 2000%nat.
Proof.
  intros Hl. unfold screen_put. case_decide; [|case_decide]; case_decide; cbn [fst];
    rewrite ?length_insert, ?length_app, ?length_take, ?length_drop, ?length_replicate, ?length_insert, ?Hl; done.
Qed.

Lemma screen_put_pos c crt pos : 0 ≤ pos < 24 * 80 → 0 ≤ (screen_put c crt pos).2 < 24 * 80.
Proof.
  intros Hp. pose proof (Z.div_mod pos 80 ltac:(lia)). pose proof (Z.mod_pos_bound pos 80 ltac:(lia)).
  unfold screen_put. case_decide; [|case_decide]; case_decide; cbn [snd]; lia.
Qed.

Lemma lor_bytes hi lo : 0 ≤ lo < 256 → Z.lor (Z.shiftl hi 8) lo = hi * 256 + lo.
Proof.
  intros Hl. assert (Z.land (hi * 2 ^ 8) lo = 0) as Hd.
  { apply Z.bits_inj'. intros n Hn. rewrite Z.land_spec, Z.bits_0. destruct (decide (n < 8)).
    - by rewrite Z.mul_pow2_bits_low by lia.
    - rewrite <- (Z.mod_small lo (2 ^ 8)) by done. by rewrite Z.mod_pow2_bits_high, andb_false_r by lia. }
  rewrite Z.shiftl_mul_pow2 by lia. change 256 with (2 ^ 8). by rewrite (Z.add_nocarry_lxor _ _ Hd), Z.lxor_lor.
Qed.

Lemma pos_bytes pos : 0 ≤ pos < 2 ^ 16 → u8 (Z.shiftr pos 8) * 256 + u8 pos = pos.
Proof.
  intros Hp. rewrite Z.shiftr_div_pow2 by lia. unfold u8. change (2 ^ 8) with 256.
  assert (0 ≤ pos / 256 < 256) by (split; [apply Z.div_pos; lia|apply Z.div_lt_upper_bound; lia]).
  rewrite (Z.mod_small (pos / 256)) by done. pose proof (Z.div_mod pos 256 ltac:(lia)). lia.
Qed.

(** The rules for the ports and the screen memory. *)
Lemma wp_crt_store pos v Q s :
  0 ≤ pos < Z.of_nat (length (c_crt s)) → Q tt (set_crt (<[Z.to_nat pos := v]> (c_crt s)) s) → wp (crt_store pos v) Q s.
Proof.
  intros Hp HQ. unfold crt_store. apply wp_bind. unfold wp, get. cbn.
  rewrite (proj2 (Z.leb_le _ _)), (proj2 (Z.ltb_lt _ _)) by lia. done.
Qed.

(** The cursor registers are written through the two ports. *)
Lemma wp_write_cursor {A} pos (k : CM A) Q s :
  wp k Q (set_regs (u8 (Z.shiftr pos 8), u8 pos) (set_index 15 s)) →
  wp (outb CRTPORT 14 ;; outb (CRTPORT + 1) (Z.shiftr pos 8) ;; outb CRTPORT 15 ;; outb (CRTPORT + 1) pos ;; k) Q s.
Proof. intros Hk. do 4 (eapply wp_step; [reflexivity|]). exact Hk. Qed.

(** Scrolling up by one row. *)
Lemma scroll_cells (crt : list Z) :
  length crt = 2000%nat →
  splice (Z.to_nat 1840) (replicate (Z.to_nat (24 * 80 - 1840)) 0) (splice 0 (slice 80 (23 * 80) crt) crt) =
  take (23 * 80) (drop 80 crt) ++ replicate 80 0 ++ drop (24 * 80) crt.
Proof.
  intros Hl. unfold slice. set (x := take (23 * 80) (drop 80 crt)).
  assert (length x = 1840%nat) as Hx by (unfold x; rewrite length_take, length_drop; lia). clearbody x.
  unfold splice. rewrite take_0, Hx, length_replicate.
  change (Z.to_nat (24 * 80 - 1840)) with 80%nat. change (Z.to_nat 1840) with 1840%nat.
  cbn [app]. rewrite take_app_length' by done. do 2 f_equal.
  rewrite drop_app_ge by lia. rewrite Hx, drop_drop. f_equal.
Qed.

Lemma wp_cgaputc c Q s :
  screen_ok s →
  (∀ s', c_crt s' = (screen_put c (c_crt s) (cursor s)).1 → cursor s' = (screen_put c (c_crt s) (cursor s)).2 →
     screen_ok s' → c_uart s' = c_uart s → c_input s' = c_input s →
     c_lock s' = c_lock s → c_locking s' = c_locking s → c_panicked s' = c_panicked s → Q tt s') →
  wp (cgaputc c) Q s.
Proof.
  intros Hs HQ. pose proof Hs as [Hl Hh Hlo Hp]. set (pos := cursor s) in *.
  assert (0 ≤ pos < 1920) as Hpos by (unfold pos, cursor in *; lia).
  pose proof (screen_put_length c (c_crt s) pos Hl) as Hlen. pose proof (screen_put_pos c (c_crt s) pos Hpos) as Hpp.
  unfold cgaputc. do 4 (eapply wp_step; [reflexivity|]). cbv beta.
  change (wp ((cga_move c (Z.lor (Z.shiftl (c_regs s).1 8) (c_regs s).2)) ≫= ?k) Q (set_index 15 s)) with
    (wp ((cga_move c (Z.lor (Z.shiftl (c_regs s).1 8) (c_regs s).2)) ≫= k) Q (set_index 15 s)).
  rewrite lor_bytes by done. fold (cursor s) pos.
  set (st := if decide (c = NEWLINE) then (c_crt s, (pos / 80 + 1) * 80)
             else if decide (c = BACKSPACE) then (c_crt s, Z.max 0 (pos - 1))
             else (<[Z.to_nat pos := Z.lor (Z.land c 0xff) 0x0700]> (c_crt s), pos + 1)).
  assert (wp (cga_move c pos) (λ p s', p = st.2 ∧ s' = set_crt st.1 (set_index 15 s)) (set_index 15 s)) as Hmove.
  { unfold cga_move, st. destruct (Z.eqb_spec c NEWLINE); [|destruct (Z.eqb_spec c BACKSPACE)].
    - rewrite decide_True by done. apply wp_ret. split; [|by destruct s].
      pose proof (Z.div_mod pos 80 ltac:(lia)). simpl. lia.
    - rewrite decide_False, decide_True by done. apply wp_ret. split; [|by destruct s]. simpl.
      destruct (Z.ltb_spec 0 pos); lia.
    - rewrite !decide_False by done. apply wp_bind, wp_crt_store; [simpl; lia|]. by apply wp_ret. }
  apply wp_run in Hmove as (p & s1 & Hrun & -> & ->). eapply wp_step; [exact Hrun|].
  assert (length st.1 = 2000%nat ∧ 0 ≤ st.2 ≤ 1920) as [Hst1 Hst2].
  { unfold st. pose proof (Z.div_mod pos 80 ltac:(lia)). pose proof (Z.mod_pos_bound pos 80 ltac:(lia)).
    case_decide; [|case_decide]; cbn [fst snd]; rewrite ?length_insert; split; (done || lia). }
  assert (screen_put c (c_crt s) pos = let '(crt, p) := if decide (st.2 < 24 * 80) then st
    else (take (23 * 80) (drop 80 st.1) ++ replicate 80 0 ++ drop (24 * 80) st.1, st.2 - 80) in
    (<[Z.to_nat p := 0x720]> crt, p)) as Hput.
  { unfold screen_put. fold st. by destruct st. }
  destruct st as [crt p]. cbn [fst snd] in *.
  rewrite (proj2 (Z.ltb_ge _ _)), (proj2 (Z.ltb_ge _ _)) by lia. cbn [orb].
  set (fin := if decide (p < 24 * 80) then (crt, p)
    else (take (23 * 80) (drop 80 crt) ++ replicate 80 0 ++ drop (24 * 80) crt, p - 80)) in *.
  assert (wp (if 24 <=? p / 80 then cga_scroll p else mret p)
    (λ p s', p = fin.2 ∧ s' = set_crt fin.1 (set_index 15 s)) (set_crt crt (set_index 15 s))) as Hscroll.
  { unfold fin. case_decide.
    - rewrite (proj2 (Z.leb_gt _ _)) by (apply Z.div_lt_upper_bound; lia). by apply wp_ret.
    - replace p with 1920 by lia. change (24 <=? 1920 / 80) with true. cbv iota. unfold cga_scroll.
      eapply wp_step; [reflexivity|]. eapply wp_step; [reflexivity|]. apply wp_ret. split; [done|].
      cbn [fst c_crt set_crt]. change (1920 - 80) with 1840. rewrite scroll_cells by done. done. }
  apply wp_run in Hscroll as (p2 & s2 & Hrun2 & -> & ->). eapply wp_step; [exact Hrun2|]. rewrite Hput in *.
  destruct fin as [crt2 p2]. cbn [fst snd] in *. apply wp_write_cursor. rewrite length_insert in Hlen.
  apply wp_crt_store; [cbn; lia|]. cbn [c_crt set_crt set_regs set_index].
  assert (∀ a b, cursor (set_crt a (set_regs (u8 (Z.shiftr p2 8), u8 p2) b)) = p2) as Hcur.
  { intros a b. unfold cursor. simpl. apply pos_bytes. lia. }
  apply HQ; try done. split; [simpl; by rewrite length_insert|apply Z.mod_pos_bound; done|apply Z.mod_pos_bound; done|].
  rewrite Hcur. lia.
Qed.

(** The bytes that go to the serial port for a character. *)
Definition uart_bytes (c : Z) : list Z := if decide (c = BACKSPACE) then [8; 32; 8] else [u8 c].

Lemma wp_consputc c Q s :
  screen_ok s → c_panicked s = 0 →
  (∀ s', c_crt s' = (screen_put c (c_crt s) (cursor s)).1 → cursor s' = (screen_put c (c_crt s) (cursor s)).2 →
     screen_ok s' → c_uart s' = c_uart s ++ uart_bytes c → c_input s' = c_input s →
     c_lock s' = c_lock s → c_locking s' = c_locking s → c_panicked s' = 0 → Q tt s') →
  wp (consputc c) Q s.
Proof.
  intros Hs Hp HQ. unfold consputc. apply wp_bind, wp_gets. rewrite Hp. cbn [negb Z.eqb].
  unfold uart_bytes in HQ. destruct (Z.eqb_spec c BACKSPACE) as [Hc|Hc].
  - rewrite decide_True in HQ by done. apply wp_bind. apply wp_bind, wp_modify, wp_bind, wp_modify, wp_modify.
    apply wp_cgaputc; [by destruct Hs|]. intros s' H1 H2 H3 H4 H5 H6 H7 H8. apply HQ; try done; [|by rewrite H8].
    rewrite H4. simpl. by rewrite <- !app_assoc.
  - rewrite decide_False in HQ by done. apply wp_bind, wp_modify.
    apply wp_cgaputc; [by destruct Hs|]. intros s' H1 H2 H3 H4 H5 H6 H7 H8. apply HQ; try done. by rewrite H8.
Qed.

(** ** The input queue

    What the ring buffer stands for: the characters a reader may have ([q])
    and the line that is being edited ([line]). *)

Record in_abs (i : input) (q line : list Z) : Prop := {
  ia_buf : length (in_buf i) = 128%nat;
  ia_r : 0 ≤ in_r i < 2 ^ 32;
  ia_w : in_w i = u32 (in_r i + Z.of_nat (length q));
  ia_e : in_e i = u32 (in_r i + Z.of_nat (length q) + Z.of_nat (length line));
  ia_room : Z.of_nat (length q) + Z.of_nat (length line) ≤ INPUT_BUF;
  ia_chars : ∀ k, (k < length (q ++ line))%nat → in_get i (in_r i + Z.of_nat k) = (q ++ line) !!! k
}.

(** Indices modulo 2^32 and modulo 128. *)
Lemma u32_mod k : u32 k mod INPUT_BUF = k mod INPUT_BUF.
Proof.
  unfold u32. change (2 ^ 32) with (INPUT_BUF * 2 ^ 25). rewrite Z.rem_mul_r by done.
  rewrite Z.mul_comm, Z_mod_plus_full. apply Zmod_mod.
Qed.

Lemma in_get_mod i k k' : k mod INPUT_BUF = k' mod INPUT_BUF → in_get i k = in_get i k'.
Proof. intros H. unfold in_get. by rewrite !u32_mod, H. Qed.

Lemma in_get_u32 i k : in_get i (u32 k) = in_get i k.
Proof. apply in_get_mod, u32_mod. Qed.

Lemma u32_sub_u32 a b : u32 (u32 a - b) = u32 (a - b).
Proof. unfold u32. by rewrite Zminus_mod_idemp_l. Qed.

Lemma u32_add_u32 a b : u32 (u32 a + b) = u32 (a + b).
Proof. unfold u32. by rewrite Zplus_mod_idemp_l. Qed.

Lemma u32_u32 a : u32 (u32 a) = u32 a.
Proof. unfold u32. apply Zmod_mod. Qed.

Section queue.
Context (i : input) (q line : list Z) (Ha : in_abs i q line).
Abbreviation n := (Z.of_nat (length q) + Z.of_nat (length line)).

Lemma queue_count : u32 (in_e i - in_r i) = n.
Proof.
  destruct Ha as [_ Hr _ He Hroom _]. rewrite He, u32_sub_u32.
  change INPUT_BUF with 128 in Hroom. replace (in_r i + _ + _ - in_r i) with n by lia. apply u32_small. lia.
Qed.

Lemma u32_inj a b : u32 a = u32 b → - 2 ^ 31 < a - b < 2 ^ 31 → a = b.
Proof.
  clear. unfold u32. intros H Hd. assert ((a - b) mod 2 ^ 32 = 0) as E.
  { rewrite Zminus_mod, H. by rewrite Z.sub_diag. }
  apply Z.mod_divide in E as [k Hk]; [|done]. lia.
Qed.

Lemma queue_empty_line : in_e i = in_w i ↔ line = [].
Proof.
  destruct Ha as [_ Hr Hw He Hroom _]. change INPUT_BUF with 128 in Hroom. rewrite Hw, He. split.
  - intros H. apply u32_inj in H; [|lia]. destruct line; [done|simpl in H; lia].
  - intros ->. f_equal. simpl. lia.
Qed.

Lemma queue_empty : in_r i = in_w i ↔ q = [].
Proof.
  destruct Ha as [_ Hr Hw He Hroom _]. change INPUT_BUF with 128 in Hroom. rewrite Hw. split.
  - intros H. rewrite <- (u32_small (in_r i)) in H at 1 by lia. apply u32_inj in H; [|lia]. destruct q; [done|simpl in H; lia].
  - intros ->. simpl. rewrite Z.add_0_r. by rewrite u32_small.
Qed.

(** Backspace. *)
Lemma queue_back c l : line = l ++ [c] → in_abs (set_e (in_e i - 1) i) q l.
Proof.
  intros ->. destruct Ha as [Hb Hr Hw He Hroom Hch]. rewrite length_app in *. simpl in *. split; simpl; try done.
  - rewrite He, u32_sub_u32. f_equal. lia.
  - lia.
  - intros k Hk. rewrite length_app in Hk. rewrite <- in_get_u32. unfold in_get. simpl. fold (in_get i (u32 (in_r i + Z.of_nat k))).
    rewrite in_get_u32, Hch by (rewrite !length_app; simpl; lia).
    rewrite app_assoc. by rewrite lookup_total_app_l by (rewrite length_app; lia).
Qed.

(** The character before the edit index. *)
Lemma queue_last c l : line = l ++ [c] → in_get i (in_e i - 1) = c.
Proof.
  intros ->. destruct Ha as [Hb Hr Hw He Hroom Hch]. rewrite He. rewrite length_app in *. simpl in *.
  rewrite <- in_get_u32, u32_sub_u32, in_get_u32.
  replace (in_r i + _ + _ - 1) with (in_r i + Z.of_nat (length q + length l)) by lia.
  rewrite Hch by (rewrite !length_app; simpl; lia). rewrite app_assoc, lookup_total_app_r by (rewrite length_app; lia).
  rewrite length_app. by replace (length q + length l - (length q + length l))%nat with 0%nat by lia.
Qed.

(** A new character goes behind the line. *)
Lemma queue_push c :
  n < INPUT_BUF →
  in_abs (Input (<[Z.to_nat (in_e i mod INPUT_BUF) := c]> (in_buf i)) (in_r i) (in_w i) (u32 (in_e i + 1))) q (line ++ [c]).
Proof.
  intros Hn. destruct Ha as [Hb Hr Hw He Hroom Hch]. split; simpl; try done.
  - by rewrite length_insert.
  - rewrite He, u32_add_u32, length_app. f_equal. simpl. lia.
  - rewrite length_app. simpl. lia.
  - intros k Hk. rewrite app_assoc, length_app in Hk. simpl in Hk. rewrite app_assoc.
    assert (0 ≤ (in_r i + Z.of_nat k) mod INPUT_BUF < 128) as Hm1 by (apply Z.mod_pos_bound; done).
    assert (in_e i mod INPUT_BUF = (in_r i + n) mod INPUT_BUF) as Hem by (rewrite He, u32_mod; f_equal; lia).
    assert (0 ≤ in_e i mod INPUT_BUF < 128) as Hm2 by (apply Z.mod_pos_bound; done).
    unfold in_get. rewrite u32_mod. simpl. destruct (decide (k = length (q ++ line))) as [->|Hne].
    + rewrite lookup_total_app_r, Nat.sub_diag by done. rewrite length_app, Nat2Z.inj_add, <- Hem.
      rewrite list_lookup_total_insert_eq by lia. done.
    + rewrite lookup_total_app_l by lia. rewrite list_lookup_total_insert_ne.
      * rewrite <- Hch by lia. unfold in_get. by rewrite u32_mod.
      * intros E. apply Z2Nat.inj in E; [|lia|lia]. rewrite Hem in E. rewrite length_app in Hk, Hne.
        assert ((n - Z.of_nat k) mod INPUT_BUF = 0) as Hz.
        { replace (n - Z.of_nat k) with ((in_r i + n) - (in_r i + Z.of_nat k)) by lia.
          rewrite Zminus_mod, E, Z.sub_diag. done. }
        rewrite Z.mod_small in Hz by (change INPUT_BUF with 128 in *; lia). lia.
Qed.

(** The line goes to the reader. *)
Lemma queue_commit : in_abs (set_w (in_e i) i) (q ++ line) [].
Proof.
  destruct Ha as [Hb Hr Hw He Hroom Hch]. split; simpl; try done.
  - rewrite He, u32_u32. f_equal. rewrite length_app. lia.
  - rewrite He. f_equal. rewrite length_app. lia.
  - rewrite length_app. lia.
  - intros k. rewrite app_nil_r. apply Hch.
Qed.

(** The reader takes a character. *)
Lemma queue_pop c q' : q = c :: q' → in_get i (in_r i) = c ∧ in_abs (set_r (in_r i + 1) i) q' line.
Proof.
  intros ->. destruct Ha as [Hb Hr Hw He Hroom Hch]. split.
  - specialize (Hch 0%nat ltac:(simpl; lia)). by rewrite Z.add_0_r in Hch.
  - simpl in Hroom. split; simpl; try done.
    + apply u32_range.
    + rewrite Hw, u32_add_u32. f_equal. simpl. lia.
    + rewrite He. rewrite <- !Z.add_assoc, u32_add_u32. f_equal. simpl. lia.
    + lia.
    + intros k Hk. specialize (Hch (S k) ltac:(simpl; lia)). simpl in Hch. rewrite <- Hch.
      change (in_get i (u32 (in_r i + 1) + Z.of_nat k) = in_get i (in_r i + Z.of_nat (S k))).
      rewrite <- (in_get_u32 i (u32 _ + _)), u32_add_u32, in_get_u32. f_equal. lia.
Qed.
End queue.

(** The end-of-file character put back. *)
Lemma queue_unpop i q line c q' :
  in_abs i q line → q = c :: q' → in_abs (set_r (in_r (set_r (in_r i + 1) i) - 1) (set_r (in_r i + 1) i)) q line.
Proof.
  intros Ha _. replace (set_r _ _) with i; [done|]. destruct Ha as [_ Hr _ _ _ _]. destruct i as [b r w e]. unfold set_r. simpl in *.
  rewrite u32_sub_u32. replace (r + 1 - 1) with r by lia. by rewrite u32_small.
Qed.

(** ** Editing *)

(** What a character does to the queue and the line. *)
Definition type_char (st : list Z * list Z) (c : Z) : list Z * list Z :=
  let '(q, line) := st in
  if decide (c = CTRL 80) then (q, line)
  else if decide (c = CTRL 85) then (q, [])
  else if decide (c = CTRL 72 ∨ c = 0x7f) then (q, take (length line - 1) line)
  else if decide (c ≠ 0 ∧ Z.of_nat (length q) + Z.of_nat (length line) < INPUT_BUF) then
    let c := if decide (c = 13) then NEWLINE else c in
    if decide (c = NEWLINE ∨ c = CTRL 68 ∨ Z.of_nat (length q) + Z.of_nat (length line) + 1 = INPUT_BUF)
    then (q ++ line ++ [c], []) else (q, line ++ [c])
  else (q, line).

(** The console is usable, and its input is [q] and [line]. *)
Record con_ok (s : cst) (st : list Z * list Z) : Prop := {
  co_in : in_abs (c_input s) st.1 st.2;
  co_line : NEWLINE ∉ st.2;
  co_screen : screen_ok s;
  co_run : c_panicked s = 0
}.

Lemma wp_consputc_in c st Q s i :
  screen_ok s → c_panicked s = 0 → in_abs i st.1 st.2 → (NEWLINE ∉ st.2) →
  (∀ s', con_ok s' st → c_input s' = i → c_lock s' = c_lock s → Q tt s') →
  wp (put_input i ;; consputc c) Q s.
Proof.
  intros Hs Hp Hi Hl HQ. apply wp_bind, wp_modify. apply wp_consputc; [by destruct Hs|done|].
  intros s' _ _ Hs' _ Hin Hlk _ Hp'. apply HQ; [|done|done]. split; try done. by rewrite Hin.
Qed.

Lemma wp_kill_line q fuel : ∀ line Q s,
  con_ok s (q, line) → (length line < fuel)%nat →
  (∀ s', con_ok s' (q, []) → c_lock s' = c_lock s → Q tt s') →
  wp (kill_line fuel) Q s.
Proof.
  induction fuel as [|fuel IH]; intros line Q s Hok Hf HQ; [lia|]. cbn [kill_line]. apply wp_bind, wp_gets.
  destruct Hok as [Hin Hl Hs Hp]. cbn [fst snd] in *. destruct line as [|c l] eqn:E using rev_ind.
  - rewrite (proj2 (Z.eqb_eq _ _)) by (by eapply queue_empty_line). cbn [negb andb]. apply wp_ret. by apply HQ.
  - clear IHl. rewrite (proj2 (Z.eqb_neq _ _)) by (rewrite (queue_empty_line _ _ _ Hin); by destruct l). cbn [negb andb].
    rewrite (queue_last _ _ _ Hin c l) by done. rewrite (proj2 (Z.eqb_neq c NEWLINE)) by set_solver. cbn [negb].
    apply (wp_bind (put_input _)), wp_modify. apply wp_bind, wp_consputc; [by destruct Hs|done|].
    intros s' _ _ Hs' _ Hin' Hlk _ Hp'. simpl in Hlk. rewrite length_app in Hf. simpl in Hf.
    apply (IH l); [|lia|intros s2 H1 H2; apply HQ; [done|congruence]].
    split; try done; [|set_solver]. rewrite Hin'. simpl. by eapply queue_back.
Qed.

Lemma wp_consoleintr_char c q line Q s :
  con_ok s (q, line) → 0 ≤ c < 256 →
  (∀ s', con_ok s' (type_char (q, line) c) → c_lock s' = c_lock s → Q tt s') →
  wp (consoleintr_char c) Q s.
Proof.
  intros Hok Hc HQ. pose proof Hok as [Hin Hl Hs Hp]. cbn [fst snd] in *. unfold consoleintr_char. unfold type_char in HQ.
  destruct (Z.eqb_spec c (CTRL 80)) as [E|E]; [rewrite decide_True in HQ by done; apply wp_ret; by apply HQ|].
  rewrite (decide_False (P := c = CTRL 80)) in HQ by done.
  destruct (Z.eqb_spec c (CTRL 85)) as [E2|E2]; [rewrite decide_True in HQ by done|].
  { eapply wp_kill_line; [done| |done]. pose proof (ia_room _ _ _ Hin). change INPUT_BUF with 128 in *. lia. }
  rewrite (decide_False (P := c = CTRL 85)) in HQ by done.
  destruct ((c =? CTRL 72) || (c =? 0x7f)) eqn:E3.
  { rewrite decide_True in HQ by lia. apply wp_bind, wp_gets. destruct line as [|x l] eqn:El using rev_ind.
    - rewrite (proj2 (Z.eqb_eq _ _)) by (by eapply queue_empty_line). apply wp_ret. by apply HQ.
    - clear IHl. rewrite (proj2 (Z.eqb_neq _ _)) by (rewrite (queue_empty_line _ _ _ Hin); by destruct l). cbn [negb when].
      rewrite length_app in HQ. simpl in HQ. replace (length l + 1 - 1)%nat with (length l) in HQ by lia.
      rewrite take_app_length in HQ. apply (wp_consputc_in _ (q, l)); [done|done|by eapply queue_back|set_solver|].
      intros s' H1 _ H2. by apply HQ. }
  rewrite (decide_False (P := c = CTRL 72 ∨ c = 127)) in HQ by lia.
  apply wp_bind, wp_gets. rewrite (queue_count _ _ _ Hin).
  destruct (negb (c =? 0) && (Z.of_nat (length q) + Z.of_nat (length line) <? INPUT_BUF)) eqn:E4; cbn [when].
  2: { rewrite decide_False in HQ by lia. apply wp_ret. by apply HQ. }
  rewrite decide_True in HQ by lia.
  assert ((if c =? 13 then NEWLINE else c) = if decide (c = 13) then NEWLINE else c) as ->.
  { destruct (Z.eqb_spec c 13); [by rewrite decide_True|by rewrite decide_False]. }
  set (c' := if decide (c = 13) then NEWLINE else c) in *.
  assert (0 ≤ c' < 256) as Hc' by (unfold c'; destruct (decide (c = 13)); [done|lia]). clearbody c'.
  assert (u8 c' = c') as Hu8 by (apply Z.mod_small; done). rewrite Hu8.
  pose proof (queue_push _ _ _ Hin c' ltac:(lia)) as Hpush. set (i2 := Input _ _ _ _) in *.
  apply wp_bind, wp_modify. apply wp_bind, wp_consputc; [by destruct Hs|done|].
  intros s' _ _ Hs' _ Hin' Hlk _ Hp'. simpl in Hin', Hlk.
  assert ((in_e i2 =? u32 (in_r i2 + INPUT_BUF)) = (Z.of_nat (length q) + Z.of_nat (length line) + 1 =? INPUT_BUF)) as Hfull.
  { destruct Hpush as [_ Hr _ He Hroom _]. rewrite He, length_app. rewrite length_app in Hroom. simpl in Hroom. change (Z.of_nat (length [c'])) with 1.
    change INPUT_BUF with 128 in *. apply eq_true_iff_eq. rewrite !Z.eqb_eq. split.
    - intros H. apply u32_inj in H; simpl in *; lia.
    - intros H. f_equal. simpl. lia. }
  rewrite Hfull. destruct ((c' =? NEWLINE) || (c' =? CTRL 68) || _) eqn:E5; cbn [when].
  - rewrite decide_True in HQ by lia. apply wp_bind, wp_gets, wp_modify. rewrite Hin'. apply HQ; [|done].
    split; [simpl; by apply queue_commit|set_solver|by destruct Hs'|done].
  - rewrite decide_False in HQ by lia. apply wp_ret. apply HQ; [|done].
    split; [by rewrite Hin'| |done|done]. cbn [snd]. rewrite elem_of_app, list_elem_of_singleton. intros [?|?]; [done|lia].
Qed.

Lemma wp_acquire_cons Q s : c_lock s = false → Q tt (set_lock true s) → wp acquire_cons Q s.
Proof. intros Hl HQ. unfold acquire_cons. apply wp_bind, wp_gets. rewrite Hl. by apply wp_modify. Qed.

Lemma wp_release_cons Q s : c_lock s = true → Q tt (set_lock false s) → wp release_cons Q s.
Proof. intros Hl HQ. unfold release_cons. apply wp_bind, wp_gets. rewrite Hl. by apply wp_modify. Qed.

Lemma con_ok_lock b s st : con_ok s st → con_ok (set_lock b s) st.
Proof. intros [? ? [? ? ? ?] ?]. split; try done; by split. Qed.

(** Line editing. The interrupt handler of the console always returns, and
    the ring buffer with its three wrapping indices behaves as a queue of
    characters for the readers and a line under edition: a character is added
    to the line while the two together are less than 128, backspace takes the
    last one off, ^U all of them, and a newline (or return), ^D or a full
    buffer hands the line over to the readers. Nothing that a reader may have
    is ever edited, and the buffer never overflows. *)
Theorem consoleintr_edits cs s st :
  con_ok s st → c_lock s = false → Forall (λ c, 0 ≤ c < 256) cs →
  ∃ s', consoleintr cs s = Ok tt s' ∧ con_ok s' (foldl type_char st cs) ∧ c_lock s' = false.
Proof.
  intros Hok Hl Hcs.
  enough (wp (consoleintr cs) (λ _ s', con_ok s' (foldl type_char st cs) ∧ c_lock s' = false) s) as Hw.
  { apply wp_run in Hw as ([] & s' & Hr & H1 & H2). eauto. }
  unfold consoleintr. apply wp_bind, wp_acquire_cons; [done|]. apply wp_bind.
  apply (wp_for_each _ _ (λ n s', con_ok s' (foldl type_char st (take n cs)) ∧ c_lock s' = true)).
  - split; [by apply con_ok_lock|done].
  - intros n c s1 Hc [Hok1 Hl1]. rewrite Forall_lookup in Hcs. specialize (Hcs n c Hc).
    destruct (foldl type_char st (take n cs)) as [q line] eqn:E.
    apply (wp_consoleintr_char c q line); [done|done|]. intros s' H1 H2. split; [|congruence].
    rewrite Nat.add_1_l, (take_S_r _ _ c) by done. rewrite foldl_app, E. done.
  - intros s1 [Hok1 Hl1]. rewrite firstn_all in Hok1. apply wp_release_cons; [done|]. split; [by apply con_ok_lock|done].
Qed.

(** ** Reading *)

(** What a reader of [n] bytes gets from the queue, and what it leaves; [None]
    if it has to wait. *)
Fixpoint take_line (n : nat) (first : bool) (q : list Z) : option (list Z * list Z) :=
  match n with
  | O => Some ([], q)
  | S n =>
      match q with
      | [] => None
      | c :: q' =>
          if decide (c = CTRL 68) then Some ([], if first then q' else q)
          else if decide (c = NEWLINE) then Some ([c], q')
          else '(bs, q'') ← take_line n false q'; Some (c :: bs, q'')
      end
  end.

Lemma consoleread_loop_run n : ∀ q line target killed acc s,
  con_ok s (q, line) → Z.of_nat n ≤ target →
  match take_line n (Z.of_nat n =? target) q with
  | Some (bs, q') => ∃ s', consoleread_loop n target killed acc s = Ok (Some (Z.of_nat n - Z.of_nat (length bs), acc ++ bs)) s' ∧
      con_ok s' (q', line) ∧ c_lock s' = c_lock s
  | None => if killed then ∃ s' q', consoleread_loop n target killed acc s = Ok None s' ∧ con_ok s' (q', line) ∧ c_lock s' = c_lock s
            else consoleread_loop n target killed acc s = Fault (FSleep "input")
  end.
Proof.
  induction n as [|n IH]; intros q line target killed acc s Hok Hn; cbn [take_line].
  { exists s. rewrite app_nil_r. by split_and!. }
  pose proof Hok as [Hin Hl Hs Hp]. cbn [fst snd] in *. cbn [consoleread_loop].
  rewrite mbind_Ok with (a := c_input s) (s1 := s) by done. destruct q as [|c q'].
  { rewrite (proj2 (Z.eqb_eq (in_r (c_input s)) (in_w (c_input s)))) by (by apply (queue_empty _ _ _ Hin)). destruct killed; [|done].
    exists s, []. by split_and!. }
  rewrite (proj2 (Z.eqb_neq (in_r (c_input s)) (in_w (c_input s)))) by (by rewrite (queue_empty _ _ _ Hin)).
  destruct (queue_pop _ _ _ Hin c q' eq_refl) as [Hc Hpop]. rewrite Hc.
  set (i1 := set_r (in_r (c_input s) + 1) (c_input s)) in *.
  rewrite mbind_Ok with (a := tt) (s1 := set_input i1 s) by done.
  assert (con_ok (set_input i1 s) (q', line)) as Hok1 by (split; try done; by destruct Hs).
  destruct (Z.eqb_spec c (CTRL 68)) as [E|E].
  - rewrite decide_True by done. destruct (Z.ltb_spec (Z.of_nat (S n)) target) as [Hlt|Hge]; cbn [when].
    + rewrite (proj2 (Z.eqb_neq (Z.of_nat (S n)) target)) by lia. pose proof (queue_unpop _ _ _ _ _ Hin eq_refl) as Hun. fold i1 in Hun.
      eexists. erewrite mbind_Ok; [|reflexivity]. rewrite app_nil_r. split_and!; [by rewrite Z.sub_0_r| |done].
      split; try done. by destruct Hs.
    + rewrite (proj2 (Z.eqb_eq (Z.of_nat (S n)) target)) by lia. exists (set_input i1 s). erewrite mbind_Ok; [|reflexivity].
      rewrite app_nil_r. split_and!; [by rewrite Z.sub_0_r|done|done].
  - rewrite decide_False by done. destruct (Z.eqb_spec c NEWLINE) as [E2|E2].
    + rewrite decide_True by done. exists (set_input i1 s). split_and!; [|done|done].
      unfold mret, K_ret. do 3 f_equal. simpl. lia.
    + rewrite decide_False by done. specialize (IH q' line target killed (acc ++ [c]) _ Hok1 ltac:(lia)).
      rewrite (proj2 (Z.eqb_neq (Z.of_nat n) target)) in IH by lia.
      destruct (take_line n false q') as [[bs q'']|]; simpl; [|exact IH].
      destruct IH as (s' & Hr & H1 & H2). exists s'. rewrite Hr, <- app_assoc. split_and!; [|done|done].
      do 3 f_equal. simpl. lia.
Qed.

(** Reading the console. [consoleread] gives the characters at the front of
    the queue, in order: as many as were asked for, or up to the end of the
    line, or up to a ^D, which is taken only when it is the first character, so
    that the next read returns 0. It waits exactly when the queue runs out
    before that (and returns -1 if the process has been killed), and the line
    under edition is not touched. *)
Theorem consoleread_line ip n killed k k1 k2 s q line :
  iunlock ip k = Ok tt k1 → ilock ip k1 = Ok tt k2 →
  con_ok s (q, line) → c_lock s = false → 0 ≤ n →
  match take_line (Z.to_nat n) true q with
  | Some (bs, q') => ∃ s', consoleread ip n killed (k, s) = Ok (Z.of_nat (length bs), bs) (k2, s') ∧
      con_ok s' (q', line) ∧ c_lock s' = false
  | None => if killed then ∃ s' q', consoleread ip n killed (k, s) = Ok (-1, []) (k2, s') ∧ con_ok s' (q', line)
            else consoleread ip n killed (k, s) = Fault (FSleep "input")
  end.
Proof.
  intros Hu Hi Hok Hl Hn. unfold consoleread.
  rewrite mbind_Ok with (a := tt) (s1 := (k1, s)) by (unfold on_fs; simpl; by rewrite Hu).
  assert (acquire_cons s = Ok tt (set_lock true s)) as Ha.
  { unfold acquire_cons, mbind, K_bind, gets. by rewrite Hl. }
  assert (∀ s', c_lock s' = true → release_cons s' = Ok tt (set_lock false s')) as Hrel.
  { intros s' Hs'. unfold release_cons, mbind, K_bind, gets. by rewrite Hs'. }
  destruct (Z.ltb_spec 0 n) as [Hpos|Hz].
  2: { replace n with 0 by lia. cbn [Z.to_nat take_line]. exists (set_lock false (set_lock true s)).
       unfold on_con, mbind, K_bind. cbn [fst snd]. rewrite Ha. cbn [mret K_ret]. rewrite Hrel by done. cbn [fst snd mret K_ret].
       unfold on_fs. cbn [fst snd]. rewrite Hi. split_and!; [done|by do 2 apply con_ok_lock|done]. }
  pose proof (consoleread_loop_run (Z.to_nat n) q line n killed [] (set_lock true s) (con_ok_lock _ _ _ Hok) ltac:(lia)) as Hrun.
  rewrite Z2Nat.id, Z.eqb_refl in Hrun by lia.
  assert (∀ r s', consoleread_loop (Z.to_nat n) n killed [] (set_lock true s) = Ok r s' → c_lock s' = true →
    (r ← on_con (acquire_cons ;; r ← consoleread_loop (Z.to_nat n) n killed []; release_cons ;; mret r);
     on_fs (ilock ip) ;; match r with None => mret (-1, []) | Some (togo, bytes) => mret (n - togo, bytes) end) (k1, s) =
    Ok match r with None => (-1, []) | Some (togo, bytes) => (n - togo, bytes) end (k2, set_lock false s')) as Hfin.
  { intros r s' Hr Hl'. unfold on_con, mbind, K_bind. cbn [fst snd]. rewrite Ha, Hr, (Hrel _ Hl'). cbn [fst snd mret K_ret].
    unfold on_fs. cbn [fst snd]. rewrite Hi. by destruct r as [[togo bytes]|]. }
  destruct (take_line (Z.to_nat n) true q) as [[bs q']|].
  - destruct Hrun as (s' & Hr & H1 & H2). exists (set_lock false s'). rewrite (Hfin _ _ Hr H2).
    split_and!; [|by apply con_ok_lock|done]. do 2 f_equal. lia.
  - destruct killed.
    + destruct Hrun as (s' & q' & Hr & H1 & H2). exists (set_lock false s'), q'. rewrite (Hfin _ _ Hr H2).
      split; [done|by apply con_ok_lock].
    + unfold on_con at 1, mbind, K_bind. cbn [fst snd]. by rewrite Ha, Hrun.
Qed.

(** Writing to the console. [consolewrite] returns the length it was given,
    has sent the bytes to the serial port in order, and has put them on the
    screen one after the other: a byte in the cell at the cursor, a newline to
    the start of the next row, and one row up with an empty last row when the
    cursor leaves the 24th. The cursor stays on the first 24 rows, so that no
    byte makes the code panic or store outside the screen memory. *)
Theorem consolewrite_output ip buf n k k1 k2 s :
  iunlock ip k = Ok tt k1 → ilock ip k1 = Ok tt k2 →
  screen_ok s → c_panicked s = 0 → c_lock s = false → n = Z.of_nat (length buf) → Forall byte_ok buf →
  ∃ s', consolewrite ip buf n (k, s) = Ok n (k2, s') ∧ screen_ok s' ∧ c_uart s' = c_uart s ++ buf ∧
    (c_crt s', cursor s') = foldl (λ st b, screen_put b st.1 st.2) (c_crt s, cursor s) buf.
Proof.
  intros Hu Hi Hs Hp Hl -> Hbuf.
  enough (wp (acquire_cons ;; for_each buf (λ b, consputc (Z.land b 0xff)) ;; release_cons)
    (λ _ s', screen_ok s' ∧ c_uart s' = c_uart s ++ buf ∧
      (c_crt s', cursor s') = foldl (λ st b, screen_put b st.1 st.2) (c_crt s, cursor s) buf) s) as Hw.
  { apply wp_run in Hw as ([] & s' & Hr & Hrest). exists s'. split; [|done]. unfold consolewrite.
    rewrite mbind_Ok with (a := tt) (s1 := (k1, s)) by (unfold on_fs; simpl; by rewrite Hu).
    rewrite Nat2Z.id, firstn_all.
    rewrite mbind_Ok with (a := tt) (s1 := (k1, s')) by (unfold on_con; simpl; by rewrite Hr).
    rewrite mbind_Ok with (a := tt) (s1 := (k2, s')) by (unfold on_fs; simpl; by rewrite Hi). done. }
  apply wp_bind, wp_acquire_cons; [done|]. apply wp_bind.
  apply (wp_for_each _ _ (λ j s', screen_ok s' ∧ c_panicked s' = 0 ∧ c_lock s' = true ∧ c_uart s' = c_uart s ++ take j buf ∧
      (c_crt s', cursor s') = foldl (λ st b, screen_put b st.1 st.2) (c_crt s, cursor s) (take j buf))).
  - split_and!; [by destruct Hs|done|done|by rewrite app_nil_r|done].
  - intros j b s1 Hb (Hs1 & Hp1 & Hl1 & Hu1 & Hc1). rewrite Forall_lookup in Hbuf. specialize (Hbuf j b Hb).
    assert (Z.land b 0xff = b) as ->.
    { change 255 with (Z.ones 8). rewrite Z.land_ones by done. apply Z.mod_small. exact Hbuf. }
    apply wp_consputc; [done|done|]. intros s' H1 H2 H3 H4 _ H5 _ H6.
    assert (uart_bytes b = [b]) as Hub.
    { unfold uart_bytes. rewrite decide_False by (unfold BACKSPACE; destruct Hbuf; lia). unfold u8. by rewrite Z.mod_small. }
    rewrite Nat.add_1_l, (take_S_r _ _ b) by done. split_and!; [done|done|congruence| |].
    + by rewrite H4, Hu1, Hub, app_assoc.
    + rewrite foldl_app, <- Hc1. cbn [foldl fst snd]. rewrite H1, H2. by destruct (screen_put b (c_crt s1) (cursor s1)).
  - intros s1 (Hs1 & _ & Hl1 & Hu1 & Hc1). rewrite firstn_all in Hu1, Hc1. apply wp_release_cons; [done|].
    split_and!; [by destruct Hs1|done|done].
Qed.

(** A console whose indices are about to wrap around. *)
Definition demo_con : cst :=
  Cst (Input (replicate 128 0) (2 ^ 32 - 1) (2 ^ 32 - 1) (2 ^ 32 - 1)) 1 false 0 (replicate 2000 0) 0 (0, 0) [].

Lemma demo_con_ok : con_ok demo_con ([], []).
Proof.
  split.
  - split; [apply length_replicate|done|done|done|done|simpl; lia].
  - apply not_elem_of_nil.
  - split; [apply length_replicate|done|done|done].
  - done.
Qed.

(** Typing "ab", backspace, "c" and return, then reading it. *)
Lemma consoleintr_edits_witness :
  ∃ s', consoleintr [97; 98; 8; 99; 13] demo_con = Ok tt s' ∧ con_ok s' ([97; 99; 10], []) ∧ c_lock s' = false.
Proof.
  apply (consoleintr_edits [97; 98; 8; 99; 13] demo_con ([], [])).
  - apply demo_con_ok.
  - reflexivity.
  - repeat constructor; discriminate.
Defined.

Definition unlocked : kst := match iunlock 0 demo_fs with Ok _ s => s | Fault _ => demo_fs end.
Definition relocked : kst := match ilock 0 unlocked with Ok _ s => s | Fault _ => unlocked end.

(** A console with one line "a" to read, across the wrap of the indices. *)
Definition demo_line : cst :=
  set_input (Input (<[127%nat := 97]> (<[0%nat := 10]> (replicate 128 0))) (2 ^ 32 - 1) 1 1) demo_con.

Lemma demo_line_ok : con_ok demo_line ([97; 10], []).
Proof.
  split.
  - split; [reflexivity|done|done|done|done|].
    intros [|[|k]] Hk; [vm_compute; reflexivity|vm_compute; reflexivity|simpl in Hk; lia].
  - apply not_elem_of_nil.
  - split; [apply length_replicate|done|done|done].
  - done.
Qed.

Lemma consoleread_line_witness :
  ∃ s', consoleread 0 10 false (demo_fs, demo_line) = Ok (2, [97; 10]) (relocked, s') ∧
    con_ok s' ([], []) ∧ c_lock s' = false.
Proof.
  apply (consoleread_line 0 10 false demo_fs unlocked relocked demo_line [97; 10] []).
  - reflexivity.
  - reflexivity.
  - apply demo_line_ok.
  - reflexivity.
  - discriminate.
Defined.

Lemma consolewrite_output_witness :
  ∃ s', consolewrite 0 [97; 10] 2 (demo_fs, demo_con) = Ok 2 (relocked, s') ∧ screen_ok s' ∧ c_uart s' = [97; 10] ∧
    (c_crt s', cursor s') = foldl (λ st b, screen_put b st.1 st.2) (c_crt demo_con, cursor demo_con) [97; 10].
Proof.
  apply (consolewrite_output 0 [97; 10] 2 demo_fs unlocked relocked demo_con).
  - reflexivity.
  - reflexivity.
  - apply demo_con_ok.
  - reflexivity.
  - reflexivity.
  - reflexivity.
  - repeat constructor; discriminate.
Defined.
