(* ===== verification/Keyboard.v ===== *)
(** * Keyboard: the keyboard and the serial line (kernel/src/keyboard.rs, uart.rs)

    The decoder of scan codes with its static [SHIFT], and the two interrupt
    handlers that feed [consoleintr]. What the ports return is an argument:
    the bytes that wait in the keyboard's controller, or in the serial port.

    A keyboard as a list of key events and the codes it sends for them is the
    specification: [keyboard_types] says what the decoder makes of the
    codes. In [keyboard_getc] the name SHIFT is the static and no longer the
    constant of the module, so that a press of Alt or of a lock key takes an
    index out of range. *)

From S2P Require Import Prelude Console.

(** ** Constants and tables *)

Definition NO : Z := 0.
Definition BS : Z := 0x08.

Definition KBS_DIB : Z := 0x01.
Definition SHIFT : Z := 1.
Definition CTL : Z := 2.
Definition ALT : Z := 4.
Definition CAPSLOCK : Z := 8.
Definition NUMLOCK : Z := 16.
Definition SCROLLLOCK : Z := 32.
Definition E0ESC : Z := 64.

Definition KEY_HOME : Z := 0xE0.
Definition KEY_END : Z := 0xE1.
Definition KEY_UP : Z := 0xE2.
Definition KEY_DN : Z := 0xE3.
Definition KEY_LF : Z := 0xE4.
Definition KEY_RT : Z := 0xE5.
Definition KEY_PGUP : Z := 0xE6.
Definition KEY_PGDN : Z := 0xE7.
Definition KEY_INS : Z := 0xE8.
Definition KEY_DEL : Z := 0xE9.

(** Control-x; the subtraction is of [u8]s *)
Definition c (x : Z) : Z := u8 (x - 64).

(** [code[i] = v] for each pair, on a table of [NO]s *)
Definition gen (l : list (Z * Z)) : list Z :=
  foldl (λ code '(i, v), <[Z.to_nat i := v]> code) (replicate 256 NO) l.
Definition cp (code init : list Z) : list Z := init ++ drop (length init) code.

Definition SHIFT_CODE : list Z :=
  gen [(0x1D, CTL); (0x2A, SHIFT); (0x36, SHIFT); (0x38, ALT); (0x9D, CTL); (0xB8, ALT)].
Definition TOGGLE_CODE : list Z := gen [(0x3A, CAPSLOCK); (0x45, NUMLOCK); (0x46, SCROLLLOCK)].

Definition NORMALMAP : list Z :=
  cp (gen [(0x9C, 10); (0xB5, 47); (0xC8, KEY_UP); (0xD0, KEY_DN); (0xC9, KEY_PGUP); (0xD1, KEY_PGDN);
           (0xCB, KEY_LF); (0xCD, KEY_RT); (0x97, KEY_HOME); (0xCF, KEY_END); (0xD2, KEY_INS); (0xD3, KEY_DEL)])
    [NO; 0x1B; 49; 50; 51; 52; 53; 54;             (* 1 2 3 4 5 6 *)
     55; 56; 57; 48; 45; 61; BS; 9;                (* 7 8 9 0 - = *)
     113; 119; 101; 114; 116; 121; 117; 105;       (* q w e r t y u i *)
     111; 112; 91; 93; 10; NO; 97; 115;            (* o p [ ]   a s *)
     100; 102; 103; 104; 106; 107; 108; 59;        (* d f g h j k l ; *)
     39; 96; NO; 92; 122; 120; 99; 118;            (* ' `   \ z x c v *)
     98; 110; 109; 44; 46; 47; NO; 42;             (* b n m , . /   * *)
     NO; 32; NO; NO; NO; NO; NO; NO;
     NO; NO; NO; NO; NO; NO; NO; 55;               (* 7 *)
     56; 57; 45; 52; 53; 54; 43; 49;               (* 8 9 - 4 5 6 + 1 *)
     50; 51; 48; 46; NO; NO; NO; NO].              (* 2 3 0 . *)

Definition SHIFTMAP : list Z :=
  cp (gen [(0x9C, 10); (0xB5, 47); (0xC8, KEY_UP); (0xD0, KEY_DN); (0xC9, KEY_PGUP); (0xD1, KEY_PGDN);
           (0xCB, KEY_LF); (0xCD, KEY_RT); (0x97, KEY_HOME); (0xCF, KEY_END); (0xD2, KEY_INS); (0xD3, KEY_DEL)])
    [NO; 33; 33; 64; 35; 36; 37; 94;               (* the code writes 033, decimal; ! @ # $ % ^ *)
     38; 42; 40; 41; 95; 43; BS; 9;                (* & * ( ) _ + *)
     81; 87; 69; 82; 84; 89; 85; 73;               (* Q W E R T Y U I *)
     79; 80; 123; 125; 10; NO; 65; 83;             (* O P { }   A S *)
     68; 70; 71; 72; 74; 75; 76; 58;               (* D F G H J K L : *)
     34; 126; NO; 124; 90; 88; 67; 86;             (* quote ~   | Z X C V *)
     66; 78; 77; 60; 62; 63; NO; 42;               (* B N M < > ?   * *)
     NO; 32; NO; NO; NO; NO; NO; NO;
     NO; NO; NO; NO; NO; NO; NO; 55;
     56; 57; 45; 52; 53; 54; 43; 49;
     50; 51; 48; 46; NO; NO; NO; NO].

Definition CTLMAP : list Z :=
  cp (gen [(0x9C, 13); (0xB5, c 47); (0xC8, KEY_UP); (0xD0, KEY_DN); (0xC9, KEY_PGUP); (0xD1, KEY_PGDN);
           (0xCB, KEY_LF); (0xCD, KEY_RT); (0x97, KEY_HOME); (0xCF, KEY_END); (0xD2, KEY_INS); (0xD3, KEY_DEL)])
    [NO; NO; NO; NO; NO; NO; NO; NO;
     NO; NO; NO; NO; NO; NO; NO; NO;
     c 81; c 87; c 69; c 82; c 84; c 89; c 85; c 73;
     c 79; c 80; NO; NO; 13; NO; c 65; c 83;
     c 68; c 70; c 71; c 72; c 74; c 75; c 76; NO;
     NO; NO; NO; c 92; c 90; c 88; c 67; c 86;
     c 66; c 78; c 77; NO; NO; c 47; NO; NO].

(** ** The decoder *)

(** The state is the static SHIFT; [st] and [data] are what the two [inb]s
    return. [!x] is of a [u8]. *)
Definition keyboard_getc (st data : Z) : K Z (option Z) :=
  let charcode := [NORMALMAP; SHIFTMAP; CTLMAP; CTLMAP] in
  if Z.land st KBS_DIB =? 0 then mret None
  else if data =? 0xE0 then
    modify (λ sh, Z.lor sh E0ESC) ;; mret (Some 0)
  else if negb (Z.land data 0x80 =? 0) then (* Key released *)
    sh ← gets id;
    let data := if negb (Z.land sh E0ESC =? 0) then data else Z.land data 0x7F in
    modify (λ sh, Z.land sh (255 - Z.lor (SHIFT_CODE !!! Z.to_nat data) E0ESC)) ;; mret (Some 0)
  else
    sh ← gets id;
    let esc := negb (Z.land sh E0ESC =? 0) in
    let data := if esc then Z.lor data 0x80 else data in
    when esc (modify (λ sh, Z.land sh (255 - E0ESC))) ;;
    modify (λ sh, Z.lor sh (SHIFT_CODE !!! Z.to_nat data)) ;;
    modify (λ sh, Z.lxor sh (TOGGLE_CODE !!! Z.to_nat data)) ;;
    sh ← gets id;
    match charcode !! Z.to_nat (Z.land sh (Z.lor CTL sh)) with
    | None => panic "index out of bounds"
    | Some table =>
        let ch := table !!! Z.to_nat data in
        mret (Some
          (if negb (Z.land sh CAPSLOCK =? 0) then
             if (97 <=? ch) && (ch <=? 122) then ch - (97 - 65)
             else if (65 <=? ch) && (ch <=? 90) then ch + (97 - 65) else ch
           else ch))
    end.

(** The calls of the handler by [consoleintr]'s loop, while bytes wait in the
    controller; the call after the last one finds none and ends the loop. *)
Fixpoint keyboard_codes (bytes : list Z) : K Z (list Z) :=
  match bytes with
  | [] => mret []
  | b :: bytes =>
      r ← keyboard_getc KBS_DIB b;
      match r with
      | Some v => vs ← keyboard_codes bytes; mret (v :: vs)
      | None => mret []
      end
  end.

(** [keyboard_interrupt], on the console and the static SHIFT *)
Definition keyboard_interrupt (bytes : list Z) : K (cst * Z) unit :=
  λ s, match keyboard_codes bytes s.2 with
       | Ok cs sh => match consoleintr cs s.1 with Ok _ con => Ok tt (con, sh) | Fault f => Fault f end
       | Fault f => Fault f
       end.

(** ** The serial line *)

(** [lsr] and [data] are the registers COM1+5 and COM1+0; u32::MAX is -1. *)
Definition uartgetc (initialized : bool) (lsr data : Z) : Z :=
  if negb initialized then 2 ^ 32 - 1
  else if Z.land lsr 0x01 =? 0 then 2 ^ 32 - 1
  else data.

(** The calls by the loop of [consoleintr], while bytes are received and the
    result is not negative. *)
Fixpoint uart_codes (initialized : bool) (bytes : list Z) : list Z :=
  match bytes with
  | [] => []
  | b :: bytes =>
      let v := uartgetc initialized 0x01 b in
      if s32 v <? 0 then [] else v :: uart_codes initialized bytes
  end.

Definition uart_interrupt_handler (initialized : bool) (bytes : list Z) : CM unit :=
  consoleintr (uart_codes initialized bytes).

(** ** Keys *)

(** A key goes down or up; the keys of the extended set send an extra byte. *)
Inductive event := Press (ext : bool) (k : Z) | Release (ext : bool) (k : Z).

Definition scan (e : event) : list Z :=
  match e with
  | Press ext k => (if ext then [0xE0] else []) ++ [k]
  | Release ext k => (if ext then [0xE0] else []) ++ [k + 0x80]
  end.

Definition key_ok (e : event) : bool :=
  match e with Press _ k | Release _ k => (0 <=? k) && (k <? 0x60) end.

(** The modifiers that are down: shift and control. *)
Abbreviation mods := (bool * bool)%type.
Definition mask (m : mods) : Z := (if m.1 then SHIFT else 0) + (if m.2 then CTL else 0).

Definition is_shift (ext : bool) (k : Z) : bool := negb ext && ((k =? 0x2A) || (k =? 0x36)).
Definition is_ctl (k : Z) : bool := k =? 0x1D.
(** Alt, Caps Lock, Num Lock and Scroll Lock *)
Definition is_other (ext : bool) (k : Z) : bool :=
  (k =? 0x38) || negb ext && ((k =? 0x3A) || (k =? 0x45) || (k =? 0x46)).

Definition key_char (m : mods) (ext : bool) (k : Z) : Z :=
  (if m.2 then CTLMAP else if m.1 then SHIFTMAP else NORMALMAP) !!! Z.to_nat (if ext then k + 0x80 else k).

(** What one event types, and the modifiers after it; [None] for the keys that
    stop the kernel. *)
Definition typed1 (m : mods) (e : event) : option (list Z * mods) :=
  match e with
  | Press ext k =>
      if is_other ext k then None
      else let m := (m.1 || is_shift ext k, m.2 || is_ctl k) in
           Some (filter (λ ch, ch ≠ 0) [key_char m ext k], m)
  | Release ext k => Some ([], (m.1 && negb (is_shift ext k), m.2 && negb (is_ctl k)))
  end.

Fixpoint typed (m : mods) (evs : list event) : option (list Z * mods) :=
  match evs with
  | [] => Some ([], m)
  | e :: evs => '(cs, m) ← typed1 m e; '(cs', m) ← typed m evs; Some (cs ++ cs', m)
  end.

(** ** The decoder decodes *)

Lemma getc_some b sh r sh' : keyboard_getc KBS_DIB b sh = Ok r sh' → ∃ v, r = Some v.
Proof.
  unfold keyboard_getc, mbind, K_bind, mret, K_ret, modify, gets, when, panic, fail. cbv zeta. change (Z.land KBS_DIB KBS_DIB =? 0) with false.
  cbv iota. intros H. repeat case_match; simplify_eq; eauto.
Qed.

Lemma keyboard_codes_app bs1 bs2 sh :
  keyboard_codes (bs1 ++ bs2) sh =
  match keyboard_codes bs1 sh with
  | Ok cs sh' => match keyboard_codes bs2 sh' with Ok cs' sh'' => Ok (cs ++ cs') sh'' | Fault f => Fault f end
  | Fault f => Fault f
  end.
Proof.
  revert sh. induction bs1 as [|b bs1 IH]; intros sh; cbn [keyboard_codes app].
  { unfold mret, K_ret. by destruct (keyboard_codes bs2 sh). }
  unfold mbind, K_bind. destruct (keyboard_getc KBS_DIB b sh) as [r sh1|f] eqn:E; [|done].
  apply getc_some in E as [v ->]. cbv iota. rewrite IH. destruct (keyboard_codes bs1 sh1) as [cs sh2|f]; [|done].
  unfold mret, K_ret. by destruct (keyboard_codes bs2 sh2).
Qed.

Definition codes_ok (r : outcome Z (list Z)) (t : option (list Z * mods)) : bool :=
  match r, t with
  | Ok cs sh, Some (cs', m') =>
      bool_decide (filter (λ ch, ch ≠ 0) cs = cs') && (sh =? mask m') && forallb (λ ch, (0 <=? ch) && (ch <? 256)) cs
  | Fault f, None => bool_decide (f = FPanic "index out of bounds")
  | _, _ => false
  end.

(** Every event with every state of the modifiers. *)
Lemma event_decodes m e : key_ok e = true → codes_ok (keyboard_codes (scan e) (mask m)) (typed1 m e) = true.
Proof.
  assert (forallb (λ k, forallb (λ m, forallb (λ ext,
    codes_ok (keyboard_codes (scan (Press ext k)) (mask m)) (typed1 m (Press ext k)) &&
    codes_ok (keyboard_codes (scan (Release ext k)) (mask m)) (typed1 m (Release ext k)))
    [true; false]) [(true, true); (true, false); (false, true); (false, false)]) (seqZ 0 0x60) = true) as Hall.
  { vm_compute. done. }
  intros Hk. assert (∃ k ext, k ∈ seqZ 0 0x60 ∧ (e = Press ext k ∨ e = Release ext k)) as (k & ext & Hin & He).
  { destruct e as [ext k|ext k]; exists k, ext; split; auto; apply elem_of_seqZ; cbn in Hk; lia. }
  apply (forallb_elem _ _ k) in Hall; [|done]. apply (forallb_elem _ _ m) in Hall; [|destruct m as [[] []]; set_solver].
  apply (forallb_elem _ _ ext) in Hall as [H1 H2]%andb_prop; [|destruct ext; set_solver].
  by destruct He as [-> | ->].
Qed.

Lemma typed_codes evs m :
  forallb key_ok evs = true → codes_ok (keyboard_codes (evs ≫= scan) (mask m)) (typed m evs) = true.
Proof.
  revert m. induction evs as [|e evs IH]; intros m Hk; cbn [forallb] in Hk.
  { cbn. by rewrite Z.eqb_refl. }
  apply andb_prop in Hk as [He Hk]. rewrite bind_cons, keyboard_codes_app. pose proof (event_decodes m e He) as H1.
  cbn [typed]. unfold codes_ok in H1.
  destruct (keyboard_codes (scan e) (mask m)) as [cs sh|f], (typed1 m e) as [[cs1 m1]|]; try discriminate; [|exact H1].
  apply andb_prop in H1 as [[H1 H2]%andb_prop H3]. apply bool_decide_eq_true in H1 as <-. apply Z.eqb_eq in H2 as ->.
  specialize (IH m1 Hk). cbn. unfold codes_ok in IH.
  destruct (keyboard_codes (evs ≫= scan) (mask m1)) as [cs2 sh2|f], (typed m1 evs) as [[cs2' m2]|]; try discriminate; [|exact IH].
  apply andb_prop in IH as [[I1 I2]%andb_prop I3]. apply bool_decide_eq_true in I1 as <-. cbn.
  rewrite filter_app, bool_decide_true, I2, forallb_app, H3, I3 by done. done.
Qed.

Lemma type_char_zeros cs st : foldl type_char st (filter (λ ch, ch ≠ 0) cs) = foldl type_char st cs.
Proof.
  revert st. induction cs as [|ch cs IH]; intros st; [done|]. rewrite filter_cons. case_decide as Hc; [apply IH|].
  assert (ch = 0) as -> by lia. cbn [foldl]. rewrite IH. f_equal. by destruct st.
Qed.

(** C23 Typing. Whatever keys go down and up, with shift and control held as
    they may be, the interrupt handler decodes the codes the keyboard sends to
    the characters typed, and edits the console's line with them: the ring
    buffer with its three wrapping indices behaves as a queue of characters for
    the readers and a line under edition, to which a character is added while
    the two together are less than 128; backspace takes the last one off, ^U
    all of them, and a newline, ^D or a full buffer hands the line over. The
    handler returns, except that a press of Alt, Caps Lock, Num Lock or Scroll
    Lock stops the kernel with an index out of bounds. *)
Theorem keyboard_types evs m s st :
  forallb key_ok evs = true → con_ok s st → c_lock s = false →
  match typed m evs with
  | Some (cs, m') =>
      ∃ s', keyboard_interrupt (evs ≫= scan) (s, mask m) = Ok tt (s', mask m') ∧
        con_ok s' (foldl type_char st cs) ∧ c_lock s' = false
  | None => keyboard_interrupt (evs ≫= scan) (s, mask m) = Fault (FPanic "index out of bounds")
  end.
Proof.
  intros Hk Hok Hl. pose proof (typed_codes evs m Hk) as Hc. unfold keyboard_interrupt. cbn [fst snd].
  unfold codes_ok in Hc.
  destruct (keyboard_codes (evs ≫= scan) (mask m)) as [cs sh|f], (typed m evs) as [[cs' m']|]; try discriminate.
  - apply andb_prop in Hc as [[H1 H2]%andb_prop H3]. apply bool_decide_eq_true in H1 as <-. apply Z.eqb_eq in H2 as ->.
    destruct (consoleintr_edits cs s st Hok Hl) as (s' & Hr & Hok' & Hl').
    { apply Forall_forall. intros ch Hin. pose proof (forallb_elem _ _ ch H3 Hin). cbv beta in *. lia. }
    exists s'. by rewrite Hr, type_char_zeros.
  - by apply bool_decide_eq_true in Hc as ->.
Qed.

(** Shift and l, s, return: the line "Ls" without shift held. *)
Lemma keyboard_types_witness :
  ∃ s', keyboard_interrupt [0x2A; 0x26; 0xA6; 0xAA; 0x1F; 0x9F; 0x1C] (demo_con, 0) = Ok tt (s', 0) ∧
    con_ok s' ([76; 115; 10], []) ∧ c_lock s' = false.
Proof.
  apply (keyboard_types [Press false 0x2A; Press false 0x26; Release false 0x26; Release false 0x2A;
    Press false 0x1F; Release false 0x1F; Press false 0x1C] (false, false) demo_con ([], [])).
  - done.
  - exact demo_con_ok.
  - done.
Defined.

(** Letters: shift gives the capital and control the control character. *)
Lemma letters k :
  0 ≤ k < 0x60 → let ch := key_char (false, false) false k in
  97 ≤ ch ≤ 122 → key_char (true, false) false k = ch - 32 ∧ ∀ sh, key_char (sh, true) false k = ch - 96.
Proof.
  intros Hk. cbv zeta. assert (forallb (λ k, let ch := key_char (false, false) false k in
    negb ((97 <=? ch) && (ch <=? 122)) || (key_char (true, false) false k =? ch - 32) && (key_char (true, true) false k =? ch - 96) && (key_char (false, true) false k =? ch - 96))
    (seqZ 0 0x60) = true) as Hall by (vm_compute; done).
  apply (forallb_elem _ _ k) in Hall; [|apply elem_of_seqZ; lia].
  cbv zeta in Hall. intros Hch. apply orb_prop in Hall as [Hall|Hall]; [lia|].
  split; [lia|]. intros []; lia.
Qed.

(** What comes in on the serial line is edited the same way; before the port
    is initialised nothing does. *)
Lemma uart_types initialized bytes s st :
  con_ok s st → c_lock s = false → Forall (λ b, 0 ≤ b < 256) bytes →
  ∃ s', uart_interrupt_handler initialized bytes s = Ok tt s' ∧
    con_ok s' (if initialized then foldl type_char st bytes else st) ∧ c_lock s' = false.
Proof.
  intros Hok Hl Hb. unfold uart_interrupt_handler. assert (uart_codes initialized bytes = if initialized then bytes else []) as ->.
  { induction Hb as [|b bytes Hb0 Hb IH]; [by destruct initialized|]. destruct initialized; [|done].
    cbn [uart_codes]. unfold uartgetc. cbn [negb]. change (Z.land 1 1 =? 0) with false. cbv iota.
    rewrite s32_small by lia. rewrite (proj2 (Z.ltb_ge _ _)) by lia. by rewrite IH. }
  destruct initialized; [by apply consoleintr_edits|]. by apply (consoleintr_edits []).
Qed.
