(* ===== verification/ProcSys.v ===== *)
(** * ProcSys: processes on several processors (kernel/c/proc.c)

    The kernel as a transition system. A state is the process table, the point
    in the kernel at which each process is, and for each processor the place of
    its scheduler in the table and the process it runs. A step is what one
    processor does between two points where others may interfere: a critical
    section of ptable.lock, or a stretch of code that only touches the
    process's own slots. The rest of the kernel may be in any state at each
    step. The theorems are about every reachable state, for any number of
    processors. *)

From stdpp Require Import functions.
From S2P Require Import Prelude State Kalloc Fs Proc.

(** ** The transition system *)

(** Where a process is in the kernel. *)
Inductive point :=
  | PNone               (* never started *)
  | PRun                (* in user mode, or in the kernel outside of proc.c *)
  | PAlloc (np : nat)   (* in fork, with the slot np *)
  | PFork (np : nat)    (* in fork, with the slot np and its kernel stack *)
  | PReady (np : nat)   (* in fork, after the copy *)
  | PExit               (* in exit, before it takes the lock *)
  | PFirst              (* will start at forkret *)
  | PYield              (* switched to the scheduler in yield_proc *)
  | PSleep              (* in sleep, called with a lock of its own *)
  | PWait               (* in the sleep of wait *)
  | PDone.              (* in exit, switched to the scheduler *)

(** A processor: the next slot its scheduler looks at, and [c->proc]. *)
Record cpu := Cpu { c_next : nat; c_proc : option nat }.

Record sys := Sys { s_tab : ptable; s_pt : nat → point; s_cpu : nat → cpu }.

(** The fields of a process that the operations of proc.c use to manage it. *)
Record pcore := PC {
  a_state : procstate;
  a_pid : Z;
  a_parent : option nat;
  a_chan : option channel;
  a_killed : Z
}.
Definition core (p : proc) : pcore := PC (p_state p) (p_pid p) (p_parent p) (p_chan p) (p_killed p).

Section steps.
Context {E : Type} `{!Kern E}.
Context (trapret forkret_addr : Z).

(** The scheduler takes the lock at the start of its loop; when a process has
    switched back to it, it has the lock already. *)
Definition sched_enter (c : nat) : PM unit :=
  o ← gets pt_lock; if decide (o = Some c) then mret tt else acquire_pt c.

(** A process that the scheduler has switched to goes on until it releases the
    lock or switches back. *)
Definition resume (c i : nat) (p : point) : K (ptable * E) point :=
  match p with
  | PFirst => forkret c ;; mret PRun
  | PYield => on_tab (yield_up c) ;; mret PRun
  | PSleep => on_tab (sleep_up c i true) ;; mret PRun
  | PWait => o ← wait_again c i; mret (match o with Some _ => PRun | None => PWait end)
  | PDone => panic "zombie exit"
  | _ => undef "not at a switch"
  end.

(** The processor after a step of its process to the point [p]. *)
Definition back (cp : cpu) (p : point) : cpu :=
  match p with
  | PYield | PSleep | PWait | PDone => Cpu (c_next cp) None
  | _ => cp
  end.

Inductive step : sys → sys → Prop :=
  | step_pass t t1 t' P C c k :
      C c = Cpu k None → sched_enter c t = Ok tt t1 → scheduler_pass c k t1 = Ok None t' →
      step (Sys t P C) (Sys t' P (<[c := Cpu 0 None]> C))
  | step_pick t t1 t2 t' e e' P C c k i p :
      C c = Cpu k None → sched_enter c t = Ok tt t1 → scheduler_pass c k t1 = Ok (Some i) t2 →
      resume c i (P i) (t2, e) = Ok p (t', e') →
      step (Sys t P C) (Sys t' (<[i := p]> P) (<[c := back (Cpu (S i) (Some i)) p]> C))
  | step_alloc t t' P C c i o :
      c_proc (C c) = Some i → P i = PRun → alloc_slot c t = Ok o t' →
      step (Sys t P C) (Sys t' (<[i := match o with Some np => PAlloc np | None => PRun end]> P) C)
  | step_stack t t' e e' P C c i np b :
      c_proc (C c) = Some i → P i = PAlloc np → alloc_stack trapret forkret_addr np (t, e) = Ok b (t', e') →
      step (Sys t P C) (Sys t' (<[i := if b : bool then PFork np else PRun]> P) C)
  | step_copy t t' e e' P C c i np b :
      c_proc (C c) = Some i → P i = PFork np → fork_copy i np (t, e) = Ok b (t', e') →
      step (Sys t P C) (Sys t' (<[i := if b : bool then PReady np else PRun]> P) C)
  | step_go t t' P C c i np :
      c_proc (C c) = Some i → P i = PReady np → set_runnable c np t = Ok tt t' →
      step (Sys t P C) (Sys t' (<[i := PRun]> (<[np := PFirst]> P)) C)
  | step_exit_files t t' e e' P C c i :
      c_proc (C c) = Some i → P i = PRun → exit_files i (t, e) = Ok tt (t', e') →
      step (Sys t P C) (Sys t' (<[i := PExit]> P) C)
  | step_exit t t' P C c i :
      c_proc (C c) = Some i → P i = PExit → exit_down c i t = Ok tt t' →
      step (Sys t P C) (Sys t' (<[i := PDone]> P) (<[c := back (C c) PDone]> C))
  | step_wait t t' e e' P C c i o p :
      c_proc (C c) = Some i → P i = PRun → wait c i (t, e) = Ok o (t', e') →
      p = (match o with Some _ => PRun | None => PWait end) →
      step (Sys t P C) (Sys t' (<[i := p]> P) (<[c := back (C c) p]> C))
  | step_yield t t' P C c i :
      c_proc (C c) = Some i → P i = PRun → yield_down c i t = Ok tt t' →
      step (Sys t P C) (Sys t' (<[i := PYield]> P) (<[c := back (C c) PYield]> C))
  | step_sleep t t' P C c i a :
      c_proc (C c) = Some i → P i = PRun → sleep_down c i (ChObj a) true t = Ok tt t' →
      step (Sys t P C) (Sys t' (<[i := PSleep]> P) (<[c := back (C c) PSleep]> C))
  | step_kill t t' P C c i pid r :
      c_proc (C c) = Some i → P i = PRun → kill c pid t = Ok r t' →
      step (Sys t P C) (Sys t' P C)
  | step_wakeup t t' P C c a :
      wakeup c (ChObj a) t = Ok tt t' →
      step (Sys t P C) (Sys t' P C)
  | step_own t P C c i f : (* exec, sbrk, open and close change other fields of the process *)
      c_proc (C c) = Some i → P i = PRun → (∀ p, core (f p) = core p) →
      step (Sys t P C) (Sys (upd i f t) P C).

(** The table before the first process, and the system after [userinit]. *)
Definition boot_table : ptable := Ptable None (replicate (Z.to_nat NPROC) null_proc) None 1 1.

Inductive reachable : sys → Prop :=
  | reach_boot initcode c e e' t z :
      userinit trapret forkret_addr initcode c (boot_table, e) = Ok tt (t, e') → pt_init t = Some z →
      reachable (Sys t (<[z := PFirst]> (λ _, PNone)) (λ _, Cpu 0 None))
  | reach_step σ σ' : reachable σ → step σ σ' → reachable σ'.
End steps.

(** ** The invariant, on the managed fields *)

Definition alive (s : procstate) : Prop := s = SLEEPING ∨ s = RUNNABLE ∨ s = RUNNING.

Definition point_ok (s : procstate) (p : point) : Prop :=
  match s, p with
  | (UNUSED | EMBRYO), _ => True
  | SLEEPING, (PSleep | PWait) => True
  | RUNNABLE, (PFirst | PYield | PSleep | PWait) => True
  | RUNNING, (PRun | PAlloc _ | PFork _ | PReady _ | PExit) => True
  | ZOMBIE, PDone => True
  | _, _ => False
  end.

(** The slot that a process is filling in [fork], and the parent the slot has. *)
Definition forking (p : point) : option nat :=
  match p with PAlloc np | PFork np | PReady np => Some np | _ => None end.
Definition fork_parent (i : nat) (p : point) : option nat :=
  match p with PReady _ => Some i | _ => None end.

(** Each processor runs one process, each running process is on one processor. *)
Record cpus_ok (G : nat → pcore) (C : nat → cpu) : Prop := {
  ok_cpu : ∀ c i, c_proc (C c) = Some i → a_state (G i) = RUNNING;
  ok_running : ∀ i, a_state (G i) = RUNNING → ∃ c, c_proc (C c) = Some i;
  ok_one : ∀ c c' i, c_proc (C c) = Some i → c_proc (C c') = Some i → c = c'
}.

(** Process ids are positive, below the next one, and different. *)
Record pids_ok (G : nat → pcore) (n : Z) : Prop := {
  ok_pid : ∀ i, a_state (G i) ≠ UNUSED → 0 < a_pid (G i) < n;
  ok_pids : ∀ i j, a_state (G i) ≠ UNUSED → a_state (G j) ≠ UNUSED → a_pid (G i) = a_pid (G j) → i = j
}.

(** Processes are where their states say; slots being filled belong to one
    process in [fork]; the first process does not exit. *)
Record forks_ok (G : nat → pcore) (z : nat) (P : nat → point) : Prop := {
  ok_point : ∀ i, point_ok (a_state (G i)) (P i);
  ok_fork : ∀ i np, a_state (G i) = RUNNING → forking (P i) = Some np →
    a_state (G np) = EMBRYO ∧ a_parent (G np) = fork_parent i (P i);
  ok_forker : ∀ i j np, a_state (G i) = RUNNING → a_state (G j) = RUNNING →
    forking (P i) = Some np → forking (P j) = Some np → i = j;
  ok_embryo : ∀ np, a_state (G np) = EMBRYO → ∃ i, a_state (G i) = RUNNING ∧ forking (P i) = Some np;
  ok_exit : ∀ i, a_state (G i) = RUNNING → P i = PExit → i ≠ z
}.

(** Processes have living parents, except the first one, which lives. *)
Record tree_ok (G : nat → pcore) (z : nat) : Prop := {
  ok_parent : ∀ j q, a_parent (G j) = Some q → alive (a_state (G q));
  ok_child : ∀ j, alive (a_state (G j)) ∨ a_state (G j) = ZOMBIE → j ≠ z → a_parent (G j) ≠ None;
  ok_unused : ∀ j, a_state (G j) = UNUSED → a_parent (G j) = None;
  ok_self : ∀ j, a_parent (G j) ≠ Some j;
  ok_root : a_parent (G z) = None;
  ok_init : alive (a_state (G z))
}.

(** A process asleep in [wait] has something to wait for: it has children, none
    of them has exited, and it has not been killed. *)
Definition waits_ok (G : nat → pcore) (P : nat → point) : Prop :=
  ∀ q, a_state (G q) = SLEEPING → P q = PWait →
    a_chan (G q) = Some (ChProc q) ∧ a_killed (G q) = 0 ∧ (∃ j, a_parent (G j) = Some q) ∧
    (∀ j, a_parent (G j) = Some q → a_state (G j) ≠ ZOMBIE).

Record ok (G : nat → pcore) (z : nat) (n : Z) (P : nat → point) (C : nat → cpu) : Prop := {
  ok_cpus : cpus_ok G C;
  ok_ids : pids_ok G n;
  ok_forks : forks_ok G z P;
  ok_tree : tree_ok G z;
  ok_waits : waits_ok G P
}.

(** Reading a function that was changed at one argument. *)
Lemma fn_eq {A B} `{!EqDecision A} (f : A → B) a b : <[a := b]> f a = b.
Proof. apply fn_lookup_insert. Qed.
Lemma fn_ne {A B} `{!EqDecision A} (f : A → B) a a' b : a' ≠ a → <[a := b]> f a' = f a'.
Proof. intros H. by apply fn_lookup_insert_ne. Qed.

Ltac fn_cases := repeat match goal with
  | Hne : ?x ≠ ?a |- context [<[?a := ?b]> ?f ?x] => rewrite !(fn_ne f a x b) by done
  | |- context [<[?a := ?b]> ?f ?a] => rewrite !(fn_eq f a b)
  | |- context [<[?a := ?b]> ?f ?x] => destruct (decide (x = a)) as [->|]
  end.
Ltac fin := unfold alive in *; intros; simpl in *; simplify_eq;
  try solve [done | congruence | eauto 3 | exfalso; eauto 3 | intuition congruence].

(** ** How the parts of the invariant survive a change *)

Lemma cpus_frame G G' C :
  (∀ j, a_state (G' j) = RUNNING ↔ a_state (G j) = RUNNING) → cpus_ok G C → cpus_ok G' C.
Proof.
  intros HS [H1 H2 H3]. split; [|intros i; rewrite HS; eauto|eauto].
  intros c i Hc. apply HS. eauto.
Qed.

Lemma cpus_pick G G' C c cp i :
  c_proc (C c) = None → a_state (G i) ≠ RUNNING → a_state (G' i) = RUNNING →
  (∀ j, j ≠ i → a_state (G' j) = RUNNING ↔ a_state (G j) = RUNNING) → c_proc cp = Some i →
  cpus_ok G C → cpus_ok G' (<[c := cp]> C).
Proof.
  intros Hc Hi Hi' HS Hcp [H1 H2 H3].
  assert (∀ c', c_proc (C c') ≠ Some i) as Hno by (intros c' Hc'; by apply H1 in Hc').
  split.
  - intros c' j Hj. destruct (decide (j = i)) as [->|Hne]; [done|]. apply HS; [done|].
    destruct (decide (c' = c)) as [->|]; [rewrite fn_eq in Hj; congruence|]. rewrite fn_ne in Hj by done. eauto.
  - intros j Hj. destruct (decide (j = i)) as [->|Hne]; [exists c; by rewrite fn_eq|].
    apply HS in Hj; [|done]. destruct (H2 _ Hj) as [c' Hc']. exists c'. rewrite fn_ne; [done|congruence].
  - intros c' c'' j. fn_cases; fin.
Qed.

Lemma cpus_stop G G' C c cp i :
  c_proc (C c) = Some i → a_state (G' i) ≠ RUNNING →
  (∀ j, j ≠ i → a_state (G' j) = RUNNING ↔ a_state (G j) = RUNNING) → c_proc cp = None →
  cpus_ok G C → cpus_ok G' (<[c := cp]> C).
Proof.
  intros Hc Hi HS Hcp [H1 H2 H3]. split.
  - intros c' j. fn_cases; [fin|]. intros Hj. apply HS; [|eauto]. intros ->. eauto.
  - intros j Hj. assert (j ≠ i) as Hne by congruence. apply HS in Hj; [|done].
    destruct (H2 _ Hj) as [c' Hc']. exists c'. rewrite fn_ne; [done|congruence].
  - intros c' c'' j. fn_cases; fin.
Qed.

Lemma pids_frame G G' n :
  (∀ j, a_state (G' j) ≠ UNUSED → a_state (G j) ≠ UNUSED ∧ a_pid (G' j) = a_pid (G j)) → pids_ok G n → pids_ok G' n.
Proof.
  intros HS [H1 H2]. split.
  - intros i Hi. destruct (HS i Hi) as [? ->]. eauto.
  - intros i j Hi Hj. destruct (HS i Hi) as [? ->], (HS j Hj) as [? ->]. eauto.
Qed.

Lemma pids_alloc G n np a :
  a_pid a = n → 0 < n → pids_ok G n → pids_ok (<[np := a]> G) (n + 1).
Proof.
  intros Ha Hn [H1 H2]. split.
  - intros i. fn_cases; [lia|]. intros Hi. specialize (H1 i Hi). lia.
  - intros i j. fn_cases; try done.
    + intros _ Hj. specialize (H1 j Hj). lia.
    + intros Hi _. specialize (H1 i Hi). lia.
    + eauto.
Qed.

(** Changes that leave the processes in [fork] and their slots alone. *)
Lemma forks_frame G G' z P P' :
  (∀ j, point_ok (a_state (G' j)) (P' j)) →
  (∀ j, a_state (G' j) = RUNNING → forking (P' j) ≠ None → a_state (G j) = RUNNING ∧ P' j = P j) →
  (∀ j, a_state (G j) = RUNNING → forking (P j) ≠ None → a_state (G' j) = RUNNING ∧ P' j = P j) →
  (∀ j, a_state (G' j) = RUNNING → P' j = PExit → (a_state (G j) = RUNNING ∧ P j = PExit) ∨ j ≠ z) →
  (∀ j, a_state (G' j) = EMBRYO ↔ a_state (G j) = EMBRYO) →
  (∀ j, a_state (G j) = EMBRYO → a_parent (G' j) = a_parent (G j)) →
  forks_ok G z P → forks_ok G' z P'.
Proof.
  intros Hp Hnew Hold Hex HE HR [H1 H2 H3 H4 H5]. split; [done| | | |].
  - intros i np Hi Hf. destruct (Hnew i) as [Hi' Heq]; [done|congruence|]. rewrite Heq in *.
    destruct (H2 i np) as [? <-]; [done|done|]. rewrite HE, HR by done. done.
  - intros i j np Hi Hj Hfi Hfj. destruct (Hnew i) as [? Hei]; [done|congruence|].
    destruct (Hnew j) as [? Hej]; [done|congruence|]. rewrite Hei in Hfi. rewrite Hej in Hfj. eauto.
  - intros np Hnp. apply HE in Hnp. destruct (H4 np Hnp) as (i & Hi & Hf).
    destruct (Hold i) as [? Heq]; [done|congruence|]. exists i. by rewrite Heq.
  - intros i Hi Hx. destruct (Hex i Hi Hx) as [[? ?]|?]; eauto.
Qed.

(** Changes that keep the parents, and in which nobody dies. *)
Lemma tree_frame G G' z :
  (∀ j, a_parent (G' j) = a_parent (G j) ∨ (a_parent (G' j) = None ∧ a_state (G' j) = UNUSED)) →
  (∀ j, alive (a_state (G j)) → alive (a_state (G' j))) →
  (∀ j, alive (a_state (G' j)) ∨ a_state (G' j) = ZOMBIE → alive (a_state (G j)) ∨ a_state (G j) = ZOMBIE) →
  (∀ j, a_state (G' j) = UNUSED → a_state (G j) = UNUSED ∨ a_parent (G' j) = None) →
  tree_ok G z → tree_ok G' z.
Proof.
  intros HR Ha Hu HU [H1 H2 H3 H4 H5 H6]. split; [| | | | |eauto].
  - intros j q Hq. destruct (HR j) as [E|[E _]]; [|congruence]. rewrite E in Hq. eauto.
  - intros j Hj Hz. destruct (HR j) as [->|[_ E]]; [eauto|]. rewrite E in Hj. unfold alive in Hj. intuition congruence.
  - intros j Hj. destruct (HU j Hj) as [E|E]; [|done]. destruct (HR j) as [->|[-> _]]; eauto.
  - intros j. destruct (HR j) as [->|[-> _]]; [apply H4|done].
  - destruct (HR z) as [->|[-> _]]; done.
Qed.

(** Changes that add no sleeper in [wait], no zombie and no parent. *)
Lemma waits_frame G G' P P' :
  (∀ q, a_state (G' q) = SLEEPING → P' q = PWait →
     a_state (G q) = SLEEPING ∧ P q = PWait ∧ a_chan (G' q) = a_chan (G q) ∧ a_killed (G' q) = a_killed (G q) ∧
     (∀ j, a_parent (G j) = Some q → a_parent (G' j) = Some q) ∧
     (∀ j, a_parent (G' j) = Some q → a_state (G' j) = ZOMBIE → a_parent (G j) = Some q ∧ a_state (G j) = ZOMBIE)) →
  waits_ok G P → waits_ok G' P'.
Proof.
  intros HW H q Hq Hp. destruct (HW q Hq Hp) as (H1 & H2 & -> & -> & H3 & H4).
  destruct (H q H1 H2) as (? & ? & [j Hj] & Hz). split_and!; [done|done|eauto|].
  intros j' Hj' HZ. destruct (H4 j' Hj' HZ) as [? ?]. by apply (Hz j').
Qed.

Lemma ok_ext G G' z n P P' C C' :
  (∀ i, G i = G' i) → (∀ i, P i = P' i) → (∀ c, C c = C' c) → ok G z n P C → ok G' z n P' C'.
Proof.
  intros HG HP HC [H1 H2 H3 H4 H5]. split.
  - destruct H1 as [A1 A2 A3]. split; intros *; rewrite <- ?HG, <- ?HC; eauto.
    intros Hi. destruct (A2 _ Hi) as [c Hc]. exists c. by rewrite <- HC.
  - revert H2. apply pids_frame. intros j. by rewrite <- HG.
  - pose proof (ok_point _ _ _ H3) as Hp. revert H3.
    apply forks_frame; intros j; rewrite <- ?HG, <- ?HP; try done; tauto.
  - revert H4. apply tree_frame; intros j; rewrite <- ?HG; tauto.
  - revert H5. apply waits_frame. intros q. rewrite <- HG, <- HP. intros. split_and!; try done; intros j; by rewrite <- HG.
Qed.

(** ** The moves of the kernel keep the invariant *)

Lemma childless G z q : tree_ok G z → ¬ alive (a_state (G q)) → ∀ j, a_parent (G j) = Some q → False.
Proof. intros H Hq j Hj. by apply Hq, (ok_parent _ _ H j). Qed.

Section moves.
Context (G : nat → pcore) (z : nat) (n : Z) (P : nat → point) (C : nat → cpu).
Hypothesis Hok : ok G z n P C.
Implicit Types (c i j k np : nat) (a : pcore).

(** The scheduler of processor [c] switches to the process in slot [i]. *)
Lemma ok_pick c i k a :
  c_proc (C c) = None → a_state (G i) = RUNNABLE →
  a_state a = RUNNING → a_pid a = a_pid (G i) → a_parent a = a_parent (G i) →
  ok (<[i := a]> G) z n (<[i := PRun]> P) (<[c := Cpu k (Some i)]> C).
Proof.
  intros Hc Hi Ha Hpid Hpar. destruct Hok as [H1 H2 H3 H4 H5]. split.
  - apply (cpus_pick G _ _ _ _ i); rewrite ?fn_eq; try done; [congruence|]. intros j Hj. by rewrite fn_ne.
  - revert H2. apply pids_frame. intros j. fn_cases; fin.
  - pose proof (ok_point _ _ _ H3) as Hp. revert H3.
    apply forks_frame; intros j; specialize (Hp j); fn_cases; fin; rewrite Ha; fin.
  - revert H4. apply tree_frame; intros j; fn_cases; fin.
  - revert H5. apply waits_frame. intros q. fn_cases; fin. split_and!; try done; intros j; fn_cases; fin.
Qed.

(** The process in slot [i] gives up the processor. *)
Lemma ok_stop c i k a p :
  c_proc (C c) = Some i → P i = PRun →
  a_state a = SLEEPING ∨ a_state a = RUNNABLE → point_ok (a_state a) p →
  a_pid a = a_pid (G i) → a_parent a = a_parent (G i) →
  (a_state a = SLEEPING → p = PWait → a_chan a = Some (ChProc i) ∧ a_killed a = 0 ∧ (∃ j, a_parent (G j) = Some i) ∧
     (∀ j, a_parent (G j) = Some i → a_state (G j) ≠ ZOMBIE)) →
  ok (<[i := a]> G) z n (<[i := p]> P) (<[c := Cpu k None]> C).
Proof.
  intros Hc HP Ha Hp Hpid Hpar Hw. destruct Hok as [H1 H2 H3 H4 H5].
  pose proof (ok_cpu _ _ H1 _ _ Hc) as Hi. split.
  - apply (cpus_stop G _ _ _ _ i); rewrite ?fn_eq; try done; [intuition congruence|]. intros j Hj. by rewrite fn_ne.
  - revert H2. apply pids_frame. intros j. fn_cases; fin.
  - pose proof (ok_point _ _ _ H3) as Hpj. revert H3.
    apply forks_frame; intros j; specialize (Hpj j); fn_cases; fin; try rewrite HP in *; fin.
  - revert H4. apply tree_frame; intros j; fn_cases; fin.
  - intros q. fn_cases.
    + intros Hs Hq. destruct (Hw Hs Hq) as (? & ? & [j Hj] & Hz). split_and!; [done|done| |].
      * exists j. fn_cases; [congruence|done].
      * intros j'. fn_cases; [intuition congruence|apply Hz].
    + intros Hs Hq. destruct (H5 q Hs Hq) as (? & ? & [j Hj] & Hz). split_and!; [done|done| |].
      * exists j. fn_cases; [congruence|done].
      * intros j'. fn_cases; [intuition congruence|apply Hz].
Qed.

(** Some sleeping processes are woken; others may be marked as killed. *)
Definition woken (a a' : pcore) : Prop :=
  a_pid a' = a_pid a ∧ a_parent a' = a_parent a ∧
  (a' = a ∨ (a_state a ≠ SLEEPING ∧ a_state a' = a_state a) ∨ (a_state a = SLEEPING ∧ a_state a' = RUNNABLE)).

Lemma ok_wake G' : (∀ j, woken (G j) (G' j)) → ok G' z n P C.
Proof.
  intros HW. destruct Hok as [H1 H2 H3 H4 H5].
  assert (∀ j, a_parent (G' j) = a_parent (G j)) as HR by apply HW.
  assert (∀ j, a_state (G' j) = a_state (G j) ∨ (a_state (G j) = SLEEPING ∧ a_state (G' j) = RUNNABLE)) as HS.
  { intros j. destruct (HW j) as (_ & _ & [->|[[??]|?]]); auto. }
  split.
  - revert H1. apply cpus_frame. intros j. destruct (HS j) as [->|[E ->]]; [done|]. split; congruence.
  - revert H2. apply pids_frame. intros j Hj. destruct (HW j) as (-> & _). split; [|done].
    destruct (HS j) as [E|[E ?]]; congruence.
  - pose proof (ok_point _ _ _ H3) as Hp. revert H3.
    apply forks_frame; try (intros j; specialize (Hp j); destruct (HS j) as [E|[E E']]; rewrite ?E, ?E'; fin).
    destruct (P j); rewrite E in Hp; done.
  - revert H4. apply tree_frame; intros j; destruct (HS j) as [E|[E E']]; rewrite ?E, ?E', ?HR; fin.
  - revert H5. apply waits_frame. intros q Hq Hp. assert (G' q = G q) as ->.
    { destruct (HW q) as (_ & _ & [E|[[??]|[??]]]); [done|congruence|congruence]. }
    destruct (HS q) as [E|[??]]; [|congruence]. split_and!; [congruence|done|done|done| |].
    + intros j. by rewrite HR.
    + intros j. rewrite HR. intros ? Hj. destruct (HS j); split; intuition congruence.
Qed.

(** [fork] takes the free slot [np]. *)
Lemma ok_alloc i np a :
  0 < n → a_state (G i) = RUNNING → P i = PRun → a_state (G np) = UNUSED →
  a_state a = EMBRYO → a_pid a = n → a_parent a = a_parent (G np) →
  ok (<[np := a]> G) z (n + 1) (<[i := PAlloc np]> P) C.
Proof.
  intros Hn Hi HP Hnp Ha Hpid Hpar. destruct Hok as [H1 H2 H3 H4 H5].
  assert (i ≠ np) as Hne by congruence. pose proof (ok_unused _ _ H4 _ Hnp) as Hnone.
  pose proof (childless G z np H4) as Hcl. rewrite Hnp in Hcl. specialize (Hcl ltac:(unfold alive; naive_solver)).
  assert (∀ j, a_state (G j) = RUNNING → forking (P j) = Some np → False) as Hfree.
  { intros j Hj Hf. destruct (ok_fork _ _ _ H3 j np Hj Hf). congruence. }
  split.
  - revert H1. apply cpus_frame. intros j. fn_cases; [rewrite Ha, Hnp|]; done.
  - by apply pids_alloc.
  - destruct H3 as [A1 A2 A3 A4 A5]. split.
    + intros j. specialize (A1 j). fn_cases; fin; [rewrite Ha|rewrite Hi]; done.
    + intros j m. fn_cases; fin.
    + intros j j' m. fn_cases; fin.
    + intros m. fn_cases.
      * intros _. exists i. fn_cases; done.
      * intros Hm. destruct (A4 m Hm) as (j & Hj & Hf). exists j. fn_cases; fin. by rewrite HP in Hf.
    + intros j. fn_cases; fin.
  - destruct H4 as [B1 B2 B3 B4 B5 B6]. split.
    + intros j q. fn_cases; fin.
    + intros j. fn_cases; fin.
    + intros j. fn_cases; fin.
    + intros j. fn_cases; fin; destruct p; fin.
    + fn_cases; fin.
    + fn_cases; fin.
  - revert H5. apply waits_frame. intros q. fn_cases; fin.
    split_and!; try done; intros j; fn_cases; fin.
Qed.

(** [fork] fails and gives the slot back. *)
Lemma ok_unalloc i np a :
  a_state (G i) = RUNNING → forking (P i) = Some np → fork_parent i (P i) = None →
  a_state a = UNUSED → a_parent a = a_parent (G np) →
  ok (<[np := a]> G) z n (<[i := PRun]> P) C.
Proof.
  intros Hi Hf Hfp Ha Hpar. destruct Hok as [H1 H2 H3 H4 H5].
  destruct (ok_fork _ _ _ H3 i np Hi Hf) as [Hnp Hnone]. rewrite Hfp in Hnone.
  assert (i ≠ np) as Hne by congruence.
  pose proof (childless G z np H4) as Hcl. rewrite Hnp in Hcl. specialize (Hcl ltac:(unfold alive; naive_solver)).
  split.
  - revert H1. apply cpus_frame. intros j. fn_cases; [rewrite Ha, Hnp|]; done.
  - revert H2. apply pids_frame. intros j. fn_cases; fin.
  - destruct H3 as [A1 A2 A3 A4 A5]. split.
    + intros j. specialize (A1 j). fn_cases; fin; [by rewrite Ha|by rewrite Hi].
    + intros j m. fn_cases; fin.
    + intros j j' m. fn_cases; fin.
    + intros m. fn_cases; [congruence|]. intros Hm. destruct (A4 m Hm) as (j & Hj & Hfj). exists j.
      fn_cases; fin.
    + intros j. fn_cases; fin.
  - revert H4. apply tree_frame; intros j; fn_cases; fin.
  - revert H5. apply waits_frame. intros q. fn_cases; fin. split_and!; try done; intros j; fn_cases; fin.
Qed.

(** The slot gets its kernel stack, or its contents and parent. *)
Lemma ok_fill i np a p :
  a_state (G i) = RUNNING → forking (P i) = Some np → forking p = Some np →
  a_state a = EMBRYO → a_pid a = a_pid (G np) → a_parent a = fork_parent i p →
  ok (<[np := a]> G) z n (<[i := p]> P) C.
Proof.
  intros Hi Hf Hp Ha Hpid Hpar. destruct Hok as [H1 H2 H3 H4 H5].
  destruct (ok_fork _ _ _ H3 i np Hi Hf) as [Hnp Hold].
  assert (∀ q, a_parent (G np) = Some q → q = i) as Honly by (intros q; rewrite Hold; destruct (P i); naive_solver).
  assert (i ≠ np) as Hne by congruence.
  pose proof (childless G z np H4) as Hcl. rewrite Hnp in Hcl. specialize (Hcl ltac:(unfold alive; naive_solver)).
  split.
  - revert H1. apply cpus_frame. intros j. fn_cases; [rewrite Ha, Hnp|]; done.
  - revert H2. apply pids_frame. intros j. fn_cases; fin.
  - destruct H3 as [A1 A2 A3 A4 A5]. split.
    + intros j. specialize (A1 j). fn_cases; fin. rewrite Hi. by destruct p.
    + intros j m. fn_cases; fin.
    + intros j j' m. fn_cases; fin.
    + intros m. fn_cases.
      * intros _. exists i. fn_cases; done.
      * intros Hm. destruct (A4 m Hm) as (j & Hj & Hfj). exists j. fn_cases; fin.
    + intros j. fn_cases; fin.
  - destruct H4 as [B1 B2 B3 B4 B5 B6]. split.
    + intros j q. fn_cases; fin; destruct p; fin.
    + intros j. fn_cases; fin.
    + intros j. fn_cases; fin.
    + intros j. fn_cases; fin; destruct p; fin.
    + fn_cases; fin.
    + fn_cases; fin.
  - revert H5. apply waits_frame. intros q. fn_cases; fin.
    split_and!; try done; intros j; fn_cases; fin; destruct p; fin; exfalso; eauto.
Qed.

(** The slot becomes a process. *)
Lemma ok_go i np a :
  a_state (G i) = RUNNING → P i = PReady np →
  a_state a = RUNNABLE → a_pid a = a_pid (G np) → a_parent a = a_parent (G np) →
  ok (<[np := a]> G) z n (<[i := PRun]> (<[np := PFirst]> P)) C.
Proof.
  intros Hi HP Ha Hpid Hpar. destruct Hok as [H1 H2 H3 H4 H5].
  destruct (ok_fork _ _ _ H3 i np Hi) as [Hnp Hold]; [by rewrite HP|]. rewrite HP in Hold. simpl in Hold.
  assert (i ≠ np) as Hne by congruence.
  pose proof (childless G z np H4) as Hcl. rewrite Hnp in Hcl. specialize (Hcl ltac:(unfold alive; naive_solver)).
  split.
  - revert H1. apply cpus_frame. intros j. fn_cases; [rewrite Ha, Hnp|]; done.
  - revert H2. apply pids_frame. intros j. fn_cases; fin.
  - destruct H3 as [A1 A2 A3 A4 A5]. split.
    + intros j. specialize (A1 j). fn_cases; fin; [by rewrite Ha|by rewrite Hi].
    + intros j m. fn_cases; fin. exfalso. assert (i = j) by (apply (A3 i j np); rewrite ?HP; done). done.
    + intros j j' m. fn_cases; fin.
    + intros m. fn_cases; [congruence|]. intros Hm. destruct (A4 m Hm) as (j & Hj & Hfj). exists j.
      fn_cases; fin. rewrite HP in Hfj. fin.
    + intros j. fn_cases; fin.
  - destruct H4 as [B1 B2 B3 B4 B5 B6]. split.
    + intros j q. fn_cases; fin.
    + intros j. fn_cases; fin.
    + intros j. fn_cases; fin.
    + intros j. fn_cases; fin; destruct p; fin.
    + fn_cases; fin.
    + fn_cases; fin.
  - revert H5. apply waits_frame. intros q. fn_cases; fin.
    split_and!; try done; intros j; fn_cases; fin.
Qed.

(** [exit] has closed the files of a process that is not the first one. *)
Lemma ok_exiting i :
  a_state (G i) = RUNNING → P i = PRun → i ≠ z → ok G z n (<[i := PExit]> P) C.
Proof.
  intros Hi HP Hz. destruct Hok as [H1 H2 H3 H4 H5]. split; [done|done| |done|].
  - pose proof (ok_point _ _ _ H3) as Hp. revert H3.
    apply forks_frame; intros j; specialize (Hp j); fn_cases; fin.
    + by rewrite Hi.
    + match goal with H : forking _ ≠ None |- _ => by rewrite HP in H end.
  - revert H5. apply waits_frame. intros q. fn_cases; fin.
Qed.

(** [wait] frees the slot of a child that has exited. *)
Lemma ok_reap i j a :
  a_state (G i) = RUNNING → a_parent (G j) = Some i → a_state (G j) = ZOMBIE →
  a_state a = UNUSED → a_parent a = None →
  ok (<[j := a]> G) z n P C.
Proof.
  intros Hi Hj HZ Ha Hpar. destruct Hok as [H1 H2 H3 H4 H5].
  assert (i ≠ j) as Hne by congruence.
  pose proof (childless G z j H4) as Hcl. rewrite HZ in Hcl. specialize (Hcl ltac:(unfold alive; naive_solver)).
  split.
  - revert H1. apply cpus_frame. intros m. fn_cases; [rewrite Ha, HZ|]; done.
  - revert H2. apply pids_frame. intros m. fn_cases; fin.
  - pose proof (ok_point _ _ _ H3) as Hp. revert H3.
    apply forks_frame; intros m; specialize (Hp m); fn_cases; fin. by rewrite Ha.
  - revert H4. apply tree_frame; intros m; fn_cases; fin.
  - revert H5. apply waits_frame. intros q. fn_cases; fin.
    split_and!; try done; intros m; fn_cases; fin.
Qed.

(** The process in slot [i] exits: it becomes a zombie, its children go to the
    first process, and its parent is woken, as is the first process when it
    gets a zombie. *)
Record exited (i : nat) (G' : nat → pcore) : Prop := {
  ex_self : a_state (G' i) = ZOMBIE;
  ex_pid : ∀ j, a_pid (G' j) = a_pid (G j);
  ex_state : ∀ j, j ≠ i → a_state (G' j) = a_state (G j) ∨ (a_state (G j) = SLEEPING ∧ a_state (G' j) = RUNNABLE);
  ex_parent : ∀ j, a_parent (G' j) = if decide (a_parent (G j) = Some i) then Some z else a_parent (G j);
  ex_asleep : ∀ j, a_state (G' j) = SLEEPING →
    a_chan (G' j) = a_chan (G j) ∧ a_killed (G' j) = a_killed (G j) ∧ a_chan (G j) ≠ ChProc <$> a_parent (G i) ∧
    (a_chan (G j) = Some (ChProc z) → ∀ m, a_parent (G m) = Some i → a_state (G m) ≠ ZOMBIE)
}.

Lemma ok_exited c i k G' :
  c_proc (C c) = Some i → P i = PExit → exited i G' → ok G' z n (<[i := PDone]> P) (<[c := Cpu k None]> C).
Proof.
  intros Hc HP [Hs Hpid HS HR HA]. destruct Hok as [H1 H2 H3 H4 H5].
  pose proof (ok_cpu _ _ H1 _ _ Hc) as Hi. pose proof (ok_exit _ _ _ H3 i Hi HP) as Hz.
  assert (∀ j, a_state (G j) = EMBRYO → a_parent (G j) ≠ Some i) as Hemb.
  { intros j Hj Hpj. destruct (ok_embryo _ _ _ H3 j Hj) as (q & Hq & Hf).
    destruct (ok_fork _ _ _ H3 q j Hq Hf) as [_ E]. rewrite Hpj in E.
    destruct (P q) eqn:HPq; simplify_eq/=. congruence. }
  assert (∀ j, j ≠ i → alive (a_state (G j)) → alive (a_state (G' j))) as Hal.
  { intros j Hj. destruct (HS j Hj) as [->|[_ ->]]; [done|]. intros _. by right; left. }
  assert (∀ j, j ≠ i → a_state (G' j) = RUNNING ↔ a_state (G j) = RUNNING) as Hrun.
  { intros j Hj. destruct (HS j Hj) as [->|[E ->]]; [done|]. split; congruence. }
  split.
  - apply (cpus_stop G _ _ _ _ i); try done. congruence.
  - revert H2. apply pids_frame. intros j Hj. split; [|apply Hpid]. destruct (decide (j = i)) as [->|Hne]; [congruence|].
    destruct (HS j Hne) as [E|[E ?]]; congruence.
  - pose proof (ok_point _ _ _ H3) as Hp. revert H3.
    apply forks_frame.
    + intros j. specialize (Hp j). fn_cases; [by rewrite Hs|]. destruct (HS j) as [->|[E ->]]; [done|done|].
      rewrite E in Hp. by destruct (P j).
    + intros j. fn_cases; [done|]. by rewrite Hrun.
    + intros j. fn_cases; [by rewrite HP|]. by rewrite Hrun.
    + intros j. fn_cases; [done|]. rewrite Hrun by done. by left.
    + intros j. destruct (decide (j = i)) as [->|Hne]; [rewrite Hs, Hi; done|].
      destruct (HS j Hne) as [->|[E ->]]; [done|]. split; congruence.
    + intros j Hj. rewrite HR, decide_False; [done|]. by apply Hemb.
  - destruct H4 as [B1 B2 B3 B4 B5 B6]. split.
    + intros j q. rewrite HR. case_decide; [intros [= <-]; by apply Hal|]. intros Hq.
      apply Hal; [congruence|by eapply B1].
    + intros j Hj Hjz. rewrite HR. case_decide; [done|]. apply B2; [|done].
      destruct (decide (j = i)) as [->|Hne]; [by left; right; right|].
      destruct (HS j Hne) as [E|[E ?]]; [by rewrite <- E|by left; left].
    + intros j Hj. assert (j ≠ i) as Hne by congruence. rewrite HR.
      assert (a_parent (G j) = None) as ->; [|by rewrite decide_False].
      apply B3. destruct (HS j Hne) as [E|[E ?]]; congruence.
    + intros j. rewrite HR. case_decide as Hd; [|apply B4]. intros [= ->]. congruence.
    + rewrite HR, B5. by rewrite decide_False.
    + by apply Hal.
  - intros q Hq. fn_cases; [congruence|]. intros HPq. destruct (HA q Hq) as (-> & -> & Hw & Hzw).
    assert (a_state (G q) = SLEEPING) as Hq' by (destruct (HS q) as [E|[??]]; congruence).
    destruct (H5 q Hq' HPq) as (Hch & ? & [j Hj] & Hnz). split_and!; [done|done| |].
    + exists j. rewrite HR, decide_False; [done|]. congruence.
    + intros m. rewrite HR. rewrite Hch in Hw, Hzw. intros Hm HZ.
      assert (m ≠ i) as Hmi.
      { intros ->. rewrite decide_False in Hm by apply (ok_self _ _ H4). by rewrite Hm in Hw. }
      assert (a_state (G m) = ZOMBIE) as HZ' by (destruct (HS m Hmi) as [E|[??]]; congruence).
      case_decide as Hd; [|by apply (Hnz m)]. injection Hm as <-. by apply (Hzw eq_refl m).
Qed.
End moves.
