(* ===== verification/ProcInv.v ===== *)
(** * ProcInv: the operations of the process table keep its invariant

    The effect of each operation of Proc on the fields that manage processes,
    and with it the theorems about every reachable state of the system: who
    runs where, that processes keep a living parent, and that a process does
    not sleep in [wait] past the exit of a child. *)

From stdpp Require Import functions.
From S2P Require Import Prelude State Kalloc Fs Proc ProcSys.

(** ** What the operations do to the managed fields *)

Definition cores (t : ptable) : nat → pcore := λ i, core (pr t i).

(** From [t] to [t'], at most the managed fields of slot [i] change, to [a]. *)
Record at_slot (t t' : ptable) (i : nat) (a : pcore) : Prop := {
  as_core : ∀ j, cores t' j = <[i := a]> (cores t) j;
  as_init : pt_init t' = pt_init t;
  as_next : pt_nextpid t' = pt_nextpid t;
  as_len : length (pt_proc t') = length (pt_proc t)
}.

(** From [t] to [t'], no managed field changes. *)
Record same (t t' : ptable) : Prop := {
  sa_core : ∀ j, cores t' j = cores t j;
  sa_init : pt_init t' = pt_init t;
  sa_next : pt_nextpid t' = pt_nextpid t;
  sa_len : length (pt_proc t') = length (pt_proc t)
}.

Lemma same_refl t : same t t.
Proof. done. Qed.

Lemma same_trans t1 t2 t3 : same t1 t2 → same t2 t3 → same t1 t3.
Proof. intros [H1 H2 H3 H4] [H5 H6 H7 H8]. split; [intros j; by rewrite H5, H1|congruence..]. Qed.

Lemma at_slot_same t1 t2 t3 i a : same t1 t2 → at_slot t2 t3 i a → at_slot t1 t3 i a.
Proof.
  intros [H1 H2 H3 H4] [H5 H6 H7 H8]. split; [|congruence..]. intros j. rewrite H5.
  destruct (decide (j = i)) as [->|]; [by rewrite !fn_eq|]. by rewrite !fn_ne.
Qed.

Lemma at_slot_then_same t1 t2 t3 i a : at_slot t1 t2 i a → same t2 t3 → at_slot t1 t3 i a.
Proof. intros [H1 H2 H3 H4] [H5 H6 H7 H8]. split; [intros j; by rewrite H5, H1|congruence..]. Qed.

Lemma at_slot_trans t1 t2 t3 i a a' : at_slot t1 t2 i a → at_slot t2 t3 i a' → at_slot t1 t3 i a'.
Proof.
  intros [H1 H2 H3 H4] [H5 H6 H7 H8]. split; [|congruence..]. intros j. rewrite H5.
  destruct (decide (j = i)) as [->|]; [by rewrite !fn_eq|]. by rewrite !fn_ne, H1, fn_ne.
Qed.

Lemma at_slot_eq t t' i a : at_slot t t' i a → cores t' i = a.
Proof. intros [H _ _ _]. by rewrite H, fn_eq. Qed.

Lemma pr_range t i : p_state (pr t i) ≠ UNUSED → (i < length (pt_proc t))%nat.
Proof.
  intros H. destruct (decide (i < length (pt_proc t))%nat); [done|]. exfalso. apply H.
  unfold pr. by rewrite list_lookup_total_alt, lookup_ge_None_2 by lia.
Qed.

Lemma pr_range_parent t i q : p_parent (pr t i) = Some q → (i < length (pt_proc t))%nat.
Proof.
  intros H. destruct (decide (i < length (pt_proc t))%nat); [done|]. exfalso. revert H.
  unfold pr. by rewrite list_lookup_total_alt, lookup_ge_None_2 by lia.
Qed.

Lemma pr_upd_eq i f t : (i < length (pt_proc t))%nat → pr (upd i f t) i = f (pr t i).
Proof. intros H. unfold pr at 1, upd. simpl. by apply list_lookup_total_insert_eq. Qed.

Lemma pr_upd_ne i j f t : j ≠ i → pr (upd i f t) j = pr t j.
Proof. intros H. unfold pr, upd. simpl. by apply list_lookup_total_insert_ne. Qed.

Lemma at_slot_upd t i f : (i < length (pt_proc t))%nat → at_slot t (upd i f t) i (core (f (pr t i))).
Proof.
  intros Hi. split; [|done|done|simpl; apply length_insert]. intros j. unfold cores.
  destruct (decide (j = i)) as [->|]; [by rewrite fn_eq, pr_upd_eq|]. by rewrite fn_ne, pr_upd_ne.
Qed.

(** An assignment to a field that is not managed. *)
Lemma same_upd t i f : (∀ p, core (f p) = core p) → same t (upd i f t).
Proof.
  intros Hf. split; [|done|done|simpl; apply length_insert]. intros j. unfold cores.
  destruct (decide (j = i)) as [->|]; [|by rewrite pr_upd_ne].
  destruct (decide (i < length (pt_proc t))%nat); [by rewrite pr_upd_eq|].
  unfold pr, upd. simpl. by rewrite list_insert_ge by lia.
Qed.

Section wlp_rules.
Context {E : Type} `{!Kern E}.
Implicit Types (t : ptable) (e : E).

Lemma wlp_acquire_pt c Q t : Q tt (set_plock (Some c) t) → wlp (acquire_pt c) Q t.
Proof.
  intros HQ. unfold acquire_pt. apply wlp_bind, wlp_gets. destruct (pt_lock t); [|by apply wlp_modify].
  case_decide; apply wlp_fail.
Qed.

Lemma wlp_release_pt c Q t : Q tt (set_plock None t) → wlp (release_pt c) Q t.
Proof.
  intros HQ. unfold release_pt. apply wlp_bind, wlp_gets. case_decide; [by apply wlp_modify|apply wlp_fail].
Qed.

Lemma wlp_on_tab {A} (m : PM A) (Q : A → ptable * E → Prop) t e : wlp m (λ a t', Q a (t', e)) t → wlp (on_tab m) Q (t, e).
Proof. unfold wlp, on_tab. simpl. by destruct (m t). Qed.

Lemma wlp_on_env {A} (m : K E A) (Q : A → ptable * E → Prop) t e : (∀ a e', Q a (t, e')) → wlp (on_env m) Q (t, e).
Proof. intros HQ. unfold wlp, on_env. simpl. by destruct (m e). Qed.

Lemma wlp_sched i Q t : Q tt t → wlp (sched i) Q t.
Proof. intros HQ. unfold sched. apply wlp_bind, wlp_gets. case_decide; [apply wlp_fail|by apply wlp_ret]. Qed.
End wlp_rules.

Ltac wl := first [ exact I | apply wlp_acquire_pt | apply wlp_release_pt | apply wlp_sched | apply wlp_bind | apply wlp_on_tab
  | apply wlp_on_env; intros ? ? | apply wlp_gets | apply wlp_modify | apply wlp_ret | apply wlp_fail ].

(** Assignments to one slot, one after the other. *)
Lemma at_slot_start t i : at_slot t t i (core (pr t i)).
Proof. split; [|done..]. intros j. unfold cores. destruct (decide (j = i)) as [->|]; [by rewrite fn_eq|by rewrite fn_ne]. Qed.

Lemma at_slot_lock t0 t i a o : at_slot t0 t i a → at_slot t0 (set_plock o t) i a.
Proof. by intros []. Qed.

Lemma at_slot_set t0 t i f p : (i < length (pt_proc t0))%nat →
  (∀ q, core q = core p → core (f q) = core (f p)) → at_slot t0 t i (core p) → at_slot t0 (upd i f t) i (core (f p)).
Proof.
  intros Hi Hf H. pose proof (at_slot_eq _ _ _ _ H) as He. eapply at_slot_trans; [done|].
  rewrite <- (Hf (pr t i)) by done. apply at_slot_upd. by rewrite (as_len _ _ _ _ H).
Qed.

(** An assignment that leaves the managed fields alone. *)
Lemma at_slot_keep t0 t i f a : (∀ q, core (f q) = core q) → at_slot t0 t i a → at_slot t0 (upd i f t) i a.
Proof. intros Hf H. eapply at_slot_then_same; [done|]. by apply same_upd. Qed.

Lemma same_lock t0 t o : same t0 t → same t0 (set_plock o t).
Proof. by intros []. Qed.

Lemma same_keep t0 t i f : (∀ q, core (f q) = core q) → same t0 t → same t0 (upd i f t).
Proof. intros Hf H. eapply same_trans; [done|]. by apply same_upd. Qed.

Ltac slot := repeat first
  [ apply at_slot_start | apply same_refl | apply at_slot_lock | apply same_lock
  | apply at_slot_keep; [done|] | apply same_keep; [done|]
  | apply at_slot_set; [done|intros ? ?; unfold core in *; simpl in *; congruence|] ].

Section ops.
Context {E : Type} `{!Kern E}.
Context (trapret forkret_addr : Z).
Implicit Types (t : ptable) (e : E) (c i k np : nat).

Lemma yield_down_slot c i t : (i < length (pt_proc t))%nat →
  wlp (yield_down c i) (λ _ t', at_slot t t' i (core (set_state RUNNABLE (pr t i)))) t.
Proof. intros Hi. unfold yield_down, set_proc. do 5 wl. slot. Qed.

Lemma sleep_down_slot c i ch lk t : (i < length (pt_proc t))%nat →
  wlp (sleep_down c i ch lk) (λ _ t', at_slot t t' i (core (set_state SLEEPING (set_chan (Some ch) (pr t i))))) t.
Proof. intros Hi. unfold sleep_down, set_proc. destruct lk; simpl; do 7 wl; slot. Qed.

Lemma sleep_up_slot c i lk t : (i < length (pt_proc t))%nat →
  wlp (sleep_up c i lk) (λ _ t', at_slot t t' i (core (set_chan None (pr t i)))) t.
Proof. intros Hi. unfold sleep_up, set_proc. destruct lk; simpl; do 3 wl; slot. Qed.

Lemma set_runnable_slot c i t : (i < length (pt_proc t))%nat →
  wlp (set_runnable c i) (λ _ t', at_slot t t' i (core (set_state RUNNABLE (pr t i)))) t.
Proof. intros Hi. unfold set_runnable, set_proc. do 5 wl. slot. Qed.

Lemma sched_enter_same c t : wlp (sched_enter c) (λ _ t', same t t') t.
Proof. unfold sched_enter. do 2 wl. case_decide; wl; slot. Qed.

Lemma find_runnable_spec t k i : find_runnable t k = Some i → p_state (pr t i) = RUNNABLE.
Proof.
  intros H. apply head_Some_elem_of, list_elem_of_filter in H. by destruct H.
Qed.

Lemma scheduler_pass_slot c k t :
  wlp (scheduler_pass c k) (λ o t', match o with
    | None => same t t'
    | Some i => p_state (pr t i) = RUNNABLE ∧ at_slot t t' i (core (set_state RUNNING (pr t i)))
    end) t.
Proof.
  unfold scheduler_pass, switchuvm, set_proc. apply wlp_bind. unfold wlp at 1, get.
  destruct (find_runnable t k) as [i|] eqn:Hf; [|do 3 wl; slot].
  pose proof (find_runnable_spec _ _ _ Hf) as Hi.
  assert (i < length (pt_proc t))%nat by (apply pr_range; congruence).
  wl. destruct (_ =? 0); [wl|]. destruct (_ =? 0); [wl|]. do 4 wl. split; [done|slot].
Qed.

Lemma forkret_same c t e : wlp (forkret c) (λ _ s', same t s'.1) (t, e).
Proof.
  unfold forkret. do 5 wl. destruct (_ =? 0); [wl; slot|]. do 6 wl. done.
Qed.

(** *** Creating a process *)

Lemma slots_elem t i : i ∈ slots t ↔ (i < length (pt_proc t))%nat.
Proof. unfold slots. rewrite elem_of_seq. lia. Qed.

Lemma find_unused_spec ps t :
  wlp (find_unused ps) (λ o t', t' = t ∧ match o with Some i => i ∈ ps ∧ p_state (pr t i) = UNUSED | None => True end) t.
Proof.
  induction ps as [|i ps IH]; [by wl|]. cbn [find_unused]. do 2 wl. case_decide; [wl; split_and!; [done|left|done]|].
  revert IH. unfold wlp. destruct (find_unused ps t) as [o t'|f]; [|done]. intros [-> Ho]. split; [done|].
  destruct o; [|done]. destruct Ho. split; [by right|done].
Qed.

Lemma alloc_slot_spec c t :
  wlp (alloc_slot c) (λ o t', match o with
    | None => same t t'
    | Some i => (i < length (pt_proc t))%nat ∧ p_state (pr t i) = UNUSED ∧ pt_init t' = pt_init t ∧
        pt_nextpid t' = pt_nextpid t + 1 ∧
        ∀ j, cores t' j = <[i := core (set_pid (pt_nextpid t) (set_state EMBRYO (pr t i)))]> (cores t) j
    end) t.
Proof.
  unfold alloc_slot, set_proc. do 5 wl. eapply wlp_mono; [apply find_unused_spec|].
  intros o t1 [-> Ho]. destruct o as [i|]; [|do 3 wl; slot]. destruct Ho as [Hi Hu]. apply slots_elem in Hi.
  do 7 wl. destruct (_ =? _); [wl|]. do 4 wl. split_and!; [done|done|done|done|].
  intros j. apply (as_core t (upd i (set_pid (pt_nextpid t)) (upd i (set_state EMBRYO) t))). slot.
Qed.

Lemma alloc_stack_spec i t e : (i < length (pt_proc t))%nat →
  wlp (alloc_stack trapret forkret_addr i) (λ b s',
    if b : bool then same t s'.1 else at_slot t s'.1 i (core (set_state UNUSED (pr t i)))) (t, e).
Proof.
  intros Hi. unfold alloc_stack, set_proc. do 5 wl. destruct (_ =? 0).
  - do 4 wl. simpl. slot.
  - do 10 wl. simpl. slot.
Qed.

Lemma dup_files_same i fd files t e : wlp (dup_files i fd files) (λ _ s', same t s'.1) (t, e).
Proof.
  revert fd t e. induction files as [|f files IH]; intros fd t e; [by wl|]. cbn [dup_files]. wl.
  destruct (f =? 0); [wl; apply IH|]. unfold set_proc. do 4 wl.
  eapply wlp_mono; [apply IH|]. intros _ [t' e2] H. eapply same_trans; [|exact H]. slot.
Qed.

Lemma wlp_safestrcpy {S} name n (Q : list Z → S → Prop) s : (∀ l, Q l s) → wlp (safestrcpy name n) Q s.
Proof. intros HQ. unfold safestrcpy. destruct (_ <? _)%nat; wl. apply HQ. Qed.

Lemma fork_copy_spec i np t e : (np < length (pt_proc t))%nat →
  wlp (fork_copy i np) (λ b s',
    at_slot t s'.1 np (core (if b : bool then set_parent (Some i) (pr t np) else set_state UNUSED (pr t np)))) (t, e).
Proof.
  intros Hnp. unfold fork_copy, set_proc. do 7 wl. destruct (_ =? 0).
  - do 9 wl. simpl. slot.
  - do 13 wl. eapply wlp_mono; [apply dup_files_same|]. intros _ [t' e2] H. do 5 wl.
    apply wlp_safestrcpy. intros name. do 4 wl. simpl in *.
    apply at_slot_keep; [done|]. apply at_slot_keep; [done|]. eapply at_slot_then_same; [|exact H]. slot.
Qed.

(** *** Exit and wait *)

Lemma close_files_same i fds t e : wlp (close_files i fds) (λ _ s', same t s'.1) (t, e).
Proof.
  revert t e. induction fds as [|fd fds IH]; intros t e; [by wl|]. cbn [close_files]. do 3 wl.
  destruct (_ =? 0); [wl; apply IH|]. unfold set_proc. do 4 wl.
  eapply wlp_mono; [apply IH|]. intros _ [t' e2] H. eapply same_trans; [|exact H]. slot.
Qed.

Lemma exit_files_spec i t e : wlp (exit_files i) (λ _ s', pt_init t ≠ Some i ∧ same t s'.1) (t, e).
Proof.
  unfold exit_files. do 3 wl. cbn [fst]. case_decide as Hd; [wl|]. apply wlp_ret, wlp_bind. eapply wlp_mono; [apply close_files_same|].
  intros _ [t' e2] H. unfold set_proc. do 10 wl. split; [done|]. simpl in *. slot. done.
Qed.

(** All slots after [wakeup1]. *)
Record waked (chan : option channel) (t t' : ptable) : Prop := {
  wk_pr : ∀ j, pr t' j = wake chan (pr t j);
  wk_init : pt_init t' = pt_init t;
  wk_next : pt_nextpid t' = pt_nextpid t;
  wk_len : length (pt_proc t') = length (pt_proc t)
}.

Lemma each_slot f ps t : NoDup ps →
  wlp (for_each ps (λ i, set_proc i f)) (λ _ t',
    (∀ j, pr t' j = if decide (j ∈ ps ∧ (j < length (pt_proc t))%nat) then f (pr t j) else pr t j) ∧
    pt_init t' = pt_init t ∧ pt_nextpid t' = pt_nextpid t ∧ length (pt_proc t') = length (pt_proc t)) t.
Proof.
  revert t. induction ps as [|i ps IH]; intros t Hnd.
  - wl. by split_and!.
  - apply NoDup_cons in Hnd as [Hi Hnd]. cbn [for_each]. unfold set_proc at 1. do 2 wl.
    eapply wlp_mono; [by apply IH|]. intros _ t' (Hpr & H1 & H2 & H3).
    assert (length (pt_proc (upd i f t)) = length (pt_proc t)) as Hlen by apply length_insert.
    rewrite Hlen in *. split_and!; [|done|done|done]. intros j. rewrite Hpr.
    destruct (decide (j = i)) as [->|Hne].
    + rewrite decide_False by tauto. destruct (decide (i < length (pt_proc t))%nat).
      * rewrite pr_upd_eq by done. rewrite decide_True; [done|]. split; [left|done].
      * rewrite decide_False by tauto. unfold pr, upd. simpl. by rewrite list_insert_ge by lia.
    + rewrite pr_upd_ne by done. apply decide_ext. rewrite elem_of_cons. tauto.
Qed.

Lemma wakeup1_spec chan t : wlp (wakeup1 chan) (λ _ t', waked chan t t') t.
Proof.
  unfold wakeup1. do 2 wl. eapply wlp_mono; [apply each_slot, NoDup_seq|].
  intros _ t' (Hpr & H1 & H2 & H3). split; try done. intros j. rewrite Hpr.
  case_decide as Hd; [done|]. unfold wake. rewrite decide_False; [done|]. intros [Hs _]. apply Hd.
  assert (j < length (pt_proc t))%nat by (apply pr_range; congruence). split; [by apply slots_elem|done].
Qed.

Lemma wake_woken chan p : woken (core p) (core (wake chan p)).
Proof. unfold wake, woken. case_decide as Hd; [|by auto]. destruct Hd. simpl. auto 7. Qed.

Lemma wakeup_spec c ch t : wlp (wakeup c ch) (λ _ t', waked (Some ch) t t') t.
Proof.
  unfold wakeup. do 3 wl. eapply wlp_mono; [apply wakeup1_spec|]. intros _ t' []. wl. by split.
Qed.

(** [kill] marks at most one process, and wakes it. *)
Definition kill_proc (p : proc) : proc :=
  let q := set_killed 1 p in if decide (p_state p = SLEEPING) then set_state RUNNABLE q else q.

Lemma kill_loop_spec pid ps t :
  wlp (kill_loop pid ps) (λ r t', (r = -1 ∧ t' = t ∧ ∀ i, i ∈ ps → p_pid (pr t i) ≠ pid) ∨
    (r = 0 ∧ ∃ i, i ∈ ps ∧ p_pid (pr t i) = pid ∧ (i < length (pt_proc t) → at_slot t t' i (core (kill_proc (pr t i))))%nat)) t.
Proof.
  induction ps as [|i ps IH].
  { wl. left. split_and!; [done|done|]. intros i Hi. by apply not_elem_of_nil in Hi. }
  cbn [kill_loop]. do 2 wl. destruct (Z.eqb_spec (p_pid (pr t i)) pid) as [Hp|Hp].
  - unfold set_proc. do 3 wl. apply wlp_when; intros Hs.
    + do 2 wl. right. split; [done|]. exists i. split_and!; [left|done|]. intros Hi. unfold kill_proc.
      rewrite decide_True by (by apply bool_decide_eq_true in Hs). slot.
    + wl. right. split; [done|]. exists i. split_and!; [left|done|]. intros Hi. unfold kill_proc.
      rewrite decide_False by (by apply bool_decide_eq_false in Hs). slot.
  - eapply wlp_mono; [exact IH|]. intros r t' [(-> & -> & H)|(-> & j & Hj & Hpj & H)].
    + left. split_and!; [done|done|]. intros j [->|Hj]%elem_of_cons; [done|by apply H].
    + right. split; [done|]. exists j. split_and!; [by right|done|done].
Qed.

Lemma kill_spec c pid t :
  wlp (kill c pid) (λ r t', (r = -1 ∧ same t t' ∧ ∀ i, i ∈ slots t → p_pid (pr t i) ≠ pid) ∨
    (r = 0 ∧ ∃ i, i ∈ slots t ∧ p_pid (pr t i) = pid ∧ at_slot t t' i (core (kill_proc (pr t i))))) t.
Proof.
  unfold kill. do 5 wl. eapply wlp_mono; [apply kill_loop_spec|].
  intros r t' [(-> & -> & H)|(-> & i & Hi & Hp & H)]; do 3 wl.
  - left. split_and!; [done|slot|done].
  - right. split; [done|]. exists i. split_and!; [done|done|]. apply at_slot_lock.
    apply (at_slot_same _ (set_plock (Some c) t)); [by split|]. by apply H, slots_elem.
Qed.

(** The loop of [exit] over the table. *)
Record reparented (cur : nat) (ps : list nat) (t t' : ptable) : Prop := {
  rp_keep : ∀ j, p_pid (pr t' j) = p_pid (pr t j) ∧ p_chan (pr t' j) = p_chan (pr t j) ∧ p_killed (pr t' j) = p_killed (pr t j);
  rp_state : ∀ j, p_state (pr t' j) = p_state (pr t j) ∨ (p_state (pr t j) = SLEEPING ∧ p_state (pr t' j) = RUNNABLE);
  rp_given : ∀ j, j ∈ ps → p_parent (pr t j) = Some cur → p_parent (pr t' j) = pt_init t;
  rp_other : ∀ j, j ∉ ps ∨ p_parent (pr t j) ≠ Some cur → p_parent (pr t' j) = p_parent (pr t j);
  rp_wake : ∀ j m, p_state (pr t' j) = SLEEPING → p_chan (pr t j) = ChProc <$> pt_init t →
    m ∈ ps → p_parent (pr t m) = Some cur → p_state (pr t m) ≠ ZOMBIE;
  rp_init : pt_init t' = pt_init t;
  rp_next : pt_nextpid t' = pt_nextpid t;
  rp_len : length (pt_proc t') = length (pt_proc t)
}.

Lemma wake_keep ch p :
  p_pid (wake ch p) = p_pid p ∧ p_chan (wake ch p) = p_chan p ∧ p_killed (wake ch p) = p_killed p ∧
  p_parent (wake ch p) = p_parent p ∧
  (p_state (wake ch p) = p_state p ∨ (p_state p = SLEEPING ∧ p_state (wake ch p) = RUNNABLE)).
Proof. unfold wake. case_decide as Hd; [destruct Hd|]; split_and!; auto. Qed.

(** One turn of the loop. *)
Lemma reparent_turn cur i t : p_parent (pr t i) = Some cur →
  wlp (ini ← gets pt_init; set_proc i (set_parent ini) ;;
       when (bool_decide (p_state (pr t i) = ZOMBIE)) (wakeup1 (ChProc <$> ini)))
    (λ _ t', reparented cur [i] t t') t.
Proof.
  intros Hp. unfold set_proc. do 4 wl.
  set (t1 := upd i (set_parent (pt_init t)) t).
  pose proof (pr_range_parent _ _ _ Hp) as Hi.
  assert (length (pt_proc t1) = length (pt_proc t)) as Hlen by apply length_insert.
  assert (∀ j, pr t1 j = if decide (j = i) then set_parent (pt_init t) (pr t j) else pr t j) as H1.
  { intros j. unfold t1. case_decide as Hj; [subst j; by apply pr_upd_eq|by apply pr_upd_ne]. }
  apply wlp_when; intros Hz.
  - eapply wlp_mono; [apply wakeup1_spec|]. intros _ t' [Hw Hw1 Hw2 Hw3].
    split; [| | | | |done|done|congruence]; intros j.
    + rewrite Hw. destruct (wake_keep (ChProc <$> pt_init t) (pr t1 j)) as (-> & -> & -> & _). rewrite H1. by destruct (decide (j = i)).
    + rewrite Hw. destruct (wake_keep (ChProc <$> pt_init t) (pr t1 j)) as (_ & _ & _ & _ & Hs).
      rewrite H1 in *. by destruct (decide (j = i)).
    + intros ->%list_elem_of_singleton _. rewrite Hw. destruct (wake_keep (ChProc <$> pt_init t) (pr t1 i)) as (_ & _ & _ & -> & _).
      by rewrite H1, decide_True.
    + rewrite list_elem_of_singleton. intros Hj. rewrite Hw.
      destruct (wake_keep (ChProc <$> pt_init t) (pr t1 j)) as (_ & _ & _ & -> & _). rewrite H1, decide_False; [done|]. naive_solver.
    + intros m Hs Hc. exfalso. revert Hs. rewrite Hw. unfold wake. destruct (decide _) as [Hd|Hd]; [simpl; discriminate|]. intros Hs. apply Hd. split; [done|].
      rewrite H1. by destruct (decide (j = i)).
  - wl. split; [| | | | |done|done|done]; intros j; rewrite ?H1.
    + by destruct (decide (j = i)).
    + left. by destruct (decide (j = i)).
    + intros ->%list_elem_of_singleton _. by rewrite decide_True.
    + rewrite list_elem_of_singleton. intros Hj. rewrite decide_False; [done|]. naive_solver.
    + intros m _ _ ->%list_elem_of_singleton _. by apply bool_decide_eq_false in Hz.
Qed.

Lemma reparented_cons cur i ps t t1 t2 : (i ∉ ps) → pt_init t ≠ Some cur →
  reparented cur [i] t t1 → reparented cur ps t1 t2 → reparented cur (i :: ps) t t2.
Proof.
  intros Hi Hini [A1 A2 A3 A4 A5 A6 A7 A8] [B1 B2 B3 B4 B5 B6 B7 B8].
  assert (∀ j, j ≠ i → p_parent (pr t1 j) = p_parent (pr t j)) as Hpar.
  { intros j Hj. apply A4. left. by rewrite list_elem_of_singleton. }
  split; [| | | | |congruence..]; intros j.
  - destruct (A1 j) as (<- & <- & <-). apply B1.
  - destruct (A2 j) as [Eq0|[E1 E2]], (B2 j) as [Eq0'|[E3 E4]]; try (rewrite <- Eq0); try (rewrite Eq0'); auto; right; split; congruence.
  - intros [->|Hj]%elem_of_cons Hp.
    + rewrite B4 by (left; done). apply A3; [left|done].
    + destruct (decide (j = i)) as [->|Hne]; [done|]. rewrite <- A6. apply B3; [done|]. by rewrite Hpar.
  - rewrite not_elem_of_cons. intros Hj. destruct (decide (j = i)) as [->|Hne].
    + assert (p_parent (pr t1 i) = p_parent (pr t i)) as Eq0 by (apply A4; naive_solver). rewrite <- Eq0. apply B4. by left.
    + rewrite <- (Hpar j) by done. apply B4. rewrite Hpar by done. naive_solver.
  - intros m Hs Hc. assert (p_state (pr t1 j) = SLEEPING) as Hs1 by (destruct (B2 j) as [Eq0|[Eq0 ?]]; congruence).
    intros [->|Hm]%elem_of_cons Hp; [apply (A5 j i); [done|done|left|done]|].
    assert (m ≠ i) as Hne by (by intros ->). destruct (A1 j) as (_ & Hcj & _).
    assert (p_state (pr t1 m) ≠ ZOMBIE) as Hz by (apply (B5 j m); [done|congruence|done|by rewrite Hpar]).
    destruct (A2 m) as [Eq0|[Eq0 ?]]; congruence.
Qed.

Lemma reparent_spec cur ps t : NoDup ps → pt_init t ≠ Some cur →
  wlp (reparent cur ps) (λ _ t', reparented cur ps t t') t.
Proof.
  revert t. induction ps as [|i ps IH]; intros t Hnd Hini.
  - wl. split; try done; auto.
    + intros j Hj. by apply not_elem_of_nil in Hj.
    + intros j m _ _ Hm. by apply not_elem_of_nil in Hm.
  - apply NoDup_cons in Hnd as [Hi Hnd]. cbn [reparent]. do 3 wl. case_decide as Hp.
    + eapply wlp_mono; [by apply (reparent_turn cur)|]. intros ? t1 H1.
      eapply wlp_mono; [apply IH; [done|by rewrite (rp_init _ _ _ _ H1)]|].
      intros ? t2 H2. exact (reparented_cons cur i ps t t1 t2 Hi Hini H1 H2).
    + wl. eapply wlp_mono; [by apply IH|]. intros ? t2 H2. refine (reparented_cons cur i ps t t t2 Hi Hini _ H2).
      split; try done; auto.
      * intros j ->%list_elem_of_singleton. done.
      * intros j m _ _ ->%list_elem_of_singleton. done.
Qed.

(** [exit] under the lock. *)
Lemma exit_down_spec c i z t : pt_init t = Some z → i ≠ z → (i < length (pt_proc t))%nat → p_state (pr t i) = RUNNING →
  (∀ j, p_parent (pr t j) ≠ Some j) →
  wlp (exit_down c i) (λ _ t', exited (cores t) z i (cores t') ∧ pt_init t' = pt_init t ∧ pt_nextpid t' = pt_nextpid t) t.
Proof.
  intros Hini Hz Hi Hrun Hself. unfold exit_down. do 6 wl. eapply wlp_mono; [apply wakeup1_spec|].
  intros _ t1 [W1 W2 W3 W4]. change (pt_init (set_plock (Some c) t)) with (pt_init t) in W2.
  change (pt_nextpid (set_plock (Some c) t)) with (pt_nextpid t) in W3.
  change (pt_proc (set_plock (Some c) t)) with (pt_proc t) in W4.
  change (∀ j, pr t1 j = wake (ChProc <$> p_parent (pr t i)) (pr t j)) in W1.
  do 3 wl. eapply wlp_mono; [apply reparent_spec; [apply NoDup_seq|congruence]|].
  intros _ t2 [R1 R2 R3 R4 R5 R6 R7 R8]. unfold set_proc. do 3 wl.
  assert (∀ j, j ∈ slots t1 ↔ (j < length (pt_proc t))%nat) as Hsl by (intros j; by rewrite slots_elem, W4).
  split_and!; [|simpl; congruence|simpl; congruence].
  assert (∀ j, pr (upd i (set_state ZOMBIE) t2) j = if decide (j = i) then set_state ZOMBIE (pr t2 j) else pr t2 j) as U.
  { intros j. destruct (decide (j = i)) as [->|]; [apply pr_upd_eq; congruence|by apply pr_upd_ne]. }
  assert (∀ j, p_pid (pr t1 j) = p_pid (pr t j) ∧ p_chan (pr t1 j) = p_chan (pr t j) ∧ p_killed (pr t1 j) = p_killed (pr t j) ∧
    p_parent (pr t1 j) = p_parent (pr t j) ∧
    (p_state (pr t1 j) = p_state (pr t j) ∨ (p_state (pr t j) = SLEEPING ∧ p_state (pr t1 j) = RUNNABLE))) as K1.
  { intros j. rewrite W1. apply wake_keep. }
  split; unfold cores; intros *.
  - by rewrite U, decide_True.
  - rewrite U. destruct (K1 j) as (Hp & _), (R1 j) as (Hp' & _). destruct (decide (j = i)); simpl; congruence.
  - intros Hj. rewrite U, decide_False by done. simpl. destruct (K1 j) as (_ & _ & _ & _ & Hs).
    destruct Hs as [Hs|[Hs Hs']], (R2 j) as [Hr|[Hr Hr']]; [left|right|right|]; try split; congruence.
  - rewrite U. assert (p_parent (pr t2 j) = if decide (p_parent (pr t j) = Some i) then Some z else p_parent (pr t j)) as Hp.
    { destruct (K1 j) as (_ & _ & _ & Hk & _). destruct (decide (p_parent (pr t j) = Some i)) as [Hd|Hd].
      - rewrite R3; [congruence|apply Hsl; by eapply pr_range_parent|congruence].
      - rewrite R4; [done|]. right. congruence. }
    by destruct (decide (j = i)).
  - rewrite U. destruct (decide (j = i)) as [->|Hne]; [done|]. simpl. intros Hs2.
    destruct (R1 j) as (_ & -> & ->), (K1 j) as (_ & Hch & Hk & _ & Hs).
    assert (p_state (pr t1 j) = SLEEPING) as Hs1 by (destruct (R2 j) as [Hr|[Hr ?]]; congruence).
    assert (p_state (pr t j) = SLEEPING) as Hs0 by (destruct Hs as [Hr|[Hr ?]]; congruence).
    split_and!; [done|done| |].
    + intros Hc. revert Hs1. rewrite W1. unfold wake. by rewrite decide_True.
    + intros Hc m Hm HZ. destruct (K1 m) as (_ & _ & _ & Hpm & Hsm). apply (R5 j m); [done|by rewrite W2, Hini, Hch| |congruence|].
      * apply Hsl. by eapply pr_range_parent.
      * destruct Hsm as [Hr|[Hr ?]]; congruence.
Qed.

(** One turn of [wait]. *)
Lemma wait_scan_spec i ps hk t :
  wlp (wait_scan i ps hk) (λ r t', t' = t ∧ match r with
    | inl j => j ∈ ps ∧ p_parent (pr t j) = Some i ∧ p_state (pr t j) = ZOMBIE
    | inr b => (∀ j, j ∈ ps → p_parent (pr t j) = Some i → p_state (pr t j) ≠ ZOMBIE) ∧
        (b = true ↔ hk = true ∨ ∃ j, j ∈ ps ∧ p_parent (pr t j) = Some i)
    end) t.
Proof.
  revert hk. induction ps as [|j ps IH]; intros hk.
  { wl. split; [done|]. split; [intros j Hj; by apply not_elem_of_nil in Hj|].
    split; [by left|]. intros [?|(j & Hj & _)]; [done|by apply not_elem_of_nil in Hj]. }
  cbn [wait_scan]. do 2 wl. destruct (decide (p_parent (pr t j) = Some i)) as [Hp|Hp].
  - destruct (decide (p_state (pr t j) = ZOMBIE)) as [Hz|Hz]; [wl; split_and!; [done|left|done|done]|].
    eapply wlp_mono; [apply IH|]. intros [m|b] t' [-> H]; (split; [done|]).
    + destruct H as (? & ? & ?). split_and!; [by right|done|done].
    + destruct H as [H1 H2]. split; [intros m [->|Hm]%elem_of_cons; [done|by apply H1]|]. rewrite H2. split; [|by left].
      intros _. right. exists j. split; [left|done].
  - eapply wlp_mono; [apply IH|]. intros [m|b] t' [-> H]; (split; [done|]).
    + destruct H as (? & ? & ?). split_and!; [by right|done|done].
    + destruct H as [H1 H2]. split; [intros m [->|Hm]%elem_of_cons; [done|by apply H1]|]. rewrite H2.
      split; (intros [?|(m & Hm & Hpm)]; [by left|right; exists m]).
      * split; [by right|done].
      * apply elem_of_cons in Hm as [->|Hm]; [done|]. done.
Qed.

Lemma reap_spec i t e : (i < length (pt_proc t))%nat →
  wlp (reap i) (λ r s', r = p_pid (pr t i) ∧
    at_slot t s'.1 i (core (set_state UNUSED (set_killed 0 (set_parent None (set_pid 0 (pr t i))))))) (t, e).
Proof.
  intros Hi. unfold reap, set_proc. do 18 wl. simpl. split; [done|]. slot.
Qed.

Lemma wait_turn_spec c i t e :
  wlp (wait_turn c i) (λ o s',
    (∃ j, p_parent (pr t j) = Some i ∧ p_state (pr t j) = ZOMBIE ∧ o = Some (p_pid (pr t j)) ∧
       at_slot t s'.1 j (core (set_state UNUSED (set_killed 0 (set_parent None (set_pid 0 (pr t j))))))) ∨
    ((∀ j, p_parent (pr t j) = Some i → p_state (pr t j) ≠ ZOMBIE) ∧
      (o = Some (-1) ∧ same t s'.1 ∧ ((∀ j, p_parent (pr t j) ≠ Some i) ∨ p_killed (pr t i) ≠ 0) ∨
       o = None ∧ (∃ j, p_parent (pr t j) = Some i) ∧ p_killed (pr t i) = 0 ∧
         ((i < length (pt_proc t))%nat → at_slot t s'.1 i (core (set_state SLEEPING (set_chan (Some (ChProc i)) (pr t i)))))))) (t, e).
Proof.
  unfold wait_turn. do 5 wl. eapply wlp_mono; [apply wait_scan_spec|].
  intros [j|b] t' [-> H].
  - destruct H as (Hj & Hp & Hz). wl. eapply wlp_mono; [apply reap_spec; by eapply pr_range_parent|].
    intros r [t' e'] [-> Ha]. do 4 wl. left. exists j. split_and!; [done|done|done|]. simpl in *. by apply at_slot_lock.
  - destruct H as [Hnz Hb].
    assert (∀ j, p_parent (pr t j) = Some i → p_state (pr t j) ≠ ZOMBIE) as Hnz'.
    { intros j Hj. apply Hnz; [|done]. apply slots_elem. by eapply pr_range_parent. }
    do 3 wl. cbn [fst snd]. destruct (negb b || negb (p_killed (pr t i) =? 0)) eqn:Hc; wl.
    + do 3 wl. right. split; [done|]. left. split_and!; [done|slot|].
      apply orb_true_iff in Hc as [Hc|Hc]; [left|right].
      * intros j Hj. destruct b; [done|]. assert (false = true); [|done]. apply Hb. right. exists j.
        split; [apply slots_elem; by eapply pr_range_parent|done].
      * by apply negb_true_iff, Z.eqb_neq in Hc.
    + wl. apply orb_false_iff in Hc as [Hb' Hk]. apply negb_false_iff in Hb'; apply negb_false_iff, Z.eqb_eq in Hk.
      unfold sleep_down, set_proc. simpl. do 6 wl. right. split; [done|]. right. split_and!; [done| |done|].
      * apply Hb in Hb' as [?|(j & _ & Hj)]; [done|by exists j].
      * intros Hi. simpl. slot.
Qed.

(** ** Every reachable state satisfies the invariant *)

Definition sys_ok (σ : sys) : Prop :=
  ∃ z, pt_init (s_tab σ) = Some z ∧ 0 < pt_nextpid (s_tab σ) ∧
    ok (cores (s_tab σ)) z (pt_nextpid (s_tab σ)) (s_pt σ) (s_cpu σ).

Lemma sys_ok_slot t t' i a z P P' C C' : at_slot t t' i a → pt_init t = Some z → 0 < pt_nextpid t →
  (ok (cores t) z (pt_nextpid t) P C → ok (<[i := a]> (cores t)) z (pt_nextpid t) P' C') →
  ok (cores t) z (pt_nextpid t) P C → sys_ok (Sys t' P' C').
Proof.
  intros [H1 H2 H3 _] Hz Hn Hmove Hok. exists z. simpl. rewrite H2, H3. split_and!; [done|done|].
  eapply ok_ext; [|done|done|by apply Hmove]. done.
Qed.

Lemma sys_ok_same t t' z P C : same t t' → pt_init t = Some z → 0 < pt_nextpid t →
  ok (cores t) z (pt_nextpid t) P C → sys_ok (Sys t' P C).
Proof.
  intros [H1 H2 H3 _] Hz Hn Hok. exists z. simpl. rewrite H2, H3. split_and!; [done|done|].
  eapply ok_ext; [|done|done|exact Hok]. done.
Qed.

Lemma sys_ok_woken t t' z P C : pt_init t' = pt_init t → pt_nextpid t' = pt_nextpid t → (∀ j, woken (cores t j) (cores t' j)) →
  pt_init t = Some z → 0 < pt_nextpid t → ok (cores t) z (pt_nextpid t) P C → sys_ok (Sys t' P C).
Proof.
  intros H1 H2 Hw Hz Hn Hok. exists z. simpl. rewrite H1, H2. split_and!; [done|done|]. by eapply ok_wake.
Qed.

Lemma ok_point_same G z n P C i : ok G z n P C → ok G z n (<[i := P i]> P) C.
Proof.
  apply ok_ext; [done| |done]. intros j. destruct (decide (j = i)) as [->|]; [by rewrite fn_eq|by rewrite fn_ne].
Qed.

Lemma ok_cpu_idle G z n P C c k k' : C c = Cpu k None → ok G z n P C → ok G z n P (<[c := Cpu k' None]> C).
Proof.
  intros Hc [H1 H2 H3 H4 H5]. split; try done. destruct H1 as [A1 A2 A3].
  assert (∀ c' i, c_proc (<[c := Cpu k' None]> C c') = Some i ↔ c_proc (C c') = Some i) as Hp.
  { intros c' i. destruct (decide (c' = c)) as [->|]; [by rewrite fn_eq, Hc|by rewrite fn_ne]. }
  split.
  - intros c' i. rewrite Hp. apply A1.
  - intros i Hi. destruct (A2 i Hi) as [c' Hc']. exists c'. by rewrite Hp.
  - intros c' c'' i. rewrite !Hp. apply A3.
Qed.

Lemma ok_running_range t z n P C c i : ok (cores t) z n P C → c_proc (C c) = Some i →
  p_state (pr t i) = RUNNING ∧ (i < length (pt_proc t))%nat.
Proof.
  intros H Hc. pose proof (ok_cpu _ _ (ok_cpus _ _ _ _ _ H) c i Hc) as Hr. split; [done|]. apply pr_range.
  unfold cores in Hr. simpl in Hr. congruence.
Qed.

Lemma ok_fork_range t z n P C i np : ok (cores t) z n P C → p_state (pr t i) = RUNNING → forking (P i) = Some np →
  (np < length (pt_proc t))%nat ∧ a_state (cores t np) = EMBRYO ∧ a_parent (cores t np) = fork_parent i (P i).
Proof.
  intros H Hi Hf. destruct (ok_fork _ _ _ (ok_forks _ _ _ _ _ H) i np Hi Hf) as [He Hp]. split; [|done].
  apply pr_range. unfold cores in He. simpl in He. congruence.
Qed.

(** One turn of [wait] by the process that processor [c] runs. *)
Lemma wait_turn_ok c i k t e t' e' o z P C p :
  wait_turn c i (t, e) = Ok o (t', e') → p = match o with Some _ => PRun | None => PWait end →
  pt_init t = Some z → 0 < pt_nextpid t → C c = Cpu k (Some i) → P i = PRun →
  ok (cores t) z (pt_nextpid t) P C → sys_ok (Sys t' (<[i := p]> P) (<[c := back (Cpu k (Some i)) p]> C)).
Proof.
  intros Hrun -> Hz Hn Hc HP Hok.
  assert (c_proc (C c) = Some i) as Hci by (by rewrite Hc).
  destruct (ok_running_range _ _ _ _ _ c i Hok Hci) as [Hr Hi].
  assert (ok (cores t) z (pt_nextpid t) (<[i := PRun]> P) (<[c := Cpu k (Some i)]> C)) as Hok'.
  { eapply ok_ext; [done| | |exact Hok].
    - intros j. destruct (decide (j = i)) as [->|]; [by rewrite fn_eq|by rewrite fn_ne].
    - intros c'. destruct (decide (c' = c)) as [->|]; [by rewrite fn_eq|by rewrite fn_ne]. }
  destruct (wlp_Ok _ _ _ _ _ (wait_turn_spec c i t e) Hrun) as [(j & Hp & HZ & -> & Ha)|[Hnz Hrest]]; simpl in *.
  - eapply sys_ok_slot; [exact Ha|done|done| |exact Hok']. intros H. by apply (ok_reap _ _ _ _ _ H i).
  - destruct Hrest as [(-> & Hs & _)|(-> & Hex & Hk & Ha)].
    + by eapply sys_ok_same.
    + eapply sys_ok_slot; [by apply Ha|done|done| |exact Hok].
      intros H. by apply (ok_stop _ _ _ _ _ H c i k); [done|done|left|..].
Qed.

(** A process that the scheduler switches to. *)
Lemma resume_spec c i p t e : (i < length (pt_proc t))%nat →
  wlp (resume c i p) (λ p' s', ∃ t1 ch, at_slot t t1 i (core (set_chan ch (pr t i))) ∧
    (p' = PRun ∧ s'.1 = t1 ∨
     ∃ o, p' = match o with Some _ => PRun | None => PWait end ∧ wait_turn c i (t1, e) = Ok o s')) (t, e).
Proof.
  intros Hi. destruct p; cbn [resume]; try exact I.
  - wl. eapply wlp_mono; [apply forkret_same|]. intros ? [t' e'] H. wl. exists t', (p_chan (pr t i)). simpl in *.
    split; [|by left]. eapply at_slot_then_same; [|exact H]. replace (set_chan _ _) with (pr t i) by (by destruct (pr t i)).
    slot.
  - unfold yield_up. do 4 wl. exists (set_plock None t), (p_chan (pr t i)). simpl. split; [|by left].
    replace (set_chan _ _) with (pr t i) by (by destruct (pr t i)). slot.
  - do 2 wl. eapply wlp_mono; [by apply sleep_up_slot|]. intros ? t' H. wl. exists t', None. split; [done|by left].
  - unfold wait_again. apply wlp_bind, wlp_bind, wlp_on_tab. eapply wlp_mono; [by apply sleep_up_slot|]. intros ? t' H.
    eapply wlp_mono; [apply wlp_self|]. intros o s' Hw. wl. exists t', None. split; [done|]. right. by exists o.
Qed.

Lemma pick_ok t t1 t2 t' e e' P C c k i p :
  C c = Cpu k None → sched_enter c t = Ok tt t1 → scheduler_pass c k t1 = Ok (Some i) t2 →
  resume c i (P i) (t2, e) = Ok p (t', e') →
  sys_ok (Sys t P C) → sys_ok (Sys t' (<[i := p]> P) (<[c := back (Cpu (S i) (Some i)) p]> C)).
Proof.
  intros Hc He Hs Hr (z & Hz & Hn & Hok). simpl in *.
  pose proof (wlp_Ok _ _ _ _ _ (sched_enter_same c t) He) as H1.
  destruct (wlp_Ok _ _ _ _ _ (scheduler_pass_slot c k t1) Hs) as [Hi H2].
  assert (i < length (pt_proc t1))%nat as Hlt by (apply pr_range; congruence).
  pose proof (sa_core _ _ H1 i) as Hci. unfold cores in Hci.
  assert (i < length (pt_proc t2))%nat as Hlt2 by (by rewrite (as_len _ _ _ _ H2)).
  pose proof (at_slot_eq _ _ _ _ H2) as Hc2. unfold cores in Hc2.
  destruct (wlp_Ok _ _ _ _ _ (resume_spec c i (P i) t2 e Hlt2) Hr) as (t3 & ch & H3 & Hcase).
  set (a := core (set_chan ch (pr t2 i))) in *.
  assert (at_slot t t3 i a) as H4.
  { eapply at_slot_same; [exact H1|]. eapply at_slot_trans; [exact H2|exact H3]. }
  assert (ok (<[i := a]> (cores t)) z (pt_nextpid t) (<[i := PRun]> P) (<[c := Cpu (S i) (Some i)]> C)) as Hpick.
  { unfold core in Hci, Hc2. injection Hci as E1 E2 E3 E4 E5. injection Hc2 as F1 F2 F3 F4 F5.
    apply ok_pick; unfold a, cores; simpl; [done|by rewrite Hc|congruence..]. }
  destruct Hcase as [[-> <-]|(o & Hp & Hw)].
  - simpl. by eapply sys_ok_slot.
  - assert (ok (cores t3) z (pt_nextpid t3) (<[i := PRun]> P) (<[c := Cpu (S i) (Some i)]> C)) as Hok3.
    { destruct H4 as [G1 G2 G3 _]. rewrite G3. eapply ok_ext; [|done|done|exact Hpick]. done. }
    assert (sys_ok (Sys t' (<[i := p]> (<[i := PRun]> P))
      (<[c := back (Cpu (S i) (Some i)) p]> (<[c := Cpu (S i) (Some i)]> C)))) as (z' & Hz' & Hn' & Hok').
    { destruct H4 as [G1 G2 G3 _]. eapply wait_turn_ok; [exact Hw|done|by rewrite G2|by rewrite G3|by rewrite fn_eq|by rewrite fn_eq|done]. }
    exists z'. split_and!; [done|done|]. eapply ok_ext; [done| | |exact Hok'].
    + intros j. simpl. destruct (decide (j = i)) as [->|]; [by rewrite !fn_eq|by rewrite !fn_ne].
    + intros c'. simpl. destruct (decide (c' = c)) as [->|]; [by rewrite !fn_eq|by rewrite !fn_ne].
Qed.

Lemma wait_enter c i t e :
  wlp (wait c i) (λ o s', ∃ t1, same t t1 ∧ wait_turn c i (t1, e) = Ok o s') (t, e).
Proof.
  unfold wait. apply wlp_bind, wlp_on_tab, wlp_acquire_pt. eapply wlp_mono; [apply wlp_self|].
  intros o s' H. exists (set_plock (Some c) t). split; [slot|done].
Qed.

Lemma kill_woken p : woken (core p) (core (kill_proc p)).
Proof. unfold kill_proc, woken. destruct (decide (p_state p = SLEEPING)); simpl; auto 7. Qed.

Lemma step_ok σ σ' : step trapret forkret_addr σ σ' → sys_ok σ → sys_ok σ'.
Proof.
  intros Hstep Hok. destruct Hstep.
  - destruct Hok as (z & Hz & Hn & Hok). simpl in *. eapply sys_ok_same; [|done|done|by eapply ok_cpu_idle].
    eapply same_trans; [exact (wlp_Ok _ _ _ _ _ (sched_enter_same c t) H0)|].
    exact (wlp_Ok _ _ _ _ _ (scheduler_pass_slot c k t1) H1).
  - by eapply pick_ok.
  - destruct Hok as (z & Hz & Hn & Hok). simpl in *. destruct (ok_running_range _ _ _ _ _ c i Hok H) as [Hr Hi].
    pose proof (wlp_Ok _ _ _ _ _ (alloc_slot_spec c t) H1) as Hs. destruct o as [np|]; simpl in Hs.
    + destruct Hs as (Hnp & Hu & Hi' & Hn' & Hc). exists z. simpl. rewrite Hi', Hn'. split_and!; [done|lia|].
      eapply ok_ext; [intros j; symmetry; apply Hc|done|done|]. by apply (ok_alloc _ _ _ _ _ Hok).
    + eapply sys_ok_same; [done|done|done|]. rewrite <- H0. by apply ok_point_same.
  - destruct Hok as (z & Hz & Hn & Hok). simpl in *. destruct (ok_running_range _ _ _ _ _ c i Hok H) as [Hr Hi].
    destruct (ok_fork_range _ _ _ _ _ i np Hok Hr) as (Hnp & He & Hp); [by rewrite H0|].
    pose proof (wlp_Ok _ _ _ _ _ (alloc_stack_spec np t e Hnp) H1) as Hs. destruct b; simpl in Hs.
    + eapply sys_ok_slot; [eapply at_slot_then_same; [apply at_slot_start|exact Hs]|done|done| |exact Hok].
      intros _. apply (ok_fill _ _ _ _ _ Hok); try done; [by rewrite H0|]. by rewrite H0 in Hp.
    + eapply sys_ok_slot; [exact Hs|done|done| |exact Hok].
      intros _. apply (ok_unalloc _ _ _ _ _ Hok); try done; by rewrite H0.
  - destruct Hok as (z & Hz & Hn & Hok). simpl in *. destruct (ok_running_range _ _ _ _ _ c i Hok H) as [Hr Hi].
    destruct (ok_fork_range _ _ _ _ _ i np Hok Hr) as (Hnp & He & Hp); [by rewrite H0|].
    pose proof (wlp_Ok _ _ _ _ _ (fork_copy_spec i np t e Hnp) H1) as Hs.
    eapply sys_ok_slot; [exact Hs|done|done| |exact Hok]. intros _. destruct b.
    + apply (ok_fill _ _ _ _ _ Hok); try done. by rewrite H0.
    + apply (ok_unalloc _ _ _ _ _ Hok); try done; by rewrite H0.
  - destruct Hok as (z & Hz & Hn & Hok). simpl in *. destruct (ok_running_range _ _ _ _ _ c i Hok H) as [Hr Hi].
    destruct (ok_fork_range _ _ _ _ _ i np Hok Hr) as (Hnp & He & Hp); [by rewrite H0|].
    pose proof (wlp_Ok _ _ _ _ _ (set_runnable_slot c np t Hnp) H1) as Hs.
    eapply sys_ok_slot; [exact Hs|done|done| |exact Hok]. intros _. by apply (ok_go _ _ _ _ _ Hok).
  - destruct Hok as (z & Hz & Hn & Hok). simpl in *. destruct (ok_running_range _ _ _ _ _ c i Hok H) as [Hr Hi].
    destruct (wlp_Ok _ _ _ _ _ (exit_files_spec i t e) H1) as [Hne Hs].
    eapply sys_ok_same; [exact Hs|done|done|]. apply ok_exiting; [done|done|done|congruence].
  - destruct Hok as (z & Hz & Hn & Hok). simpl in *. destruct (ok_running_range _ _ _ _ _ c i Hok H) as [Hr Hi].
    assert (i ≠ z) as Hiz by (by apply (ok_exit _ _ _ (ok_forks _ _ _ _ _ Hok))).
    destruct (wlp_Ok _ _ _ _ _ (exit_down_spec c i z t Hz Hiz Hi Hr (ok_self _ _ (ok_tree _ _ _ _ _ Hok))) H1) as (Hex & E1 & E2).
    exists z. simpl. rewrite E1, E2. split_and!; [done|done|]. by eapply ok_exited.
  - destruct Hok as (z & Hz & Hn & Hok). simpl in *. destruct (C c) as [k cp] eqn:HC. simpl in H. subst cp.
    destruct (wlp_Ok _ _ _ _ _ (wait_enter c i t e) H1) as (t1 & Hs & Hw).
    rewrite H2. pose proof Hs as [G1 G2 G3 _].
    eapply wait_turn_ok; [exact Hw|done|by rewrite G2|by rewrite G3|done|done|]. rewrite G3.
    eapply ok_ext; [|done|done|exact Hok]. done.
  - destruct Hok as (z & Hz & Hn & Hok). simpl in *. destruct (ok_running_range _ _ _ _ _ c i Hok H) as [Hr Hi].
    eapply sys_ok_slot; [exact (wlp_Ok _ _ _ _ _ (yield_down_slot c i t Hi) H1)|done|done| |exact Hok].
    intros _. by apply (ok_stop _ _ _ _ _ Hok c i); [done|done|right|..].
  - destruct Hok as (z & Hz & Hn & Hok). simpl in *. destruct (ok_running_range _ _ _ _ _ c i Hok H) as [Hr Hi].
    eapply sys_ok_slot; [exact (wlp_Ok _ _ _ _ _ (sleep_down_slot c i (ChObj a) true t Hi) H1)|done|done| |exact Hok].
    intros _. by apply (ok_stop _ _ _ _ _ Hok c i); [done|done|left|..].
  - destruct Hok as (z & Hz & Hn & Hok). simpl in *.
    destruct (wlp_Ok _ _ _ _ _ (kill_spec c pid t) H1) as [(_ & Hs & _)|(_ & j & _ & _ & [A1 A2 A3 _])].
    + by eapply sys_ok_same.
    + eapply sys_ok_woken; [exact A2|exact A3| |done|done|exact Hok]. intros m. rewrite A1.
      destruct (decide (m = j)) as [->|Hne]; [rewrite fn_eq; apply kill_woken|]. rewrite fn_ne by done. by split_and!; auto.
  - destruct Hok as (z & Hz & Hn & Hok). simpl in *.
    destruct (wlp_Ok _ _ _ _ _ (wakeup_spec c (ChObj a) t) H) as [W1 W2 W3 W4].
    eapply sys_ok_woken; [exact W2|exact W3| |done|done|exact Hok]. intros j. unfold cores. rewrite W1. apply wake_woken.
  - destruct Hok as (z & Hz & Hn & Hok). simpl in *. eapply sys_ok_same; [by apply same_upd|done|done|done].
Qed.

(** The first process. *)
Lemma userinit_fill_spec code i t e : (i < length (pt_proc t))%nat →
  wlp (userinit_fill code i) (λ _ s', pt_init s'.1 = Some i ∧ pt_nextpid s'.1 = pt_nextpid t ∧
    length (pt_proc s'.1) = length (pt_proc t) ∧ ∀ j, cores s'.1 j = cores t j) (t, e).
Proof.
  intros Hi. unfold userinit_fill. cbv zeta. unfold set_proc. do 7 wl. destruct (_ =? 0); [wl|].
  repeat wl. simpl. split_and!; [done|done| |].
  - by rewrite !length_insert.
  - apply (sa_core (set_initproc (Some i) t)). slot.
Qed.

Lemma boot_ok code c e e' t z :
  userinit trapret forkret_addr code c (boot_table, e) = Ok tt (t, e') → pt_init t = Some z →
  sys_ok (Sys t (<[z := PFirst]> (λ _, PNone)) (λ _, Cpu 0 None)).
Proof.
  assert (∀ i, pr boot_table i = null_proc) as Hnull.
  { intros i. unfold pr, boot_table. cbn [pt_proc]. rewrite list_lookup_total_alt.
    destruct (_ !! i) as [p|] eqn:Hp; [|done]. by apply lookup_replicate in Hp as [-> _]. }
  intros Hu Hz.
  assert (wlp (userinit trapret forkret_addr code c) (λ _ s', ∃ i, pt_init s'.1 = Some i ∧ pt_nextpid s'.1 = 2 ∧
    ∀ j, cores s'.1 j = <[i := PC RUNNABLE 1 None None 0]> (λ _, core null_proc) j) (boot_table, e)) as Hw.
  { unfold userinit, allocproc. apply wlp_bind, wlp_bind, wlp_on_tab. eapply wlp_mono; [apply alloc_slot_spec|].
    intros [i|] t1; [|intros _; wl; exact I]. intros (Hi & _ & _ & Hn & Hc). apply wlp_bind.
    assert (i < length (pt_proc t1))%nat as Hi1.
    { apply pr_range. specialize (Hc i). rewrite fn_eq in Hc. injection Hc as -> _ _ _ _. done. }
    eapply wlp_mono; [by apply alloc_stack_spec|]. intros b [t2 e2] Hs. wl. destruct b; [|exact I].
    destruct Hs as [S1 S2 S3 S4]. simpl in *. apply wlp_bind.
    eapply wlp_mono; [apply userinit_fill_spec; by rewrite S4|]. intros ? [t3 e3] (F1 & F2 & F3 & F4).
    apply wlp_on_tab. simpl in *. eapply wlp_mono; [apply set_runnable_slot; by rewrite F3, S4|].
    intros ? t4 [A1 A2 A3 A4]. simpl in *. exists i. split_and!; [congruence|rewrite A3, F2, S3, Hn; done|].
    intros j. rewrite A1. destruct (decide (j = i)) as [->|Hne].
    - rewrite !fn_eq. pose proof (F4 i) as Hf. rewrite S1, Hc, fn_eq, Hnull in Hf. unfold cores, core in Hf.
      injection Hf as ? ? ? ? ?. unfold core. simpl. congruence.
    - rewrite !fn_ne, F4, S1, Hc, fn_ne by done. unfold cores. by rewrite Hnull. }
  destruct (wlp_Ok _ _ _ _ _ Hw Hu) as (i & Hi & Hn & Hc). simpl in *. rewrite Hz in Hi. injection Hi as ->.
  exists i. simpl. rewrite Hn. split_and!; [done|lia|]. eapply ok_ext; [intros j; symmetry; apply Hc|done|done|].
  split; [split|split|split|split|].
  - done.
  - intros j. fn_cases; done.
  - done.
  - intros j. fn_cases; [simpl; lia|done].
  - intros j j'. fn_cases; done.
  - intros j. fn_cases; done.
  - intros j np. fn_cases; done.
  - intros j j' np. fn_cases; done.
  - intros np. fn_cases; done.
  - intros j. fn_cases; done.
  - intros j q. fn_cases; done.
  - intros j [H|H] Hj; revert H; unfold alive; fn_cases; simpl; intuition congruence.
  - intros j. fn_cases; done.
  - intros j. fn_cases; done.
  - by rewrite fn_eq.
  - rewrite fn_eq. by right; left.
  - intros q. fn_cases; done.
Qed.

Lemma reachable_ok σ : reachable trapret forkret_addr σ → sys_ok σ.
Proof. induction 1; [by eapply boot_ok|by eapply step_ok]. Qed.

(** C28 In every reachable state, a processor runs a process that is marked as
    running, a running process is on exactly one processor, and the ids of the
    processes in the table are positive and different. *)
Theorem proc_table_consistent σ :
  reachable trapret forkret_addr σ →
  (∀ c i, c_proc (s_cpu σ c) = Some i → p_state (pr (s_tab σ) i) = RUNNING) ∧
  (∀ i, p_state (pr (s_tab σ) i) = RUNNING →
     ∃ c, c_proc (s_cpu σ c) = Some i ∧ ∀ c', c_proc (s_cpu σ c') = Some i → c' = c) ∧
  (∀ i j, p_state (pr (s_tab σ) i) ≠ UNUSED → p_state (pr (s_tab σ) j) ≠ UNUSED →
     0 < p_pid (pr (s_tab σ) i) ∧ (p_pid (pr (s_tab σ) i) = p_pid (pr (s_tab σ) j) → i = j)).
Proof.
  intros (z & _ & _ & [[H1 H2 H3] [H4 H5] _ _ _])%reachable_ok. split_and!.
  - apply H1.
  - intros i Hi. destruct (H2 i Hi) as [c Hc]. exists c. split; [done|]. intros c' Hc'. by apply (H3 c' c i).
  - intros i j Hi Hj. split; [by apply H4|by apply H5].
Qed.

(** C16 In every reachable state, the first process lives, and every other
    process that has been started, also one that has exited, has a parent that
    lives: [exit] hands its children to the first process, so that there is
    always somebody to [wait] for them. *)
Theorem no_orphans σ :
  reachable trapret forkret_addr σ →
  ∃ z, pt_init (s_tab σ) = Some z ∧ alive (p_state (pr (s_tab σ) z)) ∧
    ∀ i, p_state (pr (s_tab σ) i) ≠ UNUSED → p_state (pr (s_tab σ) i) ≠ EMBRYO → i ≠ z →
      ∃ q, p_parent (pr (s_tab σ) i) = Some q ∧ alive (p_state (pr (s_tab σ) q)).
Proof.
  intros (z & Hz & _ & [_ _ _ [H1 H2 H3 H4 H5 H6] _])%reachable_ok. exists z. split_and!; [done|done|].
  intros i Hu He Hi. specialize (H2 i). specialize (H1 i). unfold cores in H1, H2. simpl in H1, H2.
  destruct (p_parent (pr (s_tab σ) i)) as [q|].
  - exists q. split; [done|by apply H1].
  - exfalso. apply H2; [|done|done]. unfold alive. destruct (p_state (pr (s_tab σ) i)); tauto.
Qed.

(** C4 No wakeup is lost. In every reachable state, a process that sleeps in
    [wait] has a child, none of its children has exited, and it has not been
    killed: whatever it waits for has yet to happen. *)
Theorem wait_no_lost_wakeup σ q :
  reachable trapret forkret_addr σ → p_state (pr (s_tab σ) q) = SLEEPING → s_pt σ q = PWait →
  p_killed (pr (s_tab σ) q) = 0 ∧ (∃ j, p_parent (pr (s_tab σ) j) = Some q) ∧
  (∀ j, p_parent (pr (s_tab σ) j) = Some q → p_state (pr (s_tab σ) j) ≠ ZOMBIE).
Proof.
  intros (z & _ & _ & [_ _ _ _ H])%reachable_ok Hq Hp. by destruct (H q Hq Hp) as (_ & ? & ? & ?).
Qed.
End ops.

(** ** A run of the system

    A kernel around the table in which every call succeeds. *)
Definition demo_kern : Kern unit := {|
  k_kalloc := mret 4096;
  k_kfree := λ _, mret tt;
  k_setupkvm := mret 8192;
  k_inituvm := λ _ _, mret tt;
  k_copyuvm := λ _ _, mret 8192;
  k_freevm := λ _, mret tt;
  k_filedup := λ f, mret f;
  k_fileclose := λ _, mret tt;
  k_idup := λ ip, mret ip;
  k_iput := λ _, mret tt;
  k_begin_op := mret tt;
  k_end_op := mret tt;
  k_namei := λ _, mret 16384;
  k_iinit := λ _, mret tt;
  k_initlog := λ _, mret tt
|}.

Section demo.
#[local] Existing Instance demo_kern.

Definition after_tab {A} (m : PM A) (t : ptable) : ptable := match m t with Ok _ t' => t' | Fault _ => t end.
Definition after_env {A} (m : K (ptable * unit) A) (t : ptable) : ptable :=
  match m (t, tt) with Ok _ s => s.1 | Fault _ => t end.

(** The first process starts, forks and waits. *)
Definition demo1 : ptable := after_env (userinit 100 200 [] 0) boot_table.
Definition demo2 : ptable := after_tab (sched_enter 0) demo1.
Definition demo3 : ptable := after_tab (scheduler_pass 0 0) demo2.
Definition demo4 : ptable := after_env (resume 0 0 PFirst) demo3.
Definition demo5 : ptable := after_tab (alloc_slot 0) demo4.
Definition demo6 : ptable := after_env (alloc_stack 100 200 1) demo5.
Definition demo7 : ptable := after_env (fork_copy 0 1) demo6.
Definition demo8 : ptable := after_tab (set_runnable 0 1) demo7.
Definition demo9 : ptable := after_env (wait 0 0) demo8.

Definition demo_pt : nat → point :=
  <[0%nat := PWait]> (<[0%nat := PRun]> (<[1%nat := PFirst]> (<[0%nat := PReady 1]> (<[0%nat := PFork 1]>
    (<[0%nat := PAlloc 1]> (<[0%nat := PRun]> (<[0%nat := PFirst]> (λ _, PNone)))))))).
Definition demo_cpu0 : nat → cpu := <[0%nat := back (Cpu 1 (Some 0%nat)) PRun]> (λ _, Cpu 0 None).
Definition demo_cpu : nat → cpu := <[0%nat := back (demo_cpu0 0%nat) PWait]> demo_cpu0.

Definition demo_sys : sys := Sys demo9 demo_pt demo_cpu.

Lemma demo_reachable : reachable 100 200 demo_sys.
Proof.
  unfold demo_sys. eapply reach_step.
  { eapply reach_step.
    { eapply reach_step.
      { eapply reach_step.
        { eapply reach_step.
          { eapply reach_step.
            { apply (reach_boot 100 200 [] 0 tt tt demo1 0); vm_compute; reflexivity. }
            apply (step_pick 100 200 demo1 demo2 demo3 demo4 tt tt _ _ 0 0 0 PRun); vm_compute; reflexivity. }
          apply (step_alloc 100 200 demo4 demo5 _ _ 0 0 (Some 1%nat)); vm_compute; reflexivity. }
        apply (step_stack 100 200 demo5 demo6 tt tt _ _ 0 0 1 true); vm_compute; reflexivity. }
      apply (step_copy 100 200 demo6 demo7 tt tt _ _ 0 0 1 true); vm_compute; reflexivity. }
    apply (step_go 100 200 demo7 demo8 _ _ 0 0 1); vm_compute; reflexivity. }
  apply (step_wait 100 200 demo8 demo9 tt tt _ _ 0 0 None PWait); vm_compute; reflexivity.
Qed.

Lemma proc_table_consistent_witness :
  p_state (pr (s_tab demo_sys) 1) = RUNNABLE ∧ (∀ c i, c_proc (s_cpu demo_sys c) = Some i → p_state (pr (s_tab demo_sys) i) = RUNNING).
Proof. split; [vm_compute; reflexivity|]. exact (proj1 (proc_table_consistent 100 200 demo_sys demo_reachable)). Defined.

Lemma no_orphans_witness : ∃ z, pt_init (s_tab demo_sys) = Some z ∧ alive (p_state (pr (s_tab demo_sys) z)) ∧
  ∀ i, p_state (pr (s_tab demo_sys) i) ≠ UNUSED → p_state (pr (s_tab demo_sys) i) ≠ EMBRYO → i ≠ z →
    ∃ q, p_parent (pr (s_tab demo_sys) i) = Some q ∧ alive (p_state (pr (s_tab demo_sys) q)).
Proof. exact (no_orphans 100 200 demo_sys demo_reachable). Defined.

Lemma wait_no_lost_wakeup_witness :
  p_killed (pr (s_tab demo_sys) 0) = 0 ∧ (∃ j, p_parent (pr (s_tab demo_sys) j) = Some 0%nat) ∧
  (∀ j, p_parent (pr (s_tab demo_sys) j) = Some 0%nat → p_state (pr (s_tab demo_sys) j) ≠ ZOMBIE).
Proof.
  apply (wait_no_lost_wakeup 100 200 demo_sys 0).
  - exact demo_reachable.
  - vm_compute; reflexivity.
  - reflexivity.
Defined.
End demo.
