(* ===== verification/ProcCalls.v ===== *)
(** * ProcCalls: what the calls of proc.c promise

    The scheduler takes every runnable process in turn; [fork] makes a copy of
    the process that differs where it must; and a [kill] of a free slot, which
    marks the process that will be created there. *)

From stdpp Require Import functions.
From S2P Require Import Prelude State Kalloc Fs Proc ProcSys ProcInv.

(** ** The scheduler is fair *)

Section fair.
Context (c : nat) (T : nat → ptable) (N : nat).

(** [T n] is the table when the scheduler of processor [c] goes on for the
    [n]-th time, after a process has switched back to it or at the start of its
    loop; what happened to the table in between does not matter. *)
Fixpoint place (k0 n : nat) : nat :=
  match n with
  | O => k0
  | S n => match scheduler_pass c (place k0 n) (T n) with Ok (Some i) _ => S i | _ => O end
  end.

(** The tables have [N] slots, the processor has the lock, and what is runnable
    can be run. *)
Definition sched_ok (t : ptable) : Prop :=
  length (pt_proc t) = N ∧ pt_lock t = Some c ∧
  ∀ i, p_state (pr t i) = RUNNABLE → p_kstack (pr t i) ≠ 0 ∧ p_pgdir (pr t i) ≠ 0.

Lemma find_runnable_next t k j : length (pt_proc t) = N → (k ≤ j < N)%nat → p_state (pr t j) = RUNNABLE →
  ∃ i, find_runnable t k = Some i ∧ (k ≤ i ≤ j)%nat.
Proof.
  intros HN Hj Hr. unfold find_runnable, slots. rewrite HN, drop_seq.
  replace (N - k)%nat with ((j - k) + S (N - S j))%nat by lia. rewrite seq_app, filter_app. cbn [seq].
  replace (0 + k + (j - k))%nat with j by lia. rewrite filter_cons_True by done.
  destruct (filter _ (seq (0 + k) (j - k))) as [|i l] eqn:Hf; [exists j; split; [done|lia]|].
  exists i. split; [done|]. assert (i ∈ seq (0 + k) (j - k)) as Hi.
  { eapply proj2, list_elem_of_filter. rewrite Hf. left. }
  apply elem_of_seq in Hi. lia.
Qed.

Lemma find_runnable_range t k i : find_runnable t k = Some i → (k ≤ i < length (pt_proc t))%nat.
Proof.
  intros H. apply head_Some_elem_of, list_elem_of_filter in H as [_ H]. unfold slots in H.
  rewrite drop_seq, elem_of_seq in H. lia.
Qed.

Lemma pass_runs t k : sched_ok t →
  scheduler_pass c k t = match find_runnable t k with
    | Some i => Ok (Some i) (upd i (set_state RUNNING) t)
    | None => Ok None (set_plock None t)
    end.
Proof.
  intros (_ & Hl & Hr). unfold scheduler_pass, switchuvm, release_pt, get, gets, mbind, K_bind.
  destruct (find_runnable t k) as [i|] eqn:Hf.
  - destruct (Hr i) as [H1 H2]; [by eapply find_runnable_spec|].
    by rewrite (proj2 (Z.eqb_neq _ _) H1), (proj2 (Z.eqb_neq _ _) H2).
  - rewrite Hl. by rewrite decide_True.
Qed.

(** The turns left until slot [j] is reached from slot [k]. *)
Definition turns_left (j k : nat) : nat := if decide (k ≤ j)%nat then (j - k)%nat else (N - k + 1 + j)%nat.

Definition picks (k0 n j : nat) : Prop :=
  scheduler_pass c (place k0 n) (T n) = Ok (Some j) (upd j (set_state RUNNING) (T n)).

Lemma fair_from k0 j d n : (j < N)%nat →
  (∀ m, (m ≤ n + d)%nat → sched_ok (T m)) →
  (∀ m, (n ≤ m ≤ n + d)%nat → (∀ m', (n ≤ m' < m)%nat → ¬ picks k0 m' j) → p_state (pr (T m) j) = RUNNABLE) →
  (turns_left j (place k0 n) ≤ d)%nat →
  ∃ m, (n ≤ m ≤ n + d)%nat ∧ picks k0 m j.
Proof.
  intros Hj. revert n. induction d as [|d IH]; intros n Hok Hrun Hd.
  all: assert (sched_ok (T n)) as Hn by (apply Hok; lia).
  all: assert (p_state (pr (T n) j) = RUNNABLE) as Hr by (apply Hrun; [lia|intros; lia]).
  all: pose proof (pass_runs (T n) (place k0 n) Hn) as Hp; unfold turns_left in Hd.
  all: destruct (decide (place k0 n ≤ j)%nat) as [Hle|Hgt].
  all: try (destruct (find_runnable_next (T n) (place k0 n) j) as (i & Hi & Hij); [apply Hn|lia|done|]; rewrite Hi in Hp).
  - exists n. split; [lia|]. assert (i = j) as -> by lia. done.
  - lia.
  - destruct (decide (i = j)) as [->|Hne]; [exists n; split; [lia|done]|].
    assert (place k0 (S n) = S i) as Hs by (cbn [place]; by rewrite Hp).
    destruct (IH (S n)) as (m & Hm & Hpick).
    + intros m Hm. apply Hok. lia.
    + intros m Hm Hno. apply Hrun; [lia|]. intros m' Hm'. destruct (decide (m' = n)) as [->|]; [|apply Hno; lia].
      unfold picks. rewrite Hp. congruence.
    + rewrite Hs. unfold turns_left. rewrite decide_True by lia. lia.
    + exists m. split; [lia|done].
  - assert (∃ k, place k0 (S n) = k ∧ (turns_left j k ≤ d)%nat ∧ ¬ picks k0 n j) as (k & Hk & Hkd & Hno).
    { cbn [place]. rewrite Hp. destruct (find_runnable (T n) (place k0 n)) as [i|] eqn:Hf.
      - apply find_runnable_range in Hf. rewrite (proj1 Hn) in Hf. exists (S i). split; [done|].
        unfold turns_left, picks. rewrite decide_False by lia. rewrite Hp. split; [lia|]. injection 1. lia.
      - exists 0%nat. split; [done|]. unfold turns_left, picks. rewrite decide_True by lia. rewrite Hp. split; [lia|done]. }
    destruct (IH (S n)) as (m & Hm & Hpick).
    + intros m Hm. apply Hok. lia.
    + intros m Hm Hno'. apply Hrun; [lia|]. intros m' Hm'. destruct (decide (m' = n)) as [->|]; [done|apply Hno'; lia].
    + by rewrite Hk.
    + exists m. split; [lia|done].
Qed.

(** C31 The scheduler is fair: a process that stays runnable until it is run is
    run by a processor after at most as many turns of its loop as the table has
    slots, wherever the loop stands and whatever other processes do in between. *)
Theorem scheduler_fair k0 j :
  (j < N)%nat → (∀ n, (n ≤ N)%nat → sched_ok (T n)) →
  (∀ n, (n ≤ N)%nat → (∀ m, (m < n)%nat → ¬ picks k0 m j) → p_state (pr (T n) j) = RUNNABLE) →
  ∃ n, (n ≤ N)%nat ∧ picks k0 n j.
Proof.
  intros Hj Hok Hrun. destruct (fair_from k0 j N 0 Hj) as (m & Hm & Hp).
  - done.
  - intros m Hm Hno. apply Hrun; [lia|]. intros m' Hm'. apply Hno. lia.
  - unfold turns_left. destruct (decide _); lia.
  - exists m. split; [lia|done].
Qed.
End fair.

(** A table with three processes that can run, the scheduler at its end. *)
Definition demo_sched : ptable :=
  Ptable (Some 0%nat) (replicate 3 (set_state RUNNABLE (set_kstack 4096 (set_pgdir 8192 null_proc)))) None 4 0.

Lemma scheduler_fair_witness : ∃ n, (n ≤ 3)%nat ∧ picks 0 (λ _, demo_sched) 3 n 2.
Proof.
  apply (scheduler_fair 0 (λ _, demo_sched) 3 3 2).
  - lia.
  - intros n _. split_and!; [reflexivity|reflexivity|]. intros i. destruct i as [|[|[|i]]]; done.
  - reflexivity.
Defined.

(** ** A free slot can be killed *)

Lemma kill_loop_hit pid pre i rest t :
  (∀ j, j ∈ pre → p_pid (pr t j) ≠ pid) → p_pid (pr t i) = pid → p_state (pr t i) ≠ SLEEPING →
  kill_loop pid (pre ++ i :: rest) t = Ok 0 (upd i (set_killed 1) t).
Proof.
  intros Hpre Hi Hs. induction pre as [|j pre IH].
  - cbn [app kill_loop]. unfold set_proc, gets, mbind, K_bind. rewrite Hi, Z.eqb_refl. unfold modify.
    by rewrite bool_decide_eq_false_2 by done.
  - cbn [app kill_loop]. unfold gets, mbind, K_bind. rewrite (proj2 (Z.eqb_neq _ _)) by (apply Hpre; left).
    apply IH. intros j' Hj'. apply Hpre. by right.
Qed.

Lemma find_unused_hit pre i rest t :
  (∀ j, j ∈ pre → p_state (pr t j) ≠ UNUSED) → p_state (pr t i) = UNUSED → find_unused (pre ++ i :: rest) t = Ok (Some i) t.
Proof.
  intros Hpre Hi. induction pre as [|j pre IH].
  - cbn [app find_unused]. unfold gets, mbind, K_bind. by rewrite decide_True.
  - cbn [app find_unused]. unfold gets, mbind, K_bind. rewrite decide_False by (apply Hpre; left).
    apply IH. intros j' Hj'. apply Hpre. by right.
Qed.

Lemma slots_split t i : (i < length (pt_proc t))%nat → ∃ rest, slots t = seq 0 i ++ i :: rest.
Proof.
  intros Hi. unfold slots. exists (seq (S i) (length (pt_proc t) - S i)).
  replace (length (pt_proc t)) with (i + S (length (pt_proc t) - S i))%nat at 1 by lia. by rewrite seq_app.
Qed.

(** [kill] does not look at the state of the slot it finds: with the id of a
    free slot, which is 0 unless a [fork] that failed has left another one, it
    reports success, and the process that is created in the slot next is marked
    as killed from the start. *)
Theorem kill_marks_free_slot c i t :
  pt_lock t = None → (i < length (pt_proc t))%nat → p_state (pr t i) = UNUSED →
  (∀ j, (j < i)%nat → p_state (pr t j) ≠ UNUSED ∧ p_pid (pr t j) ≠ p_pid (pr t i)) → pt_nextpid t < 2 ^ 31 - 1 →
  ∃ t1 t2, kill c (p_pid (pr t i)) t = Ok 0 t1 ∧ alloc_slot c t1 = Ok (Some i) t2 ∧
    p_state (pr t2 i) = EMBRYO ∧ p_pid (pr t2 i) = pt_nextpid t ∧ p_killed (pr t2 i) = 1.
Proof.
  intros Hl Hi Hu Hlt Hn. destruct (slots_split t i Hi) as [rest Hsl].
  assert (∀ j, j ∈ seq 0 i → (j < i)%nat) as Hin by (intros j Hj%elem_of_seq; lia).
  set (t0 := set_plock (Some c) t). set (t1 := set_plock None (upd i (set_killed 1) t0)).
  assert (kill c (p_pid (pr t i)) t = Ok 0 t1) as Hk.
  { unfold kill, acquire_pt, gets, mbind, K_bind. rewrite Hl. unfold modify. fold t0.
    change (slots t0) with (slots t). rewrite Hsl, (kill_loop_hit _ _ i rest t0); [|intros j Hj; by apply Hlt, Hin|done|].
    - unfold release_pt, gets, mbind, K_bind. by rewrite decide_True.
    - change (pr t0 i) with (pr t i). by rewrite Hu. }
  exists t1. assert (length (pt_proc t1) = length (pt_proc t)) as Hlen by apply length_insert.
  assert (pr t1 i = set_killed 1 (pr t i)) as Hpi by (by apply (pr_upd_eq i (set_killed 1) t0)).
  assert (∀ j, j ≠ i → pr t1 j = pr t j) as Hpj by (intros j Hj; by apply (pr_upd_ne i j (set_killed 1) t0)).
  set (t2 := set_plock None (set_nextpid (pt_nextpid t + 1)
    (upd i (set_pid (pt_nextpid t)) (upd i (set_state EMBRYO) (set_plock (Some c) t1))))).
  exists t2. split; [done|]. assert (alloc_slot c t1 = Ok (Some i) t2) as Ha.
  { unfold alloc_slot, acquire_pt, gets, mbind, K_bind. change (pt_lock t1) with (@None nat). unfold modify.
    assert (slots (set_plock (Some c) t1) = slots t) as -> by (unfold slots; simpl; by rewrite length_insert).
    rewrite Hsl, (find_unused_hit _ i rest); [| |].
    - unfold set_proc, modify. change (pt_nextpid _) with (pt_nextpid t).
      rewrite (proj2 (Z.eqb_neq _ _)) by lia. unfold release_pt, gets, mbind, K_bind. by rewrite decide_True.
    - intros j Hj. change (pr (set_plock (Some c) t1) j) with (pr t1 j). apply Hin in Hj as Hji. rewrite Hpj by lia.
      by apply Hlt.
    - change (pr (set_plock (Some c) t1) i) with (pr t1 i). by rewrite Hpi. }
  split; [done|]. assert (pr t2 i = set_pid (pt_nextpid t) (set_state EMBRYO (pr t1 i))) as ->.
  { change (pr t2 i) with (pr (upd i (set_pid (pt_nextpid t)) (upd i (set_state EMBRYO) (set_plock (Some c) t1))) i).
    rewrite pr_upd_eq; [|simpl; by rewrite !length_insert]. rewrite pr_upd_eq; [done|simpl; by rewrite length_insert]. }
  by rewrite Hpi.
Qed.

(** After the start of the first process: kill(0) marks slot 1. *)
Lemma kill_marks_free_slot_witness : ∃ t1 t2, kill 0 0 demo1 = Ok 0 t1 ∧ alloc_slot 0 t1 = Ok (Some 1%nat) t2 ∧
  p_state (pr t2 1) = EMBRYO ∧ p_pid (pr t2 1) = 2 ∧ p_killed (pr t2 1) = 1.
Proof.
  apply (kill_marks_free_slot 0 1 demo1).
  - vm_compute. reflexivity.
  - vm_compute. lia.
  - vm_compute. reflexivity.
  - intros j Hj. assert (j = 0%nat) as -> by lia. vm_compute. split; discriminate.
  - vm_compute. reflexivity.
Defined.

(** ** Fork makes a copy *)

(** From [t] to [t'], slot [i] became [p], and nothing else of the table changed. *)
Record only (t t' : ptable) (i : nat) (p : proc) : Prop := {
  on_slot : pr t' i = p;
  on_rest : ∀ j, j ≠ i → pr t' j = pr t j;
  on_lock : pt_lock t' = pt_lock t;
  on_init : pt_init t' = pt_init t;
  on_next : pt_nextpid t' = pt_nextpid t;
  on_len : length (pt_proc t') = length (pt_proc t)
}.

Lemma only_upd t t' i p f : (i < length (pt_proc t))%nat → only t t' i p → only t (upd i f t') i (f p).
Proof.
  intros Hi [<- H2 H3 H4 H5 H6]. split; [apply pr_upd_eq; by rewrite H6| |done|done|done|].
  - intros j Hj. rewrite pr_upd_ne by done. by apply H2.
  - simpl. by rewrite length_insert.
Qed.

Lemma only_refl t i : only t t i (pr t i).
Proof. done. Qed.

Section fork.
Context {E : Type} `{!Kern E}.
Context (trapret forkret_addr : Z).
Implicit Types (t : ptable) (e : E) (c i np : nat).

(** What [fork] asks of the rest of the kernel: the calls return, and the
    duplicate of a file or an inode is the same object. *)
Record fork_env : Prop := {
  fe_kalloc : ∀ e, ∃ a e', k_kalloc e = Ok a e';
  fe_kfree : ∀ a e, ∃ e', k_kfree a e = Ok tt e';
  fe_copyuvm : ∀ pg sz e, ∃ a e', k_copyuvm pg sz e = Ok a e';
  fe_filedup : ∀ f e, ∃ e', k_filedup f e = Ok f e';
  fe_idup : ∀ ip e, ∃ e', k_idup ip e = Ok ip e'
}.
Hypothesis Henv : fork_env.

Lemma wp_env {A} (m : K E A) k (Q : A → ptable * E → Prop) t e :
  (∃ a e', m e = Ok a e' ∧ k a e') → (∀ a e', k a e' → Q a (t, e')) → wp (on_env m) Q (t, e).
Proof. intros (a & e' & Hm & Hk) HQ. unfold wp, on_env. simpl. rewrite Hm. by apply HQ. Qed.

Lemma wp_tab {A} (m : PM A) (Q : A → ptable * E → Prop) t e : wp m (λ a t', Q a (t', e)) t → wp (on_tab m) Q (t, e).
Proof. unfold wp, on_tab. simpl. by destruct (m t). Qed.

(** An assignment to the slot that is being filled. *)
Lemma wp_slot t0 t e i p f (Q : unit → ptable * E → Prop) : (i < length (pt_proc t0))%nat → only t0 t i p →
  (∀ t', only t0 t' i (f p) → Q tt (t', e)) → wp (on_tab (set_proc i f)) Q (t, e).
Proof. intros Hi Ho HQ. apply wp_tab, wp_modify, HQ. by apply only_upd. Qed.

Lemma wp_dup_files t0 t e i p fd pre files (Q : unit → ptable * E → Prop) :
  (i < length (pt_proc t0))%nat → only t0 t i p → fd = length pre → p_ofile p = pre ++ replicate (length files) 0 →
  (∀ t' e', only t0 t' i (set_ofile (pre ++ files) p) → Q tt (t', e')) → wp (dup_files i fd files) Q (t, e).
Proof.
  intros Hi. revert t e p fd pre. induction files as [|f files IH]; intros t e p fd pre Ho -> Hp HQ.
  { apply wp_ret, HQ. replace (set_ofile (pre ++ []) p) with p; [done|]. destruct p. simpl in *. by subst. }
  cbn [dup_files]. apply wp_bind. destruct (Z.eqb_spec f 0) as [->|Hf].
  - apply wp_ret. apply (IH t e p _ (pre ++ [0])); [done|rewrite length_app; simpl; lia|by rewrite Hp, <- app_assoc|].
    intros t' e'. rewrite <- app_assoc. apply HQ.
  - apply wp_bind. apply (wp_env _ (λ a _, a = f)).
    { destruct (fe_filedup Henv f e) as [e' ?]. by exists f, e'. }
    intros ? e1 ->. eapply wp_slot; [done|done|]. intros t1 H1.
    apply (IH t1 e1 _ _ (pre ++ [f])) with (1 := H1); [rewrite length_app; simpl; lia| |].
    + simpl. rewrite Hp. rewrite <- app_assoc. rewrite insert_app_r_alt by lia. by rewrite Nat.sub_diag.
    + intros t' e'. rewrite <- app_assoc. apply HQ.
Qed.

Lemma find_unused_total ps t :
  wp (find_unused ps) (λ o t', t' = t ∧ match o with
    | Some i => i ∈ ps ∧ p_state (pr t i) = UNUSED
    | None => ∀ i, i ∈ ps → p_state (pr t i) ≠ UNUSED end) t.
Proof.
  induction ps as [|i ps IH]; [apply wp_ret; split; [done|]; intros i Hi; by apply not_elem_of_nil in Hi|].
  cbn [find_unused]. apply wp_bind, wp_gets. destruct (decide (p_state (pr t i) = UNUSED)) as [Hu|Hu].
  - apply wp_ret. split_and!; [done|left|done].
  - eapply wp_mono; [exact IH|]. intros [j|] t' [-> H]; (split; [done|]).
    + destruct H. split; [by right|done].
    + intros j [->|Hj]%elem_of_cons; [done|by apply H].
Qed.

Lemma wp_alloc_slot c (Q : option nat → ptable → Prop) t :
  pt_lock t = None → pt_nextpid t < 2 ^ 31 - 1 →
  (∀ t', (∀ j, pr t' j = pr t j) → pt_lock t' = None → Q None t') →
  (∀ i t', (i < length (pt_proc t))%nat → p_state (pr t i) = UNUSED →
    only (set_nextpid (pt_nextpid t + 1) t) t' i (set_pid (pt_nextpid t) (set_state EMBRYO (pr t i))) → Q (Some i) t') →
  wp (alloc_slot c) Q t.
Proof.
  intros Hl Hn HN HS. unfold alloc_slot.
  apply (wp_step _ _ _ _ tt (set_plock (Some c) t)); [unfold acquire_pt, gets, mbind, K_bind; by rewrite Hl|].
  apply wp_bind, wp_gets, wp_bind. eapply wp_mono; [apply find_unused_total|]. intros o t1 [-> Ho].
  destruct o as [i|].
  - destruct Ho as [Hi Hu]. apply slots_elem in Hi. unfold set_proc. do 2 apply wp_bind, wp_modify || apply wp_bind, wp_gets.
    apply wp_bind, wp_modify, wp_bind. rewrite (proj2 (Z.eqb_neq _ _)) by (simpl; lia). apply wp_modify.
    apply (wp_step _ _ _ _ tt) with (s1 := set_plock None (set_nextpid (pt_nextpid t + 1)
      (upd i (set_pid (pt_nextpid t)) (upd i (set_state EMBRYO) (set_plock (Some c) t))))).
    { unfold release_pt, gets, mbind, K_bind. by rewrite decide_True. }
    apply wp_ret, HS; [done|done|]. pose proof (only_refl (set_plock (Some c) t) i) as H0.
    apply (only_upd _ _ _ _ (set_state EMBRYO)) in H0; [|done]. apply (only_upd _ _ _ _ (set_pid (pt_nextpid t))) in H0; [|done].
    destruct H0 as [A1 A2 A3 A4 A5 A6]. split; try done.
  - apply (wp_step _ _ _ _ tt (set_plock None (set_plock (Some c) t))).
    { unfold release_pt, gets, mbind, K_bind. by rewrite decide_True. }
    by apply wp_ret, HN.
Qed.

Lemma wp_run_pair {A} (m : K (ptable * E) A) (Q : A → ptable → Prop) s :
  wp m (λ r s', Q r s'.1) s → ∃ r t' e', m s = Ok r (t', e') ∧ Q r t'.
Proof. intros (r & [t' e'] & Hm & HQ)%wp_run. by exists r, t', e'. Qed.

(** The process that [fork] makes of [q], the process in slot [cur], in a slot
    that held [p], with a kernel stack [ks] and an address space [pg]. *)
Definition forked (cur : nat) (q p : proc) (pid ks pg : Z) : proc :=
  let tf := u32 (u32 (ks + KSTACKSIZE) - sizeof_trapframe) in
  Proc (p_sz q) pg ks RUNNABLE pid (Some cur) (tf, tf_clear_eax (p_tf q).2) trapret
    (u32 (u32 (tf - 4) - sizeof_context), Context_ 0 0 0 0 forkret_addr)
    (p_chan p) (p_killed p) (p_ofile q) (p_cwd q)
    (<[15%nat := 0]> (take (strlen (p_name q)) (p_name q) ++ replicate (16 - strlen (p_name q)) 0)).

(** The parts of [fork] that fill the slot [i], from the table [t0] on. *)
Lemma wp_alloc_stack t0 t e i p (Q : bool → ptable * E → Prop) : (i < length (pt_proc t0))%nat → only t0 t i p →
  (∀ t' e', only t0 t' i (set_state UNUSED (set_kstack 0 p)) → Q false (t', e')) →
  (∀ ks t' e', ks ≠ 0 → let tf := u32 (u32 (ks + KSTACKSIZE) - sizeof_trapframe) in
    only t0 t' i (set_context (u32 (u32 (tf - 4) - sizeof_context), Context_ 0 0 0 0 forkret_addr)
      (set_ret trapret (set_tf (tf, (p_tf p).2) (set_kstack ks p)))) → Q true (t', e')) →
  wp (alloc_stack trapret forkret_addr i) Q (t, e).
Proof.
  intros Hi Ho HF HT. unfold alloc_stack. cbv zeta. apply wp_bind, (wp_env _ (λ _ _, True)).
  { destruct (fe_kalloc Henv e) as (a & e' & ?). by exists a, e'. }
  intros ks e1 _. apply wp_bind. eapply wp_slot; [done|exact Ho|]. intros t1 H1.
  destruct (Z.eqb_spec ks 0) as [->|Hks].
  - apply wp_bind. eapply wp_slot; [done|exact H1|]. intros t2 H2. apply wp_ret. by apply HF.
  - apply wp_bind. eapply wp_slot; [done|exact H1|]. intros t2 H2. apply wp_bind. eapply wp_slot; [done|exact H2|].
    intros t3 H3. apply wp_bind. eapply wp_slot; [done|exact H3|]. intros t4 H4. apply wp_ret. by apply (HT ks).
Qed.

Lemma wp_fork_copy t0 t e cur i p (Q : bool → ptable * E → Prop) : (i < length (pt_proc t0))%nat → only t0 t i p → i ≠ cur →
  let q := pr t0 cur in
  length (p_ofile q) = 16%nat → p_ofile p = replicate 16 0 → (strlen (p_name q) ≤ 16)%nat →
  (∀ t' e', only t0 t' i (set_state UNUSED (set_kstack 0 (set_pgdir 0 p))) → Q false (t', e')) →
  (∀ pg t' e', pg ≠ 0 →
    only t0 t' i (set_pname (<[15%nat := 0]> (take (strlen (p_name q)) (p_name q) ++ replicate (16 - strlen (p_name q)) 0))
      (set_cwd (p_cwd q) (set_ofile (p_ofile q) (set_tf ((p_tf p).1, tf_clear_eax (p_tf q).2)
        (set_parent (Some cur) (set_sz (p_sz q) (set_pgdir pg p))))))) → Q true (t', e')) →
  wp (fork_copy cur i) Q (t, e).
Proof.
  intros Hi Ho Hne q Hlen Hof Hname HF HT. unfold fork_copy. apply wp_bind, wp_gets. cbn [fst].
  rewrite (on_rest _ _ _ _ Ho cur) by done. fold q.
  apply wp_bind, (wp_env _ (λ _ _, True)); [destruct (fe_copyuvm Henv (p_pgdir q) (p_sz q) e) as (a & e' & ?); by exists a, e'|].
  intros pg e1 _. apply wp_bind. eapply wp_slot; [done|exact Ho|]. intros t1 H1.
  destruct (Z.eqb_spec pg 0) as [->|Hpg].
  - apply wp_bind, wp_gets, wp_bind, (wp_env _ (λ _ _, True)).
    { destruct (fe_kfree Henv (p_kstack (pr t1 i)) e1) as (e' & ?). by exists tt, e'. }
    intros [] e2 _. apply wp_bind. eapply wp_slot; [done|exact H1|]. intros t2 H2.
    apply wp_bind. eapply wp_slot; [done|exact H2|]. intros t3 H3. apply wp_ret. by apply HF.
  - apply wp_bind. eapply wp_slot; [done|exact H1|]. intros t2 H2. apply wp_bind. eapply wp_slot; [done|exact H2|].
    intros t3 H3. apply wp_bind. eapply wp_slot; [done|exact H3|]. intros t4 H4. apply wp_bind.
    eapply wp_slot; [done|exact H4|]. intros t5 H5. apply wp_bind.
    eapply (wp_dup_files _ _ _ _ _ 0 []); [done|exact H5|done|by rewrite Hlen|]. intros t6 e6 H6.
    apply wp_bind, (wp_env _ (λ a _, a = p_cwd q)).
    { destruct (fe_idup Henv (p_cwd q) e6) as (e' & ?). by exists (p_cwd q), e'. }
    intros ? e7 ->. apply wp_bind. eapply wp_slot; [done|exact H6|]. intros t7 H7.
    apply wp_bind. unfold safestrcpy. rewrite (proj2 (Nat.ltb_ge _ _)) by done. apply wp_ret.
    apply wp_bind. eapply wp_slot; [done|exact H7|]. intros t8 H8. apply wp_ret. by apply (HT pg).
Qed.

End fork.

Lemma demo_fork_env : @fork_env unit demo_kern.
Proof. split; intros; repeat eexists. Qed.

(** One running process and one free slot. *)
Definition demo_pair : ptable := Ptable None [set_state RUNNING (set_pid 1 null_proc); null_proc] (Some 0%nat) 2 0.

