(* ===== verification/Sh.v ===== *)
(** * Sh: the shell (xv6/sh.c)

    The parser works on the characters of the command line in place: a string
    of the parsed command is a pair of positions, its start and its end, and
    [nulterminate] later stores a NUL at every end. Parsing functions have the
    position in the line as their state and fail with the message that the
    shell's [panic] prints. The recursion of the parser takes a bound, which
    [parsecmd] chooses from the length of the line; [Stuck] is never reached. *)

From Stdlib Require Import String Ascii.
From S2P Require Import Prelude User Grep Programs.

(** ** Commands *)

Definition MAXARGS : nat := 10.

(** Pairs of positions: argv[i] and eargv[i], file and efile. *)
Inductive cmd :=
  | EXEC (argv : list (nat * nat))
  | REDIR (c : cmd) (file : nat * nat) (mode fd : Z)
  | PIPE (left right : cmd)
  | LIST (left right : cmd)
  | BACK (c : cmd).

(** The constructors allocate with [malloc], which is taken to succeed. *)
Definition execcmd : cmd := EXEC [].
Definition redircmd (subcmd : cmd) (file : nat * nat) (mode fd : Z) : cmd := REDIR subcmd file mode fd.
Definition pipecmd (left right : cmd) : cmd := PIPE left right.
Definition listcmd (left right : cmd) : cmd := LIST left right.
Definition backcmd (subcmd : cmd) : cmd := BACK subcmd.

(** ** Tokens *)

Definition whitespace : list Z := [32; 9; 13; 10; 11]. (* " \t\r\n\v" *)
Definition symbols : list Z := str "<|>&;()".

Definition is_in (toks : list Z) (c : Z) : bool := bool_decide (is_Some (strchr toks c)).

Section parser.
(** The line, without its NUL; [es] is its length. *)
Context (s : list Z).

Abbreviation P := (K nat).

(** [while(p < es && test(p[0])) p++], from position [p] with [n] characters left. *)
Fixpoint skip (test : Z → bool) (n p : nat) : nat :=
  match n with
  | O => p
  | S n => if test (at_ s p) then skip test n (S p) else p
  end.
Definition skip_from (test : Z → bool) (p : nat) : nat := skip test (length s - p) p.

(** The kind of the next token, and where it starts and ends. *)
Definition gettoken : P (Z * (nat * nat)) :=
  p ← get;
  let q := skip_from (is_in whitespace) p in
  let c := at_ s q in
  let '(ret, eq) :=
    if c =? 0 then (0, q)
    else if is_in (str "|();&<") c then (c, S q)
    else if c =? 62 then (* > *)
      if at_ s (S q) =? 62 then (43, S (S q)) else (c, S q)
    else (97, skip_from (λ c, negb (is_in whitespace c) && negb (is_in symbols c)) q) in
  put (skip_from (is_in whitespace) eq) ;;
  mret (ret, (q, eq)).

Definition peek (toks : list Z) : P bool :=
  p ← get;
  let p := skip_from (is_in whitespace) p in
  put p ;;
  mret (negb (at_ s p =? 0) && is_in toks (at_ s p)).

(** ** The parser *)

(** The redirections around a command, in the order they were read. *)
Fixpoint wrap (c : cmd) (rs : list ((nat * nat) * Z * Z)) : cmd :=
  match rs with
  | [] => c
  | (file, mode, fd) :: rs => wrap (redircmd c file mode fd) rs
  end.

(** The redirections at the position: the files with their modes and
    descriptors. At most as many as there are characters. *)
Fixpoint parseredirs (n : nat) : P (list ((nat * nat) * Z * Z)) :=
  b ← peek (str "<>");
  if b : bool then
    match n with
    | O => undef "parseredirs: bound"
    | S n =>
        '(tok, _) ← gettoken;
        '(tok', file) ← gettoken;
        if negb (tok' =? 97) then panic "missing file for redirection" else
        rs ← parseredirs n;
        if tok =? 60 then mret ((file, O_RDONLY, 0) :: rs)
        else if (tok =? 62) || (tok =? 43) then mret ((file, Z.lor O_WRONLY O_CREATE, 1) :: rs)
        else mret rs
    end
  else mret [].

(** The loop of [parseexec]: the command whose arguments are filled in here has
    already been wrapped in the redirections read so far. *)
Fixpoint parseargs (n : nat) (argv : list (nat * nat)) (rs : list ((nat * nat) * Z * Z)) : P cmd :=
  b ← peek (str "|)&;");
  if b : bool then mret (wrap (EXEC argv) rs) else
  match n with
  | O => undef "parseargs: bound"
  | S n =>
      '(tok, arg) ← gettoken;
      if tok =? 0 then mret (wrap (EXEC argv) rs) else
      if negb (tok =? 97) then panic "syntax" else
      let argv := argv ++ [arg] in
      if (MAXARGS <=? length argv)%nat then panic "too many args" else
      rs' ← parseredirs (length s);
      parseargs n argv (rs ++ rs')
  end.

Definition parse_words : P cmd :=
  rs ← parseredirs (length s);
  parseargs (S (length s)) [] rs.

(** [while(peek(ps, es, "&")) { gettoken(ps, es, 0, 0); cmd = backcmd(cmd); }] *)
Fixpoint parseback (n : nat) (c : cmd) : P cmd :=
  b ← peek (str "&");
  if b : bool then
    match n with
    | O => undef "parseline: bound"
    | S n => gettoken ;; parseback n (backcmd c)
    end
  else mret c.

Fixpoint parseline (fuel : nat) : P cmd :=
  match fuel with
  | O => undef "parseline: bound"
  | S fuel =>
      c ← parsepipe fuel;
      c ← parseback (length s) c;
      b ← peek (str ";");
      if b : bool then gettoken ;; r ← parseline fuel; mret (listcmd c r) else mret c
  end
with parsepipe (fuel : nat) : P cmd :=
  match fuel with
  | O => undef "parsepipe: bound"
  | S fuel =>
      c ← parseexec fuel;
      b ← peek (str "|");
      if b : bool then gettoken ;; r ← parsepipe fuel; mret (pipecmd c r) else mret c
  end
with parseexec (fuel : nat) : P cmd :=
  match fuel with
  | O => undef "parseexec: bound"
  | S fuel =>
      b ← peek (str "(");
      if b : bool then parseblock fuel else parse_words
  end
with parseblock (fuel : nat) : P cmd :=
  match fuel with
  | O => undef "parseblock: bound"
  | S fuel =>
      b ← peek (str "(");
      if negb b then panic "parseblock" else
      gettoken ;;
      c ← parseline fuel;
      b ← peek (str ")");
      if negb b then panic "syntax - missing )" else
      gettoken ;;
      rs ← parseredirs (length s);
      mret (wrap c rs)
  end.
End parser.

(** NUL-terminate all the counted strings: the ends in the buffer. *)
Fixpoint nulterminate (c : cmd) (buf : list Z) : list Z :=
  match c with
  | EXEC argv => foldl (λ buf a, <[a.2 := 0]> buf) buf argv
  | REDIR c file _ _ => <[file.2 := 0]> (nulterminate c buf)
  | PIPE l r => nulterminate r (nulterminate l buf)
  | LIST l r => nulterminate r (nulterminate l buf)
  | BACK c => nulterminate c buf
  end.

(** ** The shell *)

Definition sh_panic {A} (m : list Z) : prog A := _ ← printf 2 (line "%s") [PStr (Some m)]; Exit.

(** Fork but panics on failure. *)
Definition fork1 : prog Z :=
  pid ← call SFork;
  if pid =? -1 then sh_panic (str "fork") else Ret pid.

(** The bound for a line: each level of parentheses takes four calls, each of
    the other symbols one. *)
Definition parse_fuel (s : list Z) : nat := 4 * length s + 4.

(** The command, and the buffer with its strings terminated. *)
Definition parsecmd (s : list Z) : prog (cmd * list Z) :=
  match parseline s (parse_fuel s) 0%nat with
  | Ok c p =>
      let p := skip_from s (is_in whitespace) p in
      if negb (p =? length s)%nat then
        _ ← printf 2 (line "leftovers: %s") [PStr (Some (drop p s))];
        sh_panic (str "syntax")
      else Ret (c, nulterminate c (s ++ [0]))
  | Fault (FPanic m) => sh_panic (str m)
  | Fault _ => Stuck
  end.

(** The C string at a position of the buffer. *)
Definition string_at (buf : list Z) (a : nat * nat) : list Z := cstr (drop a.1 buf).

(** Execute cmd. Never returns. *)
Fixpoint runcmd (buf : list Z) (c : cmd) : prog unit :=
  match c with
  | EXEC [] => Exit
  | EXEC ((a :: _) as argv) =>
      _ ← call (SExec (string_at buf a) (string_at buf <$> argv));
      _ ← printf 2 (line "exec %s failed") [PStr (Some (string_at buf a))];
      Exit
  | REDIR c file mode fd =>
      _ ← close fd;
      r ← open (string_at buf file) mode;
      if r <? 0 then _ ← printf 2 (line "open %s failed") [PStr (Some (string_at buf file))]; Exit
      else _ ← runcmd buf c; Exit
  | LIST l r =>
      pid ← fork1;
      _ ← (if pid =? 0 then runcmd buf l else Ret tt);
      _ ← call SWait;
      _ ← runcmd buf r;
      Exit
  | PIPE l r =>
      Call SPipe (λ ret bs,
        let p0 := s32 (get_u32 bs 0) in
        let p1 := s32 (get_u32 bs 4) in
        if ret <? 0 then sh_panic (str "pipe") else
        pid ← fork1;
        _ ← (if pid =? 0 then
               _ ← close 1; _ ← call (SDup p1); _ ← close p0; _ ← close p1; runcmd buf l
             else Ret tt);
        pid ← fork1;
        _ ← (if pid =? 0 then
               _ ← close 0; _ ← call (SDup p0); _ ← close p0; _ ← close p1; runcmd buf r
             else Ret tt);
        _ ← close p0;
        _ ← close p1;
        _ ← call SWait;
        _ ← call SWait;
        Exit)
  | BACK c =>
      pid ← fork1;
      _ ← (if pid =? 0 then runcmd buf c else Ret tt);
      Exit
  end.

(** The line typed, [None] at the end of the input. *)
Definition getcmd (nbuf : Z) : prog (option (list Z)) :=
  _ ← printf 2 (str "$ ") [];
  buf ← User.gets nbuf;
  Ret (if at_ buf 0 =? 0 then None else Some (cstr buf)).

(** Ensure that three file descriptors are open. *)
Fixpoint open_console (fuel : nat) : prog unit :=
  match fuel with
  | O => Stuck
  | S fuel =>
      fd ← open (str "console") O_RDWR;
      if 0 <=? fd then if 3 <=? fd then _ ← close fd; Ret tt else open_console fuel
      else Ret tt
  end.

(** Read and run input commands, [fuel] lines at most. *)
Fixpoint sh_loop (fuel : nat) : prog unit :=
  match fuel with
  | O => Stuck
  | S fuel =>
      o ← getcmd 100;
      match o with
      | None => Exit
      | Some buf =>
          if (at_ buf 0 =? 99) && (at_ buf 1 =? 100) && (at_ buf 2 =? 32) then (* "cd " *)
            let dir := drop 3 (take (length buf - 1) buf) in
            r ← call (SChdir dir);
            _ ← (if r <? 0 then printf 2 (line "cannot cd %s") [PStr (Some dir)] else Ret tt);
            sh_loop fuel
          else
            pid ← fork1;
            _ ← (if pid =? 0 then '(c, b) ← parsecmd buf; runcmd b c else Ret tt);
            _ ← call SWait;
            sh_loop fuel
      end
  end.
Definition sh_main (fuel : nat) : prog unit := _ ← open_console 4; sh_loop fuel.

(** ** The parser ends *)

Section ends.
Context (s : list Z).
Implicit Types (p n : nat).

(** [tp m Q p]: from position [p], [m] returns with [Q], or reports an error. *)
Definition tp {A} (m : K nat A) (Q : A → nat → Prop) (p : nat) : Prop :=
  match m p with Ok a p' => Q a p' | Fault (FPanic _) => True | Fault _ => False end.

Lemma tp_bind {A B} (m : K nat A) (k : A → K nat B) Q p : tp m (λ a p', tp (k a) Q p') p → tp (m ≫= k) Q p.
Proof. unfold tp, mbind, K_bind. destruct (m p) as [a p'|[]]; done. Qed.

Lemma tp_mono {A} (m : K nat A) (Q Q' : A → nat → Prop) p : tp m Q p → (∀ a p', Q a p' → Q' a p') → tp m Q' p.
Proof. unfold tp. destruct (m p) as [a p'|[]]; eauto. Qed.

Lemma skip_bounds test n p : (p ≤ skip s test n p ≤ p + n)%nat.
Proof.
  revert p. induction n as [|n IH]; intros p; simpl; [lia|]. destruct (test _); [|lia]. specialize (IH (S p)). lia.
Qed.

Lemma skip_from_bounds test p : (p ≤ length s)%nat → (p ≤ skip_from s test p ≤ length s)%nat.
Proof. intros Hp. unfold skip_from. pose proof (skip_bounds test (length s - p) p). lia. Qed.

Lemma skip_stop test n p : skip s test n p = (p + n)%nat ∨ test (at_ s (skip s test n p)) = false.
Proof.
  revert p. induction n as [|n IH]; intros p; simpl; [left; lia|]. destruct (test (at_ s p)) eqn:Ht; [|by right].
  destruct (IH (S p)) as [->|?]; [left; lia|by right].
Qed.

Lemma at_end p : (length s ≤ p)%nat → at_ s p = 0.
Proof. intros Hp. unfold at_. by rewrite lookup_ge_None_2. Qed.

Lemma at_inside p : at_ s p ≠ 0 → (p < length s)%nat.
Proof. intros H. destruct (decide (p < length s)%nat); [done|]. exfalso. apply H, at_end. lia. Qed.

(** Behind the white space there is another character, or the end. *)
Lemma skip_from_stop test p : (p ≤ length s)%nat → test 0 = false → test (at_ s (skip_from s test p)) = false.
Proof.
  intros Hp H0. unfold skip_from. destruct (skip_stop test (length s - p) p) as [->|?]; [|done].
  by rewrite at_end by lia.
Qed.

Lemma skip_from_first test p : (p < length s)%nat → test (at_ s p) = true → (p < skip_from s test p)%nat.
Proof.
  intros Hp Ht. unfold skip_from. replace (length s - p)%nat with (S (length s - S p)) by lia. simpl. rewrite Ht.
  pose proof (skip_bounds test (length s - S p) (S p)). lia.
Qed.

Lemma skip_from_id test p : test (at_ s p) = false → skip_from s test p = p.
Proof. intros Ht. unfold skip_from. destruct (length s - p)%nat; simpl; [done|]. by rewrite Ht. Qed.

Lemma tp_peek toks Q p : (p ≤ length s)%nat →
  (∀ b p', (p ≤ p' ≤ length s)%nat → (b = true → at_ s p' ≠ 0 ∧ is_in whitespace (at_ s p') = false) → Q b p') →
  tp (peek s toks) Q p.
Proof.
  intros Hp HQ. unfold peek. apply tp_bind. change (tp get ?Q p) with (Q p p). cbv beta zeta.
  set (p' := skip_from s (is_in whitespace) p). change (Q (negb (at_ s p' =? 0) && is_in toks (at_ s p')) p').
  apply HQ; [by apply skip_from_bounds|]. intros [H _]%andb_true_iff. apply negb_true_iff, Z.eqb_neq in H.
  split; [done|]. by apply skip_from_stop.
Qed.

Lemma tp_peek_at toks Q p : is_in whitespace (at_ s p) = false → (∀ b, Q b p) → tp (peek s toks) Q p.
Proof.
  intros Hw HQ. unfold peek. apply tp_bind. change (tp get ?Q p) with (Q p p). cbv beta zeta.
  rewrite (skip_from_id _ _ Hw). apply HQ.
Qed.

Lemma is_in_elem toks c : is_in toks c = true ↔ c ∈ toks.
Proof.
  unfold is_in. rewrite bool_decide_eq_true. induction toks as [|a toks IH]; simpl.
  - split; [by intros [? ?]|]. by intros ?%not_elem_of_nil.
  - rewrite elem_of_cons. destruct (Z.eqb_spec a c) as [->|Hne]; [by split; [left|eauto]|]. rewrite IH. naive_solver.
Qed.

Lemma not_symbol c : is_in (str "|();&<") c = false → c ≠ 62 → is_in symbols c = false.
Proof.
  intros H Hc. destruct (is_in symbols c) eqn:Hs; [|done]. exfalso.
  assert (c ∈ str "|();&<") as Hin; [|apply is_in_elem in Hin; congruence].
  apply is_in_elem in Hs. revert Hs. unfold symbols, str. simpl. rewrite !elem_of_cons. naive_solver.
Qed.

(** A token takes at least one character, unless there is none. *)
Lemma tp_gettoken Q p : (p ≤ length s)%nat →
  (∀ tok a p', (p ≤ p' ≤ length s)%nat → (tok = 0 ∨ (p < p')%nat) →
     (is_in whitespace (at_ s p) = false → at_ s p ≠ 0 → (p < p')%nat) → Q (tok, a) p') →
  tp (gettoken s) Q p.
Proof.
  intros Hp HQ. unfold gettoken. apply tp_bind. change (tp get ?Q p) with (Q p p). cbv beta zeta.
  set (q := skip_from s (is_in whitespace) p). assert (p ≤ q ≤ length s)%nat as Hq by (by apply skip_from_bounds).
  assert (is_in whitespace (at_ s q) = false) as Hws by (by apply skip_from_stop).
  assert (∃ ret eq, (if at_ s q =? 0 then (0, q) else if is_in (str "|();&<") (at_ s q) then (at_ s q, S q)
    else if at_ s q =? 62 then if at_ s (S q) =? 62 then (43, S (S q)) else (at_ s q, S q)
    else (97, skip_from s (λ c, negb (is_in whitespace c) && negb (is_in symbols c)) q)) = (ret, eq) ∧
    (q ≤ eq ≤ length s)%nat ∧ ((ret = 0 ∧ at_ s q = 0) ∨ (q < eq)%nat)) as (ret & eq & -> & He & Hc).
  { destruct (Z.eqb_spec (at_ s q) 0) as [H0|H0]; [exists 0, q; split_and!; auto; lia|]. apply at_inside in H0 as Hlt.
    destruct (is_in (str "|();&<") (at_ s q)) eqn:Hsym; [exists (at_ s q), (S q); split_and!; auto; lia|].
    destruct (Z.eqb_spec (at_ s q) 62) as [Hgt|Hgt].
    - destruct (Z.eqb_spec (at_ s (S q)) 62) as [H2|H2]; eexists _, _; (split; [reflexivity|]).
      + assert (S q < length s)%nat by (apply at_inside; lia). split; [lia|right; lia].
      + split; [lia|right; lia].
    - eexists _, _. split; [reflexivity|]. split; [by apply skip_from_bounds; lia|]. right. apply skip_from_first; [done|].
      rewrite Hws. by apply negb_true_iff, not_symbol. }
  change (Q (ret, (q, eq)) (skip_from s (is_in whitespace) eq)).
  pose proof (skip_from_bounds (is_in whitespace) eq ltac:(lia)) as Hb. apply HQ; [lia| |].
  - destruct Hc as [[-> _]|?]; [by left|right; lia].
  - intros Hw Hn. assert (q = p) as -> by (by apply skip_from_id). destruct Hc as [[_ ?]|?]; [done|lia].
Qed.

Lemma tp_parseredirs n Q p : (p ≤ length s)%nat → (length s - p ≤ n)%nat →
  (∀ rs p', (p ≤ p' ≤ length s)%nat → Q rs p') → tp (parseredirs s n) Q p.
Proof.
  revert Q p. induction n as [|n IH]; intros Q p Hp Hn HQ; cbn [parseredirs]; apply tp_bind, tp_peek; [done| |done|].
  - intros [] p1 H1 Hb; [|by apply HQ]. destruct Hb as [H0%at_inside _]; [done|]. lia.
  - intros [] p1 H1 Hb; [|by apply HQ]. destruct Hb as [H0 Hw]; [done|]. apply tp_bind, tp_gettoken; [lia|].
    intros tok a p2 H2 _ Hlt. specialize (Hlt Hw H0). apply tp_bind, tp_gettoken; [lia|].
    intros tok' file p3 H3 _ _. destruct (negb (tok' =? 97)); [done|]. apply tp_bind, IH; [lia|lia|].
    intros rs p4 H4. assert (∀ l, Q l p4) as HQ4 by (intros l; apply HQ; lia).
    destruct (tok =? 60); [apply HQ4|]. destruct (_ || _); apply HQ4.
Qed.

Lemma tp_parseargs n argv rs Q p : (p ≤ length s)%nat → (length s - p < n)%nat →
  (∀ c p', (p ≤ p' ≤ length s)%nat → Q c p') → tp (parseargs s n argv rs) Q p.
Proof.
  revert argv rs p. induction n as [|n IH]; intros argv rs p Hp Hn HQ; [lia|]. cbn [parseargs]. apply tp_bind, tp_peek; [done|].
  intros b p1 H1 _. destruct b; [by apply HQ|]. apply tp_bind, tp_gettoken; [lia|].
  intros tok a p2 H2 Hlt _. destruct (Z.eqb_spec tok 0) as [Ht|Ht]; [apply HQ; lia|]. destruct Hlt as [?|Hlt]; [done|].
  destruct (negb (tok =? 97)); [done|]. destruct (_ <=? _)%nat; [done|].
  apply tp_bind, tp_parseredirs; [lia|lia|]. intros rs' p3 H3. apply IH; [lia|lia|]. intros c p4 H4. apply HQ. lia.
Qed.

Lemma tp_parseback n c Q p : (p ≤ length s)%nat → (length s - p ≤ n)%nat →
  (∀ c p', (p ≤ p' ≤ length s)%nat → Q c p') → tp (parseback s n c) Q p.
Proof.
  revert c p. induction n as [|n IH]; intros c p Hp Hn HQ; cbn [parseback]; apply tp_bind, tp_peek; [done| |done|].
  - intros [] p1 H1 Hb; [|by apply HQ]. destruct Hb as [H0%at_inside _]; [done|]. lia.
  - intros [] p1 H1 Hb; [|by apply HQ]. destruct Hb as [H0 Hw]; [done|]. apply tp_bind, tp_gettoken; [lia|].
    intros tok a p2 H2 _ Hlt. specialize (Hlt Hw H0). apply IH; [lia|lia|]. intros c' p3 H3. apply HQ. lia.
Qed.

(** Enough fuel, by the number of characters left. *)
Lemma tp_parse fuel :
  (∀ Q p, (p ≤ length s)%nat → (4 * (length s - p) + 4 ≤ fuel)%nat → (∀ c p', (p ≤ p' ≤ length s)%nat → Q c p') → tp (parseline s fuel) Q p) ∧
  (∀ Q p, (p ≤ length s)%nat → (4 * (length s - p) + 3 ≤ fuel)%nat → (∀ c p', (p ≤ p' ≤ length s)%nat → Q c p') → tp (parsepipe s fuel) Q p) ∧
  (∀ Q p, (p ≤ length s)%nat → (4 * (length s - p) + 2 ≤ fuel)%nat → (∀ c p', (p ≤ p' ≤ length s)%nat → Q c p') → tp (parseexec s fuel) Q p) ∧
  (∀ Q p, (p ≤ length s)%nat → (4 * (length s - p) + 1 ≤ fuel)%nat → at_ s p ≠ 0 → is_in whitespace (at_ s p) = false →
     (∀ c p', (p ≤ p' ≤ length s)%nat → Q c p') → tp (parseblock s fuel) Q p).
Proof.
  induction fuel as [|fuel (IHl & IHp & IHe & IHb)]; [split_and!; intros; lia|]. split_and!; intros Q p Hp Hf.
  - intros HQ. cbn [parseline]. apply tp_bind, IHp; [done|lia|]. intros c1 p1 H1. apply tp_bind, tp_parseback; [lia|lia|].
    intros c2 p2 H2. apply tp_bind, tp_peek; [lia|]. intros b p3 H3 Hb. destruct b; [|apply HQ; lia].
    destruct Hb as [H0 Hw]; [done|]. apply tp_bind, tp_gettoken; [lia|]. intros tok a p4 H4 _ Hlt. specialize (Hlt Hw H0).
    apply tp_bind, IHl; [lia|lia|]. intros c5 p5 H5. apply HQ. lia.
  - intros HQ. cbn [parsepipe]. apply tp_bind, IHe; [done|lia|]. intros c1 p1 H1. apply tp_bind, tp_peek; [lia|].
    intros b p3 H3 Hb. destruct b; [|apply HQ; lia].
    destruct Hb as [H0 Hw]; [done|]. apply tp_bind, tp_gettoken; [lia|]. intros tok a p4 H4 _ Hlt. specialize (Hlt Hw H0).
    apply tp_bind, IHp; [lia|lia|]. intros c5 p5 H5. apply HQ. lia.
  - intros HQ. cbn [parseexec]. apply tp_bind, tp_peek; [done|]. intros b p1 H1 Hb. destruct b.
    + destruct Hb as [H0 Hw]; [done|]. apply IHb; [lia|lia|done|done|]. intros c2 p2 H2. apply HQ. lia.
    + unfold parse_words. apply tp_bind, tp_parseredirs; [lia|lia|]. intros rs p2 H2.
      apply tp_parseargs; [lia|lia|]. intros c3 p3 H3. apply HQ. lia.
  - intros H0 Hw HQ. cbn [parseblock]. apply at_inside in H0 as Hlt. apply tp_bind, tp_peek_at; [done|].
    intros []; [|done]. apply tp_bind, tp_gettoken; [lia|].
    intros tok a p2 H2 _ Hpos. specialize (Hpos Hw H0). apply tp_bind, IHl; [lia|lia|].
    intros c3 p3 H3. apply tp_bind, tp_peek; [lia|]. intros b p4 H4 Hb. destruct b; [|done].
    apply tp_bind, tp_gettoken; [lia|]. intros tok' a' p5 H5 _ _. apply tp_bind, tp_parseredirs; [lia|lia|].
    intros rs p6 H6. apply HQ. lia.
Qed.
End ends.

(** C36 The parser of the shell ends on every line: it gives a command, or
    prints a message about a syntax error and exits. *)
Theorem parsecmd_ends s :
  (∃ c buf, parsecmd s = Ret (c, buf)) ∨
  (∃ m, parsecmd s = sh_panic (str m)) ∨
  (∃ p, parsecmd s = _ ← printf 2 (line "leftovers: %s") [PStr (Some (drop p s))]; sh_panic (str "syntax")).
Proof.
  unfold parsecmd.
  assert (tp (parseline s (parse_fuel s)) (λ _ _, True) 0) as H.
  { apply (tp_parse s (parse_fuel s)); [lia|unfold parse_fuel; lia|done]. }
  unfold tp in H. destruct (parseline s (parse_fuel s) 0%nat) as [c p|[m| |]]; [|eauto|done|done].
  destruct (negb _); eauto.
Qed.
