(* ===== verification/ShParse.v ===== *)
(** * ShParse: the shell reads back the commands it is given

    A command as a tree of strings, the line that writes it with parentheses
    around every part, and the proof that [parsecmd] gives that command: the
    parsed tree has the same shape, and its strings, read from the buffer after
    [nulterminate], are the ones of the command. *)

From Stdlib Require Import String Ascii.
From S2P Require Import Prelude User Grep Programs Sh.

(** ** Commands and their text *)

Inductive ast :=
  | AExec (args : list (list Z))
  | ARedir (a : ast) (file : list Z) (mode fd : Z)
  | APipe (l r : ast)
  | AList (l r : ast)
  | ABack (a : ast).

(** The command that [runcmd] sees: the strings read from the buffer. *)
Fixpoint strings (buf : list Z) (c : cmd) : ast :=
  match c with
  | EXEC argv => AExec (string_at buf <$> argv)
  | REDIR c file mode fd => ARedir (strings buf c) (string_at buf file) mode fd
  | PIPE l r => APipe (strings buf l) (strings buf r)
  | LIST l r => AList (strings buf l) (strings buf r)
  | BACK c => ABack (strings buf c)
  end.

(** A word: characters that are neither NUL, nor white space, nor symbols. *)
Definition word_char (c : Z) : Prop := c ≠ 0 ∧ (c ∉ whitespace) ∧ (c ∉ symbols).
Definition word_ok (w : list Z) : Prop := w ≠ [] ∧ Forall word_char w.

#[global] Instance word_char_dec c : Decision (word_char c).
Proof. unfold word_char. apply _. Defined.
#[global] Instance word_ok_dec w : Decision (word_ok w).
Proof. unfold word_ok. apply _. Defined.

(** Commands that can be written: fewer than MAXARGS words, and input from a
    file on descriptor 0 or output to one on descriptor 1. *)
Fixpoint ast_ok (a : ast) : Prop :=
  match a with
  | AExec args => Forall word_ok args ∧ (length args < MAXARGS)%nat
  | ARedir a file mode fd =>
      ast_ok a ∧ word_ok file ∧ ((mode = O_RDONLY ∧ fd = 0) ∨ (mode = Z.lor O_WRONLY O_CREATE ∧ fd = 1))
  | APipe l r | AList l r => ast_ok l ∧ ast_ok r
  | ABack a => ast_ok a
  end.

Definition block (ts : list (list Z)) : list (list Z) := [40] :: ts ++ [[41]].

Fixpoint tokens (a : ast) : list (list Z) :=
  match a with
  | AExec args => args
  | ARedir a file mode _ => block (tokens a) ++ [if mode =? O_RDONLY then [60] else [62]; file]
  | APipe l r => block (tokens l) ++ [124] :: block (tokens r)
  | AList l r => block (tokens l) ++ [59] :: block (tokens r)
  | ABack a => block (tokens a) ++ [[38]]
  end.

(** The line: the tokens, each with a blank behind it. *)
Definition render (ts : list (list Z)) : list Z := ts ≫= λ t, t ++ [32].
Definition print (a : ast) : list Z := render (tokens a).

(** ** Reading tokens *)

Definition symbol_toks : list (list Z) := [[40]; [41]; [124]; [59]; [38]; [60]; [62]].
Definition tok_ok (t : list Z) : Prop := word_ok t ∨ t ∈ symbol_toks.
Definition first_char (t : list Z) : Z := at_ t 0.
Definition kind (t : list Z) : Z := if is_in symbols (first_char t) then first_char t else 97.
Definition starts (toks : list Z) (ts : list (list Z)) : bool :=
  match ts with [] => false | t :: _ => is_in toks (first_char t) end.

Lemma render_cons t ts : render (t :: ts) = t ++ 32 :: render ts.
Proof. unfold render. rewrite bind_cons. by rewrite <- app_assoc. Qed.

Lemma render_app ts ts' : render (ts ++ ts') = render ts ++ render ts'.
Proof. unfold render. apply bind_app. Qed.

Section tokens.
Context (s : list Z).
Implicit Types (p : nat) (t : list Z) (ts : list (list Z)).

Lemma at_drop p l : drop p s = l → at_ s p = at_ l 0.
Proof. intros <-. unfold at_. by rewrite lookup_drop, Nat.add_0_r. Qed.

Lemma skip_list test l r p n : drop p s = l ++ r → (length l ≤ n)%nat → Forall (λ c, test c = true) l →
  (test (at_ r 0) = false ∨ n = length l) → skip s test n p = (p + length l)%nat.
Proof.
  revert p n. induction l as [|c l IH]; intros p n Hd Hn Hl Hr; simpl in *.
  - destruct Hr as [Hr| ->]; [|by rewrite Nat.add_0_r]. destruct n; simpl; [lia|].
    rewrite (at_drop _ _ Hd), Hr. lia.
  - destruct n as [|n]; [lia|]. simpl. rewrite (at_drop _ _ Hd). inversion_clear Hl as [|?? Hc Hl'].
    change (at_ (c :: l ++ r) 0) with c. rewrite Hc. rewrite (IH (S p) n); [lia| |lia|done|].
    + rewrite <- (Nat.add_1_r p), <- drop_drop, Hd. done.
    + destruct Hr as [Hr|Hr]; [by left|right; lia].
Qed.

Lemma skip_from_list test l r p : drop p s = l ++ r → Forall (λ c, test c = true) l →
  (test (at_ r 0) = false ∨ r = []) → skip_from s test p = (p + length l)%nat.
Proof.
  intros Hd Hl Hr. pose proof (f_equal length Hd) as Hlen. rewrite length_drop, length_app in Hlen.
  unfold skip_from. apply (skip_list test l r); [done|lia|done|].
  destruct Hr as [?| ->]; [by left|right; simpl in *; lia].
Qed.

Lemma tok_first t : tok_ok t → first_char t ≠ 0 ∧ is_in whitespace (first_char t) = false.
Proof.
  intros [[Hne Hw]|Ht].
  - destruct t as [|c t]; [done|]. inversion_clear Hw as [|?? (H0 & Hws & _) _]. split; [done|].
    destruct (is_in whitespace (first_char (c :: t))) eqn:H; [|done]. by apply is_in_elem in H.
  - unfold symbol_toks in Ht. rewrite !elem_of_cons in Ht.
    repeat destruct Ht as [->|Ht]; try (split; [done|by vm_compute]). by apply not_elem_of_nil in Ht.
Qed.

(** Where the line goes on with tokens, no white space is skipped. *)
Lemma skip_tokens p ts : drop p s = render ts → Forall tok_ok ts → skip_from s (is_in whitespace) p = p.
Proof.
  intros Hd Hts. destruct ts as [|t ts].
  - rewrite (skip_from_list _ [] [] p); [simpl; lia|done|done|by right].
  - apply skip_from_id. inversion_clear Hts as [|?? Ht _]. rewrite render_cons in Hd. rewrite (at_drop _ _ Hd).
    destruct (tok_first t Ht) as [H0 Hw]. destruct t as [|c t]; [done|]. done.
Qed.

Lemma wp_peek toks ts p Q : drop p s = render ts → Forall tok_ok ts → Q (starts toks ts) p → wp (peek s toks) Q p.
Proof.
  intros Hd Hts HQ. unfold peek. apply wp_bind. unfold wp at 1, get. cbv beta iota zeta.
  rewrite (skip_tokens p ts) by done. unfold wp, put, mbind, K_bind. cbn. rewrite (at_drop _ _ Hd).
  destruct ts as [|t ts]; [done|]. inversion_clear Hts as [|?? Ht _]. destruct (tok_first t Ht) as [H0 _].
  rewrite render_cons. destruct t as [|c t]; [done|]. change (at_ ((c :: t) ++ 32 :: render ts) 0) with c.
  change (first_char (c :: t)) with c in H0. rewrite (proj2 (Z.eqb_neq _ _) H0). exact HQ.
Qed.

Lemma drop_next p t ts : drop p s = render (t :: ts) → drop (p + length t + 1) s = render ts.
Proof.
  intros Hd. rewrite <- Nat.add_assoc, <- drop_drop, Hd, render_cons, <- drop_drop.
  by rewrite drop_app_length.
Qed.

(** A word goes up to its blank. *)
Lemma skip_word p t ts : drop p s = render (t :: ts) → word_ok t →
  skip_from s (λ c, negb (is_in whitespace c) && negb (is_in symbols c)) p = (p + length t)%nat.
Proof.
  intros Hd [_ Hw]. rewrite render_cons in Hd. apply (skip_from_list _ t (32 :: render ts)); [done| |by left].
  eapply Forall_impl; [exact Hw|]. intros c (_ & H1 & H2). apply andb_true_iff. rewrite !negb_true_iff.
  rewrite <- is_in_elem in H1, H2. by destruct (is_in whitespace c), (is_in symbols c).
Qed.

Lemma wp_gettoken t ts p Q : drop p s = render (t :: ts) → tok_ok t → Forall tok_ok ts →
  (∀ p', drop p' s = render ts → Q (kind t, (p, p + length t)%nat) p') → wp (gettoken s) Q p.
Proof.
  intros Hd Ht Hts HQ. unfold gettoken. apply wp_bind. unfold wp at 1, get. cbv beta iota zeta.
  rewrite (skip_tokens p (t :: ts)) by (done || by constructor).
  destruct (tok_first t Ht) as [H0 Hw]. pose proof (drop_next p t ts Hd) as Hnext.
  assert (skip_from s (is_in whitespace) (p + length t) = (p + length t + 1)%nat) as Hskip.
  { rewrite (skip_from_list _ [32] (render ts)); [done| |by repeat constructor|].
    - rewrite <- drop_drop, Hd, render_cons, drop_app_length. done.
    - destruct ts as [|t' ts]; [by right|]. left. inversion_clear Hts as [|?? Ht' _]. destruct (tok_first t' Ht') as [H0' Hw'].
      rewrite render_cons. by destruct t'. }
  assert (at_ s p = first_char t) as Hat by (rewrite (at_drop _ _ Hd), render_cons; by destruct t).
  rewrite Hat, (proj2 (Z.eqb_neq _ _) H0).
  assert ((if is_in (str "|();&<") (first_char t) then (first_char t, S p)
     else if first_char t =? 62 then if at_ s (S p) =? 62 then (43, S (S p)) else (first_char t, S p)
     else (97, skip_from s (λ c, negb (is_in whitespace c) && negb (is_in symbols c)) p)) = (kind t, (p + length t)%nat)) as ->.
  { destruct Ht as [Ht|Ht].
    - rewrite (skip_word p t ts) by done. destruct Ht as [Hne Hword]. destruct t as [|c t]; [done|].
      inversion_clear Hword as [|?? (_ & _ & Hsym) _]. unfold kind. change (first_char (c :: t)) with c in *.
      assert (is_in symbols c = false) as -> by (destruct (is_in symbols c) eqn:H; [by apply is_in_elem in H|done]).
      assert (is_in (str "|();&<") c = false ∧ c ≠ 62) as [-> H62].
      { split; [|intros ->; apply Hsym; unfold symbols; vm_compute; set_solver].
        apply not_true_is_false; intros H. apply Hsym. apply is_in_elem in H. revert H.
        unfold symbols, str. simpl. rewrite !elem_of_cons. naive_solver. }
      by rewrite (proj2 (Z.eqb_neq _ _) H62).
    - assert (at_ s (S p) = 32 ∨ length t ≠ 1%nat) as Hsp.
      { destruct t as [|c [|d t]]; [by right| |by right]. left.
        assert (drop (S p) s = 32 :: render ts) as E.
        { rewrite <- (Nat.add_1_r p), <- drop_drop, Hd, render_cons. done. }
        by rewrite (at_drop _ _ E). }
      unfold symbol_toks in Ht. rewrite !elem_of_cons in Ht.
      repeat destruct Ht as [->|Ht]; try (by rewrite Nat.add_1_r); [|by apply not_elem_of_nil in Ht].
      destruct Hsp as [->|?]; [|done]. by rewrite Nat.add_1_r. }
  unfold wp, put, mbind, K_bind. cbn. rewrite Hskip. by apply HQ.
Qed.

Lemma wp_gettoken_end p Q : drop p s = [] → Q (0, (p, p)) p → wp (gettoken s) Q p.
Proof.
  intros Hd HQ. unfold gettoken. apply wp_bind. unfold wp at 1, get. cbv beta iota zeta.
  rewrite (skip_tokens p []) by done. rewrite (at_drop _ _ Hd). cbn.
  unfold wp, put, mbind, K_bind. cbn. by rewrite (skip_tokens p []).
Qed.
End tokens.

(** ** Reading commands *)

Section commands.
Context (s : list Z).
Implicit Types (p : nat) (t : list Z) (ts : list (list Z)).

(** The word [w] lies at [q] in the line, with a blank behind it at [e]. *)
Definition span (a : nat * nat) (w : list Z) : Prop := word_ok w ∧ a.2 = (a.1 + length w)%nat ∧ ∃ r, drop a.1 s = w ++ 32 :: r.

Fixpoint located (c : cmd) (a : ast) : Prop :=
  match c, a with
  | EXEC argv, AExec args => Forall2 span argv args
  | REDIR c file mode fd, ARedir a w mode' fd' => located c a ∧ span file w ∧ mode = mode' ∧ fd = fd'
  | PIPE l r, APipe l' r' | LIST l r, AList l' r' => located l l' ∧ located r r'
  | BACK c, ABack a => located c a
  | _, _ => False
  end.

Lemma span_here p w ts : drop p s = render (w :: ts) → word_ok w → span (p, (p + length w)%nat) w.
Proof. intros Hd Hw. split_and!; [done|done|]. exists (render ts). simpl. by rewrite Hd, render_cons. Qed.

Lemma wp_no_redirs n ts p Q : drop p s = render ts → Forall tok_ok ts → starts (str "<>") ts = false → Q [] p →
  wp (parseredirs s n) Q p.
Proof.
  intros Hd Hts Hst HQ. destruct n; cbn [parseredirs]; apply wp_bind; (eapply wp_peek; [done|done|]); by rewrite Hst.
Qed.

Lemma word_not_in t (toks : list Z) : word_ok t → (∀ c, c ∈ toks → c ∈ symbols) → is_in toks (first_char t) = false.
Proof.
  intros [Hne Hw] Hsub. apply not_true_is_false. intros H%is_in_elem%Hsub. destruct t as [|c t]; [done|].
  inversion_clear Hw as [|?? (_ & _ & Hs) _]. by apply Hs.
Qed.

Lemma kind_word t : word_ok t → kind t = 97.
Proof. intros Hw. unfold kind. by rewrite word_not_in. Qed.

Lemma length_render ts : (length ts ≤ length (render ts))%nat.
Proof. induction ts as [|t ts IH]; [done|]. rewrite render_cons, length_app. simpl. lia. Qed.

Lemma starts_words toks ws ts : Forall word_ok ws → (∀ c, c ∈ toks → c ∈ symbols) → starts toks ts = false → starts toks (ws ++ ts) = false.
Proof. intros Hw Hsub Hts. destruct Hw as [|w ws Hw _]; [done|]. by apply word_not_in. Qed.

Lemma sub_redir c : c ∈ str "<>" → c ∈ symbols.
Proof. unfold symbols, str. simpl. rewrite !elem_of_cons. naive_solver. Qed.
Lemma sub_stop c : c ∈ str "|)&;" → c ∈ symbols.
Proof. unfold symbols, str. simpl. rewrite !elem_of_cons. naive_solver. Qed.
Lemma sub_open c : c ∈ str "(" → c ∈ symbols.
Proof. unfold symbols, str. simpl. rewrite !elem_of_cons. naive_solver. Qed.

(** What may follow a line: its end or a closing parenthesis. *)
Definition closes (ts : list (list Z)) : Prop := ts = [] ∨ ∃ ts', ts = [41] :: ts'.

Lemma closes_starts toks ts : closes ts → is_in toks 41 = false → starts toks ts = false.
Proof. by intros [->|[ts' ->]]. Qed.

Lemma words_ok ws : Forall word_ok ws → Forall tok_ok ws.
Proof. intros H. eapply Forall_impl; [exact H|]. intros w Hw. by left. Qed.

Lemma wp_parseargs n argv ws ts p Q : Forall word_ok ws → Forall tok_ok ts → closes ts →
  (length argv + length ws < MAXARGS)%nat → (length ws < n)%nat → drop p s = render (ws ++ ts) →
  (∀ argv' p', Forall2 span argv' ws → drop p' s = render ts → Q (EXEC (argv ++ argv')) p') →
  wp (parseargs s n argv []) Q p.
Proof.
  intros Hws Hts Hc. revert n argv p. induction Hws as [|w ws Hw Hws IH]; intros n argv p Hlen Hn Hd HQ.
  - destruct n as [|n]; [simpl in Hn; lia|]. cbn [parseargs]. apply wp_bind. eapply wp_peek; [exact Hd|done|].
    assert (Q (EXEC argv) p) as HQ' by (rewrite <- (app_nil_r argv); by apply HQ).
    destruct Hc as [->|[ts' ->]]; [|exact HQ']. apply wp_bind. apply wp_gettoken_end; [done|]. exact HQ'.
  - destruct n as [|n]; [simpl in Hn; lia|]. cbn [parseargs]. simpl in Hlen, Hn.
    assert (Forall tok_ok (ws ++ ts)) as Hok by (apply Forall_app; split; [by apply words_ok|done]).
    apply wp_bind. eapply wp_peek; [exact Hd|constructor; [by left|done]|].
    cbn [starts app]. rewrite word_not_in; [|done|apply sub_stop].
    apply wp_bind. eapply wp_gettoken; [exact Hd|by left|done|]. intros p1 Hd1. rewrite kind_word by done. 
    change (97 =? 0) with false. change (negb (97 =? 97)) with false. cbv beta iota zeta.
    rewrite (proj2 (Nat.leb_gt _ _)) by (rewrite length_app; simpl; lia).
    apply wp_bind. eapply wp_no_redirs; [exact Hd1|done| |].
    { apply starts_words; [done|apply sub_redir|]. by apply closes_starts. }
    apply IH; [rewrite length_app; simpl; lia|lia|done|]. intros argv' p' Hsp Hd'. rewrite <- app_assoc.
    apply HQ; [|done]. constructor; [|done]. by eapply span_here.
Qed.

Lemma wp_parse_words ws ts p Q : Forall word_ok ws → Forall tok_ok ts → closes ts → (length ws < MAXARGS)%nat →
  drop p s = render (ws ++ ts) →
  (∀ argv p', Forall2 span argv ws → drop p' s = render ts → Q (EXEC argv) p') → wp (parse_words s) Q p.
Proof.
  intros Hws Hts Hc Hlen Hd HQ. unfold parse_words. apply wp_bind.
  assert (Forall tok_ok (ws ++ ts)) as Hok by (apply Forall_app; split; [by apply words_ok|done]).
  eapply wp_no_redirs; [exact Hd|done| |].
  { apply starts_words; [done|apply sub_redir|]. by apply closes_starts. }
  eapply wp_parseargs; [exact Hws|exact Hts|done|done| |done|done].
  pose proof (length_render (ws ++ ts)) as Hl. rewrite <- Hd, length_drop, length_app in Hl. lia.
Qed.

(** The calls that are nested when a command is parsed. *)
Fixpoint need (a : ast) : nat :=
  match a with
  | AExec _ => 3
  | ARedir a _ _ _ | ABack a => 5 + need a
  | APipe l r | AList l r => 5 + Nat.max (need l) (need r)
  end.

Definition line_parses (a : ast) : Prop := ∀ fuel ts p Q,
  (need a ≤ fuel)%nat → Forall tok_ok ts → closes ts → drop p s = render (tokens a ++ ts) →
  (∀ c p', located c a → drop p' s = render ts → Q c p') → wp (parseline s fuel) Q p.

Lemma paren_ok : tok_ok [40] ∧ tok_ok [41].
Proof. split; right; unfold symbol_toks; set_solver. Qed.

(** The equations of the parser. *)
Lemma parseline_S fuel : parseline s (S fuel) =
  (c ← parsepipe s fuel; c ← parseback s (length s) c; b ← peek s (str ";");
   if b : bool then gettoken s ;; r ← parseline s fuel; mret (listcmd c r) else mret c).
Proof. done. Qed.
Lemma parsepipe_S fuel : parsepipe s (S fuel) =
  (c ← parseexec s fuel; b ← peek s (str "|");
   if b : bool then gettoken s ;; r ← parsepipe s fuel; mret (pipecmd c r) else mret c).
Proof. done. Qed.
Lemma parseexec_S fuel : parseexec s (S fuel) =
  (b ← peek s (str "("); if b : bool then parseblock s fuel else parse_words s).
Proof. done. Qed.

Lemma wp_block a fuel ts p Q : line_parses a → Forall tok_ok (tokens a) → Forall tok_ok ts → (2 + need a ≤ fuel)%nat →
  drop p s = render (block (tokens a) ++ ts) →
  (∀ c p', located c a → drop p' s = render ts → wp (rs ← parseredirs s (length s); mret (wrap c rs)) Q p') →
  wp (parseexec s fuel) Q p.
Proof.
  intros HL Ha Hts Hf Hd HQ. destruct fuel as [|[|fuel]]; [lia|lia|]. destruct paren_ok as [Ho Hcl].
  unfold block in Hd. cbn [app] in Hd. rewrite <- app_assoc in Hd. cbn [app] in Hd.
  assert (Forall tok_ok ([41] :: ts)) as H1 by (by constructor).
  assert (Forall tok_ok (tokens a ++ [41] :: ts)) as H2 by (by apply Forall_app).
  assert (Forall tok_ok ([40] :: tokens a ++ [41] :: ts)) as H3 by (by constructor).
  rewrite parseexec_S. apply wp_bind. eapply wp_peek; [exact Hd|done|]. change (starts (str "(") _) with true. cbv iota.
  cbn [parseblock]. apply wp_bind. eapply wp_peek; [exact Hd|done|]. change (negb (starts (str "(") _)) with false. cbv iota.
  apply wp_bind. eapply wp_gettoken; [exact Hd|done|done|]. intros p1 Hd1.
  apply wp_bind. eapply (HL fuel); [lia|exact H1|right; by eexists|exact Hd1|]. intros c p2 Hc Hd2.
  apply wp_bind. eapply wp_peek; [exact Hd2|done|]. change (negb (starts (str ")") _)) with false. cbv iota.
  apply wp_bind. eapply wp_gettoken; [exact Hd2|done|done|]. intros p3 Hd3. by apply HQ.
Qed.

Lemma block_ok ts : Forall tok_ok ts → Forall tok_ok (block ts).
Proof. intros Hts. destruct paren_ok. unfold block. constructor; [done|]. apply Forall_app. by repeat constructor. Qed.

Lemma symbol_ok t : bool_decide (t ∈ symbol_toks) = true → tok_ok t.
Proof. intros H%bool_decide_eq_true. by right. Qed.

Lemma tokens_ok a : ast_ok a → Forall tok_ok (tokens a).
Proof.
  induction a as [args|a IH file mode fd|l IHl r IHr|l IHl r IHr|a IH]; cbn [tokens ast_ok].
  - intros [Hw _]. by apply words_ok.
  - intros (Ha & Hw & _). apply Forall_app. split; [by apply block_ok, IH|]. constructor; [by apply symbol_ok; destruct (mode =? O_RDONLY)|].
    apply Forall_singleton. by left.
  - intros [Hl Hr]. apply Forall_app. split; [by apply block_ok, IHl|]. constructor; [by apply symbol_ok|by apply block_ok, IHr].
  - intros [Hl Hr]. apply Forall_app. split; [by apply block_ok, IHl|]. constructor; [by apply symbol_ok|by apply block_ok, IHr].
  - intros Ha. apply Forall_app. split; [by apply block_ok, IH|]. apply Forall_singleton. by apply symbol_ok.
Qed.

(** A line ends after a pipeline. *)
Lemma wp_line_end c fuel ts p Q : Forall tok_ok ts → closes ts → drop p s = render ts → Q c p →
  wp (c ← parseback s (length s) c; b ← peek s (str ";");
      if b : bool then gettoken s ;; r ← parseline s fuel; mret (listcmd c r) else mret c) Q p.
Proof.
  intros Hts Hc Hd HQ. apply wp_bind.
  assert (wp (parseback s (length s) c) (λ c' p', c' = c ∧ p' = p) p) as H.
  { destruct (length s); cbn [parseback]; apply wp_bind; (eapply wp_peek; [exact Hd|done|]); by rewrite closes_starts. }
  eapply wp_mono; [exact H|]. intros ? ? [-> ->]. apply wp_bind. eapply wp_peek; [exact Hd|done|].
  by rewrite closes_starts.
Qed.

(** A command without redirections behind it, at the end of a pipeline. *)
Lemma wp_block_end a fuel ts p Q : line_parses a → Forall tok_ok (tokens a) → Forall tok_ok ts → (3 + need a ≤ fuel)%nat →
  drop p s = render (block (tokens a) ++ ts) → starts (str "<>") ts = false → starts (str "|") ts = false →
  (∀ c p', located c a → drop p' s = render ts → Q c p') → wp (parsepipe s fuel) Q p.
Proof.
  intros HL Ha Hts Hf Hd Hr Hp HQ. destruct fuel as [|fuel]; [lia|]. rewrite parsepipe_S. apply wp_bind.
  eapply wp_block; [exact HL|done|exact Hts|lia|exact Hd|]. intros c p1 Hc Hd1. apply wp_bind.
  eapply wp_no_redirs; [exact Hd1|done|done|]. apply wp_ret. apply wp_bind. eapply wp_peek; [exact Hd1|done|].
  rewrite Hp. by apply HQ.
Qed.

(** No "&" behind a pipeline. *)
Lemma wp_no_back c ts p Q : Forall tok_ok ts → drop p s = render ts → starts (str "&") ts = false → Q c p →
  wp (parseback s (length s) c) Q p.
Proof.
  intros Hts Hd Hst HQ. destruct (length s); cbn [parseback]; apply wp_bind; (eapply wp_peek; [exact Hd|done|]); by rewrite Hst.
Qed.

Lemma line_words args : ast_ok (AExec args) → line_parses (AExec args).
Proof.
  intros [Hw Hlen] fuel ts p Q Hf Hts Hc Hd HQ. destruct fuel as [|[|[|fuel]]]; [simpl in Hf; lia..|]. cbn [tokens] in Hd.
  assert (Forall tok_ok (args ++ ts)) as Hall by (apply Forall_app; split; [by apply words_ok|done]).
  rewrite parseline_S. apply wp_bind. rewrite parsepipe_S. apply wp_bind. rewrite parseexec_S. apply wp_bind.
  eapply wp_peek; [exact Hd|done|]. rewrite starts_words; [|done|apply sub_open|by apply closes_starts].
  eapply wp_parse_words; [exact Hw|exact Hts|done|done|exact Hd|]. intros argv p1 Hsp Hd1.
  apply wp_bind. eapply wp_peek; [exact Hd1|done|]. rewrite closes_starts by done. apply wp_ret.
  eapply wp_line_end; [exact Hts|done|done|]. by apply HQ.
Qed.

(** One redirection. *)
Definition io_tok (mode : Z) : list Z := if mode =? O_RDONLY then [60] else [62].

Lemma wp_one_redir n file mode fd ts p Q : (0 < n)%nat → word_ok file → Forall tok_ok ts → closes ts →
  (mode = O_RDONLY ∧ fd = 0) ∨ (mode = Z.lor O_WRONLY O_CREATE ∧ fd = 1) → drop p s = render (io_tok mode :: file :: ts) →
  (∀ f p', span f file → drop p' s = render ts → Q [(f, mode, fd)] p') → wp (parseredirs s n) Q p.
Proof.
  intros Hn Hw Hts Hc Hm Hd HQ.
  assert (tok_ok (io_tok mode)) as Hio by (by apply symbol_ok; unfold io_tok; destruct (mode =? O_RDONLY)).
  assert (Forall tok_ok (file :: ts)) as H1 by (constructor; [by left|done]).
  destruct n as [|n]; [lia|]. cbn [parseredirs]. apply wp_bind. eapply wp_peek; [exact Hd|by constructor|].
  assert (starts (str "<>") (io_tok mode :: file :: ts) = true) as -> by (unfold io_tok; by destruct (mode =? O_RDONLY)).
  apply wp_bind. eapply wp_gettoken; [exact Hd|done|done|]. intros p2 Hd2. apply wp_bind.
  eapply wp_gettoken; [exact Hd2|by left|done|]. intros p3 Hd3. rewrite (kind_word file) by done.
  change (negb (97 =? 97)) with false. cbv iota. apply wp_bind.
  eapply wp_no_redirs; [exact Hd3|done|by apply closes_starts|].
  assert (Q [((p2, (p2 + length file)%nat), mode, fd)] p3) as HQ' by (apply HQ; [by eapply span_here|done]).
  unfold io_tok. by destruct Hm as [[-> ->]|[-> ->]].
Qed.

Lemma line_redir a file mode fd : ast_ok (ARedir a file mode fd) → line_parses a → line_parses (ARedir a file mode fd).
Proof.
  intros (Ha & Hw & Hm) HL fuel ts p Q Hf Hts Hc Hd HQ. cbn [need] in Hf. destruct fuel as [|[|fuel]]; [lia..|].
  cbn [tokens] in Hd. rewrite <- app_assoc in Hd. cbn [app] in Hd. fold (io_tok mode) in Hd.
  assert (Forall tok_ok (io_tok mode :: file :: ts)) as H2.
  { constructor; [by apply symbol_ok; unfold io_tok; destruct (mode =? O_RDONLY)|]. constructor; [by left|done]. }
  rewrite parseline_S. apply wp_bind. rewrite parsepipe_S. apply wp_bind.
  eapply (wp_block a); [exact HL|by apply tokens_ok|exact H2|lia|exact Hd|]. intros c p1 Hc1 Hd1. apply wp_bind.
  pose proof (f_equal length Hd1) as Hl. rewrite length_drop, render_cons, length_app in Hl. simpl in Hl.
  eapply wp_one_redir; [lia|exact Hw|exact Hts|done|exact Hm|exact Hd1|]. intros f p3 Hsp Hd3.
  apply wp_ret, wp_bind. eapply wp_peek; [exact Hd3|done|]. rewrite closes_starts by done. apply wp_ret.
  cbn [wrap]. eapply wp_line_end; [exact Hts|done|exact Hd3|]. by apply HQ.
Qed.

Lemma line_pipe l r : ast_ok (APipe l r) → line_parses l → line_parses r → line_parses (APipe l r).
Proof.
  intros [Hl Hr] IHl IHr fuel ts p Q Hf Hts Hc Hd HQ. cbn [need] in Hf. destruct fuel as [|[|fuel]]; [lia..|].
  cbn [tokens] in Hd. rewrite <- app_assoc in Hd. cbn [app] in Hd.
  assert (Forall tok_ok (block (tokens r) ++ ts)) as H1 by (apply Forall_app; split; [by apply block_ok, tokens_ok|done]).
  assert (Forall tok_ok ([124] :: block (tokens r) ++ ts)) as H2 by (constructor; [by apply symbol_ok|done]).
  rewrite parseline_S. apply wp_bind. rewrite parsepipe_S. apply wp_bind.
  eapply (wp_block l); [exact IHl|by apply tokens_ok|exact H2|lia|exact Hd|]. intros c p1 Hc1 Hd1.
  apply wp_bind. eapply wp_no_redirs; [exact Hd1|done|done|]. apply wp_ret. cbn [wrap].
  apply wp_bind. eapply wp_peek; [exact Hd1|done|]. change (starts (str "|") _) with true. cbv iota. apply wp_bind.
  eapply wp_gettoken; [exact Hd1|by apply symbol_ok|done|]. intros p2 Hd2. apply wp_bind.
  eapply (wp_block_end r); [exact IHr|by apply tokens_ok|exact Hts|lia|exact Hd2|by apply closes_starts|by apply closes_starts|].
  intros c' p3 Hc' Hd3. apply wp_ret. eapply wp_line_end; [exact Hts|done|exact Hd3|]. by apply HQ.
Qed.

Lemma line_list l r : ast_ok (AList l r) → line_parses l → line_parses r → line_parses (AList l r).
Proof.
  intros [Hl Hr] IHl IHr fuel ts p Q Hf Hts Hc Hd HQ. cbn [need] in Hf. destruct fuel as [|[|fuel]]; [lia..|].
  cbn [tokens] in Hd. rewrite <- app_assoc in Hd. cbn [app] in Hd.
  assert (Forall tok_ok (block (tokens r) ++ ts)) as H1 by (apply Forall_app; split; [by apply block_ok, tokens_ok|done]).
  assert (Forall tok_ok ([59] :: block (tokens r) ++ ts)) as H2 by (constructor; [by apply symbol_ok|done]).
  rewrite parseline_S. apply wp_bind.
  eapply (wp_block_end l); [exact IHl|by apply tokens_ok|exact H2|lia|exact Hd|done|done|].
  intros c p1 Hc1 Hd1. apply wp_bind. eapply wp_no_back; [exact H2|done|done|]. apply wp_bind.
  eapply wp_peek; [exact Hd1|done|]. change (starts (str ";") _) with true. cbv iota. apply wp_bind.
  eapply wp_gettoken; [exact Hd1|by apply symbol_ok|done|]. intros p2 Hd2. apply wp_bind. rewrite parseline_S. apply wp_bind.
  eapply (wp_block_end r); [exact IHr|by apply tokens_ok|exact Hts|lia|exact Hd2|by apply closes_starts|by apply closes_starts|].
  intros c' p3 Hc' Hd3. eapply wp_line_end; [exact Hts|done|exact Hd3|]. apply wp_ret. by apply HQ.
Qed.

Lemma line_back a : ast_ok (ABack a) → line_parses a → line_parses (ABack a).
Proof.
  intros Ha HL fuel ts p Q Hf Hts Hc Hd HQ. cbn [need] in Hf. destruct fuel as [|[|fuel]]; [lia..|].
  cbn [tokens] in Hd. rewrite <- app_assoc in Hd. cbn [app] in Hd.
  assert (Forall tok_ok ([38] :: ts)) as H1 by (constructor; [by apply symbol_ok|done]).
  rewrite parseline_S. apply wp_bind.
  eapply (wp_block_end a); [exact HL|by apply tokens_ok|exact H1|lia|exact Hd|done|done|]. intros c p1 Hc1 Hd1.
  apply wp_bind. pose proof (f_equal length Hd1) as Hl. rewrite length_drop, render_cons, length_app in Hl. simpl in Hl.
  assert (wp (parseback s (length s) c) (λ c' p', c' = BACK c ∧ drop p' s = render ts) p1) as Hb.
  { destruct (length s) as [|n]; [lia|]. cbn [parseback]. apply wp_bind. eapply wp_peek; [exact Hd1|done|].
    change (starts (str "&") _) with true. cbv iota. apply wp_bind.
    eapply wp_gettoken; [exact Hd1|by apply symbol_ok|done|]. intros p2 Hd2.
    destruct n; cbn [parseback]; apply wp_bind; (eapply wp_peek; [exact Hd2|done|]); by rewrite closes_starts. }
  eapply wp_mono; [exact Hb|]. intros ? p2 [-> Hd2]. apply wp_bind. eapply wp_peek; [exact Hd2|done|].
  rewrite closes_starts by done. apply wp_ret. by apply HQ.
Qed.

Lemma line_parses_ok a : ast_ok a → line_parses a.
Proof.
  induction a as [args|a IH file mode fd|l IHl r IHr|l IHl r IHr|a IH]; intros Hok.
  - by apply line_words.
  - apply line_redir; [done|]. by apply IH, Hok.
  - apply line_pipe; [done|by apply IHl, Hok|by apply IHr, Hok].
  - apply line_list; [done|by apply IHl, Hok|by apply IHr, Hok].
  - apply line_back; [done|]. by apply IH.
Qed.
End commands.

(** ** The strings of the parsed command *)

Fixpoint ends (c : cmd) : list nat :=
  match c with
  | EXEC argv => snd <$> argv
  | REDIR c file _ _ => ends c ++ [file.2]
  | PIPE l r | LIST l r => ends l ++ ends r
  | BACK c => ends c
  end.

(** [nulterminate] changes the ends only, and stores a NUL there. *)
Lemma nulterminate_lookup c buf i :
  nulterminate c buf !! i = if decide (i ∈ ends c) then (λ _, 0) <$> buf !! i else buf !! i.
Proof.
  assert (∀ (b : list Z) (e : nat), <[e := 0]> b !! i = if decide (i = e) then (λ _, 0) <$> b !! i else b !! i) as Hins.
  { intros b e. rewrite list_lookup_insert. destruct (decide (i = e)) as [->|Hne].
    - destruct (decide (e < length b)%nat) as [Hl|Hl].
      + rewrite decide_True by done. apply lookup_lt_is_Some in Hl as [x ->]. done.
      + rewrite decide_False by naive_solver. by rewrite lookup_ge_None_2 by lia.
    - rewrite decide_False by naive_solver. done. }
  assert (∀ o : option Z, (λ _, 0) <$> ((λ _, 0) <$> o) = (λ _, 0) <$> o) as Hid by (by intros []).
  revert buf. induction c as [argv|c IH file mode fd|l IHl r IHr|l IHl r IHr|c IH]; intros buf; cbn [nulterminate ends].
  - revert buf. induction argv as [|a argv IH]; intros buf; cbn [foldl fmap list_fmap]; [by rewrite decide_False by apply not_elem_of_nil|].
    rewrite IH, Hins. destruct (decide (i ∈ snd <$> argv)), (decide (i = a.2)); rewrite ?Hid.
    all: (rewrite decide_True by (rewrite elem_of_cons; tauto); done) || (rewrite decide_False by (rewrite elem_of_cons; tauto); done).
  - rewrite Hins, IH. destruct (decide (i = file.2)), (decide (i ∈ ends c)); rewrite ?Hid.
    all: (rewrite decide_True by (rewrite elem_of_app, list_elem_of_singleton; tauto); done) ||
         (rewrite decide_False by (rewrite elem_of_app, list_elem_of_singleton; tauto); done).
  - rewrite IHr, IHl. destruct (decide (i ∈ ends l)), (decide (i ∈ ends r)); rewrite ?Hid.
    all: (rewrite decide_True by (rewrite elem_of_app; tauto); done) || (rewrite decide_False by (rewrite elem_of_app; tauto); done).
  - rewrite IHr, IHl. destruct (decide (i ∈ ends l)), (decide (i ∈ ends r)); rewrite ?Hid.
    all: (rewrite decide_True by (rewrite elem_of_app; tauto); done) || (rewrite decide_False by (rewrite elem_of_app; tauto); done).
  - apply IH.
Qed.

Lemma cstr_at buf q w : (∀ k, (k < length w)%nat → buf !! (q + k)%nat = w !! k) → buf !! (q + length w)%nat = Some 0 →
  (0 ∉ w) → cstr (drop q buf) = w.
Proof.
  revert q. induction w as [|c w IH]; intros q Hw He H0.
  - rewrite Nat.add_0_r in He. by rewrite (drop_S _ _ _ He).
  - assert (buf !! q = Some c) as Hq by (specialize (Hw 0%nat ltac:(simpl; lia)); by rewrite Nat.add_0_r in Hw).
    rewrite (drop_S _ _ _ Hq). cbn [cstr]. apply not_elem_of_cons in H0 as [Hc H0].
    rewrite (proj2 (Z.eqb_neq _ _)) by done. f_equal. apply IH; [|by rewrite <- He; f_equal; simpl; lia|done].
    intros k Hk. specialize (Hw (S k) ltac:(simpl; lia)). by rewrite <- Nat.add_succ_comm in Hw.
Qed.

Section strings.
Context (s : list Z).

Lemma located_ends c a e : located s c a → e ∈ ends c → s !! e = Some 32.
Proof.
  assert (∀ x w, span s x w → s !! x.2 = Some 32) as Hspan.
  { intros [q e'] w (_ & He & r & Hd). simpl in *. subst e'. rewrite <- lookup_drop, Hd. by rewrite list_lookup_middle. }
  revert a. induction c as [argv|c IH file mode fd|l IHl r IHr|l IHl r IHr|c IH]; intros [] Hc; try done; cbn [ends].
  - induction Hc as [|x w argv args Hx Hc IH]; [by intros ?%not_elem_of_nil|]. intros [->|He]%elem_of_cons; [by eapply Hspan|auto].
  - destruct Hc as (Hc & Hf & _). intros [He|He]%elem_of_app; [by eapply IH|]. apply list_elem_of_singleton in He as ->. by eapply Hspan.
  - destruct Hc. intros [He|He]%elem_of_app; [by eapply IHl|by eapply IHr].
  - destruct Hc. intros [He|He]%elem_of_app; [by eapply IHl|by eapply IHr].
  - intros He. by eapply IH.
Qed.

(** Read from a buffer in which only blanks, its own among them, became NULs. *)
Lemma span_string (E : list nat) buf x w : span s x w → (∀ e, e ∈ E → s !! e = Some 32) → x.2 ∈ E →
  (∀ i, buf !! i = if decide (i ∈ E) then (λ _, 0) <$> (s ++ [0]) !! i else (s ++ [0]) !! i) → string_at buf x = w.
Proof.
  destruct x as [q e]. intros ([_ Hw] & He & r & Hd) HE Hin Hb. simpl in *. subst e. unfold string_at. simpl.
  assert (∀ k, (k < length w)%nat → s !! (q + k)%nat = w !! k) as Hk.
  { intros k Hk. rewrite <- lookup_drop, Hd. by rewrite lookup_app_l. }
  apply cstr_at.
  - intros k Hlt. rewrite Hb. pose proof (Hk k Hlt) as E1. destruct (lookup_lt_is_Some_2 w k Hlt) as [c Hc]. rewrite Hc in *.
    rewrite decide_False; [apply lookup_app_l_Some; done|]. intros Hx%HE. rewrite Forall_lookup in Hw.
    destruct (Hw k c Hc) as (_ & Hws & _). apply Hws. rewrite E1 in Hx. injection Hx as ->. unfold whitespace. set_solver.
  - rewrite Hb, decide_True by done. by rewrite (lookup_app_l_Some _ _ _ _ (HE _ Hin)).
  - intros H0. rewrite Forall_forall in Hw. by destruct (Hw 0 H0).
Qed.

Lemma located_strings E buf c a : located s c a → (∀ e, e ∈ E → s !! e = Some 32) → ends c ⊆ E →
  (∀ i, buf !! i = if decide (i ∈ E) then (λ _, 0) <$> (s ++ [0]) !! i else (s ++ [0]) !! i) → strings buf c = a.
Proof.
  intros Hc HE Hsub Hb. revert a Hc Hsub. induction c as [argv|c IH file mode fd|l IHl r IHr|l IHl r IHr|c IH]; intros [] Hc Hsub; try done;
    cbn [strings ends] in *.
  - f_equal. revert Hsub. induction Hc as [|x w argv args Hx Hc IH]; intros Hsub; [done|]. rewrite fmap_cons. f_equal.
    + eapply span_string; [done|done| |done]. apply Hsub. left.
    + apply IH. intros e He. apply Hsub. by right.
  - destruct Hc as (Hc & Hf & -> & ->). f_equal; [apply IH; [done|set_solver]|]. eapply span_string; [done|done|set_solver|done].
  - destruct Hc. f_equal; [apply IHl; [done|set_solver]|apply IHr; [done|set_solver]].
  - destruct Hc. f_equal; [apply IHl; [done|set_solver]|apply IHr; [done|set_solver]].
  - f_equal. by apply IH.
Qed.
End strings.

Lemma need_fuel a : (need a ≤ parse_fuel (print a))%nat.
Proof.
  assert (∀ ts, length (render (block ts)) = (4 + length (render ts))%nat) as Hb.
  { intros ts. unfold block. rewrite render_cons, length_app, render_app. simpl. rewrite length_app. simpl. lia. }
  unfold parse_fuel, print. induction a; cbn [need tokens]; rewrite ?render_app, ?length_app, ?Hb, ?render_cons, ?length_app;
    cbn [length]; rewrite ?Hb; lia.
Qed.

(** C17 The shell reads back what is written: the line that writes a command
    with parentheses parses to that command, and the strings that [runcmd] then
    finds in the buffer, each ended by the NUL that [nulterminate] stores, are
    the words and file names of the command. *)
Theorem parse_print a : ast_ok a → ∃ c buf, parsecmd (print a) = Ret (c, buf) ∧ strings buf c = a.
Proof.
  intros Ha. set (s := print a).
  assert (wp (parseline s (parse_fuel s)) (λ c p, located s c a ∧ drop p s = []) 0%nat) as H.
  { apply (line_parses_ok s a Ha _ []); [apply need_fuel|constructor|by left|by rewrite app_nil_r|]. by intros c p Hc Hd. }
  apply wp_run in H as (c & p & Hr & Hc & Hd). unfold parsecmd. rewrite Hr.
  rewrite (skip_tokens s p []) by done.
  assert (p = length s) as ->.
  { assert (tp (parseline s (parse_fuel s)) (λ _ p', p' ≤ length s)%nat 0) as Hb.
    { apply (tp_parse s (parse_fuel s)); [lia|unfold parse_fuel; lia|]. intros ? ? ?. lia. }
    unfold tp in Hb. rewrite Hr in Hb. apply (f_equal length) in Hd. rewrite length_drop in Hd. simpl in Hd. lia. }
  rewrite Nat.eqb_refl. cbn [negb]. eexists _, _. split; [reflexivity|].
  apply (located_strings s (ends c)); [done|by intros e; eapply located_ends|done|]. intros i. apply nulterminate_lookup.
Qed.

(** (echo a b) | (wc) ; (x > f) &, with all its parentheses. *)
Definition demo_ast : ast :=
  AList (APipe (AExec [str "echo"; str "a"; str "b"]) (AExec [str "wc"]))
    (ABack (ARedir (AExec [str "x"]) (str "f") (Z.lor O_WRONLY O_CREATE) 1)).

Lemma parse_print_witness : ∃ c buf, parsecmd (print demo_ast) = Ret (c, buf) ∧ strings buf c = demo_ast.
Proof.
  apply (parse_print demo_ast). repeat split; try (apply (bool_decide_unpack _); vm_compute; exact I).
Defined.
