(* ===== verification/Umalloc.v ===== *)
(** * Umalloc: the user-level allocator (xv6/umalloc.c) and the kernel's sbrk

    The allocator of Kernighan and Ritchie: free blocks on a circular list in
    address order that starts at the static header [base]. Memory is the
    process's, word by word; a header is two words, [ptr] at its address and
    [size], in units of eight bytes, four bytes further. Below it the model
    has [sys_sbrk] (kernel/c/sysproc.c), [grow_my_process] (kernel/src/proc.rs)
    and the size arithmetic of [uvm_alloc] and [uvm_dealloc] (kernel/src/vm.rs).

    The invariant [heap_ok] ties the words to a list of free blocks and a map
    of live ones. [malloc_fresh] and [free_merges] give what the two operations
    do to them; [heap_safe] is about every run of a program that calls them
    and writes what it likes into the blocks it was given. *)

From stdpp Require Import functions.
From S2P Require Import Prelude Kalloc.

#[local] Arguments Z.mul : simpl never.
#[local] Arguments Z.add : simpl never.

(** A user process as the allocator sees it. *)
Record uproc := UProc {
  u_mem : Z → Z;     (* the word at an address *)
  u_freep : Z;       (* static Header *freep *)
  u_sz : Z           (* proc->sz: the addresses below it are mapped *)
}.

Abbreviation UK := (K uproc).

Definition set_word (a v : Z) (s : uproc) : uproc := UProc (<[a := v]> (u_mem s)) (u_freep s) (u_sz s).
Definition set_freep (p : Z) (s : uproc) : uproc := UProc (u_mem s) p (u_sz s).
Definition set_sz (n : Z) (s : uproc) : uproc := UProc (u_mem s) (u_freep s) n.

(** A word of memory; an access beyond [sz] is a page fault, and trap kills
    the process. *)
Definition mapped (a sz : Z) : bool := (0 <=? a) && (a + 4 <=? sz).
Definition load (a : Z) : UK Z := λ s,
  if mapped a (u_sz s) then Ok (u_mem s a) s else Fault (FUndef "page fault").
Definition store (a v : Z) : UK unit := λ s,
  if mapped a (u_sz s) then Ok tt (set_word a v s) else Fault (FUndef "page fault").

(** The members of [union header], and arithmetic on [Header*]. *)
Definition s_ptr (p : Z) : UK Z := load p.
Definition s_size (p : Z) : UK Z := load (u32 (p + 4)).
Definition set_s_ptr (p v : Z) : UK unit := store p v.
Definition set_s_size (p v : Z) : UK unit := store (u32 (p + 4)) v.
Definition hadd (p n : Z) : Z := u32 (p + 8 * n).

Section umalloc.
Context (base : Z).                 (* &base *)
Context (room : Z → Z → bool).      (* kalloc and map_pages succeed from one size to the other *)

(** ** The kernel's side of sbrk *)

(** [uvm_alloc]: 0 on error; out of memory is [unimplemented!()]. *)
Definition uvm_alloc (size_old size_new : Z) : UK Z :=
  if KERNBASE <=? size_new then mret 0
  else if size_new <? size_old then mret size_old
  else if room size_old size_new then mret size_new
  else panic "not implemented".

Definition uvm_dealloc (size_old size_new : Z) : UK Z :=
  if size_old <=? size_new then mret size_old else mret size_new.

(** [curproc.sz + n] stays below 2^32; the subtraction wraps around. *)
Definition grow_my_process (n : Z) : UK bool :=
  sz ← gets u_sz;
  sz' ← (if 0 <? n then uvm_alloc sz (sz + n)
         else if n <? 0 then uvm_dealloc sz (u32 (sz + n))
         else mret sz);
  if sz' =? 0 then mret false else modify (set_sz sz') ;; mret true.

(** [growproc]: the boolean as an int. *)
Definition growproc (n : Z) : UK Z := b ← grow_my_process n; mret (if b : bool then 1 else 0).

Definition sys_sbrk (n : Z) : UK Z :=
  addr ← gets u_sz;
  r ← growproc n;
  if r <? 0 then mret (-1) else mret addr.

(** ** umalloc.c *)

(** The turns of a walk of the list: no more headers than fit. *)
Definition fuel_of (s : uproc) : nat := Z.to_nat (u_sz s / 8).

(** The [for] of [free]: the block of the list that [bp] comes after. *)
Fixpoint free_loop (fuel : nat) (bp p : Z) : UK Z :=
  match fuel with
  | O => undef "free: out of fuel"
  | S fuel =>
      q ← s_ptr p;
      if (p <? bp) && (bp <? q) then mret p
      else if (q <=? p) && ((p <? bp) || (bp <? q)) then mret p
      else free_loop fuel bp q
  end.

(** Join [bp] to the block after it, or link it there. *)
Definition join_next (bp p : Z) : UK unit :=
  bs ← s_size bp;
  q ← s_ptr p;
  if hadd bp bs =? q then
    qs ← s_size q; set_s_size bp (u32 (bs + qs)) ;;
    qn ← s_ptr q; set_s_ptr bp qn
  else set_s_ptr bp q.

(** Join [bp] to the block before it, or link it there. *)
Definition join_prev (bp p : Z) : UK unit :=
  ps ← s_size p;
  if hadd p ps =? bp then
    bs ← s_size bp; set_s_size p (u32 (ps + bs)) ;;
    bn ← s_ptr bp; set_s_ptr p bn
  else set_s_ptr p bp.

Definition free (ap : Z) : UK unit :=
  let bp := hadd ap (-1) in
  f ← gets u_freep;
  fuel ← gets fuel_of;
  p ← free_loop (2 + 2 * fuel) bp f;
  join_next bp p ;;
  join_prev bp p ;;
  modify (set_freep p).

Definition morecore (nu : Z) : UK Z :=
  let nu := if nu <? 4096 then 4096 else nu in
  p ← sys_sbrk (s32 (u32 (nu * 8)));
  if u32 p =? u32 (-1) then mret 0
  else
    let hp := u32 p in
    set_s_size hp nu ;;
    free (hadd hp 1) ;;
    gets u_freep.

Definition nunits_of (nbytes : Z) : Z := u32 (u32 (nbytes + 8 - 1) / 8 + 1).

(** The block found is taken whole, or its tail is. *)
Definition take_block (prevp p nunits : Z) : UK Z :=
  sz ← s_size p;
  p ← (if sz =? nunits then q ← s_ptr p; set_s_ptr prevp q ;; mret p
       else
         set_s_size p (u32 (sz - nunits)) ;;
         let p := hadd p (sz - nunits) in
         set_s_size p nunits ;; mret p);
  modify (set_freep prevp) ;;
  mret (hadd p 1).

Fixpoint malloc_loop (fuel : nat) (nunits prevp p : Z) : UK Z :=
  match fuel with
  | O => undef "malloc: out of fuel"
  | S fuel =>
      sz ← s_size p;
      if nunits <=? sz then take_block prevp p nunits
      else
        f ← gets u_freep;
        if p =? f then
          p ← morecore nunits;
          if p =? 0 then mret 0 else q ← s_ptr p; malloc_loop fuel nunits p q
        else q ← s_ptr p; malloc_loop fuel nunits p q
  end.

Definition malloc (nbytes : Z) : UK Z :=
  let nunits := nunits_of nbytes in
  f ← gets u_freep;
  prevp ← (if f =? 0 then
             set_s_ptr base base ;; modify (set_freep base) ;; set_s_size base 0 ;; mret base
           else mret f);
  p ← s_ptr prevp;
  fuel ← gets fuel_of;
  malloc_loop (4 + 2 * fuel) nunits prevp p.
End umalloc.

(** ** Free lists in memory *)

(** A block: the address of its header and its size in units. *)
Abbreviation block := (Z * Z)%type.

Definition hd_addr (l : list block) (q : Z) : Z := match l with [] => q | x :: _ => x.1 end.
Definition last_addr (l : list block) (q : Z) : Z := match last l with Some x => x.1 | None => q end.

(** The headers of [l] linked in this order, the last one to [q]. *)
Fixpoint seg (m : Z → Z) (l : list block) (q : Z) : Prop :=
  match l with
  | [] => True
  | (a, n) :: l => m a = hd_addr l q ∧ m (a + 4) = n ∧ seg m l q
  end.

(** Blocks between [lo] and [hi], in address order, never two adjacent ones. *)
Fixpoint spaced (lo : Z) (l : list block) (hi : Z) : Prop :=
  match l with
  | [] => True
  | (a, n) :: l => lo ≤ a ∧ 0 < n ∧ a + 8 * n ≤ hi ∧ spaced (a + 8 * n + 1) l hi
  end.

Definition apart (x y : block) : Prop := x.1 + 8 * x.2 ≤ y.1 ∨ y.1 + 8 * y.2 ≤ x.1.

(** [x] lies in the block. *)
Definition within (x : Z) (b : block) : Prop := b.1 ≤ x < b.1 + 8 * b.2.

Definition end_of (lo : Z) (l : list block) : Z :=
  match last l with Some (a, n) => a + 8 * n + 1 | None => lo end.

Lemma hd_addr_app l1 l2 q : hd_addr (l1 ++ l2) q = hd_addr l1 (hd_addr l2 q).
Proof. by destruct l1. Qed.

Lemma seg_app m l1 l2 q : seg m (l1 ++ l2) q ↔ seg m l1 (hd_addr l2 q) ∧ seg m l2 q.
Proof.
  induction l1 as [|[a n] l1 IH]; simpl; [tauto|]. rewrite IH, hd_addr_app. tauto.
Qed.

Lemma seg_frame m m' l q :
  (∀ b, b ∈ l → m' b.1 = m b.1 ∧ m' (b.1 + 4) = m (b.1 + 4)) → seg m l q → seg m' l q.
Proof.
  induction l as [|[a n] l IH]; intros Hf; simpl; [done|]. intros (Ha & Hn & Hl).
  destruct (Hf (a, n)) as [E1 E2]; [left|]. simpl in *. rewrite E1, E2. split_and!; [done..|].
  apply IH; [|done]. intros b Hb. apply Hf. by right.
Qed.

Lemma spaced_app lo l1 l2 hi : spaced lo (l1 ++ l2) hi ↔ spaced lo l1 hi ∧ spaced (end_of lo l1) l2 hi.
Proof.
  revert lo. induction l1 as [|[a n] l1 IH]; intros lo; simpl; [tauto|].
  rewrite IH. replace (end_of lo ((a, n) :: l1)) with (end_of (a + 8 * n + 1) l1); [tauto|].
  unfold end_of. rewrite last_cons. by destruct (last l1) as [[]|].
Qed.

Lemma spaced_lo lo l hi b : spaced lo l hi → b ∈ l → lo ≤ b.1 ∧ 0 < b.2 ∧ b.1 + 8 * b.2 ≤ hi.
Proof.
  revert lo. induction l as [|[a n] l IH]; intros lo; simpl; [by intros _ ?%elem_of_nil|].
  intros (Ha & Hn & Hh & Hl) [->|Hb]%elem_of_cons; [simpl; lia|].
  destruct (IH _ Hl Hb). lia.
Qed.

Lemma spaced_weaken lo lo' l hi hi' : lo' ≤ lo → hi ≤ hi' → spaced lo l hi → spaced lo' l hi'.
Proof.
  revert lo lo'. induction l as [|[a n] l IH]; intros lo lo' Hlo Hhi; simpl; [done|].
  intros (Ha & Hn & Hh & Hl). split_and!; try lia. by eapply IH; [..|exact Hl].
Qed.

Lemma spaced_from lo lo' l hi : spaced lo l hi → Forall (λ b, lo' ≤ b.1) l → spaced lo' l hi.
Proof. destruct l as [|[a n] l]; [done|]. intros (_ & ?) [? _]%Forall_cons. by split. Qed.

Lemma spaced_end lo l hi b : spaced lo l hi → b ∈ l → b.1 + 8 * b.2 < end_of lo l.
Proof.
  revert lo. induction l as [|[a n] l IH]; intros lo; simpl; [by intros _ ?%elem_of_nil|].
  intros (Ha & Hn & Hh & Hl) Hb.
  replace (end_of lo ((a, n) :: l)) with (end_of (a + 8 * n + 1) l)
    by (unfold end_of; rewrite last_cons; by destruct (last l) as [[]|]).
  apply elem_of_cons in Hb as [->|Hb]; [|by apply IH].
  simpl. unfold end_of. destruct (last l) as [[b k]|] eqn:E; [|lia].
  assert (Hin : (b, k) ∈ l) by (apply last_Some in E as [l' ->]; set_solver).
  destruct (spaced_lo _ _ _ _ Hl Hin). simpl in *. lia.
Qed.

Lemma length_spaced lo l hi : lo ≤ hi → spaced lo l hi → 8 * Z.of_nat (length l) ≤ hi - lo.
Proof.
  revert lo. induction l as [|[a n] l IH]; intros lo Hlo; simpl; [lia|].
  intros (Ha & Hn & Hh & Hl). destruct l as [|[b k] l]; [simpl in *; lia|].
  destruct Hl as (Hb & Hk & Hbh & Hl).
  enough (8 * Z.of_nat (length ((b, k) :: l)) ≤ hi - (a + 8 * n + 1)) by (simpl in *; lia).
  apply IH; [lia|]. by simpl.
Qed.

(** ** The list that [free] makes *)

(** The block in front of the list, joined to the first one if they touch. *)
Definition merge_next (bp n : Z) (l : list block) : list block :=
  match l with
  | (q, k) :: l' => if bp + 8 * n =? q then (bp, n + k) :: l' else (bp, n) :: l
  | [] => [(bp, n)]
  end.

(** Insertion in address order, joined to the neighbours it touches. *)
Fixpoint put_block (bp n : Z) (l : list block) : list block :=
  match l with
  | [] => [(bp, n)]
  | (a, k) :: l' =>
      if bp <? a then merge_next bp n l
      else if a + 8 * k =? bp then
        match merge_next bp n l' with
        | (_, n') :: l'' => (a, k + n') :: l''
        | [] => []
        end
      else (a, k) :: put_block bp n l'
  end.

Definition units (l : list block) : Z := foldr (λ b z, b.2 + z) 0 l.

Lemma merge_next_cons bp n l : ∃ n' l', merge_next bp n l = (bp, n') :: l' ∧ n' + units l' = n + units l.
Proof.
  destruct l as [|[q k] l]; simpl; [by exists n, []|].
  case_match; [exists (n + k), l|exists n, ((q, k) :: l)]; simpl; split; [done|lia|done|lia].
Qed.

Lemma units_put_block bp n l : units (put_block bp n l) = n + units l.
Proof.
  induction l as [|[a k] l IH]; simpl; [done|].
  destruct (bp <? a).
  - case_match; simpl; lia.
  - destruct (a + 8 * k =? bp); [|simpl; lia].
    destruct (merge_next_cons bp n l) as (n' & l' & -> & E). simpl. lia.
Qed.

Lemma spaced_merge_next lo bp n l hi :
  lo ≤ bp → 0 < n → bp + 8 * n ≤ hi → Forall (λ b, bp + 8 * n ≤ b.1) l → spaced (bp + 1) l hi →
  spaced lo (merge_next bp n l) hi.
Proof.
  intros Hlo Hn Hhi Hl Hs. destruct l as [|[q k] l]; simpl; [done|].
  apply Forall_cons in Hl as [Hq Hl]. simpl in *. destruct Hs as (_ & Hk & Hkh & Hs).
  destruct (Z.eqb_spec (bp + 8 * n) q) as [<-|Hne]; simpl; split_and!; try lia; [|done].
  replace (bp + 8 * (n + k) + 1) with (bp + 8 * n + 8 * k + 1) by lia. done.
Qed.

Lemma merge_next_below lo bp n l hi : spaced lo l hi → bp + 8 * n < lo → merge_next bp n l = (bp, n) :: l.
Proof.
  destruct l as [|[q k] l]; [done|]. intros (Hq & _) Hlt. simpl.
  by destruct (Z.eqb_spec (bp + 8 * n) q); [lia|].
Qed.

(** Where the list is cut by the address of a block apart from all of it. *)
Lemma put_block_split lo bp n l hi :
  spaced lo l hi → 0 < n → Forall (apart (bp, n)) l →
  ∃ l1 l2, l = l1 ++ l2 ∧ Forall (λ b, b.1 + 8 * b.2 ≤ bp) l1 ∧ Forall (λ b, bp + 8 * n ≤ b.1) l2 ∧
    put_block bp n l =
      match merge_next bp n l2 with
      | (_, n') :: l2' =>
          match last l1 with
          | Some (p, k) => if p + 8 * k =? bp then removelast l1 ++ (p, k + n') :: l2' else l1 ++ (bp, n') :: l2'
          | None => (bp, n') :: l2'
          end
      | [] => []
      end.
Proof.
  intros Hs Hn. revert lo Hs. induction l as [|[a k] l IH]; intros lo Hs Hap.
  { exists [], []. by split_and!. }
  apply Forall_cons in Hap as [Ha Hap]. destruct Hs as (Hlo & Hk & Hh & Hs). unfold apart in Ha. simpl in Ha.
  destruct (Z.ltb_spec bp a) as [Hlt|Hge].
  - exists [], ((a, k) :: l). simpl. rewrite (proj2 (Z.ltb_lt bp a)) by done. split_and!; try done.
    + constructor; [simpl; lia|]. apply Forall_forall. intros b Hb.
      destruct (spaced_lo _ _ _ _ Hs Hb). lia.
    + by destruct (bp + 8 * n =? a).
  - destruct (IH _ Hs Hap) as (l1 & l2 & -> & H1 & H2 & E).
    exists ((a, k) :: l1), l2. split_and!; [done| |done|].
    { constructor; [simpl; lia|done]. }
    cbn [put_block app]. rewrite (proj2 (Z.ltb_ge bp a)) by done.
    destruct (Z.eqb_spec (a + 8 * k) bp) as [Heq|Hne].
    + assert (l1 = []) as ->.
      { destruct l1 as [|[b j] l1]; [done|]. apply Forall_cons in H1 as [H1 _]. simpl in *. lia. }
      simpl. rewrite (proj2 (Z.eqb_eq _ _) Heq). done.
    + rewrite E. destruct (merge_next_cons bp n l2) as (n' & l2' & -> & _).
      rewrite last_cons. destruct (last l1) as [[p j]|] eqn:El.
      * destruct l1 as [|x l1]; [done|]. by destruct (p + 8 * j =? bp).
      * apply last_None in El as ->. simpl. by rewrite (proj2 (Z.eqb_neq _ _) Hne).
Qed.

Lemma spaced_put_block lo bp n l hi :
  spaced lo l hi → lo ≤ bp → 0 < n → bp + 8 * n ≤ hi → Forall (apart (bp, n)) l →
  spaced lo (put_block bp n l) hi.
Proof.
  intros Hs Hlo Hn Hhi. revert lo Hlo Hs. induction l as [|[a k] l IH]; intros lo Hlo Hs Hap; [done|].
  apply Forall_cons in Hap as [Ha Hap]. destruct Hs as (Hloa & Hk & Hh & Hs). unfold apart in Ha. simpl in Ha.
  assert (Hl : bp ≤ a ∨ a + 8 * k ≤ bp ∧ Forall (λ b, bp + 8 * n ≤ b.1) l ∨ a + 8 * k < bp).
  { destruct (decide (a + 8 * k = bp)) as [Heq|Hne]; [|lia]. right. left. split; [lia|].
    rewrite Forall_forall in Hap |- *. intros b Hb. specialize (Hap b Hb). unfold apart in Hap. simpl in Hap.
    destruct (spaced_lo _ _ _ _ Hs Hb). lia. }
  cbn [put_block]. destruct (Z.ltb_spec bp a).
  - apply spaced_merge_next; try lia.
    + constructor; [simpl; lia|]. apply Forall_forall. intros b Hb. destruct (spaced_lo _ _ _ _ Hs Hb). lia.
    + simpl. split_and!; try lia. done.
  - destruct (Z.eqb_spec (a + 8 * k) bp) as [Heq|Hne].
    + destruct Hl as [?|[[_ Hl]|?]]; [lia| |lia].
      pose proof (spaced_merge_next bp bp n l hi ltac:(lia) Hn Hhi Hl) as Hm.
      rewrite Heq in Hs. specialize (Hm Hs).
      destruct (merge_next_cons bp n l) as (n' & l' & E & _). rewrite E in *.
      simpl in Hm |- *. destruct Hm as (_ & ? & ? & Hm). split_and!; try lia.
      replace (a + 8 * (k + n') + 1) with (bp + 8 * n' + 1) by lia. done.
    + simpl. split_and!; try lia. apply IH; [lia|done..].
Qed.

(** ** Walking the list *)

(** Addresses that increase along [w] up to [q]. *)
Fixpoint climbs (w : list block) (q : Z) : Prop :=
  match w with
  | [] => True
  | (a, _) :: w => a < hd_addr w q ∧ climbs w q
  end.

Lemma climbs_app l1 l2 q : climbs (l1 ++ l2) q ↔ climbs l1 (hd_addr l2 q) ∧ climbs l2 q.
Proof. induction l1 as [|[a n] l1 IH]; simpl; [tauto|]. rewrite IH, hd_addr_app. tauto. Qed.

Lemma climbs_hd w q : climbs w q → hd_addr w q ≤ q.
Proof.
  induction w as [|[a n] w IH]; simpl; [lia|]. intros [Ha Hw]. specialize (IH Hw). lia.
Qed.

Lemma climbs_spaced lo l hi q : spaced lo l hi → Forall (λ b, b.1 < q) l → climbs l q.
Proof.
  revert lo. induction l as [|[a n] l IH]; intros lo; simpl; [done|].
  intros (Ha & Hn & Hh & Hl) [Hq Hf]%Forall_cons. split; [|by eapply IH].
  destruct l as [|[b k] l]; [done|]. destruct Hl as (Hb & _). simpl. lia.
Qed.

(** The nodes of [w], the last linked to [q], that [free_loop] goes past. *)
Fixpoint passes (bp : Z) (w : list block) (q : Z) : Prop :=
  match w with
  | [] => True
  | (a, _) :: w =>
      let nxt := hd_addr w q in
      (bp ≤ a ∧ (nxt ≤ bp ∨ a < nxt) ∨ a < nxt ∧ nxt ≤ bp) ∧ passes bp w q
  end.

Lemma passes_low bp w q : climbs w q → q ≤ bp → passes bp w q.
Proof.
  induction w as [|[a n] w IH]; simpl; [done|]. intros [Ha Hw] Hq. split; [|by apply IH].
  pose proof (climbs_hd _ _ Hw). lia.
Qed.

Lemma passes_high bp w q lo hi : spaced lo w hi → Forall (λ b, bp ≤ b.1) w → q ≤ bp → passes bp w q.
Proof.
  revert lo. induction w as [|[a n] w IH]; intros lo; simpl; [done|].
  intros (Ha & Hn & Hh & Hs) [Hb Hf]%Forall_cons Hq. split; [|by eapply IH]. simpl in Hb.
  left. split; [done|]. destruct w as [|[b k] w]; [by left|]. right. destruct Hs as (? & _). simpl. lia.
Qed.

Lemma load_ok a s : 0 ≤ a → a + 4 ≤ u_sz s → load a s = Ok (u_mem s a) s.
Proof. intros. unfold load, mapped. by rewrite (proj2 (Z.leb_le 0 a)), (proj2 (Z.leb_le (a + 4) _)) by lia. Qed.

Lemma store_ok a v s : 0 ≤ a → a + 4 ≤ u_sz s → store a v s = Ok tt (set_word a v s).
Proof. intros. unfold store, mapped. by rewrite (proj2 (Z.leb_le 0 a)), (proj2 (Z.leb_le (a + 4) _)) by lia. Qed.

(** Headers inside the process. *)
Definition placed (sz : Z) (b : block) : Prop := 0 ≤ b.1 ∧ b.1 + 8 ≤ sz.

Lemma free_walk bp w q fuel s :
  seg (u_mem s) w q → passes bp w q → Forall (placed (u_sz s)) w →
  free_loop (length w + fuel) bp (hd_addr w q) s = free_loop fuel bp q s.
Proof.
  induction w as [|[a n] w IH]; [done|]. intros (Ha & Hn & Hw) [Hp Hps] [[Hs1 Hs2] Hpl]%Forall_cons.
  simpl in *. unfold s_ptr. erewrite mbind_Ok by (apply load_ok; lia). rewrite Ha.
  set (nxt := hd_addr w q) in *.
  destruct (Z.ltb_spec a bp), (Z.ltb_spec bp nxt), (Z.leb_spec nxt a); simpl; try lia; by apply IH.
Qed.

Section heap.
Context (base : Z).

(** The words of memory hold the free list [l] behind [base]. *)
Record list_ok (l : list block) (s : uproc) : Prop := ListOk {
  lo_base : 0 < base;
  lo_sz : base + 8 ≤ u_sz s < KERNBASE;
  lo_seg : seg (u_mem s) ((base, 0) :: l) base;
  lo_spaced : spaced (base + 8) l (u_sz s);
  lo_freep : ∃ f, f ∈ (base, 0) :: l ∧ u_freep s = f.1
}.

Lemma KERNBASE_half : KERNBASE = 2 ^ 31.
Proof. done. Qed.

Lemma list_ok_placed l s : list_ok l s → Forall (placed (u_sz s)) ((base, 0) :: l).
Proof.
  intros [Hb Hsz _ Hs _]. constructor; [unfold placed; simpl; lia|].
  apply Forall_forall. intros b Hin. destruct (spaced_lo _ _ _ _ Hs Hin). unfold placed. lia.
Qed.

Lemma length_circle l s : list_ok l s → (S (length l) ≤ fuel_of s)%nat.
Proof.
  intros [Hb Hsz _ Hs _]. apply length_spaced in Hs; [|lia]. unfold fuel_of.
  pose proof (Z.div_mod (u_sz s) 8 ltac:(lia)). pose proof (Z.mod_pos_bound (u_sz s) 8 ltac:(lia)). simpl. lia.
Qed.

Lemma free_stops bp p k P' l2 fuel s :
  list_ok (tail (P' ++ (p, k) :: l2)) s → (base, 0) :: tail (P' ++ (p, k) :: l2) = P' ++ (p, k) :: l2 →
  p < bp → Forall (λ b, bp < b.1) l2 → free_loop (S fuel) bp p s = Ok p s.
Proof.
  intros Hok E Hp Hl2. pose proof (list_ok_placed _ _ Hok) as Hpl. pose proof (lo_seg _ _ Hok) as Hseg.
  rewrite E in Hpl, Hseg. apply seg_app in Hseg as [_ (Hq & _)].
  apply Forall_app in Hpl as [_ [[Hp1 Hp2] _]%Forall_cons]. simpl in *.
  unfold s_ptr. erewrite mbind_Ok by (apply load_ok; lia). rewrite Hq.
  destruct l2 as [|[q j] l2]; simpl.
  - assert (base ≤ p).
    { destruct P' as [|x P']; simplify_eq/=; [lia|]. pose proof (lo_spaced _ _ Hok) as Hs.
      destruct (spaced_lo _ _ _ (p, k) Hs); [set_solver|]. simpl in *. lia. }
    destruct (Z.ltb_spec p bp), (Z.leb_spec base p), (Z.ltb_spec bp base); try lia; done.
  - apply Forall_cons in Hl2 as [Hl2 _]. simpl in Hl2.
    destruct (Z.ltb_spec p bp), (Z.ltb_spec bp q); try lia. done.
Qed.

Lemma free_loop_finds l1 l2 P' p k bp s :
  list_ok (l1 ++ l2) s → base + 8 ≤ bp → Forall (λ b, b.1 < bp) l1 → Forall (λ b, bp < b.1) l2 →
  (base, 0) :: l1 = P' ++ [(p, k)] → free_loop (2 + 2 * fuel_of s) bp (u_freep s) s = Ok p s.
Proof.
  intros Hok Hbp H1 H2 EP.
  assert (E : (base, 0) :: l1 ++ l2 = P' ++ (p, k) :: l2) by (rewrite app_comm_cons, EP; by rewrite <- app_assoc).
  assert (Et : l1 ++ l2 = tail (P' ++ (p, k) :: l2)) by by rewrite <- E.
  pose proof (length_circle _ _ Hok) as Hlen. pose proof (list_ok_placed _ _ Hok) as Hpl.
  pose proof (lo_seg _ _ Hok) as Hseg. destruct (lo_freep _ _ Hok) as (f & Hf & ->).
  pose proof (lo_spaced _ _ Hok) as Hs. rewrite spaced_app in Hs. destruct Hs as [Hs1 Hs2].
  assert (HP : climbs (P' ++ [(p, k)]) bp).
  { rewrite <- EP. simpl. split; [|by eapply climbs_spaced].
    destruct l1 as [|[a n] l1]; simpl in *; lia. }
  apply climbs_app in HP as [HP [Hp _]]. simpl in HP, Hp.
  assert (Hstop : ∀ fuel, free_loop (S fuel) bp p s = Ok p s).
  { intros fuel. rewrite Et in Hok. eapply free_stops; [done| |done|done]. by rewrite <- Et. }
  change (S (length (l1 ++ l2))) with (length ((base, 0) :: l1 ++ l2)) in Hlen.
  rewrite E in Hf, Hlen, Hpl, Hseg. rewrite length_app in Hlen. simpl in Hlen.
  assert (Hto : ∀ A w fuel, P' = A ++ w → free_loop (length w + S fuel) bp (hd_addr w p) s = Ok p s).
  { intros A w fuel ->. rewrite <- (Hstop fuel). apply free_walk.
    - rewrite <- app_assoc in Hseg. apply seg_app in Hseg as [_ Hseg].
      apply seg_app in Hseg as [Hseg _]. done.
    - apply passes_low; [|lia]. apply climbs_app in HP. tauto.
    - rewrite !Forall_app in Hpl. tauto. }
  apply elem_of_app in Hf as [Hf|[->|Hf]%elem_of_cons]; [|apply Hstop|].
  - apply list_elem_of_split in Hf as (A & w & ->). rewrite length_app in Hlen. simpl in Hlen.
    replace (2 + 2 * fuel_of s)%nat with (length (f :: w) + S (1 + 2 * fuel_of s - length (f :: w)))%nat
      by (simpl; lia). by apply (Hto A (f :: w)).
  - apply list_elem_of_split in Hf as (A & w & ->). rewrite length_app in Hlen. simpl in Hlen.
    set (rest := (2 + 2 * fuel_of s - length (f :: w) - length P' - 1)%nat).
    replace (2 + 2 * fuel_of s)%nat with (length (f :: w) + (length P' + S rest))%nat by (unfold rest; simpl; lia).
    transitivity (free_loop (length P' + S rest) bp base s).
    + apply (free_walk bp (f :: w) base).
      * rewrite app_comm_cons, app_assoc in Hseg. by apply seg_app in Hseg as [_ Hseg].
      * apply spaced_app in Hs2 as [_ Hs2]. apply Forall_app in H2 as [_ H2].
        eapply passes_high; [exact Hs2| |lia]. eapply Forall_impl; [exact H2|]. intros b Hb. simpl in *. lia.
      * rewrite Forall_app, Forall_cons, Forall_app in Hpl. tauto.
    + rewrite <- (Hto [] P' rest eq_refl). f_equal. destruct P' as [|x P']; by simplify_eq/=.
Qed.

(** ** Joining a block to its neighbours *)

Lemma s_size_ok p s : 0 ≤ p → p + 8 ≤ u_sz s < KERNBASE → s_size p s = Ok (u_mem s (p + 4)) s.
Proof. rewrite KERNBASE_half. intros. unfold s_size. rewrite u32_small by lia. apply load_ok; lia. Qed.

Lemma s_ptr_ok p s : 0 ≤ p → p + 8 ≤ u_sz s < KERNBASE → s_ptr p s = Ok (u_mem s p) s.
Proof. intros. apply load_ok; lia. Qed.

Lemma set_s_size_ok p v s : 0 ≤ p → p + 8 ≤ u_sz s < KERNBASE → set_s_size p v s = Ok tt (set_word (p + 4) v s).
Proof. rewrite KERNBASE_half. intros. unfold set_s_size. rewrite u32_small by lia. apply store_ok; lia. Qed.

Lemma set_s_ptr_ok p v s : 0 ≤ p → p + 8 ≤ u_sz s < KERNBASE → set_s_ptr p v s = Ok tt (set_word p v s).
Proof. intros. apply store_ok; lia. Qed.

Lemma hadd_small p n : 0 ≤ p + 8 * n < 2 ^ 32 → hadd p n = p + 8 * n.
Proof. intros. by apply u32_small. Qed.

Lemma join_next_ok bp n p l2 s :
  base + 8 ≤ bp → 0 < n → bp + 8 * n ≤ u_sz s < KERNBASE → u_mem s (bp + 4) = n →
  0 < base ≤ p → p + 8 ≤ u_sz s → u_mem s p = hd_addr l2 base → seg (u_mem s) l2 base →
  Forall (λ b, bp + 8 * n ≤ b.1) l2 → (∀ b, b ∈ l2 → 0 < b.2 ∧ b.1 + 8 * b.2 ≤ u_sz s) →
  wp (join_next bp p) (λ _ s1, u_sz s1 = u_sz s ∧ u_freep s1 = u_freep s ∧
    seg (u_mem s1) (merge_next bp n l2) base ∧ ∀ x, x ≠ bp → x ≠ bp + 4 → u_mem s1 x = u_mem s x) s.
Proof.
  intros Hbp Hn Hsz Ebs Hp Hpsz Ep Hseg Hl2 Hin. pose proof KERNBASE_half as HK. unfold join_next.
  eapply wp_step; [apply s_size_ok; lia|]. rewrite Ebs.
  eapply wp_step; [apply s_ptr_ok; lia|]. rewrite Ep, hadd_small by lia.
  assert (Hfr : ∀ v l, (∀ b, b ∈ l → bp + 8 * n ≤ b.1) → seg (u_mem s) l base →
    seg (<[bp := v]> (u_mem s)) l base ∧ ∀ w, seg (<[bp := v]> (<[bp + 4 := w]> (u_mem s))) l base).
  { intros v l Hl Hsl. split; [|intros w]; (eapply seg_frame; [|exact Hsl]); intros b Hb; specialize (Hl b Hb);
      rewrite !fn_lookup_insert_ne by lia; done. }
  rewrite Forall_forall in Hl2. destruct l2 as [|[q k] l2]; simpl.
  - destruct (Z.eqb_spec (bp + 8 * n) base); [lia|]. unfold wp. rewrite set_s_ptr_ok by lia. simpl.
    rewrite fn_lookup_insert, fn_lookup_insert_ne by lia. split_and!; try done.
    intros x Hx _. by rewrite fn_lookup_insert_ne by done.
  - assert (Hlq : bp + 8 * n ≤ q) by (apply (Hl2 (q, k)); left). destruct (Hin (q, k)) as [Hk Hqk]; [left|]. simpl in *.
    destruct Hseg as (Hq & Hqs & Hsl).
    destruct (Z.eqb_spec (bp + 8 * n) q) as [Heq|Hne].
    + eapply wp_step; [apply s_size_ok; lia|]. rewrite Hqs.
      eapply wp_step; [apply set_s_size_ok; lia|].
      eapply wp_step; [apply s_ptr_ok; simpl; lia|]. simpl. rewrite fn_lookup_insert_ne, Hq by lia.
      unfold wp. rewrite set_s_ptr_ok by (simpl; lia). simpl. rewrite u32_small by lia.
      rewrite fn_lookup_insert, fn_lookup_insert_ne, fn_lookup_insert by lia. split_and!; try done.
      * apply Hfr; [|done]. intros b Hb. apply Hl2. by right.
      * intros x Hx Hx'. by rewrite !fn_lookup_insert_ne by done.
    + unfold wp. rewrite set_s_ptr_ok by lia. cbn [u_sz u_freep u_mem set_word seg hd_addr].
      rewrite fn_lookup_insert, fn_lookup_insert_ne by lia. simpl. split_and!; try done.
      * rewrite fn_lookup_insert_ne by lia. done.
      * rewrite fn_lookup_insert_ne by lia. done.
      * apply Hfr; [|done]. intros b Hb. apply Hl2. by right.
      * intros x Hx _. by rewrite fn_lookup_insert_ne by done.
Qed.

Lemma join_prev_ok bp n' p k P' r s :
  0 < base ≤ p → 0 ≤ k → 0 < n' → p + 8 ≤ bp → p + 8 * k ≤ bp → bp + 8 * n' ≤ u_sz s < KERNBASE →
  Forall (λ b, b.1 + 8 ≤ p) P' → Forall (λ b, bp + 8 ≤ b.1) r →
  seg (u_mem s) P' p → u_mem s (p + 4) = k → seg (u_mem s) ((bp, n') :: r) base →
  wp (join_prev bp p) (λ _ s1, u_sz s1 = u_sz s ∧ u_freep s1 = u_freep s ∧
    seg (u_mem s1) (P' ++ if p + 8 * k =? bp then (p, k + n') :: r else (p, k) :: (bp, n') :: r) base ∧
    ∀ x, x ≠ p → x ≠ p + 4 → u_mem s1 x = u_mem s x) s.
Proof.
  intros Hp Hk Hn Hpb Hpk Hsz HP Hr HsP Eps (Hb & Hbs & Hsr). pose proof KERNBASE_half as HK.
  rewrite Forall_forall in HP, Hr. unfold join_prev.
  eapply wp_step; [apply s_size_ok; lia|]. rewrite Eps, hadd_small by lia.
  assert (Hfr : ∀ m l q, (∀ x, x ≠ p → x ≠ p + 4 → m x = u_mem s x) →
    (∀ b, b ∈ l → b.1 + 8 ≤ p ∨ p + 8 ≤ b.1) → seg (u_mem s) l q → seg m l q).
  { intros m l q Hm Hl. apply seg_frame. intros b Hb'. specialize (Hl b Hb'). by rewrite !Hm by lia. }
  destruct (Z.eqb_spec (p + 8 * k) bp) as [Heq|Hne].
  - eapply wp_step; [apply s_size_ok; lia|]. rewrite Hbs.
    eapply wp_step; [apply set_s_size_ok; lia|].
    eapply wp_step; [apply s_ptr_ok; simpl; lia|]. simpl. rewrite fn_lookup_insert_ne, Hb by lia.
    unfold wp. rewrite set_s_ptr_ok by (simpl; lia). simpl. rewrite u32_small by lia.
    assert (Hx : ∀ x, x ≠ p → x ≠ p + 4 →
      (<[p:=hd_addr r base]> (<[p + 4:=k + n']> (u_mem s))) x = u_mem s x)
      by (intros; by rewrite !fn_lookup_insert_ne).
    split_and!; try done. apply seg_app. simpl. split_and!.
    + apply Hfr; [done| |done]. intros b ?%HP. by left.
    + by rewrite fn_lookup_insert.
    + by rewrite fn_lookup_insert_ne, fn_lookup_insert by lia.
    + apply Hfr; [done| |done]. intros b ?%Hr. lia.
  - unfold wp. rewrite set_s_ptr_ok by lia. cbn [u_sz u_freep u_mem set_word].
    assert (Hx : ∀ x, x ≠ p → x ≠ p + 4 → (<[p:=bp]> (u_mem s)) x = u_mem s x)
      by (intros; by rewrite fn_lookup_insert_ne).
    split_and!; try done. apply seg_app. cbn [seg hd_addr fst]. split_and!.
    + apply Hfr; [done| |done]. intros b ?%HP. by left.
    + by rewrite fn_lookup_insert.
    + by rewrite fn_lookup_insert_ne by lia.
    + by rewrite Hx by lia.
    + by rewrite Hx by lia.
    + apply Hfr; [done| |done]. intros b ?%Hr. lia.
Qed.

(** ** Freeing a block *)

(** Memory of the allocator: [base], and the free blocks. *)
Definition spare (l : list block) (x : Z) : Prop := base ≤ x < base + 8 ∨ Exists (within x) l.

(** The words outside the allocator's memory stay as they are. *)
Definition untouched (l : list block) (s s' : uproc) : Prop :=
  ∀ x, ¬ spare l x → x < u_sz s → u_mem s' x = u_mem s x.

(** The circle around [bp]: the block before it, and what the list becomes. *)
Lemma circle_split bp n l s :
  list_ok l s → base + 8 ≤ bp → 0 < n → Forall (apart (bp, n)) l →
  ∃ l1 l2 P' p k n' r, l = l1 ++ l2 ∧ (base, 0) :: l1 = P' ++ [(p, k)] ∧
    Forall (λ b, b.1 + 8 * b.2 ≤ bp) l1 ∧ Forall (λ b, bp + 8 * n ≤ b.1) l2 ∧
    merge_next bp n l2 = (bp, n') :: r ∧
    (base, 0) :: put_block bp n l = P' ++ if p + 8 * k =? bp then (p, k + n') :: r else (p, k) :: (bp, n') :: r.
Proof.
  intros Hok Hbp Hn Hap.
  destruct (put_block_split _ _ _ _ _ (lo_spaced _ _ Hok) Hn Hap) as (l1 & l2 & -> & H1 & H2 & E).
  destruct (merge_next_cons bp n l2) as (n' & r & Em & _). rewrite Em in E.
  destruct (last l1) as [[p k]|] eqn:El.
  - apply last_Some in El as [l1' ->]. exists (l1' ++ [(p, k)]), l2, ((base, 0) :: l1'), p, k, n', r.
    split_and!; try done. rewrite E, removelast_last, <- app_assoc. simpl. by destruct (p + 8 * k =? bp).
  - apply last_None in El as ->. exists [], l2, [], base, 0, n', r. split_and!; try done.
    rewrite E. simpl. by destruct (Z.eqb_spec (base + 8 * 0) bp); [lia|].
Qed.

(** The block before [bp] lies below it, and the ones before that below it. *)
Lemma circle_pred l1 P' p k bp hi :
  spaced (base + 8) l1 hi → (base, 0) :: l1 = P' ++ [(p, k)] → base + 8 ≤ bp →
  Forall (λ b, b.1 + 8 * b.2 ≤ bp) l1 →
  base ≤ p ∧ p + 8 ≤ bp ∧ p + 8 * k ≤ bp ∧ 0 ≤ k ∧ Forall (λ b, b.1 + 8 ≤ p) P' ∧ Forall (λ b, b.1 < bp) l1.
Proof.
  intros Hs E Hbp H1.
  assert (Hlt : Forall (λ b, b.1 < bp) l1).
  { rewrite Forall_forall in H1 |- *. intros b Hb. specialize (H1 b Hb).
    destruct (spaced_lo _ _ _ _ Hs Hb). simpl in *. lia. }
  destruct P' as [|x P']; [simplify_eq/=; split_and!; try lia; done|].
  simpl in E. injection E as <- ->. apply spaced_app in Hs as [Hs1 (Hp & Hk & Hpk & _)].
  apply Forall_app in H1 as [_ [H1 _]%Forall_cons]. simpl in *.
  assert (Hb : ∀ b, b ∈ P' → b.1 + 8 ≤ p ∧ base + 8 ≤ b.1).
  { intros b Hb. destruct (spaced_lo _ _ _ _ Hs1 Hb). pose proof (spaced_end _ _ _ _ Hs1 Hb). lia. }
  assert (base + 8 ≤ p).
  { unfold end_of in Hp. destruct (last P') as [[b j]|] eqn:El; [|lia].
    apply last_Some in El as [P'' ->]. destruct (Hb (b, j)); [set_solver|]. simpl in *. lia. }
  split_and!; try lia; [|done]. constructor; [simpl; lia|]. apply Forall_forall. intros b ?%Hb. lia.
Qed.

Lemma free_ok l s bp n :
  list_ok l s → base + 8 ≤ bp → 0 < n → bp + 8 * n ≤ u_sz s → u_mem s (bp + 4) = n → Forall (apart (bp, n)) l →
  wp (free (bp + 8)) (λ _ s', list_ok (put_block bp n l) s' ∧ u_sz s' = u_sz s ∧ untouched ((bp, n) :: l) s s') s.
Proof.
  intros Hok Hbp Hn Hhi Hbs Hap. pose proof KERNBASE_half as HK. pose proof (lo_sz _ _ Hok) as Hsz.
  pose proof (lo_base _ _ Hok) as Hb0. pose proof (lo_spaced _ _ Hok) as Hsp. pose proof (lo_seg _ _ Hok) as Hseg.
  pose proof (spaced_put_block _ _ _ _ _ Hsp Hbp Hn Hhi Hap) as Hsp'.
  destruct (circle_split _ _ _ _ Hok Hbp Hn Hap) as (l1 & l2 & P' & p & k & n' & r & -> & EP & H1 & H2 & Em & E).
  apply spaced_app in Hsp as [Hsp1 Hsp2].
  destruct (circle_pred _ _ _ _ _ _ Hsp1 EP Hbp H1) as (Hbp' & Hp8 & Hpk & Hk & HP' & Hlt).
  assert (Hin2 : ∀ b, b ∈ l2 → bp + 8 * n ≤ b.1 ∧ 0 < b.2 ∧ b.1 + 8 * b.2 ≤ u_sz s).
  { intros b Hb. destruct (spaced_lo _ _ _ _ Hsp2 Hb). rewrite Forall_forall in H2. specialize (H2 b Hb). tauto. }
  rewrite app_comm_cons, EP, <- app_assoc in Hseg. apply seg_app in Hseg as [HsP (Hpq & Hps & Hs2)].
  unfold free. rewrite hadd_small by lia. replace (bp + 8 + 8 * -1) with bp by lia.
  eapply wp_step; [done|]. eapply wp_step; [done|].
  eapply wp_step.
  { eapply free_loop_finds; [exact Hok|done|done| |exact EP]. apply Forall_forall. intros b ?%Hin2. lia. }
  apply wp_bind. eapply wp_mono; [apply (join_next_ok _ n p l2); try done; try lia; intros b ?%Hin2; tauto|].
  intros _ s1 (Esz1 & _ & Hseg1 & Hfr1). rewrite Em in Hseg1.
  assert (Hn' : 0 < n' ∧ bp + 8 * n' ≤ u_sz s ∧ Forall (λ b, bp + 8 ≤ b.1) r).
  { assert (Hm : spaced bp (merge_next bp n l2) (u_sz s)).
    { apply spaced_merge_next; try done; try lia. eapply spaced_from; [exact Hsp2|].
      apply Forall_forall. intros b ?%Hin2. lia. }
    rewrite Em in Hm. destruct Hm as (_ & ? & ? & Hm). split_and!; try done.
    apply Forall_forall. intros b Hb. destruct (spaced_lo _ _ _ _ Hm Hb). lia. }
  destruct Hn' as (Hn' & Hn'sz & Hr). apply wp_bind.
  eapply wp_mono; [apply (join_prev_ok _ n' p k P' r); try done; try lia|].
  { eapply seg_frame; [|exact HsP]. intros b Hb. rewrite Forall_forall in HP'. specialize (HP' b Hb). simpl in *.
    by rewrite !Hfr1 by lia. }
  { by rewrite Hfr1 by lia. }
  intros _ s2 (Esz2 & _ & Hseg2 & Hfr2). rewrite <- E in Hseg2.
  apply wp_modify. split_and!; [|simpl; congruence|].
  - constructor; simpl; rewrite ?Esz2, ?Esz1; try done.
    rewrite E. destruct (p + 8 * k =? bp); eexists; (split; [apply elem_of_app; right; left|done]).
  - intros x Hx _. simpl. assert (Hxb : ¬ within x (bp, n)) by (intros ?; apply Hx; right; by left).
    assert (x ≠ p ∧ x ≠ p + 4 ∧ x ≠ bp ∧ x ≠ bp + 4) as (? & ? & ? & ?); [|by rewrite Hfr2, Hfr1].
    assert (Hxp : ¬ (p ≤ x < p + 8)).
    { intros Hxp. apply Hx. destruct P' as [|y P']; [left; by simplify_eq/=|]. right. right.
      simpl in EP. injection EP as _ ->. destruct (spaced_lo _ _ _ (p, k) Hsp1) as (_ & ? & _); [set_solver|].
      apply Exists_exists. exists (p, k). split; [set_solver|]. unfold within. simpl in *. lia. }
    unfold within in Hxb. simpl in Hxb. split_and!; lia.
Qed.

(** ** Taking a block *)

Definition cut (a k n : Z) (l2 : list block) : list block := if k =? n then l2 else (a, k - n) :: l2.

(** The list around a block of it. *)
Lemma list_ok_around l1 a k l2 s :
  list_ok (l1 ++ (a, k) :: l2) s →
  ∃ P' j, (base, 0) :: l1 = P' ++ [(last_addr l1 base, j)] ∧ base ≤ last_addr l1 base ∧
    (∀ b, b ∈ (base, 0) :: l1 → b.1 + 8 ≤ a) ∧ (∀ b, b ∈ P' → b.1 + 8 ≤ last_addr l1 base) ∧
    base + 8 ≤ a ∧ 0 < k ∧ a + 8 * k ≤ u_sz s ∧ (∀ b, b ∈ l2 → a + 8 * k < b.1) ∧
    (∀ b, b ∈ l1 → b.1 + 8 * b.2 < a).
Proof.
  intros Hok. pose proof (lo_spaced _ _ Hok) as Hs. apply spaced_app in Hs as [Hs1 (Ha & Hk & Hak & Hs2)].
  assert (Hlo : base + 8 ≤ a ∧ ∀ b, b ∈ l1 → b.1 + 8 * b.2 < a ∧ 0 < b.2).
  { split.
    - unfold end_of in Ha. destruct (last l1) as [[b j]|] eqn:E; [|lia]. apply last_Some in E as [l1' ->].
      destruct (spaced_lo _ _ _ (b, j) Hs1); [set_solver|]. simpl in *. lia.
    - intros b Hb. pose proof (spaced_end _ _ _ _ Hs1 Hb). destruct (spaced_lo _ _ _ _ Hs1 Hb). lia. }
  destruct Hlo as [Hlo Hl1].
  assert (HP : ∃ P' j, (base, 0) :: l1 = P' ++ [(last_addr l1 base, j)]).
  { unfold last_addr. destruct (last l1) as [[p j]|] eqn:E.
    - apply last_Some in E as [l1' ->]. by exists ((base, 0) :: l1'), j.
    - apply last_None in E as ->. by exists [], 0. }
  destruct HP as (P' & j & EP). exists P', j.
  assert (Hl1' : Forall (λ b, b.1 + 8 * b.2 ≤ a) l1) by (apply Forall_forall; intros b [? _]%Hl1; lia).
  destruct (circle_pred _ _ _ _ a _ Hs1 EP Hlo Hl1') as (? & ? & ? & ? & HP' & _). rewrite Forall_forall in HP'.
  split_and!; try done; try lia.
  - intros b [->|Hb]%elem_of_cons; [simpl; lia|]. destruct (Hl1 b Hb). lia.
  - intros b Hb. destruct (spaced_lo _ _ _ _ Hs2 Hb). lia.
  - intros b [? _]%Hl1. done.
Qed.

Lemma apart_cut y l1 a k l2 n :
  1 ≤ n ≤ k → Forall (apart y) (l1 ++ (a, k) :: l2) →
  Forall (apart y) (l1 ++ cut a k n l2) ∧ apart y (a + 8 * (k - n), n).
Proof.
  intros Hn [H1 [Ha H2]%Forall_cons]%Forall_app. unfold cut, apart in *. simpl in *. split; [|lia].
  apply Forall_app. split; [done|]. destruct (Z.eqb_spec k n); [done|]. constructor; [simpl; lia|done].
Qed.

Lemma spaced_cut lo l1 a k l2 n hi :
  1 ≤ n ≤ k → spaced lo (l1 ++ (a, k) :: l2) hi → spaced lo (l1 ++ cut a k n l2) hi.
Proof.
  intros Hn. rewrite !spaced_app. intros [H1 (Ha & Hk & Hak & H2)]. split; [done|]. unfold cut.
  destruct (Z.eqb_spec k n).
  - eapply spaced_weaken; [..|exact H2]; lia.
  - simpl. split_and!; try lia. eapply spaced_weaken; [..|exact H2]; lia.
Qed.

Lemma units_app l1 l2 : units (l1 ++ l2) = units l1 + units l2.
Proof. unfold units. induction l1 as [|b l1 IH]; cbn [app foldr]; [lia|]. rewrite IH. lia. Qed.

Lemma units_cut l1 a k l2 n : units (l1 ++ cut a k n l2) + n = units (l1 ++ (a, k) :: l2).
Proof.
  rewrite !units_app. unfold cut. destruct (Z.eqb_spec k n); simpl; lia.
Qed.

(** What taking [n] units leaves, and the block taken, [r] past its header. *)
Definition taken (l : list block) (n r : Z) (l' : list block) (s' : uproc) : Prop :=
  list_ok l' s' ∧ u_mem s' (r - 4) = n ∧ base + 8 ≤ r - 8 ∧ r - 8 + 8 * n ≤ u_sz s' ∧
  Forall (apart (r - 8, n)) l' ∧ units l' + n = units l ∧
  (∀ y, Forall (apart y) l → Forall (apart y) l' ∧ apart y (r - 8, n)).

(** Everything but the memory itself is arithmetic on the lists. *)
Lemma taken_intro l1 a k l2 n s m :
  list_ok (l1 ++ (a, k) :: l2) s → 1 ≤ n ≤ k →
  seg m ((base, 0) :: l1 ++ cut a k n l2) base → m (a + 8 * (k - n) + 4) = n →
  taken (l1 ++ (a, k) :: l2) n (a + 8 * (k - n) + 8) (l1 ++ cut a k n l2)
    (UProc m (last_addr l1 base) (u_sz s)).
Proof.
  intros Hok Hn Hseg Hm. pose proof (list_ok_around _ _ _ _ _ Hok) as (P' & j & EP & _ & HP & _ & Hba & Hk & Hak & Hl2 & Hl1).
  unfold taken. simpl. replace (a + 8 * (k - n) + 8 - 4) with (a + 8 * (k - n) + 4) by lia.
  replace (a + 8 * (k - n) + 8 - 8) with (a + 8 * (k - n)) by lia.
  split_and!; try done; try lia.
  - destruct Hok as [??? Hsp _]. constructor; simpl; [done..|by apply spaced_cut|].
    exists (last_addr l1 base, j). split; [|done]. rewrite app_comm_cons, EP. set_solver.
  - apply Forall_forall. intros b Hb. unfold apart. simpl. unfold cut in Hb.
    apply elem_of_app in Hb as [Hb|Hb]; [specialize (Hl1 b Hb); lia|].
    destruct (Z.eqb_spec k n); [|apply elem_of_cons in Hb as [->|Hb]; [simpl; lia|]]; specialize (Hl2 b Hb); lia.
  - apply units_cut.
  - intros y Hy. by apply apart_cut.
Qed.

Lemma take_block_ok l1 a k l2 n s :
  list_ok (l1 ++ (a, k) :: l2) s → 1 ≤ n ≤ k →
  wp (take_block (last_addr l1 base) a n) (λ r s', u_sz s' = u_sz s ∧ untouched (l1 ++ (a, k) :: l2) s s' ∧
    taken (l1 ++ (a, k) :: l2) n r (l1 ++ cut a k n l2) s') s.
Proof.
  intros Hok Hn. pose proof KERNBASE_half as HK. pose proof (lo_sz _ _ Hok). pose proof (lo_base _ _ Hok).
  pose proof (lo_seg _ _ Hok) as Hseg. pose proof (λ m, taken_intro l1 a k l2 n s m Hok Hn) as Htk.
  destruct (list_ok_around _ _ _ _ _ Hok) as (P' & j & EP & Hpb & HP & HP' & Hba & Hk & Hak & Hl2 & Hl1).
  set (p := last_addr l1 base) in *.
  assert (Hpa : p + 8 ≤ a) by (apply (HP (p, j)); rewrite EP; set_solver).
  assert (Hspa : ∀ x, a ≤ x < a + 8 * k → spare (l1 ++ (a, k) :: l2) x).
  { intros x Hx. right. apply Exists_exists. exists (a, k). split; [set_solver|done]. }
  rewrite app_comm_cons in Hseg. apply seg_app in Hseg as [HsP (Ha & Has & Hs2)].
  unfold take_block, cut in *. eapply wp_step; [apply s_size_ok; lia|]. rewrite Has.
  destruct (Z.eqb_spec k n) as [->|Hne].
  - rewrite Z.sub_diag, Z.mul_0_r, Z.add_0_r in Htk. apply wp_bind.
    eapply wp_step; [apply s_ptr_ok; lia|]. rewrite Ha.
    eapply wp_step; [apply set_s_ptr_ok; lia|]. apply wp_ret, wp_bind, wp_modify, wp_ret.
    unfold set_freep. simpl. rewrite hadd_small by lia. split_and!; [done| |apply Htk].
    + intros x Hx _. simpl. rewrite fn_lookup_insert_ne; [done|]. intros <-. apply Hx.
      assert (Hp : (p, j) ∈ (base, 0) :: l1) by (rewrite EP; set_solver).
      apply elem_of_cons in Hp as [[= -> ->]|Hp]; [left; lia|right]. apply Exists_exists. exists (p, j).
      split; [set_solver|]. pose proof (lo_spaced _ _ Hok) as Hsp.
      destruct (spaced_lo _ _ _ (p, j) Hsp); [set_solver|]. unfold within. simpl in *. lia.
    + rewrite app_comm_cons, EP, <- app_assoc. rewrite EP in HsP.
      apply seg_app in HsP as [HsP (Hp & Hps & _)]. apply seg_app. simpl in *.
      rewrite fn_lookup_insert, fn_lookup_insert_ne by lia. split_and!; try done.
      * eapply seg_frame; [|exact HsP]. intros b ?%HP'. by rewrite !fn_lookup_insert_ne by lia.
      * eapply seg_frame; [|exact Hs2]. intros b ?%Hl2. by rewrite !fn_lookup_insert_ne by lia.
    + by rewrite fn_lookup_insert_ne by lia.
  - apply wp_bind. eapply wp_step; [apply set_s_size_ok; lia|]. rewrite hadd_small, u32_small by lia.
    eapply wp_step; [apply set_s_size_ok; simpl; lia|]. apply wp_ret, wp_bind, wp_modify, wp_ret.
    unfold set_freep. simpl. rewrite hadd_small by lia.
    replace (a + 8 * (k - n) + 8 * 1) with (a + 8 * (k - n) + 8) by lia. split_and!; [done| |apply Htk].
    + intros x Hx _. simpl. rewrite !fn_lookup_insert_ne; [done|..]; intros <-; apply Hx, Hspa; lia.
    + rewrite app_comm_cons. apply seg_app. split.
      * eapply seg_frame; [|exact HsP]. intros b ?%HP. by rewrite !fn_lookup_insert_ne by lia.
      * simpl. rewrite !fn_lookup_insert_ne, fn_lookup_insert by lia. split_and!; try done.
        eapply seg_frame; [|exact Hs2]. intros b ?%Hl2. by rewrite !fn_lookup_insert_ne by lia.
    + by rewrite fn_lookup_insert.
Qed.

(** ** The search of [malloc] *)

Lemma climbs_lt w q b : climbs w q → b ∈ w → b.1 < q.
Proof.
  induction w as [|[a n] w IH]; simpl; [by intros _ ?%elem_of_nil|].
  intros [Ha Hw] [->|Hb]%elem_of_cons; [|by apply IH]. simpl. pose proof (climbs_hd _ _ Hw). lia.
Qed.

Lemma list_ok_climbs l s : list_ok l s → climbs ((base, 0) :: l) (u_sz s).
Proof.
  intros [? Hsz _ Hsp _]. simpl. split.
  - destruct l as [|[a n] l]; simpl in *; lia.
  - eapply climbs_spaced; [exact Hsp|]. apply Forall_forall. intros b Hb.
    destruct (spaced_lo _ _ _ _ Hsp Hb). simpl. lia.
Qed.

(** Only [f] itself has its address. *)
Lemma circle_addr l s A f B b :
  list_ok l s → (base, 0) :: l = A ++ f :: B → b ∈ A ++ B → b.1 ≠ f.1.
Proof.
  intros Hok E Hb. pose proof (list_ok_climbs _ _ Hok) as Hc. rewrite E in Hc.
  apply climbs_app in Hc as [HA HB]. simpl in HA. apply elem_of_app in Hb as [Hb|Hb].
  - pose proof (climbs_lt _ _ _ HA Hb). lia.
  - apply list_elem_of_split in Hb as (B1 & B2 & ->). rewrite app_comm_cons in HB.
    apply climbs_app in HB as [HB _]. pose proof (climbs_lt _ _ f HB ltac:(left)). simpl in *. lia.
Qed.

Section search.
Context (room : Z → Z → bool) (n : Z) (Hn : 1 ≤ n) (l : list block) (s : uproc) (Hok : list_ok l s).
Context (Φ : outcome uproc Z → Prop).
Context (Htake : ∀ l1 a k l2, l = l1 ++ (a, k) :: l2 → n ≤ k → Φ (take_block (last_addr l1 base) a n s)).

(** A block of the circle that is large enough is taken. *)
Lemma take_here P a k R prev :
  (base, 0) :: l = P ++ (a, k) :: R → (P ≠ [] → prev = last_addr P base) → n ≤ k →
  Φ (take_block prev a n s).
Proof.
  intros E Hprev Hk. destruct P as [|x P]; simpl in E; [simplify_eq; lia|]. injection E as <- E.
  rewrite Hprev by done. replace (last_addr ((base, 0) :: P) base) with (last_addr P base); [by eapply Htake|].
  unfold last_addr. rewrite last_cons. by destruct (last P).
Qed.

Lemma malloc_walk w P R prev fuel :
  (base, 0) :: l = P ++ w ++ R → (P ≠ [] → prev = last_addr P base) → Forall (λ b, b.1 ≠ u_freep s) w →
  (∀ prev', (P ++ w ≠ [] → prev' = last_addr (P ++ w) base) → Forall (λ b, b.2 < n) w →
    Φ (malloc_loop room fuel n prev' (hd_addr R base) s)) →
  Φ (malloc_loop room (length w + fuel) n prev (hd_addr (w ++ R) base) s).
Proof.
  revert P prev. induction w as [|[a k] w IH]; intros P prev E Hprev Hf Hcont.
  { simpl. apply Hcont; [by rewrite app_nil_r|done]. }
  apply Forall_cons in Hf as [Ha Hf]. pose proof (list_ok_placed _ _ Hok) as Hpl.
  pose proof (lo_seg _ _ Hok) as Hseg. pose proof (lo_sz _ _ Hok) as Hsz. rewrite E in Hpl, Hseg. simpl in *.
  apply Forall_app in Hpl as [_ [[Hp1 Hp2] _]%Forall_cons]. apply seg_app in Hseg as [_ (Hq & Hs & _)]. simpl in *.
  erewrite mbind_Ok by (apply s_size_ok; lia). rewrite Hs. destruct (Z.leb_spec n k); [by eapply take_here|].
  erewrite mbind_Ok by done. rewrite (proj2 (Z.eqb_neq _ _) Ha).
  erewrite mbind_Ok by (apply s_ptr_ok; lia). rewrite Hq. apply (IH (P ++ [(a, k)])); [|..|done|].
  - by rewrite <- app_assoc.
  - intros _. unfold last_addr. by rewrite last_snoc.
  - intros prev' Hprev' Hw. rewrite <- app_assoc in Hprev'. apply Hcont; [done|]. by constructor.
Qed.

(** Once around the circle, from the block after [freep]. *)
Lemma malloc_tour A f B fuel :
  (base, 0) :: l = A ++ f :: B → u_freep s = f.1 →
  (Forall (λ b, b.2 < n) l → Φ ((p ← morecore room n;
    if p =? 0 then mret 0 else q ← s_ptr p; malloc_loop room fuel n p q) s)) →
  Φ (malloc_loop room (S (length l) + fuel) n f.1 (hd_addr B base) s).
Proof.
  intros E Ef Hend.
  assert (Hd : Forall (λ b, b.1 ≠ u_freep s) (A ++ B)).
  { apply Forall_forall. intros b Hb. rewrite Ef. by eapply circle_addr. }
  apply Forall_app in Hd as [HdA HdB].
  assert (Hlen : S (length l) = (length B + (length A + 1))%nat).
  { change (S (length l)) with (length ((base, 0) :: l)). rewrite E, length_app. simpl. lia. }
  pose proof (malloc_walk B (A ++ [f]) [] f.1 (length A + 1 + fuel)) as Hw. rewrite !app_nil_r in Hw.
  rewrite Hlen, <- Nat.add_assoc. apply Hw; clear Hw; [by rewrite <- app_assoc| |done|].
  { intros _. unfold last_addr. by rewrite last_snoc. }
  intros prev _ HwB. cbn [hd_addr]. rewrite <- Nat.add_assoc.
  replace (malloc_loop room _ n prev base s)
    with (malloc_loop room (length A + (1 + fuel)) n prev (hd_addr (A ++ f :: B) base) s) by by rewrite <- E.
  apply (malloc_walk A [] (f :: B)); [done..|]. cbn [app]. intros prev' Hprev HwA.
  destruct f as [a k]. pose proof (list_ok_placed _ _ Hok) as Hpl. pose proof (lo_sz _ _ Hok) as Hsz.
  pose proof (lo_seg _ _ Hok) as Hseg. rewrite E in Hpl, Hseg.
  apply Forall_app in Hpl as [_ [[Hp1 Hp2] _]%Forall_cons]. apply seg_app in Hseg as [_ (Hq & Hs & _)]. simpl in *.
  erewrite mbind_Ok by (apply s_size_ok; lia). rewrite Hs. destruct (Z.leb_spec n k); [by eapply take_here|].
  erewrite mbind_Ok by done. rewrite Ef, Z.eqb_refl. apply Hend.
  assert (Hall : Forall (λ b, b.2 < n) ((base, 0) :: l)).
  { rewrite E. apply Forall_app. split; [done|]. by constructor. }
  by apply Forall_cons in Hall as [_ Hall].
Qed.
End search.

(** ** Growing the heap *)

Lemma merge_next_within x bp n l :
  0 ≤ n → Forall (λ b, 0 ≤ b.2) l → Exists (within x) (merge_next bp n l) → Exists (within x) ((bp, n) :: l).
Proof.
  intros Hn Hl. destruct l as [|[q k] l]; [done|]. simpl. apply Forall_cons in Hl as [Hk _]. simpl in Hk.
  destruct (Z.eqb_spec (bp + 8 * n) q); [|done]. rewrite !Exists_cons. unfold within. simpl. intros [?|?]; [|tauto]. lia.
Qed.

Lemma put_block_within x bp n l :
  0 ≤ n → Forall (λ b, 0 ≤ b.2) l → Exists (within x) (put_block bp n l) → Exists (within x) ((bp, n) :: l).
Proof.
  intros Hn. induction l as [|[a k] l IH]; intros Hl; [done|]. pose proof (merge_next_within x bp n ((a, k) :: l) Hn Hl) as Hm.
  apply Forall_cons in Hl as [Hk Hl]. pose proof (merge_next_within x bp n l Hn Hl) as Hm'. simpl in Hk. cbn [put_block].
  destruct (bp <? a); [done|]. destruct (Z.eqb_spec (a + 8 * k) bp).
  - destruct (merge_next_cons bp n l) as (n' & l' & E & _). rewrite E in *. rewrite !Exists_cons in *.
    unfold within in *. simpl in *. intros [?|?]; [|tauto].
    destruct (decide (x < a + 8 * k)); [right; left; lia|]. destruct Hm' as [?|?]; [left; lia|tauto|tauto].
  - rewrite !Exists_cons in *. intros [?|?]; [tauto|]. destruct IH; tauto.
Qed.

Lemma put_block_big bp n l : Forall (λ b, 0 ≤ b.2) l → Exists (λ b, n ≤ b.2) (put_block bp n l).
Proof.
  assert (Hm : ∀ l, Forall (λ b, 0 ≤ b.2) l → Exists (λ b, n ≤ b.2) (merge_next bp n l)).
  { intros [|[q k] l'] Hl; simpl; [left; simpl; lia|]. apply Forall_cons in Hl as [Hk _]. simpl in Hk.
    destruct (bp + 8 * n =? q); left; simpl; lia. }
  induction l as [|[a k] l IH]; intros Hl; [left; simpl; lia|]. pose proof (Hm _ Hl) as Hm1.
  apply Forall_cons in Hl as [Hk Hl]. simpl in Hk. cbn [put_block]. destruct (bp <? a); [done|].
  destruct (a + 8 * k =? bp); [|right; by apply IH]. specialize (Hm _ Hl).
  destruct (merge_next_cons bp n l) as (n' & l' & E & _). rewrite E in *. rewrite Exists_cons in *.
  simpl in *. destruct Hm; [left; lia|by right].
Qed.

Lemma put_block_pos bp n l : 0 < n → Forall (λ b, 0 < b.2) l → Forall (λ b, 0 < b.2) (put_block bp n l).
Proof.
  intros Hn. assert (Hm : ∀ l, Forall (λ b, 0 < b.2) l → Forall (λ b, 0 < b.2) (merge_next bp n l)).
  { intros [|[q k] l'] Hl; [by repeat constructor|]. cbn [merge_next].
    destruct (bp + 8 * n =? q); [|by constructor]. apply Forall_cons in Hl as [Hk Hl]. constructor; [|done].
    simpl in *. lia. }
  induction l as [|[a k] l IH]; intros Hl; [by repeat constructor|]. pose proof (Hm _ Hl) as Hm1.
  apply Forall_cons in Hl as [Hk Hl]. cbn [put_block]. destruct (bp <? a); [done|].
  destruct (a + 8 * k =? bp); [|constructor; [done|by apply IH]]. specialize (Hm _ Hl).
  destruct (merge_next_cons bp n l) as (n' & l' & E & _). rewrite E in *. apply Forall_cons in Hm as [Hn' Hm].
  constructor; [|done]. simpl in *. lia.
Qed.

(** A block apart from what is joined is apart from the result. *)
Lemma apart_put_block y bp n l :
  0 < y.2 → 0 < n → Forall (λ b, 0 < b.2) l → Forall (apart y) ((bp, n) :: l) → Forall (apart y) (put_block bp n l).
Proof.
  intros Hy Hn Hl Hap. pose proof (put_block_pos bp n l Hn Hl) as Hpos. rewrite Forall_forall in Hpos.
  apply Forall_forall. intros b Hb. specialize (Hpos b Hb). simpl in Hpos. unfold apart.
  destruct (decide (y.1 + 8 * y.2 ≤ b.1)) as [|Hc]; [by left|right].
  destruct (decide (b.1 + 8 * b.2 ≤ y.1)) as [|Hc']; [done|exfalso].
  assert (Hw : Exists (within (Z.max y.1 b.1)) (put_block bp n l)).
  { apply Exists_exists. exists b. split; [done|]. unfold within. lia. }
  apply put_block_within in Hw; [|lia|eapply Forall_impl; [exact Hl|]; simpl; lia].
  apply Exists_exists in Hw as (c & Hc2 & Hw). rewrite Forall_forall in Hap. specialize (Hap c Hc2).
  unfold apart, within in *. lia.
Qed.

Lemma list_ok_pos l s : list_ok l s → Forall (λ b, 0 < b.2) l.
Proof.
  intros [_ _ _ Hs _]. apply Forall_forall. intros b Hb. destruct (spaced_lo _ _ _ _ Hs Hb). tauto.
Qed.

Section grow.
Context (room : Z → Z → bool).

(** The kernel can give the process [8 * max(n, 4096)] bytes more. *)
Definition asked (n : Z) : Z := Z.max n 4096.
Definition can_grow (n : Z) (s : uproc) : Prop :=
  u_sz s + 8 * asked n < KERNBASE ∧ room (u_sz s) (u_sz s + 8 * asked n) = true.

Lemma sys_sbrk_grows n s :
  0 < u_sz s → 0 < n → u_sz s + n < KERNBASE → room (u_sz s) (u_sz s + n) = true →
  sys_sbrk room n s = Ok (u_sz s) (set_sz (u_sz s + n) s).
Proof.
  intros Hs Hn Hk Hr. unfold sys_sbrk, growproc, grow_my_process, uvm_alloc, mbind, K_bind, gets, modify, mret, K_ret.
  destruct (Z.ltb_spec 0 n); [|lia]. destruct (Z.leb_spec KERNBASE (u_sz s + n)); [lia|].
  destruct (Z.ltb_spec (u_sz s + n) (u_sz s)); [lia|]. rewrite Hr.
  destruct (Z.eqb_spec (u_sz s + n) 0); [lia|]. done.
Qed.

Lemma list_ok_grow l s m n :
  list_ok l s → 0 ≤ n → u_sz s + n < KERNBASE → (∀ x, x < u_sz s → m x = u_mem s x) →
  list_ok l (UProc m (u_freep s) (u_sz s + n)).
Proof.
  intros Hok Hn Hk Hm. pose proof (list_ok_placed _ _ Hok) as Hpl. destruct Hok as [? Hsz Hseg Hsp Hf].
  constructor; simpl; try done; [lia| |eapply spaced_weaken; [..|exact Hsp]; lia].
  eapply (seg_frame _ _ ((base, 0) :: l)); [|exact Hseg]. intros b Hb. rewrite Forall_forall in Hpl.
  destruct (Hpl b Hb). by rewrite !Hm by lia.
Qed.

Lemma morecore_ok l s n :
  list_ok l s → 1 ≤ n → can_grow n s →
  wp (morecore room n) (λ r s', r = u_freep s' ∧ r ≠ 0 ∧ list_ok (put_block (u_sz s) (asked n) l) s' ∧
    u_sz s' = u_sz s + 8 * asked n ∧ untouched l s s') s.
Proof.
  intros Hok Hn [Hk Hr]. pose proof KERNBASE_half as HK. pose proof (lo_base _ _ Hok) as Hb.
  pose proof (lo_sz _ _ Hok) as Hsz. unfold morecore. fold (asked n).
  replace (if n <? 4096 then 4096 else n) with (asked n)
    by (unfold asked; destruct (Z.ltb_spec n 4096); lia).
  assert (Ha : 4096 ≤ asked n) by (unfold asked; lia). set (nu := asked n) in *. clearbody nu.
  rewrite (u32_small (nu * 8)), (s32_small (nu * 8)) by lia. eapply wp_step; [apply sys_sbrk_grows; try lia; by rewrite Z.mul_comm|].
  rewrite u32_small by lia. change (u32 (-1)) with (2 ^ 32 - 1). destruct (Z.eqb_spec (u_sz s) (2 ^ 32 - 1)); [lia|].
  eapply wp_step; [apply set_s_size_ok; simpl; lia|]. rewrite hadd_small by lia. rewrite (Z.mul_comm nu 8).
  set (s1 := set_word _ _ _). apply wp_bind.
  assert (Hok1 : list_ok l s1).
  { apply (list_ok_grow l s); try done; try lia. intros x Hx. by rewrite fn_lookup_insert_ne by lia. }
  replace (8 * 1) with 8 by lia. eapply wp_mono; [apply (free_ok l s1 (u_sz s) nu); simpl; try lia|].
  - done.
  - by rewrite fn_lookup_insert.
  - apply Forall_forall. intros b Hbl. destruct (spaced_lo _ _ _ _ (lo_spaced _ _ Hok) Hbl). right. simpl. lia.
  - intros _ s2 (Hok2 & Esz & Hun). apply wp_gets. split_and!; try done.
    + destruct (lo_freep _ _ Hok2) as (f & Hf & ->). pose proof (list_ok_placed _ _ Hok2) as Hpl.
      apply elem_of_cons in Hf as [->|Hf]; [simpl; lia|].
      destruct (spaced_lo _ _ _ _ (lo_spaced _ _ Hok2) Hf). lia.
    + intros x Hx Hlt. rewrite Hun; simpl; [by rewrite fn_lookup_insert_ne by lia| |lia].
      intros [?|[Hw|?]%Exists_cons]; [apply Hx; by left| |apply Hx; by right].
      unfold within in Hw. simpl in Hw. lia.
Qed.

(** Without room [morecore] does not come back: [sbrk] returns the old size
    though the process has not grown, and the store to it is a page fault. *)
Lemma morecore_faults s n :
  0 < u_sz s < KERNBASE → 1 ≤ n ≤ 2 ^ 29 → ¬ can_grow n s → ∃ f, morecore room n s = Fault f.
Proof.
  intros Hsz Hn Hg. pose proof KERNBASE_half as HK. unfold morecore.
  replace (if n <? 4096 then 4096 else n) with (asked n) by (unfold asked; destruct (Z.ltb_spec n 4096); lia).
  assert (Ha : 4096 ≤ asked n ≤ 2 ^ 29) by (unfold asked; lia). unfold can_grow in Hg. set (nu := asked n) in *. clearbody nu.
  assert (Hst : ∀ s' (k : unit → UK Z), u_sz s' < u_sz s + 8 → ∃ f, (set_s_size (u_sz s) nu ≫= k) s' = Fault f).
  { intros s' k Hs'. unfold set_s_size, store, mapped, mbind, K_bind. rewrite u32_small by lia.
    rewrite (proj2 (Z.leb_gt (u_sz s + 4 + 4) (u_sz s'))) by lia. rewrite andb_false_r. by eexists. }
  unfold sys_sbrk, growproc, grow_my_process, uvm_alloc, uvm_dealloc. cbv [mbind K_bind gets modify mret K_ret panic fail].
  cbv [mbind K_bind] in Hst.
  assert (Hcase : s32 (u32 (nu * 8)) = nu * 8 ∧ nu * 8 < 2 ^ 31 ∨ s32 (u32 (nu * 8)) ≤ 0).
  { rewrite s32_u32. destruct (decide (nu * 8 < 2 ^ 31)); [left; rewrite s32_small by lia; lia|right].
    unfold s32, u32. destruct (decide (nu = 2 ^ 29)) as [->|]; [vm_compute; congruence|].
    rewrite Z.mod_small by lia. destruct (Z.ltb_spec (nu * 8) (2 ^ 31)); lia. }
  set (z := s32 (u32 (nu * 8))) in *. clearbody z. change (u32 (-1)) with (2 ^ 32 - 1).
  assert (Hne : u32 (u_sz s) = u_sz s) by (apply u32_small; lia).
  destruct (Z.ltb_spec 0 z).
  - destruct Hcase as [[-> Hlt]|?]; [|lia]. replace (nu * 8) with (8 * nu) in * by lia.
    destruct (Z.leb_spec KERNBASE (u_sz s + 8 * nu)); simpl.
    + rewrite Hne. destruct (Z.eqb_spec (u_sz s) (2 ^ 32 - 1)); [lia|]. apply Hst. lia.
    + destruct (Z.ltb_spec (u_sz s + 8 * nu) (u_sz s)); [lia|].
      destruct (room _ _) eqn:Er; [exfalso; by apply Hg|]. by eexists.
  - destruct (Z.ltb_spec z 0).
    + destruct (Z.leb_spec (u_sz s) (u32 (u_sz s + z))); match goal with |- context [?x =? 0] => destruct (x =? 0) end; simpl; rewrite Hne;
        destruct (Z.eqb_spec (u_sz s) (2 ^ 32 - 1)); try lia; apply Hst; simpl; lia.
    + destruct (Z.eqb_spec (u_sz s) 0); [lia|]. simpl. rewrite Hne.
      destruct (Z.eqb_spec (u_sz s) (2 ^ 32 - 1)); [lia|]. apply Hst. simpl. lia.
Qed.

(** ** malloc on an initialised heap *)

Lemma length_put_block bp n l : (length (put_block bp n l) ≤ S (length l))%nat.
Proof.
  assert (Hm : ∀ l, (length (merge_next bp n l) ≤ S (length l))%nat)
    by (intros [|[q k] l']; simpl; [lia|]; destruct (bp + 8 * n =? q); simpl; lia).
  induction l as [|[a k] l IH]; simpl; [lia|]. destruct (bp <? a); [apply (Hm ((a, k) :: l))|].
  destruct (a + 8 * k =? bp); [|simpl; lia]. specialize (Hm l). destruct (merge_next bp n l) as [|[??] ?]; simpl in *; lia.
Qed.

Lemma circle_from l s : list_ok l s → ∃ A f B, (base, 0) :: l = A ++ f :: B ∧ u_freep s = f.1 ∧ u_mem s f.1 = hd_addr B base.
Proof.
  intros Hok. destruct (lo_freep _ _ Hok) as (f & Hf & Ef). apply list_elem_of_split in Hf as (A & B & E).
  exists A, f, B. split_and!; try done. pose proof (lo_seg _ _ Hok) as Hseg. rewrite E in Hseg.
  apply seg_app in Hseg as [_ Hseg]. destruct f as [a k]. by destruct Hseg.
Qed.

Definition fits (n : Z) (l : list block) : Prop := Exists (λ b, n ≤ b.2) l.

(** The list the block is taken from, and the size of the process then. *)
Definition grown (n : Z) (l l0 : list block) (s s' : uproc) : Prop :=
  l0 = l ∧ u_sz s' = u_sz s ∨
  l0 = put_block (u_sz s) (asked n) l ∧ u_sz s' = u_sz s + 8 * asked n.

Lemma malloc_loop_ok l s n fuel :
  list_ok l s → 1 ≤ n → fits n l ∨ can_grow n s → (2 * length l + 4 ≤ fuel)%nat →
  wp (malloc_loop room fuel n (u_freep s) (u_mem s (u_freep s)))
    (λ r s', ∃ l0 l', grown n l l0 s s' ∧ taken l0 n r l' s' ∧ untouched l s s') s.
Proof.
  intros Hok Hn Hroom Hfuel. destruct (circle_from _ _ Hok) as (A & f & B & E & Ef & Eb). rewrite Ef, Eb.
  replace fuel with (S (length l) + (fuel - S (length l)))%nat by lia.
  unfold wp. eapply (malloc_tour room n Hn l s Hok (λ o, match o with Ok _ _ => _ | Fault _ => False end)); try done.
  { intros l1 a k l2 -> Hk. eapply wp_mono; [by apply take_block_ok|]. intros r s' (Esz & Hun & Ht).
    eexists _, _. split_and!; [left|exact Ht|]; done. }
  intros Hsmall. destruct Hroom as [Hfit|Hg].
  { apply Exists_exists in Hfit as (b & Hb & Hnb). rewrite Forall_forall in Hsmall.
    specialize (Hsmall b Hb). simpl in *. lia. }
  apply wp_bind. eapply wp_mono; [by apply morecore_ok|].
  intros r s1 (-> & Hr & Hok1 & Esz1 & Hun1). rewrite (proj2 (Z.eqb_neq _ _) Hr).
  destruct (circle_from _ _ Hok1) as (A1 & f1 & B1 & E1 & Ef1 & Eb1).
  pose proof (list_ok_placed _ _ Hok1) as Hpl1. rewrite Forall_forall in Hpl1.
  destruct (Hpl1 f1) as [Hf1 Hf1']; [rewrite E1; set_solver|].
  rewrite Ef1. eapply wp_step; [apply s_ptr_ok; [done|]; pose proof (lo_sz _ _ Hok1); lia|]. rewrite Eb1.
  pose proof (length_put_block (u_sz s) (asked n) l) as Hlen.
  set (l0 := put_block (u_sz s) (asked n) l) in *.
  replace (fuel - S (length l))%nat with (S (length l0) + (fuel - S (length l) - S (length l0)))%nat by lia.
  assert (Hpos : Forall (λ b, 0 ≤ b.2) l)
    by (eapply Forall_impl; [by eapply list_ok_pos|]; simpl; lia).
  unfold wp. eapply (malloc_tour room n Hn l0 s1 Hok1 (λ o, match o with Ok _ _ => _ | Fault _ => False end)); try done.
  - intros l1 a k l2 El Hk. rewrite El in Hok1. eapply wp_mono; [by apply take_block_ok|].
    rewrite <- El. intros r s' (Esz & Hun & Ht). exists l0, (l1 ++ cut a k n l2).
    split_and!; [right; split; [done|congruence]|by rewrite El in Ht |-*|].
    intros x Hx Hlt. unfold asked in *. rewrite Hun; [by apply Hun1| |lia]. intros [?|Hw]; [apply Hx; by left|].
    apply put_block_within in Hw; [|unfold asked; lia|done].
    apply Exists_cons in Hw as [Hw|Hw]; [unfold within in Hw; simpl in Hw; lia|]. apply Hx. by right.
  - intros Hsm. pose proof (put_block_big (u_sz s) (asked n) l Hpos) as Hbig.
    apply Exists_exists in Hbig as (b & Hb & Hnb). rewrite Forall_forall in Hsm. specialize (Hsm b Hb).
    unfold asked in Hnb. simpl in *. lia.
Qed.

Lemma malloc_loop_faults l s n fuel :
  list_ok l s → 1 ≤ n ≤ 2 ^ 29 → ¬ fits n l → ¬ can_grow n s → (S (length l) ≤ fuel)%nat →
  ∃ f, malloc_loop room fuel n (u_freep s) (u_mem s (u_freep s)) s = Fault f.
Proof.
  intros Hok Hn Hfit Hg Hfuel. destruct (circle_from _ _ Hok) as (A & f & B & E & Ef & Eb). rewrite Ef, Eb.
  replace fuel with (S (length l) + (fuel - S (length l)))%nat by lia.
  apply (malloc_tour room n ltac:(lia) l s Hok (λ o, ∃ f, o = Fault f) ) with (A := A); try done.
  - intros l1 a k l2 El Hk. destruct Hfit. apply Exists_exists. exists (a, k). split; [rewrite El; set_solver|done].
  - intros _. pose proof (lo_sz _ _ Hok). pose proof (lo_base _ _ Hok).
    destruct (morecore_faults s n) as [g Eg]; [lia|done|done|]. exists g. unfold mbind, K_bind. by rewrite Eg.
Qed.

Lemma nunits_range nbytes : 1 ≤ nunits_of nbytes ≤ 2 ^ 29.
Proof.
  unfold nunits_of. pose proof (u32_range (nbytes + 8 - 1)).
  assert (0 ≤ u32 (nbytes + 8 - 1) / 8 < 2 ^ 29) by (split; [apply Z.div_pos; lia|apply Z.div_lt_upper_bound; lia]).
  rewrite u32_small by lia. lia.
Qed.

Lemma nunits_small nbytes : 0 ≤ nbytes ≤ 2 ^ 32 - 8 → nbytes ≤ 8 * (nunits_of nbytes - 1) < nbytes + 8.
Proof.
  intros H. unfold nunits_of. rewrite (u32_small (nbytes + 8 - 1)) by lia.
  pose proof (Z.div_mod (nbytes + 8 - 1) 8 ltac:(lia)). pose proof (Z.mod_pos_bound (nbytes + 8 - 1) 8 ltac:(lia)).
  rewrite u32_small by lia. lia.
Qed.

(** The heap of a process that has not called [malloc] yet. *)
Definition fresh (s : uproc) : Prop := u_freep s = 0 ∧ 0 < base ∧ base + 8 ≤ u_sz s < KERNBASE.

Definition first_use (s : uproc) : uproc := UProc (<[base + 4 := 0]> (<[base := base]> (u_mem s))) base (u_sz s).

Lemma list_ok_first_use s : fresh s → list_ok [] (first_use s).
Proof.
  intros (Hf & Hb & Hsz). constructor; simpl; try done.
  - rewrite fn_lookup_insert_ne, !fn_lookup_insert by lia. done.
  - exists (base, 0). split; [left|done].
Qed.

(** The heap as [malloc] finds it after its test of [freep]. *)
Definition opened (s : uproc) : uproc := if u_freep s =? 0 then first_use s else s.

Lemma malloc_opens nbytes s :
  fresh s ∨ (∃ l, list_ok l s) →
  malloc base room nbytes s =
    malloc_loop room (4 + 2 * fuel_of s) (nunits_of nbytes) (u_freep (opened s))
      (u_mem (opened s) (u_freep (opened s))) (opened s).
Proof.
  intros Hs. unfold malloc, opened. erewrite mbind_Ok by done. destruct (Z.eqb_spec (u_freep s) 0) as [E|E].
  - destruct Hs as [(_ & Hb & Hsz)|[l Hl]].
    2: { exfalso. destruct (lo_freep _ _ Hl) as (f & Hf & Ef). pose proof (lo_base _ _ Hl).
      apply elem_of_cons in Hf as [->|Hf]; [simpl in *; lia|].
      destruct (spaced_lo _ _ _ _ (lo_spaced _ _ Hl) Hf). lia. }
    assert (E1 : (set_s_ptr base base ;; modify (set_freep base) ;; set_s_size base 0 ;; mret base) s = Ok base (first_use s)).
    { erewrite mbind_Ok by (apply set_s_ptr_ok; lia). erewrite mbind_Ok by done.
      erewrite mbind_Ok by (apply set_s_size_ok; simpl; lia). done. }
    erewrite mbind_Ok by exact E1. erewrite mbind_Ok by (apply s_ptr_ok; simpl; lia). done.
  - destruct Hs as [[? _]|[l Hl]]; [done|]. erewrite mbind_Ok by done.
    destruct (lo_freep _ _ Hl) as (f & Hf & Ef). pose proof (list_ok_placed _ _ Hl) as Hpl.
    rewrite Forall_forall in Hpl. destruct (Hpl f Hf). pose proof (lo_sz _ _ Hl).
    erewrite mbind_Ok by (apply s_ptr_ok; lia). done.
Qed.

(** ** The heap and its users *)

(** Free blocks [l] and live blocks [al], each given by the address of its
    header and its size. *)
Record heap_ok (l : list block) (al : gmap Z Z) (s : uproc) : Prop := HeapOk {
  ho_list : list_ok l s ∨ fresh s ∧ l = [] ∧ al = ∅;
  ho_live : ∀ a n, al !! a = Some n →
    0 < n ∧ base + 8 ≤ a ∧ a + 8 * n ≤ u_sz s ∧ u_mem s (a + 4) = n ∧ Forall (apart (a, n)) l;
  ho_apart : ∀ a n b k, al !! a = Some n → al !! b = Some k → a ≠ b → apart (a, n) (b, k)
}.

(** What the live blocks hold, their sizes included, is the same. *)
Definition holds (al : gmap Z Z) (s s' : uproc) : Prop :=
  ∀ a n x, al !! a = Some n → a + 4 ≤ x < a + 8 * n → u_mem s' x = u_mem s x.

Lemma heap_ok_opens l al s : heap_ok l al s → list_ok l (opened s) ∧ u_sz (opened s) = u_sz s ∧
  (∀ x, ¬ spare l x → u_mem (opened s) x = u_mem s x).
Proof.
  intros [[Hl|(Hf & -> & ->)] _ _]; unfold opened.
  - destruct (Z.eqb_spec (u_freep s) 0) as [E|E]; [|done]. exfalso.
    destruct (lo_freep _ _ Hl) as (f & Hf & Ef). pose proof (lo_base _ _ Hl).
    apply elem_of_cons in Hf as [->|Hf]; [simpl in *; lia|].
    destruct (spaced_lo _ _ _ _ (lo_spaced _ _ Hl) Hf). lia.
  - pose proof Hf as (Ef & Hb & Hsz). rewrite Ef. simpl. split_and!; [by apply list_ok_first_use|done|].
    intros x Hx. rewrite !fn_lookup_insert_ne; [done|..]; intros <-; apply Hx; left; lia.
Qed.

Lemma live_not_spare l al s a n x :
  heap_ok l al s → al !! a = Some n → a ≤ x < a + 8 * n → ¬ spare l x ∧ x < u_sz s.
Proof.
  intros [_ Hlive _] Ha Hx. destruct (Hlive a n Ha) as (Hn & Hlo & Hhi & _ & Hap). split; [|lia].
  intros [?|Hw]; [lia|]. apply Exists_exists in Hw as (b & Hb & Hw). rewrite Forall_forall in Hap.
  specialize (Hap b Hb). unfold apart, within in *. simpl in *. lia.
Qed.

Lemma apart_sym x y : apart x y → apart y x.
Proof. unfold apart. lia. Qed.

(** The block [malloc] takes joins the live ones. *)
Lemma heap_ok_taken l l0 l' al s s' n r :
  heap_ok l al s → 1 ≤ n → grown n l l0 (opened s) s' → taken l0 n r l' s' → untouched l (opened s) s' →
  al !! (r - 8) = None ∧ heap_ok l' (<[r - 8 := n]> al) s' ∧ holds al s s'.
Proof.
  intros Hok Hn Hgr (Hok' & Hrs & Hlo & Hhi & Hapl & _ & Hap) Hun.
  destruct (heap_ok_opens _ _ _ Hok) as (Hlo0 & Esz & Hopen).
  assert (Hsz : u_sz s ≤ u_sz s') by (destruct Hgr as [[_ ?]|[_ ?]]; unfold asked in *; lia).
  assert (Hholds : holds al s s').
  { intros a k x Ha Hx. destruct (live_not_spare _ _ _ _ _ x Hok Ha) as [Hs Hlt]; [lia|].
    rewrite Hun by (rewrite ?Esz; done). by apply Hopen. }
  destruct Hok as [_ Hlive Hapart].
  assert (Hold : ∀ a k, al !! a = Some k → Forall (apart (a, k)) l' ∧ apart (a, k) (r - 8, n)).
  { intros a k Ha. destruct (Hlive a k Ha) as (Hk & Hal & Hah & _ & Hapa). apply Hap.
    destruct Hgr as [[-> _]|[-> _]]; [done|]. rewrite Esz.
    apply apart_put_block; [done|unfold asked; lia|by eapply list_ok_pos|].
    constructor; [left; simpl; lia|done]. }
  assert (Hnone : al !! (r - 8) = None).
  { destruct (al !! (r - 8)) as [k|] eqn:Ha; [exfalso|done]. destruct (Hold _ _ Ha) as [_ Hc].
    destruct (Hlive _ _ Ha) as (Hk & _). unfold apart in Hc. simpl in Hc. lia. }
  split_and!; [done| |done]. constructor; [by left|..].
  - intros a k [[<- <-]|[Hne Ha]]%lookup_insert_Some.
    + split_and!; try done; try lia. by replace (r - 8 + 4) with (r - 4) by lia.
    + destruct (Hlive a k Ha) as (Hk & Hal & Hah & Hm & _). split_and!; try lia.
      * rewrite (Hholds a k) by (done || lia). done.
      * by apply Hold.
  - intros a k b j [[<- <-]|[Hne Ha]]%lookup_insert_Some [[<- <-]|[Hne' Hb]]%lookup_insert_Some Hab;
      [done| |by apply Hold|by eapply Hapart]. apply apart_sym. by apply Hold.
Qed.
End grow.
End heap.

(** ** What the allocator guarantees *)

Section theorems.
Context (base : Z) (room : Z → Z → bool).

Lemma heap_fuel l al s : heap_ok base l al s → (2 * length l + 4 ≤ 4 + 2 * fuel_of s)%nat.
Proof.
  intros Hok. destruct (heap_ok_opens _ _ _ _ Hok) as (Hl & Esz & _).
  pose proof (length_circle _ _ _ Hl) as Hlen. unfold fuel_of in *. rewrite Esz in Hlen. lia.
Qed.

Lemma heap_opens l al s nbytes :
  heap_ok base l al s →
  malloc base room nbytes s = malloc_loop room (4 + 2 * fuel_of s) (nunits_of nbytes) (u_freep (opened base s))
    (u_mem (opened base s) (u_freep (opened base s))) (opened base s).
Proof. intros [Hl _ _]. apply malloc_opens. destruct Hl as [?|[? _]]; [right; by exists l|by left]. Qed.

Lemma units_grown n l l0 s s' : grown n l l0 s s' → 8 * units l0 = 8 * units l + (u_sz s' - u_sz s).
Proof. intros [[-> ->]|[-> ->]]; [lia|]. rewrite units_put_block. lia. Qed.

Lemma malloc_takes l al s nbytes :
  heap_ok base l al s → fits (nunits_of nbytes) l ∨ can_grow room (nunits_of nbytes) s →
  wp (malloc base room nbytes) (λ p s', ∃ l', al !! (p - 8) = None ∧
    heap_ok base l' (<[p - 8 := nunits_of nbytes]> al) s' ∧ p ≠ 0 ∧ u_mem s' (p - 4) = nunits_of nbytes ∧
    8 * (units l' + nunits_of nbytes) = 8 * units l + (u_sz s' - u_sz s) ∧ holds al s s') s.
Proof.
  intros Hok Hroom. unfold wp. rewrite (heap_opens l al) by done. pose proof (nunits_range nbytes) as Hn.
  destruct (heap_ok_opens _ _ _ _ Hok) as (Hl & Esz & _).
  assert (Hroom' : fits (nunits_of nbytes) l ∨ can_grow room (nunits_of nbytes) (opened base s))
    by (unfold can_grow in *; by rewrite Esz).
  pose proof (malloc_loop_ok base room l (opened base s) _ _ Hl (proj1 Hn) Hroom' (heap_fuel _ _ _ Hok)) as Hwp.
  unfold wp in Hwp. destruct (malloc_loop _ _ _ _ _ _) as [p s'|]; [|done].
  destruct Hwp as (l0 & l' & Hg & Ht & Hun). pose proof Ht as (_ & Hm & Hlo & _ & _ & Hu & _).
  destruct (heap_ok_taken _ _ _ _ _ _ _ _ _ Hok (proj1 Hn) Hg Ht Hun) as (Hnone & Hok' & Hh).
  exists l'. pose proof (units_grown _ _ _ _ _ Hg). pose proof (lo_base _ _ _ Hl). split_and!; try done; lia.
Qed.

Lemma malloc_stuck l al s nbytes :
  heap_ok base l al s → ¬ fits (nunits_of nbytes) l → ¬ can_grow room (nunits_of nbytes) s →
  ∃ f, malloc base room nbytes s = Fault f.
Proof.
  intros Hok Hfit Hg. rewrite (heap_opens l al) by done.
  destruct (heap_ok_opens _ _ _ _ Hok) as (Hl & Esz & _). pose proof (heap_fuel _ _ _ Hok).
  eapply malloc_loop_faults; [done|apply nunits_range|done| |lia]. unfold can_grow in *. by rewrite Esz.
Qed.

#[local] Instance fits_dec n l : Decision (fits n l).
Proof. apply _. Defined.
#[local] Instance can_grow_dec n s : Decision (can_grow room n s).
Proof. apply _. Defined.

(** Partial correctness without any condition on the room there is. *)
Lemma malloc_wlp l al s nbytes :
  heap_ok base l al s →
  wlp (malloc base room nbytes) (λ p s', ∃ l', heap_ok base l' (<[p - 8 := nunits_of nbytes]> al) s' ∧
    al !! (p - 8) = None ∧ p ≠ 0 ∧ u_mem s' (p - 4) = nunits_of nbytes ∧ holds al s s') s.
Proof.
  intros Hok. unfold wlp.
  destruct (decide (fits (nunits_of nbytes) l ∨ can_grow room (nunits_of nbytes) s)) as [Hr|Hr].
  - pose proof (malloc_takes l al s nbytes Hok Hr) as Hwp. unfold wp in Hwp.
    destruct (malloc _ _ _ _); [|done]. naive_solver.
  - destruct (malloc_stuck l al s nbytes Hok) as [f ->]; [tauto..|done].
Qed.

Lemma free_block_ok l al s p n :
  heap_ok base l al s → al !! (p - 8) = Some n →
  wp (free p) (λ _ s', heap_ok base (put_block (p - 8) n l) (delete (p - 8) al) s' ∧
    u_sz s' = u_sz s ∧ holds (delete (p - 8) al) s s') s.
Proof.
  intros Hok Hp. pose proof Hok as [Hl Hlive Hapart]. destruct (Hlive _ _ Hp) as (Hn & Hlo & Hhi & Hm & Hap).
  destruct Hl as [Hl|(_ & _ & ->)]; [|done].
  replace p with (p - 8 + 8) at 1 by lia. eapply wp_mono; [by apply (free_ok base)|].
  intros _ s' (Hl' & Esz & Hun).
  assert (Hh : holds (delete (p - 8) al) s s').
  { intros a k x [Hne Ha]%lookup_delete_Some Hx.
    destruct (live_not_spare _ _ _ _ _ _ x Hok Ha) as [Hs Hlt]; [lia|]. apply Hun; [|done].
    intros [?|[Hw|?]%Exists_cons]; [apply Hs; by left| |apply Hs; by right].
    pose proof (Hapart _ _ _ _ Ha Hp ltac:(done)) as Hc. unfold apart, within in *. simpl in *. lia. }
  split_and!; [|done..]. constructor; [by left|..].
  - intros a k [Hne Ha]%lookup_delete_Some. destruct (Hlive _ _ Ha) as (Hk & Hal & Hah & Hma & Hapa).
    rewrite Esz. split_and!; try done.
    + rewrite (Hh a k); [done| |lia]. by apply lookup_delete_Some.
    + apply apart_put_block; [done..|by eapply list_ok_pos|]. constructor; [|done]. by apply Hapart.
  - intros a k b j [_ Ha]%lookup_delete_Some [_ Hb]%lookup_delete_Some. by apply Hapart.
Qed.
End theorems.

(** A program that uses the allocator: it calls [malloc], frees blocks it
    holds, writes into blocks it holds and nowhere else, and may ask the
    kernel for memory of its own. *)
Inductive ustep (base : Z) (room : Z → Z → bool) : uproc * gmap Z Z → uproc * gmap Z Z → Prop :=
  | u_malloc s al nbytes p s' :
      malloc base room nbytes s = Ok p s' → ustep base room (s, al) (s', <[p - 8 := u_mem s' (p - 4)]> al)
  | u_free s al p s' :
      is_Some (al !! (p - 8)) → free p s = Ok tt s' → ustep base room (s, al) (s', delete (p - 8) al)
  | u_write s al a n m :
      al !! a = Some n → (∀ x, x ≤ a + 4 ∨ a + 8 * n ≤ x → m x = u_mem s x) →
      ustep base room (s, al) (UProc m (u_freep s) (u_sz s), al)
  | u_sbrk s al n r s' :
      0 ≤ n → sys_sbrk room n s = Ok r s' → ustep base room (s, al) (s', al).

Lemma sys_sbrk_cases room n s r s' :
  0 ≤ n → sys_sbrk room n s = Ok r s' →
  u_mem s' = u_mem s ∧ u_freep s' = u_freep s ∧
  (u_sz s' = u_sz s ∨ u_sz s' = u_sz s + n ∧ u_sz s + n < KERNBASE).
Proof.
  intros Hn. unfold sys_sbrk, growproc, grow_my_process, uvm_alloc, uvm_dealloc.
  cbv [mbind K_bind gets modify mret K_ret panic fail]. destruct (Z.ltb_spec n 0); [lia|].
  destruct (Z.ltb_spec 0 n); [destruct (Z.leb_spec KERNBASE (u_sz s + n));
    [|destruct (u_sz s + n <? u_sz s); [|destruct (room _ _); [|done]]]|];
    repeat case_match; intros ?; simplify_eq/=; auto.
Qed.

(** Memory that changes only inside of a live block. *)
Lemma heap_ok_write base l al s a n m :
  heap_ok base l al s → al !! a = Some n → (∀ x, x ≤ a + 4 ∨ a + 8 * n ≤ x → m x = u_mem s x) →
  heap_ok base l al (UProc m (u_freep s) (u_sz s)).
Proof.
  intros Hok Ha Hm. pose proof Hok as [Hl Hlive Hapart]. destruct Hl as [Hl|(_ & _ & ->)]; [|done].
  destruct (Hlive a n Ha) as (Hn & Hlo & Hhi & Hma & Hap). constructor; [left|..].
  - pose proof Hl as [? Hsz Hseg Hsp Hf]. constructor; try done.
    eapply seg_frame; [|exact Hseg]. intros b Hb. simpl.
    assert (b.1 + 8 ≤ a ∨ a + 8 * n ≤ b.1) as Hc; [|by rewrite !Hm by lia].
    apply elem_of_cons in Hb as [->|Hb]; [simpl; lia|]. rewrite Forall_forall in Hap. specialize (Hap b Hb).
    destruct (spaced_lo _ _ _ _ Hsp Hb). unfold apart in Hap. simpl in Hap. lia.
  - intros b k Hb. destruct (Hlive b k Hb) as (Hk & Hbl & Hbh & Hmb & Hapb). split_and!; try done. simpl.
    rewrite <- Hmb. apply Hm. destruct (decide (b = a)) as [->|Hne]; [left; lia|].
    pose proof (Hapart _ _ _ _ Hb Ha Hne) as Hc. unfold apart in Hc. simpl in Hc. lia.
  - done.
Qed.

Lemma heap_ok_sbrk base room l al s n r s' :
  heap_ok base l al s → 0 ≤ n → sys_sbrk room n s = Ok r s' → heap_ok base l al s'.
Proof.
  intros [Hl Hlive Hapart] Hn Hs. destruct (sys_sbrk_cases _ _ _ _ _ Hn Hs) as (Em & Ef & Hsz).
  destruct s' as [m f z]; simpl in *; subst m f.
  assert (Hz : ∃ k, z = u_sz s + k ∧ 0 ≤ k ∧ (k = 0 ∨ u_sz s + k < KERNBASE))
    by (destruct Hsz as [->|[-> ?]]; [exists 0|exists n]; split_and!; lia).
  clear Hsz. destruct Hz as (k & -> & Hk & Hz). constructor.
  - destruct Hl as [Hl|[(Ef & Hb & Hsz) Hl]]; [left|right].
    + pose proof (lo_sz _ _ _ Hl). apply list_ok_grow; try done. lia.
    + split; [|done]. split_and!; simpl; try done; lia.
  - intros a j Ha. destruct (Hlive a j Ha) as (? & ? & ? & ? & ?). simpl. split_and!; try done; lia.
  - done.
Qed.

Lemma ustep_ok base room s al s' al' l :
  heap_ok base l al s → ustep base room (s, al) (s', al') → ∃ l', heap_ok base l' al' s'.
Proof.
  intros Hok Hst. inversion Hst; subst; simplify_eq/=.
  - match goal with E : malloc _ _ _ _ = _ |- _ => pose proof (wlp_Ok _ _ _ _ _ (malloc_wlp base room l al s nbytes Hok) E) as Hw end.
    destruct Hw as (l' & Hok' & _ & _ & -> & _). by exists l'.
  - match goal with H : is_Some _ |- _ => destruct H as [n Hn] end.
    pose proof (free_block_ok base l al s p n Hok Hn) as Hwp. unfold wp in Hwp.
    match goal with E : free p s = _ |- _ => rewrite E in Hwp end. destruct Hwp as (Hok' & _). by eexists.
  - exists l. by eapply heap_ok_write.
  - exists l. by eapply heap_ok_sbrk.
Qed.

Lemma usteps_ok base room x y :
  rtc (ustep base room) x y → (∃ l, heap_ok base l x.2 x.1) → ∃ l, heap_ok base l y.2 y.1.
Proof.
  induction 1 as [x|[s al] [s1 al1] y Hst _ IH]; [done|]. intros [l Hok]. apply IH. by eapply ustep_ok.
Qed.

(** On a heap with free blocks [l] and live blocks [al], [malloc(nbytes)]
    returns whenever a free block is large enough or the kernel can grow the
    process: a block that is none of the live ones and apart from them, of
    the least number of whole units that hold [nbytes], with nothing lost (the
    units of the free list and the new block are those there were and those
    the process grew by) and no word of a live block changed. *)
Theorem malloc_fresh base room l al s nbytes :
  heap_ok base l al s → 0 ≤ nbytes ≤ 2 ^ 32 - 8 →
  fits (nunits_of nbytes) l ∨ can_grow room (nunits_of nbytes) s →
  wp (malloc base room nbytes) (λ p s', ∃ l' n, al !! (p - 8) = None ∧ p ≠ 0 ∧
    heap_ok base l' (<[p - 8 := n]> al) s' ∧ nbytes ≤ 8 * (n - 1) < nbytes + 8 ∧
    8 * (units l' + n) = 8 * units l + (u_sz s' - u_sz s) ∧ holds al s s') s.
Proof.
  intros Hok Hnb Hroom. eapply wp_mono; [by apply (malloc_takes base room l al)|].
  intros p s' (l' & Hnone & Hok' & Hp & _ & Hu & Hh). exists l', (nunits_of nbytes).
  split_and!; try done; apply nunits_small; lia.
Qed.

(** [free(p)] of a live block returns; the block is no longer live, the
    free list is the old one with the block put in its place by address and
    joined to the free neighbours it touches, so that no two free blocks are
    ever adjacent, no unit is lost, and no word of another live block changes. *)
Theorem free_merges base l al s p n :
  heap_ok base l al s → al !! (p - 8) = Some n →
  wp (free p) (λ _ s', heap_ok base (put_block (p - 8) n l) (delete (p - 8) al) s' ∧
    units (put_block (p - 8) n l) = n + units l ∧ u_sz s' = u_sz s ∧ holds (delete (p - 8) al) s s') s.
Proof.
  intros Hok Hp. eapply wp_mono; [by apply free_block_ok|]. intros _ s' (Hok' & Esz & Hh).
  split_and!; try done. apply units_put_block.
Qed.



(** A request that wraps around is served with a block of no bytes. *)
Example malloc_wraps : nunits_of (2 ^ 32 - 1) = 1.
Proof. done. Qed.

(** ** A process of four pages *)

Definition demo_base : Z := 0x800.
Definition demo_room (a b : Z) : bool := b <? 0x100000.
Definition demo : uproc := UProc (λ _, 0) 0 0x4000.

Definition demo_next (m : UK Z) (s : uproc) : uproc := match m s with Ok _ s' => s' | Fault _ => s end.
Definition demo_val (m : UK Z) (s : uproc) : Z := match m s with Ok v _ => v | Fault _ => 0 end.
Definition demo_ok {A} (o : outcome uproc A) : bool := match o with Ok _ _ => true | Fault _ => false end.

Lemma demo_run (m : UK Z) s : demo_ok (m s) = true → m s = Ok (demo_val m s) (demo_next m s).
Proof. unfold demo_val, demo_next. by destruct (m s). Qed.

Lemma demo_fresh : fresh demo_base demo.
Proof. done. Qed.

Lemma demo_heap : heap_ok demo_base [] ∅ demo.
Proof. constructor; [by right|by intros ???|by intros ?????]. Qed.

(** The process after [malloc(100)]: the block is the end of the new memory. *)
Definition demo_m : UK Z := malloc demo_base demo_room 100.
Definition demo1 : uproc := demo_next demo_m demo.

Lemma demo_m_val : demo_val demo_m demo = 0xBF98.
Proof. vm_compute. reflexivity. Qed.

Lemma demo_m_ok : demo_m demo = Ok 0xBF98 demo1.
Proof. rewrite <- demo_m_val. apply demo_run. vm_compute. reflexivity. Qed.

Lemma demo_heap1 : ∃ l, heap_ok demo_base l {[0xBF90 := 14]} demo1.
Proof.
  destruct (wlp_Ok _ _ _ _ _ (malloc_wlp demo_base demo_room [] ∅ demo 100 demo_heap) demo_m_ok) as (l & Hok & _).
  by exists l.
Qed.

Lemma demo_size : u_mem demo1 (0xBF98 - 4) = 14.
Proof. vm_compute. reflexivity. Qed.

Lemma malloc_fresh_witness :
  wp (malloc demo_base demo_room 100) (λ p s', ∃ l' n, (∅ : gmap Z Z) !! (p - 8) = None ∧ p ≠ 0 ∧
    heap_ok demo_base l' (<[p - 8 := n]> ∅) s' ∧ 100 ≤ 8 * (n - 1) < 100 + 8 ∧
    8 * (units l' + n) = 8 * units [] + (u_sz s' - u_sz demo) ∧ holds ∅ demo s') demo.
Proof.
  apply (malloc_fresh demo_base demo_room [] ∅ demo 100); [exact demo_heap|lia|right].
  split; vm_compute; reflexivity.
Defined.

Lemma free_merges_witness :
  ∃ l, heap_ok demo_base l {[0xBF90 := 14]} demo1 ∧
  wp (free 0xBF98) (λ _ s', heap_ok demo_base (put_block (0xBF98 - 8) 14 l) (delete (0xBF98 - 8) {[0xBF90 := 14]}) s' ∧
    units (put_block (0xBF98 - 8) 14 l) = 14 + units l ∧ u_sz s' = u_sz demo1 ∧
    holds (delete (0xBF98 - 8) {[0xBF90 := 14]}) demo1 s') demo1.
Proof.
  destruct demo_heap1 as [l Hok]. exists l. split; [exact Hok|].
  apply (free_merges demo_base l {[0xBF90 := 14]} demo1 0xBF98 14); [exact Hok|reflexivity].
Defined.


