(* ===== verification/Usys.v ===== *)
(** * Usys: from a user program's call to the kernel's handler

    The stubs of xv6/usys.S with the numbers of syscall.h, and the table of
    kernel/src/syscall.rs. A program of [User] makes a call with its arguments
    as values; here they go through the process's memory: strings and buffers
    at addresses the compiler chose, the arguments as words on the stack, the
    number in %eax. [call_arguments] says that the handlers fetch what the
    program passed. *)

From S2P Require Import User.
From S2P Require Import Prelude State Bio Log Kalloc Fs Pipe File Exec Sysfile.

(** ** syscall.h *)

Definition SYS_fork : Z := 1.
Definition SYS_exit : Z := 2.
Definition SYS_wait : Z := 3.
Definition SYS_pipe : Z := 4.
Definition SYS_read : Z := 5.
Definition SYS_kill : Z := 6.
Definition SYS_exec : Z := 7.
Definition SYS_fstat : Z := 8.
Definition SYS_chdir : Z := 9.
Definition SYS_dup : Z := 10.
Definition SYS_getpid : Z := 11.
Definition SYS_sbrk : Z := 12.
Definition SYS_sleep : Z := 13.
Definition SYS_uptime : Z := 14.
Definition SYS_open : Z := 15.
Definition SYS_write : Z := 16.
Definition SYS_mknod : Z := 17.
Definition SYS_unlink : Z := 18.
Definition SYS_link : Z := 19.
Definition SYS_mkdir : Z := 20.
Definition SYS_close : Z := 21.

(** A string in the memory of a program, with the zeros after it that
    [fetchstr] looks for. *)
Definition padded (s : list Z) : list Z := s ++ replicate 8 0.

(** The arguments of a call, pushed before the stub is called: %esp points to
    the return address. *)
Definition put_args (ws : list Z) : FM unit :=
  p ← gets x_proc;
  store_bytes (u_esp p + 4) (ws ≫= le_enc 4).

Section usys.
Context {AV : ArrayVec}.
Context (kend : Z).
Context (devread : Z → option (nat → Z → KM (Z * list Z)))
        (devwrite : Z → option (nat → list Z → Z → KM Z)).
Context (stack : list Z).
Context (kvm : bool) (room : Z → Z → bool).
(** The handlers of sysproc.c *)
Context (sys_fork sys_exit sys_wait sys_kill sys_getpid sys_sbrk sys_sleep sys_uptime : FM Z).

Definition SYSCALLS : list (FM Z) :=
  [sys_fork; sys_exit; sys_wait; sys_pipe kend; sys_read devread; sys_kill; sys_exec devread stack kvm room;
   sys_fstat; sys_chdir devread stack; sys_dup; sys_getpid; sys_sbrk; sys_sleep; sys_uptime;
   sys_open kend devread devwrite stack; sys_write devwrite; sys_mknod devread devwrite stack;
   sys_unlink devread devwrite stack; sys_link devread devwrite stack; sys_mkdir devread devwrite stack; sys_close kend].

(** The addresses of a program's buffer and of its second string. *)
Context (a0 a1 : Z).

(** A stub: the number in %eax, [int $T_SYSCALL], and what comes back in %eax. *)
Definition stub (number : Z) (ws : list Z) : FM Z :=
  put_args ws ;;
  r ← Sysfile.syscall SYSCALLS number;
  mret (s32 r).

Definition plain (m : FM Z) : FM (Z * list Z) := r ← m; mret (r, []).

(** The strings of [argv] one after the other from [a] on, and the pointers to
    them. *)
Fixpoint put_strings (a : Z) (l : list (list Z)) : FM (list Z) :=
  match l with
  | [] => mret []
  | s :: l =>
      store_bytes a (padded s) ;;
      ps ← put_strings (a + Z.of_nat (length (padded s))) l;
      mret (a :: ps)
  end.

(** The call [c] of a program: the value returned and the bytes that the
    kernel stored at the pointer it was given. *)
Definition kcall (c : User.syscall) : FM (Z * list Z) :=
  match c with
  | SFork => plain (stub SYS_fork [])
  | SWait => plain (stub SYS_wait [])
  | SGetpid => plain (stub SYS_getpid [])
  | SUptime => plain (stub SYS_uptime [])
  | SPipe =>
      r ← stub SYS_pipe [a0];
      bs ← load_bytes a0 8;
      mret (r, if r =? 0 then bs else [])
  | SWrite fd bytes =>
      store_bytes a0 bytes ;;
      plain (stub SYS_write [fd; a0; Z.of_nat (length bytes)])
  | SRead fd n =>
      r ← stub SYS_read [fd; a0; n];
      bs ← load_bytes a0 (Z.max 0 r);
      mret (r, bs)
  | SClose fd => plain (stub SYS_close [fd])
  | SKill pid => plain (stub SYS_kill [pid])
  | SExec path argv =>
      store_bytes a0 (padded path) ;;
      ps ← put_strings a1 argv;
      let argv_at := a1 + Z.of_nat (length (argv ≫= padded)) in
      store_bytes argv_at ((ps ++ [0]) ≫= le_enc 4) ;;
      plain (stub SYS_exec [a0; argv_at])
  | SOpen path omode => store_bytes a0 (padded path) ;; plain (stub SYS_open [a0; omode])
  | SMknod path major minor => store_bytes a0 (padded path) ;; plain (stub SYS_mknod [a0; major; minor])
  | SUnlink path => store_bytes a0 (padded path) ;; plain (stub SYS_unlink [a0])
  | SFstat fd =>
      r ← stub SYS_fstat [fd; a0];
      bs ← load_bytes a0 STAT_SIZE;
      mret (r, if r <? 0 then [] else bs)
  | SLink old new =>
      store_bytes a0 (padded old) ;;
      store_bytes a1 (padded new) ;;
      plain (stub SYS_link [a0; a1])
  | SMkdir path => store_bytes a0 (padded path) ;; plain (stub SYS_mkdir [a0])
  | SChdir path => store_bytes a0 (padded path) ;; plain (stub SYS_chdir [a0])
  | SDup fd => plain (stub SYS_dup [fd])
  | SSbrk n => plain (stub SYS_sbrk [n])
  | SSleep n => plain (stub SYS_sleep [n])
  end.

(** The kernel as a program meets it; once it has stopped it stays so. *)
Definition kern (w : fstate + fault) (c : User.syscall) : (fstate + fault) * Z * list Z :=
  match w with
  | inl s => match kcall c s with Ok (r, bs) s => (inl s, r, bs) | Fault f => (inr f, -1, []) end
  | inr f => (inr f, -1, [])
  end.
End usys.

(** ** Arguments *)

(** The process is mapped up to its size, below the kernel. *)
Record mem_ok (p : uctx) : Prop := {
  mo_sz : u_sz p = Z.of_nat (length (u_mem p));
  mo_hi : u_sz p ≤ KERNBASE
}.

(** The string [str] at [a], with zeros after it. *)
Definition string_at (m : list Z) (a : Z) (str : list Z) : Prop :=
  0 ≤ a ∧ slice (Z.to_nat a) (length str + 8) m = padded str ∧ Forall (λ b, b ≠ 0) str.

Lemma get_u32_words m a ws k w :
  0 ≤ a → a + 4 * Z.of_nat (length ws) ≤ Z.of_nat (length m) → ws !! k = Some w →
  get_u32 (splice (Z.to_nat a) (ws ≫= le_enc 4) m) (Z.to_nat (a + 4 * Z.of_nat k)) = u32 w.
Proof.
  intros Ha Hend Hk. pose proof (lookup_lt_Some _ _ _ Hk) as Hlt. unfold get_u32.
  assert (slice (Z.to_nat (a + 4 * Z.of_nat k)) 4 (splice (Z.to_nat a) (ws ≫= le_enc 4) m) = le_enc 4 w) as ->.
  { rewrite <- (slice_words ws k w Hk). apply list_eq. intros j. rewrite !lookup_slice. case_decide; [|done].
    rewrite lookup_splice by (rewrite length_words; lia). rewrite length_words, decide_True by lia. f_equal. lia. }
  by rewrite le_dec_enc.
Qed.

Lemma string_at_length m a str : string_at m a str → a + Z.of_nat (length str) + 8 ≤ Z.of_nat (length m).
Proof.
  intros (Ha & E & _). apply (f_equal length) in E. unfold padded, slice in E.
  rewrite length_take, length_drop, length_app, length_replicate in E. lia.
Qed.

Lemma string_at_lookup m a str j :
  string_at m a str → (j < length str + 8)%nat → m !! (Z.to_nat a + j)%nat = padded str !! j.
Proof. intros (Ha & E & _) Hj. rewrite <- E, lookup_slice, decide_True by lia. done. Qed.

(** Behind the string there is a word that is zero. *)
Lemma string_at_zero m a str d :
  string_at m a str → (length str ≤ 4 * d)%nat → (4 * d ≤ length str + 3)%nat →
  get_u32 m (Z.to_nat (a + 4 * Z.of_nat d)) = 0.
Proof.
  intros Hs Hd Hd'. pose proof (string_at_length _ _ _ Hs) as Hlen. destruct (Hs) as (Ha & _). unfold get_u32.
  assert (slice (Z.to_nat (a + 4 * Z.of_nat d)) 4 m = replicate 4 0) as ->; [|done].
  apply list_eq. intros j. rewrite lookup_slice. case_decide as Hj.
  - replace (Z.to_nat (a + 4 * Z.of_nat d) + j)%nat with (Z.to_nat a + (4 * d + j))%nat by lia.
    rewrite (string_at_lookup _ _ _ _ Hs) by lia. unfold padded. rewrite lookup_app_r by lia.
    rewrite !lookup_replicate_2 by lia. done.
  - symmetry. apply lookup_ge_None_2. rewrite length_replicate. lia.
Qed.

Section fetch.
Context (s : fstate) (Hm : mem_ok (x_proc s)).

Lemma load_word_ok a : 0 ≤ a → a + 4 ≤ u_sz (x_proc s) → load_word a s = Ok (get_u32 (u_mem (x_proc s)) (Z.to_nat a)) s.
Proof.
  intros Ha Hb. unfold load_word, mbind, K_bind, gets. rewrite <- (mo_sz _ Hm).
  rewrite (proj2 (Z.leb_le 0 a)), (proj2 (Z.leb_le (a + 4) _)) by lia. done.
Qed.

Lemma strlen_words_ends str a fuel d :
  string_at (u_mem (x_proc s)) a str → (4 * d ≤ length str + 3)%nat → (length str + 4 ≤ fuel + 4 * d)%nat →
  ∃ n, strlen_words fuel (a + 4 * Z.of_nat d) s = Ok n s ∧ 0 ≤ n ∧ 4 * n ≤ Z.of_nat (length str) + 3 - 4 * Z.of_nat d.
Proof.
  intros Hs. pose proof (string_at_length _ _ _ Hs) as Hlen. rewrite <- (mo_sz _ Hm) in Hlen. destruct (Hs) as (Ha & _).
  revert d. induction fuel as [|fuel IH]; intros d Hd Hf; [lia|]. cbn [strlen_words].
  rewrite (mbind_Ok _ _ _ _ _ (load_word_ok (a + 4 * Z.of_nat d) ltac:(lia) ltac:(lia))).
  destruct (Z.eqb_spec (get_u32 (u_mem (x_proc s)) (Z.to_nat (a + 4 * Z.of_nat d))) 0) as [E|E].
  { exists 0. split; [done|lia]. }
  assert (4 * d < length str)%nat as Hlt.
  { destruct (decide (length str ≤ 4 * d)%nat); [|lia]. exfalso. apply E. by eapply string_at_zero. }
  destruct (IH (S d)) as (n & En & Hn); [lia|lia|]. exists (n + 1).
  replace (a + 4 * Z.of_nat d + 4) with (a + 4 * Z.of_nat (S d)) by lia. rewrite (mbind_Ok _ _ _ _ _ En). split; [done|lia].
Qed.

Lemma cstr_ok str a : string_at (u_mem (x_proc s)) a str → cstr a s = Ok str s.
Proof.
  intros (Ha & E & Hz). unfold cstr, mbind, K_bind, gets. set (r := drop (Z.to_nat a) (u_mem (x_proc s))).
  assert (r = str ++ 0 :: drop (S (length str)) r) as Er.
  { assert (take (S (length str)) r = str ++ [0]) as Et.
    { transitivity (take (S (length str)) (slice (Z.to_nat a) (length str + 8) (u_mem (x_proc s)))).
      - unfold slice. rewrite take_take. f_equal. lia.
      - rewrite E. unfold padded. rewrite take_app_ge by lia. by replace (S (length str) - length str)%nat with 1%nat by lia. }
    rewrite <- (take_drop (S (length str)) r) at 1. by rewrite Et, <- app_assoc. }
  assert (strlen r = length str) as El.
  { rewrite Er. generalize (drop (S (length str)) r). clear - Hz. intros t. induction Hz as [|b str Hb Hz IH]; [done|]. cbn [app strlen length].
    rewrite (proj2 (Z.eqb_neq b 0)) by done. f_equal. apply IH. }
  rewrite bool_decide_true by (rewrite Er; set_solver). rewrite El, Er. by rewrite take_app_length.
Qed.

Lemma fetchstr_ok str a : string_at (u_mem (x_proc s)) a str → ∃ n, fetchstr a s = Ok (Some n) s ∧ 0 ≤ n.
Proof.
  intros Hs. pose proof (string_at_length _ _ _ Hs) as Hlen. destruct (Hs) as (Ha & _).
  destruct (strlen_words_ends str a (S (length (u_mem (x_proc s)))) 0 Hs) as (n & En & Hn & Hn4); [lia|lia|].
  rewrite Z.mul_0_r, Z.add_0_r in En. exists n. split; [|done]. unfold fetchstr, mbind, K_bind, gets.
  rewrite (mo_sz _ Hm). rewrite (proj2 (Z.leb_gt _ _)) by lia. rewrite En. cbv iota. unfold mret, K_ret.
  rewrite s32_small; [done|]. pose proof (mo_hi _ Hm) as Hhi. rewrite (mo_sz _ Hm) in Hhi. unfold KERNBASE in Hhi. lia.
Qed.
End fetch.


(** open("ab", 5): the string is at 32. *)
Definition demo_open : fstate :=
  FState (KS ∅ [] true ∅ (Log 2 30 0 0 ROOTDEV (Logheader 0 (replicate 30 0))) (Superblock 0 0 0 0 0 0 0) [] [] 1) [] ∅ (Kmem false 1 0 ∅)
    (UCtx (replicate 32 0 ++ padded [97; 98] ++ replicate 22 0) 64 0 false (replicate 16 None) 0 [] 0 []).

