(* ===== verification/Usertests.v ===== *)
(** * Usertests: the test program of the file system (xv6/usertests.c)

    The tests of usertests.c that one process makes alone, as programs of
    [User], and what they report: run through the stubs of [Usys]
    on the kernel's own code ([Sysfile], [File], [Fs], [Log], [Bio]), booted
    from an image that [Mkfs] makes, each comes to its last line but one:
    unlinkread, on which the kernel stops. What the console receives is taken
    from the calls to write; [console_write] is consolewrite without its loop.

    The global [buf] is an argument of the tests that use it. The tests that
    fork, and those of the process's memory, are left out. *)

From Stdlib Require Import String Ascii.
From S2P Require Import Prelude State Bio Log LogOps Kalloc Fs Demo Mkfs MkfsImage Pipe File Exec Sysfile Usys.
From S2P Require Import User Grep Programs.

(** ** Idioms of the program *)

Definition CREATE_RDWR : Z := Z.lor O_CREATE O_RDWR.

(** [printf(1, msg); exit();] *)
Definition die {A} (msg : list Z) : prog A := _ ← printf 1 msg []; Exit.

(** [if(c ... ) { printf(1, msg); exit(); }], for a test of the value returned *)
Definition stop_if (bad : Z → bool) (c : User.syscall) (msg : list Z) : prog unit :=
  r ← call c; if bad r then die msg else Ret tt.
Definition lt0 (r : Z) : bool := r <? 0.
Definition ge0 (r : Z) : bool := 0 <=? r.
Definition eq0 (r : Z) : bool := r =? 0.
Definition ne0 (r : Z) : bool := negb (r =? 0).

(** [fd = open(path, omode); if(fd < 0) { printf(1, msg); exit(); }] *)
Definition must_open (path : list Z) (omode : Z) (msg : list Z) : prog Z :=
  fd ← open path omode; if fd <? 0 then die msg else Ret fd.

Fixpoint for_in (l : list Z) (body : Z → prog unit) : prog unit :=
  match l with [] => Ret tt | i :: l => _ ← body i; for_in l body end.

(** [read(fd, buf, n)] *)
Definition read_buf (fd n : Z) (buf : list Z) : prog (Z * list Z) :=
  r ← User.read fd n; Ret (r.1, splice 0 r.2 buf).

(** [close] and other calls whose value is not used *)
Definition do (c : User.syscall) : prog unit := Call c (λ _ _, Ret tt).

(** ** The tests *)

(** does chdir() call iput(p->cwd) in a transaction? *)
Definition iputtest : prog unit :=
  _ ← printf 1 (line "iput test") [];
  _ ← stop_if lt0 (SMkdir (str "iputdir")) (line "mkdir failed");
  _ ← stop_if lt0 (SChdir (str "iputdir")) (line "chdir iputdir failed");
  _ ← stop_if lt0 (SUnlink (str "../iputdir")) (line "unlink ../iputdir failed");
  _ ← stop_if lt0 (SChdir (str "/")) (line "chdir / failed");
  printf 1 (line "iput test ok") [].

Definition opentest : prog unit :=
  _ ← printf 1 (line "open test") [];
  fd ← must_open (str "echo") 0 (line "open echo failed!");
  _ ← do (SClose fd);
  fd ← open (str "doesnotexist") 0;
  if 0 <=? fd then die (line "open doesnotexist succeeded!") else
  printf 1 (line "open test ok") [].

Definition writetest (buf : list Z) : prog unit :=
  _ ← printf 1 (line "small file test") [];
  fd ← open (str "small") CREATE_RDWR;
  _ ← (if 0 <=? fd then printf 1 (line "creat small succeeded; ok") []
       else die (line "error: creat small failed!"));
  _ ← for_in (seqZ 0 100) (λ i,
        r ← write fd (str "aaaaaaaaaa");
        _ ← (if negb (r =? 10) then _ ← printf 1 (line "error: write aa %d new file failed") [PInt i]; Exit else Ret tt);
        r ← write fd (str "bbbbbbbbbb");
        if negb (r =? 10) then _ ← printf 1 (line "error: write bb %d new file failed") [PInt i]; Exit else Ret tt);
  _ ← printf 1 (line "writes ok") [];
  _ ← do (SClose fd);
  fd ← open (str "small") O_RDONLY;
  _ ← (if 0 <=? fd then printf 1 (line "open small succeeded ok") []
       else die (line "error: open small failed!"));
  r ← read_buf fd 2000 buf;
  _ ← (if r.1 =? 2000 then printf 1 (line "read succeeded ok") [] else die (line "read failed"));
  _ ← do (SClose fd);
  _ ← stop_if lt0 (SUnlink (str "small")) (line "unlink small failed");
  printf 1 (line "small file test ok") [].

(** [((int* )buf)[0]] *)
Definition int0 (buf : list Z) : Z := s32 (get_u32 buf 0).

(** The loop that reads the file back, [n] blocks so far. *)
Fixpoint writetest1_read (fuel : nat) (fd n : Z) (buf : list Z) : prog unit :=
  match fuel with
  | O => Stuck
  | S fuel =>
      r ← read_buf fd 512 buf;
      let '(i, buf) := r in
      if i =? 0 then
        if n =? MAXFILE - 1 then _ ← printf 1 (str "read only %d blocks from big") [PInt n]; Exit else Ret tt
      else if negb (i =? 512) then _ ← printf 1 (line "read failed %d") [PInt i]; Exit
      else if negb (int0 buf =? n) then
        _ ← printf 1 (line "read content of block %d is %d") [PInt n; PInt (int0 buf)]; Exit
      else writetest1_read fuel fd (n + 1) buf
  end.

Definition writetest1 (buf : list Z) : prog unit :=
  _ ← printf 1 (line "big files test") [];
  fd ← must_open (str "big") CREATE_RDWR (line "error: creat big failed!");
  _ ← for_in (seqZ 0 MAXFILE) (λ i,
        r ← write fd (take 512 (put_u32 0 i buf));
        if negb (r =? 512) then _ ← printf 1 (line "error: write big file failed") [PInt i]; Exit else Ret tt);
  _ ← do (SClose fd);
  fd ← must_open (str "big") O_RDONLY (line "error: open big failed!");
  _ ← writetest1_read (Z.to_nat (MAXFILE + 2)) fd 0 (put_u32 0 (MAXFILE - 1) buf);
  _ ← do (SClose fd);
  _ ← stop_if lt0 (SUnlink (str "big")) (line "unlink big failed");
  printf 1 (line "big files ok") [].

Definition createtest : prog unit :=
  _ ← printf 1 (line "many creates, followed by unlink test") [];
  _ ← for_in (seqZ 0 52) (λ i, fd ← open [97; 48 + i] CREATE_RDWR; do (SClose fd));
  _ ← for_in (seqZ 0 52) (λ i, do (SUnlink [97; 48 + i]));
  printf 1 (line "many creates, followed by unlink; ok") [].

Definition dirtest : prog unit :=
  _ ← printf 1 (line "mkdir test") [];
  _ ← stop_if lt0 (SMkdir (str "dir0")) (line "mkdir failed");
  _ ← stop_if lt0 (SChdir (str "dir0")) (line "chdir dir0 failed");
  _ ← stop_if lt0 (SChdir (str "..")) (line "chdir .. failed");
  _ ← stop_if lt0 (SUnlink (str "dir0")) (line "unlink dir0 failed");
  printf 1 (line "mkdir test ok") [].

(** can I unlink a file and still read it? *)
Definition unlinkread (buf : list Z) : prog unit :=
  _ ← printf 1 (line "unlinkread test") [];
  fd ← must_open (str "unlinkread") CREATE_RDWR (line "create unlinkread failed");
  _ ← do (SWrite fd (str "hello"));
  _ ← do (SClose fd);
  fd ← must_open (str "unlinkread") O_RDWR (line "open unlinkread failed");
  _ ← stop_if ne0 (SUnlink (str "unlinkread")) (line "unlink unlinkread failed");
  fd1 ← open (str "unlinkread") CREATE_RDWR;
  _ ← do (SWrite fd1 (str "yyy"));
  _ ← do (SClose fd1);
  r ← read_buf fd 8192 buf;
  let '(n, buf) := r in
  if negb (n =? 5) then die (str "unlinkread read failed") else
  if negb (at_ buf 0 =? 104) then die (line "unlinkread wrong data") else
  r ← write fd (take 10 buf);
  if negb (r =? 10) then die (line "unlinkread write failed") else
  _ ← do (SClose fd);
  _ ← do (SUnlink (str "unlinkread"));
  printf 1 (line "unlinkread ok") [].

Definition linktest (buf : list Z) : prog unit :=
  _ ← printf 1 (line "linktest") [];
  _ ← do (SUnlink (str "lf1"));
  _ ← do (SUnlink (str "lf2"));
  fd ← must_open (str "lf1") CREATE_RDWR (line "create lf1 failed");
  r ← write fd (str "hello");
  if negb (r =? 5) then die (line "write lf1 failed") else
  _ ← do (SClose fd);
  _ ← stop_if lt0 (SLink (str "lf1") (str "lf2")) (line "link lf1 lf2 failed");
  _ ← do (SUnlink (str "lf1"));
  _ ← stop_if ge0 (SOpen (str "lf1") 0) (line "unlinked lf1 but it is still there!");
  fd ← must_open (str "lf2") 0 (line "open lf2 failed");
  r ← read_buf fd 8192 buf;
  if negb (r.1 =? 5) then die (line "read lf2 failed") else
  _ ← do (SClose fd);
  _ ← stop_if ge0 (SLink (str "lf2") (str "lf2")) (line "link lf2 lf2 succeeded! oops");
  _ ← do (SUnlink (str "lf2"));
  _ ← stop_if ge0 (SLink (str "lf2") (str "lf1")) (line "link non-existant succeeded! oops");
  _ ← stop_if ge0 (SLink (str ".") (str "lf1")) (line "link . lf1 succeeded! oops");
  printf 1 (line "linktest ok") [].

Definition subdir (buf : list Z) : prog unit :=
  _ ← printf 1 (line "subdir test") [];
  _ ← do (SUnlink (str "ff"));
  _ ← stop_if ne0 (SMkdir (str "dd")) (line "subdir mkdir dd failed");
  fd ← must_open (str "dd/ff") CREATE_RDWR (line "create dd/ff failed");
  _ ← do (SWrite fd (str "ff"));
  _ ← do (SClose fd);
  _ ← stop_if ge0 (SUnlink (str "dd")) (line "unlink dd (non-empty dir) succeeded!");
  _ ← stop_if ne0 (SMkdir (str "/dd/dd")) (line "subdir mkdir dd/dd failed");
  fd ← must_open (str "dd/dd/ff") CREATE_RDWR (line "create dd/dd/ff failed");
  _ ← do (SWrite fd (str "FF"));
  _ ← do (SClose fd);
  fd ← must_open (str "dd/dd/../ff") 0 (line "open dd/dd/../ff failed");
  r ← read_buf fd 8192 buf;
  let '(cc, buf) := r in
  if negb (cc =? 2) || negb (at_ buf 0 =? 102) then die (line "dd/dd/../ff wrong content") else
  _ ← do (SClose fd);
  _ ← stop_if ne0 (SLink (str "dd/dd/ff") (str "dd/dd/ffff")) (line "link dd/dd/ff dd/dd/ffff failed");
  _ ← stop_if ne0 (SUnlink (str "dd/dd/ff")) (line "unlink dd/dd/ff failed");
  _ ← stop_if ge0 (SOpen (str "dd/dd/ff") O_RDONLY) (line "open (unlinked) dd/dd/ff succeeded");
  _ ← stop_if ne0 (SChdir (str "dd")) (line "chdir dd failed");
  _ ← stop_if ne0 (SChdir (str "dd/../../dd")) (line "chdir dd/../../dd failed");
  _ ← stop_if ne0 (SChdir (str "dd/../../../dd")) (line "chdir dd/../../dd failed");
  _ ← stop_if ne0 (SChdir (str "./..")) (line "chdir ./.. failed");
  fd ← must_open (str "dd/dd/ffff") 0 (line "open dd/dd/ffff failed");
  r ← read_buf fd 8192 buf;
  if negb (r.1 =? 2) then die (line "read dd/dd/ffff wrong len") else
  _ ← do (SClose fd);
  _ ← stop_if ge0 (SOpen (str "dd/dd/ff") O_RDONLY) (line "open (unlinked) dd/dd/ff succeeded!");
  _ ← stop_if ge0 (SOpen (str "dd/ff/ff") CREATE_RDWR) (line "create dd/ff/ff succeeded!");
  _ ← stop_if ge0 (SOpen (str "dd/xx/ff") CREATE_RDWR) (line "create dd/xx/ff succeeded!");
  _ ← stop_if ge0 (SOpen (str "dd") O_CREATE) (line "create dd succeeded!");
  _ ← stop_if ge0 (SOpen (str "dd") O_RDWR) (line "open dd rdwr succeeded!");
  _ ← stop_if ge0 (SOpen (str "dd") O_WRONLY) (line "open dd wronly succeeded!");
  _ ← stop_if eq0 (SLink (str "dd/ff/ff") (str "dd/dd/xx")) (line "link dd/ff/ff dd/dd/xx succeeded!");
  _ ← stop_if eq0 (SLink (str "dd/xx/ff") (str "dd/dd/xx")) (line "link dd/xx/ff dd/dd/xx succeeded!");
  _ ← stop_if eq0 (SLink (str "dd/ff") (str "dd/dd/ffff")) (line "link dd/ff dd/dd/ffff succeeded!");
  _ ← stop_if eq0 (SMkdir (str "dd/ff/ff")) (line "mkdir dd/ff/ff succeeded!");
  _ ← stop_if eq0 (SMkdir (str "dd/xx/ff")) (line "mkdir dd/xx/ff succeeded!");
  _ ← stop_if eq0 (SMkdir (str "dd/dd/ffff")) (line "mkdir dd/dd/ffff succeeded!");
  _ ← stop_if eq0 (SUnlink (str "dd/xx/ff")) (line "unlink dd/xx/ff succeeded!");
  _ ← stop_if eq0 (SUnlink (str "dd/ff/ff")) (line "unlink dd/ff/ff succeeded!");
  _ ← stop_if eq0 (SChdir (str "dd/ff")) (line "chdir dd/ff succeeded!");
  _ ← stop_if eq0 (SChdir (str "dd/xx")) (line "chdir dd/xx succeeded!");
  _ ← stop_if ne0 (SUnlink (str "dd/dd/ffff")) (line "unlink dd/dd/ff failed");
  _ ← stop_if ne0 (SUnlink (str "dd/ff")) (line "unlink dd/ff failed");
  _ ← stop_if eq0 (SUnlink (str "dd")) (line "unlink non-empty dd succeeded!");
  _ ← stop_if lt0 (SUnlink (str "dd/dd")) (line "unlink dd/dd failed");
  _ ← stop_if lt0 (SUnlink (str "dd")) (line "unlink dd failed");
  printf 1 (line "subdir ok") [].

(** test writes that are larger than the log. *)
Definition bigwrite_sizes : list Z := filter (λ sz, sz < 12 * 512) ((λ k, 499 + 471 * k) <$> seqZ 0 20).
Definition bigwrite (buf : list Z) : prog unit :=
  _ ← printf 1 (line "bigwrite test") [];
  _ ← do (SUnlink (str "bigwrite"));
  _ ← for_in bigwrite_sizes (λ sz,
        fd ← must_open (str "bigwrite") CREATE_RDWR (line "cannot create bigwrite");
        _ ← for_in (seqZ 0 2) (λ _,
              cc ← write fd (take (Z.to_nat sz) buf);
              if negb (cc =? sz) then _ ← printf 1 (line "write(%d) ret %d") [PInt sz; PInt cc]; Exit else Ret tt);
        _ ← do (SClose fd);
        do (SUnlink (str "bigwrite")));
  printf 1 (line "bigwrite ok") [].

(** The loop that reads the file back; its value is [total]. *)
Fixpoint bigfile_read (fuel : nat) (fd i total : Z) (buf : list Z) : prog Z :=
  match fuel with
  | O => Stuck
  | S fuel =>
      r ← read_buf fd 300 buf;
      let '(cc, buf) := r in
      if cc <? 0 then die (line "read bigfile failed")
      else if cc =? 0 then Ret total
      else if negb (cc =? 300) then die (line "short read bigfile")
      else if negb (at_ buf 0 =? i / 2) || negb (at_ buf 299 =? i / 2) then die (line "read bigfile wrong data")
      else bigfile_read fuel fd (i + 1) (total + cc) buf
  end.

Definition bigfile (buf : list Z) : prog unit :=
  _ ← printf 1 (line "bigfile test") [];
  _ ← do (SUnlink (str "bigfile"));
  fd ← must_open (str "bigfile") CREATE_RDWR (str "cannot create bigfile");
  _ ← for_in (seqZ 0 20) (λ i,
        r ← write fd (take 600 (memset buf i 600));
        if negb (r =? 600) then die (line "write bigfile failed") else Ret tt);
  _ ← do (SClose fd);
  fd ← must_open (str "bigfile") 0 (line "cannot open bigfile");
  total ← bigfile_read 100 fd 0 0 (memset buf 19 600);
  _ ← do (SClose fd);
  if negb (total =? 20 * 600) then die (line "read bigfile wrong total") else
  _ ← do (SUnlink (str "bigfile"));
  printf 1 (line "bigfile test ok") [].

(** DIRSIZ is 14. *)
Definition fourteen : prog unit :=
  _ ← printf 1 (line "fourteen test") [];
  _ ← stop_if ne0 (SMkdir (str "12345678901234")) (line "mkdir 12345678901234 failed");
  _ ← stop_if ne0 (SMkdir (str "12345678901234/123456789012345")) (line "mkdir 12345678901234/123456789012345 failed");
  fd ← must_open (str "123456789012345/123456789012345/123456789012345") O_CREATE
         (line "create 123456789012345/123456789012345/123456789012345 failed");
  _ ← do (SClose fd);
  fd ← must_open (str "12345678901234/12345678901234/12345678901234") 0
         (line "open 12345678901234/12345678901234/12345678901234 failed");
  _ ← do (SClose fd);
  _ ← stop_if eq0 (SMkdir (str "12345678901234/12345678901234")) (line "mkdir 12345678901234/12345678901234 succeeded!");
  _ ← stop_if eq0 (SMkdir (str "123456789012345/12345678901234")) (line "mkdir 12345678901234/123456789012345 succeeded!");
  printf 1 (line "fourteen ok") [].

Definition rmdot : prog unit :=
  _ ← printf 1 (line "rmdot test") [];
  _ ← stop_if ne0 (SMkdir (str "dots")) (line "mkdir dots failed");
  _ ← stop_if ne0 (SChdir (str "dots")) (line "chdir dots failed");
  _ ← stop_if eq0 (SUnlink (str ".")) (line "rm . worked!");
  _ ← stop_if eq0 (SUnlink (str "..")) (line "rm .. worked!");
  _ ← stop_if ne0 (SChdir (str "/")) (line "chdir / failed");
  _ ← stop_if eq0 (SUnlink (str "dots/.")) (line "unlink dots/. worked!");
  _ ← stop_if eq0 (SUnlink (str "dots/..")) (line "unlink dots/.. worked!");
  _ ← stop_if ne0 (SUnlink (str "dots")) (line "unlink dots failed!");
  printf 1 (line "rmdot ok") [].

Definition dirfile : prog unit :=
  _ ← printf 1 (line "dir vs file") [];
  fd ← must_open (str "dirfile") O_CREATE (line "create dirfile failed");
  _ ← do (SClose fd);
  _ ← stop_if eq0 (SChdir (str "dirfile")) (line "chdir dirfile succeeded!");
  _ ← stop_if ge0 (SOpen (str "dirfile/xx") 0) (line "create dirfile/xx succeeded!");
  _ ← stop_if ge0 (SOpen (str "dirfile/xx") O_CREATE) (line "create dirfile/xx succeeded!");
  _ ← stop_if eq0 (SMkdir (str "dirfile/xx")) (line "mkdir dirfile/xx succeeded!");
  _ ← stop_if eq0 (SUnlink (str "dirfile/xx")) (line "unlink dirfile/xx succeeded!");
  _ ← stop_if eq0 (SLink (str "README") (str "dirfile/xx")) (line "link to dirfile/xx succeeded!");
  _ ← stop_if ne0 (SUnlink (str "dirfile")) (line "unlink dirfile failed!");
  _ ← stop_if ge0 (SOpen (str ".") O_RDWR) (line "open . for writing succeeded!");
  fd ← open (str ".") 0;
  r ← write fd (str "x");
  if 0 <? r then die (line "write . succeeded!") else
  _ ← do (SClose fd);
  printf 1 (line "dir vs file OK") [].

(** [fd = open(path, O_CREATE); if(fd >= 0) close(fd);] *)
Definition touch (path : list Z) : prog unit :=
  fd ← open path O_CREATE; if 0 <=? fd then do (SClose fd) else Ret tt.

(** test that iput() is called at the end of _namei(); the 50 is NINODE *)
Definition iref : prog unit :=
  _ ← printf 1 (line "empty file name") [];
  _ ← for_in (seqZ 0 (50 + 1)) (λ _,
        _ ← stop_if ne0 (SMkdir (str "irefd")) (line "mkdir irefd failed");
        _ ← stop_if ne0 (SChdir (str "irefd")) (line "chdir irefd failed");
        _ ← do (SMkdir []);
        _ ← do (SLink (str "README") []);
        _ ← touch [];
        _ ← touch (str "xx");
        do (SUnlink (str "xx")));
  _ ← do (SChdir (str "/"));
  printf 1 (line "empty file name OK") [].

(** ** Booting *)

#[local] Instance vec : ArrayVec :=
  Build_ArrayVec (λ f l, if decide (Z.of_nat (length l) < NFILE) then Some (l ++ [f]) else None) (λ i l, delete i l)
    (λ f l, eq_refl) (λ i l _, eq_refl).

(** [consolewrite] as the file system sees it. *)
Definition console_write (major : Z) : option (nat → list Z → Z → KM Z) :=
  if major =? 1 then Some (λ ip _ n, iunlock ip ;; ilock ip ;; mret n) else None.
Definition no_read (major : Z) : option (nat → Z → KM (Z * list Z)) := None.

Definition image_files : list hostfile :=
  [HostFile (str "README") (Some [line "xv6 is a re-implementation of Unix"]);
   HostFile (str "_echo") (Some [replicate 700 7])].

Definition image_of (o : outcome mkst unit) : list (list Z) := match o with Ok _ s => mk_img s | Fault _ => [] end.
Definition image : list (list Z) := image_of (mkfs_main 4 true image_files mk_start).

Definition image_disk : gmap bkey (list Z) :=
  list_to_map (imap (λ b data, ((ROOTDEV, Z.of_nat b), data)) image).

(** The globals before [main], and what [userinit] and [forkret] do to them:
    the directory of the first process, [iinit] and [initlog]. *)
Definition power_on : kst :=
  KS image_disk [] true ∅ (Log 0 0 0 0 0 (Logheader 0 (replicate 30 0))) (Superblock 0 0 0 0 0 0 0)
    (replicate 50 empty_inode) [] 1.
Definition stack0 : list Z := replicate 14 0.
Definition start_kernel : KM nat :=
  cwd ← namei no_read 0 (str "/") stack0;
  iinit ROOTDEV ;;
  initlog ROOTDEV ;;
  of_option (FPanic "no root") cwd.

(** The process has [sz] bytes, with the stack at 64, the buffer at 256 and
    second strings 128 bytes before the end. *)
Definition process (sz : nat) (o : outcome kst nat) : fstate + fault :=
  match o with
  | Ok cwd k => inl (FState k [] ∅ (Kmem false 0 0 ∅)
      (UCtx (replicate sz 0) (Z.of_nat sz) 64 false (replicate 16 None) cwd [] 0 []))
  | Fault f => inr f
  end.
Definition booted (sz : nat) : fstate + fault := process sz (start_kernel power_on).

Definition other : FM Z := panic "not a call of one process alone".
Definition kernel (sz : nat) : fstate + fault → User.syscall → (fstate + fault) * Z * list Z :=
  kern 0 no_read console_write stack0 false (λ _ _, false) other other other other other other other other
    256 (Z.of_nat sz - 128).

(** The kernel, and what has been written to descriptor 1, last first. *)
Definition kernel_out (sz : nat) (w : (fstate + fault) * list Z) (c : User.syscall) : ((fstate + fault) * list Z) * Z * list Z :=
  let '(s, r, bs) := kernel sz w.1 c in
  ((s, match c with SWrite fd b => if (fd =? 1) && (r =? Z.of_nat (length b)) then reverse b ++ w.2 else w.2 | _ => w.2 end), r, bs).

(** What init.c does before it starts a shell. *)
Definition open_console : prog unit :=
  fd ← open (str "console") O_RDWR;
  _ ← (if fd <? 0 then _ ← call (SMknod (str "console") 1 1); _ ← open (str "console") O_RDWR; Ret tt else Ret tt);
  _ ← call (SDup 0);
  _ ← call (SDup 0);
  Ret tt.

(** What a program puts out when it comes to its end, or why the kernel
    stopped. *)
Definition session (sz : nat) (p : prog unit) : option (list Z + fault) :=
  match User.run (kernel_out sz) (_ ← open_console; p) (booted sz, []) with
  | Returned _ (inl _, out) => Some (inl (reverse out))
  | Returned _ (inr f, _) => Some (inr f)
  | _ => None
  end.

(** ** The tests pass

    The sessions are evaluated. Those that allocate many blocks are left to
    the kernel's lazy evaluation, which does not build the list of the 4096
    bits of a bitmap block for every allocation. *)

Lemma session_is sz p out : bool_decide (session sz p = out) = true → session sz p = out.
Proof. apply bool_decide_eq_true. Qed.

Ltac by_vm := refine (session_is _ _ _ _); vm_cast_no_check (eq_refl true).
Ltac by_lazy := refine (session_is _ _ _ _); exact_no_check (eq_refl true).

(** [buf], as far as the tests use it. *)
Abbreviation zeros n := (replicate n 0) (only parsing).

Lemma pass_small :
  session 1024 (_ ← opentest; _ ← createtest; _ ← iputtest; _ ← rmdot; _ ← fourteen; _ ← dirtest; dirfile) =
  Some (inl ([
    "open test"; "open test ok";
    "many creates, followed by unlink test"; "many creates, followed by unlink; ok";
    "iput test"; "iput test ok"; "rmdot test"; "rmdot ok"; "fourteen test"; "fourteen ok";
    "mkdir test"; "mkdir test ok"; "dir vs file"; "dir vs file OK"]%string ≫= line)).
Proof. by_vm. Qed.

Lemma pass_write : session 2560 (writetest (zeros 2048)) =
  Some (inl (["small file test"; "creat small succeeded; ok"; "writes ok"; "open small succeeded ok";
    "read succeeded ok"; "small file test ok"]%string ≫= line)).
Proof. by_vm. Qed.

Lemma pass_names : session 8704 (_ ← subdir (zeros 8192); linktest (zeros 8192)) =
  Some (inl (["subdir test"; "subdir ok"; "linktest"; "linktest ok"]%string ≫= line)).
Proof. by_vm. Qed.

Lemma pass_big : session 1024 (_ ← writetest1 (zeros 512); _ ← bigfile (zeros 600); iref) =
  Some (inl (["big files test"; "big files ok"; "bigfile test"; "bigfile test ok";
    "empty file name"; "empty file name OK"]%string ≫= line)).
Proof. by_lazy. Qed.

Lemma pass_bigwrite : session 6656 (bigwrite (zeros 6144)) =
  Some (inl (["bigwrite test"; "bigwrite ok"]%string ≫= line)).
Proof. by_lazy. Qed.

Lemma stop_unlinkread : session 8704 (unlinkread (zeros 8192)) = Some (inr (FPanic "enter_scheduler: locks")).
Proof. by_vm. Qed.

